(* ===== verification/_CoqProject ===== *)
-Q . S2P
Prelude.v
Go.v
Duration.v
Json.v
Sha256.v
DeepCopy.v
GeneratedCopies.v
JsonEncode.v
Codec.v
Glob.v
Api.v
SpecJson.v
Graph.v
Webhook.v
Scaler.v
PeerForwarder.v
PipelineConfig.v
Merger.v
Resources.v
Clients.v
Discovery.v
Cluster.v
Scheme.v
Metrics.v
Flags.v
Reconciler.v
PipelineController.v
PipelineProofs.v
DefaultsController.v
DiscoveryController.v
Lifetimes.v
Rendering.v
Template.v
Instrumentation.v
DiscoveryProofs.v
RolloutProofs.v
DiscoveryRun.v
Operator.v
