(* ===== verification/Prelude.v ===== *)
(** * A verified model of the Data Prepper operator

    The repository is a Kubernetes operator, written in Go, for OpenSearch Data
    Prepper.  It serves three custom resources: a [DataPrepperPipeline] describes
    a graph of Data Prepper pipelines, [DataPrepperDefaults] holds settings that
    the pipelines of a namespace inherit, and a [DataPrepperSourceDiscovery]
    creates one pipeline per Kafka topic or S3 prefix.  An admission webhook
    checks pipelines; three reconcilers turn the resources into Kubernetes
    objects.  This library is a shallow embedding of that code: pure Go
    functions are Rocq functions, Go's [(T, error)] is [result T], and the
    reconcilers are computations in a state monad over a cluster.

    ** The files, and the code they model

    - [Prelude]: messages and errors, [result] and its loops, shared tactics and
      lemmas.  Errors and status messages stay symbolic (format and arguments),
      so theorems can say which error is returned.
    - [Go]: machine integers with wrap-around, byte strings and [strings],
      UTF-8, [strconv], [maps.Copy], [slices.Sort], untyped JSON values ([any]).
    - [Duration]: [time.ParseDuration], with its [float64] fractions.
    - [Json]: [json.Unmarshal] into dynamic values: the scanner with its errors,
      unquoting, numbers; the grammar of RFC 8259 and the proof that the scanner
      accepts exactly its documents.
    - [Sha256]: [crypto/sha256] on 32-bit words.
    - [DeepCopy]: Go values on a heap with sharing and the statement forms of the
      generated copying functions; [GeneratedCopies]: the functions of
      [api/v1alpha1/zz_generated.deepcopy.go], one definition each.
    - [JsonEncode], [Codec]: [json.Marshal] and [json.Unmarshal] on typed values:
      quoting, printing, and codecs for strings, integers, pointers, slices, maps
      and structs with their tags; [SpecJson]: the struct tags of the pipeline spec
      in [common_types.go] and [dataprepperpipeline_types.go], one codec per struct.
    - [Glob]: [filepath.Match] of the Go standard library.
    - [Api]: the types of [api/v1alpha1/*_types.go], field by field.  Pointers
      are [option], Go maps that may be nil where it matters are [option (gmap ..)].
    - [Graph]: [internal/validation/graph.go], the validation of the pipeline
      graph (distinct names, resolved references, colouring depth-first search).
    - [Webhook]: [api/v1alpha1/dataprepperpipeline_webhook.go], admission.
    - [Scaler]: [internal/scaler/scaler.go], with the [float64] division and
      ceiling of the source rounded as IEEE 754 prescribes.
    - [PeerForwarder]: [internal/peerforwarder/detector.go].
    - [PipelineConfig]: [internal/generator/pipeline_config.go], [dp_config.go]
      and the JSON helpers of [helpers.go]: the two configuration documents.
    - [Merger]: [internal/defaults/merger.go].
    - [Resources]: the rest of [internal/generator/]: Deployment, Services,
      autoscaler, disruption budget, service monitor, ports, labels, hashes and
      credential environment variables.
    - [Clients]: [internal/kafka/client.go] and [internal/s3/client.go] over the
      third-party clients.
    - [Discovery]: [internal/discovery/kafka.go] and [s3.go].
    - [Cluster]: the Kubernetes API as the reconcilers see it: the interface
      [Client], its laws [ClientLaws], the stronger [ReliableClient], and [Mem], an
      in-memory server that satisfies both.
    - [Scheme]: [api/v1alpha1/groupversion_info.go] and the [init] functions: the
      types the clients of the operator know.
    - [Metrics]: [internal/metrics/metrics.go], the registered collectors.
    - [Flags]: the flags of [cmd/main.go] and the options derived from them
      ([strings.SplitSeq], [strings.TrimSpace] included).
    - [Reconciler]: the monad of the reconcilers, [internal/controller/helpers.go]
      and a calculus of footprints (which objects a computation may write).
    - [PipelineController]: [internal/controller/dataprepperpipeline_controller.go];
      [PipelineProofs]: its theorems.
    - [DefaultsController]: [internal/controller/dataprepperdefaults_controller.go]
      and its theorems.
    - [DiscoveryController]: [internal/controller/datapreppersourcediscovery_controller.go]
      with [internal/template/renderer.go]; [DiscoveryProofs], [RolloutProofs] and
      [DiscoveryRun]: its theorems, from the single steps to whole runs.
    - [Rendering]: what a rendered spec consists of, and the pipelines it shares
      with the overrides of the discovery.
    - [Template]: field actions of [text/template], and what rendering the JSON text
      of a template does to the spec.
    - [Lifetimes]: the functions that connect to Kafka or S3 once more, with the
      opening, use and closing of the client recorded.
    - [Instrumentation]: the events and metrics of the three reconcilers.
    - [Operator]: the [SetupWithManager] functions of the controllers, the set-up
      of the webhook and the start-up sequence of [cmd/main.go].

    Record fields carry a prefix of their type ([Spec_Image] is [Spec.Image] of a
    pipeline, [KSrc_Topic] is [KafkaSourceSpec.Topic]).  A function of the source
    keeps its name; a long function is cut into named parts that follow its
    numbered steps, as in [Reconcile] = [finalizePipeline], [ensureFinalizer],
    [reconcileLive] = [reconcileValid] = [applyScaling], [applyPeerForwarder],
    [generateConfigs], [reconcileChildren], [recordScaling], [recordManaged],
    [updateStatus].

    ** State and effects

    A reconciler of type [M W A] maps a state (a cluster [W] and the list of
    effects so far: events and updates of metrics) to a result and a state; it keeps what it
    wrote before an error, as Go does.  All reads and writes of the code go
    through the class [Client], in the order of the source, including the
    conflict retries around status and annotation updates, whose closures change
    the variable they capture.

    [ClientLaws] states what the code relies on: a successful [Get] returns what
    is stored; [Update], [Status().Update], [Delete] and [CreateOrUpdate] change
    only their object, keep the fields the server owns and store what was sent;
    [RetryOnConflict] repeats its body after conflicts only.  The laws describe
    one reconcile on a cluster that others do not write at the same time;
    conflicts and other failures may still be returned by every call.
    [ReliableClient] adds that calls do not fail without a reason; only the
    theorems about progress assume it.

    ** Parameters

    Code outside the repository is a parameter of the definitions that use it:
    the YAML encoder ([Marshal]), the JSON form of the Kubernetes types embedded in
    a spec ([Externals] with [ExternalLaws]), the clock, franz-go ([NewClient], [Kafka.Kadm] with [KadmLaws]), the AWS SDK
    ([LoadDefaultConfig], [NewFromConfig], the paginator), the manager of
    controller-runtime ([answer] in [Operator], [FieldIndex] for its index),
    [slices.SortFunc] on ties ([SortByName]), the order of [range] over maps
    ([MapOrder], where it shows), and the value of Go's conversion of an infinite
    [float64] to [int32], which the language leaves open.  Of [text/template]
    ([Parse], [Execute]) only the actions that print a field of the context are
    modelled; [TemplateLaws] says that an engine behaves so on them.  The theorems
    about the discovery reconciler hold for any encoder and decoder of specs
    ([MarshalSpec] and [UnmarshalSpec] are arguments there); [Operator] and
    [Template] put in those of [SpecJson].

    ** What the theorems show

    - Deep copies: the copy of an object of any API type reads like the original
      and shares no memory with it.
    - Validation: [ValidateGraph] accepts exactly the valid graphs and its errors
      are truthful; the webhook admits exactly the admissible pipelines; the
      metrics count its verdicts.
    - Defaults: precedence and idempotence of the merge; a change of the defaults
      reaches every pipeline of the namespace, and then nothing more is written.
    - Scaling: the floating-point ceiling is exact; the Kafka plan covers every
      partition within the bounds; the status reports it.
    - Configuration: raw JSON is decoded as RFC 8259 defines it; generation
      succeeds on admitted pipelines, has one entry per
      definition, is closed under references and independent of secret names;
      the layers of [data-prepper-config.yaml].
    - Objects: ports, selectors, environment, configuration hash, disruption
      budget, with the exact conditions under which user input breaks them.
    - Discovery: Kafka and S3 discovery return exactly the matching sources, in a
      deterministic order.
    - Pipeline reconciler: which objects it may write; the cluster state
      (every child, the ServiceMonitor included) and the status after a successful
      reconcile, with the replica counts of the Deployment; invalid graphs are reported and change
      nothing else; deletion releases the finalizer; an admitted pipeline is
      reconciled without error on a reliable server.
    - Discovery reconciler: valid child names, poll intervals read back, what one
      cycle of the staged rollout does, the cleanup of children when their source
      or the discovery goes away; and for whole runs: which objects they may
      write, the report and the retries while the source cannot be reached, the
      report of a successful poll, and convergence over many polls interleaved with
      other controllers, for discoveries with and without a credentials secret.
    - Rendering: a child is the template with the matching overrides laid over it
      and the Kafka settings of the discovery filled in; the specs of one cycle
      share pipelines with the overrides, and no reader can tell.
    - JSON and templates: a spec is read back as it was written, up to the form of
      the raw documents in it, so its hash identifies it; rendering replaces the
      actions inside the strings of a template and touches nothing else, when the
      values need no escaping; examples show what quotes in a name and missing
      metadata do.
    - Connections: no client outlives the function that opened it.
    - Instrumentation: every reconcile reports its duration and outcome once, and
      updates registered collectors with the right labels only.
    - Operator: the start-up is all or nothing; the watched namespaces are the
      listed ones; the controllers watch what they write; a change of a secret
      triggers exactly the pipelines whose own spec names it as the credentials of
      a source or sink; the servers are hardened.

    ** Termination, fuel and bounds

    The depth-first search of [Graph] and the matcher of [Glob] recurse on fuel.
    The fuel of the search is the number of pipelines, and
    [ValidateGraph_ok_iff] is about the total function: the error for exhausted
    fuel is unreachable, because every call paints a fresh name grey.  The fuel of
    the matcher is derived from the lengths of pattern and name, and lemmas
    [matchChunk_fuel], [checkRest_fuel], [match_go_fuel] show that more fuel does
    not change the result.  The loop of [ParseDuration] runs on the number of bytes,
    which [components_fuel] shows to be enough; the scanner of [Json] on two calls
    per byte, which [checkValid_fuel] and [checkValid_exact] show to be enough; [strip] drops at least a byte per
    step.  Documents may be nested 10000 deep; the round trip of specs leaves 9000
    levels to raw documents ([ext_depth]) and needs seven for the structs around
    them.  All other recursion is structural; S3 listing recurses
    on the depth, which is a parameter of the spec.  Integers are [Z] with the
    conversions to [int32] and [int64] written out where the source has them.

    ** What is not modelled

    - The parsing of the command line: a [Flags] value is its result.
    - Actions of [text/template] other than printing a field.
    - White space between the tokens of a raw document that is read from a rendered
      template is dropped; a slice field that occurs three times in one object is
      decoded without the stale elements Go finds beyond its length; an empty slice
      is not told from a nil one (the required slices of a spec are never empty).
    - The test harness under [test/].
    - Log output, the observed durations, and concurrent writers during one
      reconcile (between reconciles, others may write: [polls] of [DiscoveryRun]).
    - Kubernetes types carry only the fields the operator writes or reads.

    ** Plan

    Still open: further actions of [text/template]. *)

From stdpp Require Export base tactics option list gmap strings sorting numbers pretty.
From stdpp Require Export fin_maps fin_sets relations.

(** ** Symbolic Go messages and errors

    The Go code builds error values and status messages with [fmt.Errorf],
    [fmt.Sprintf] and string literals.  A message is kept as its format string
    and its arguments; [AErr] is an argument that is itself an error ([%w],
    [%v] of an error).  Two messages are equal exactly when the code built them
    from the same format with the same arguments. *)
Inductive message :=
| Msg (format : string) (args : list fmtarg)
with fmtarg :=
| AStr (s : string)
| AInt (z : Z)
| AErr (m : message).

(** A Go [error] is a message; [nil] is the absence of an error. *)
Abbreviation error := message.

(** ** Results: the [(T, error)] return convention *)
Inductive result (A : Type) :=
| Ok (a : A)
| Err (e : error).
Arguments Ok {A} a.
Arguments Err {A} e.

#[export] Instance result_ret : MRet result := fun _ a => Ok a.
#[export] Instance result_bind : MBind result := fun _ _ f r =>
  match r with Ok a => f a | Err e => Err e end.
#[export] Instance result_fmap : FMap result := fun _ _ f r =>
  match r with Ok a => Ok (f a) | Err e => Err e end.

(** [fmt.Errorf("<format>: %w", args..., err)]: wrap the error of a result. *)
Definition wrap_err {A} (format : string) (args : list fmtarg) (r : result A) : result A :=
  match r with
  | Ok a => Ok a
  | Err e => Err (Msg format (args ++ [AErr e]))
  end.

Definition is_ok {A} (r : result A) : bool :=
  match r with Ok _ => true | Err _ => false end.

(** A [for] loop over a slice that threads a state and may return early with
    an error. *)
Fixpoint fold_res {S A} (f : S -> A -> result S) (s : S) (l : list A) : result S :=
  match l with
  | [] => Ok s
  | a :: l => s' ← f s a; fold_res f s' l
  end.

(** A loop that maps a fallible function over a slice and stops at the first
    error. *)
Fixpoint map_res {A B} (f : A -> result B) (l : list A) : result (list B) :=
  match l with
  | [] => Ok []
  | a :: l => b ← f a; bs ← map_res f l; Ok (b :: bs)
  end.

(** A loop that only checks: it returns the first error. *)
Fixpoint check_all {A} (f : A -> result unit) (l : list A) : result unit :=
  match l with
  | [] => Ok tt
  | a :: l => _ ← f a; check_all f l
  end.

Section result_lemmas.
Context {S A B : Type}.

Lemma bind_Ok (r : result A) (f : A -> result B) b :
  (r ≫= f) = Ok b <-> exists a, r = Ok a /\ f a = Ok b.
Proof. destruct r; cbn; split; [eauto|by intros (? & [= <-] & ?)|done|by intros (? & ? & ?)]. Qed.

Lemma bind_Err (r : result A) (f : A -> result B) e :
  (r ≫= f) = Err e <-> r = Err e \/ exists a, r = Ok a /\ f a = Err e.
Proof.
  destruct r; cbn; split; [eauto|by intros [?|(? & [= <-] & ?)]|intros [= ->]; eauto|].
  by intros [[= ->]|(? & ? & ?)].
Qed.

Lemma wrap_err_Ok format args (r : result A) a :
  wrap_err format args r = Ok a <-> r = Ok a.
Proof. destruct r; cbn; naive_solver. Qed.

Lemma map_res_Ok (f : A -> result B) l bs :
  map_res f l = Ok bs <-> Forall2 (fun a b => f a = Ok b) l bs.
Proof.
  revert bs. induction l as [|a l IH]; intros bs; cbn.
  { split; [intros [= <-]; constructor | by inversion 1]. }
  split.
  - destruct (f a) as [b|] eqn:Hb; [|done].
    destruct (map_res f l) as [bs'|]; [|done].
    intros [= <-]. constructor; [done|]. by apply IH.
  - inversion 1 as [|? b ? bs' Hb Hbs]; subst.
    apply IH in Hbs. by rewrite Hb, Hbs.
Qed.

Lemma map_res_total (f : A -> result B) l :
  (forall a, a ∈ l -> exists b, f a = Ok b) -> exists bs, map_res f l = Ok bs.
Proof.
  induction l as [|a l IH]; intros Hf; simpl; [by eexists|].
  destruct (Hf a) as [b ->]; [by left|]. destruct IH as [bs ->]; [by intros; apply Hf; right|].
  by eexists.
Qed.

Lemma check_all_Ok (f : A -> result unit) l :
  check_all f l = Ok tt <-> Forall (fun a => f a = Ok tt) l.
Proof.
  induction l as [|a l IH]; cbn; [by split|].
  rewrite Forall_cons, <-IH. destruct (f a) as [[]|]; naive_solver.
Qed.

Lemma check_all_Err (f : A -> result unit) l e :
  check_all f l = Err e -> exists a, a ∈ l /\ f a = Err e.
Proof.
  induction l as [|a l IH]; simpl; [done|].
  destruct (f a) as [[]|e'] eqn:Ha; simpl.
  - intros (b & Hb & He)%IH. exists b. split; [by right|done].
  - intros [= <-]. exists a. split; [by left|done].
Qed.

Lemma fold_res_app (f : S -> A -> result S) s l1 l2 :
  fold_res f s (l1 ++ l2) = (s' ← fold_res f s l1; fold_res f s' l2).
Proof.
  revert s. induction l1 as [|a l1 IH]; intros s; cbn; [done|].
  destruct (f s a); cbn; [apply IH|done].
Qed.

(** The usual loop-invariant rule for a loop that did not fail. *)
Lemma fold_res_inv (P : S -> Prop) (f : S -> A -> result S) s l s' :
  P s ->
  (forall s a s', a ∈ l -> P s -> f s a = Ok s' -> P s') ->
  fold_res f s l = Ok s' -> P s'.
Proof.
  revert s. induction l as [|a l IH]; intros s Hs Hstep; cbn.
  { by intros [= <-]. }
  destruct (f s a) as [s1|] eqn:Hf; [|done]. intros Hl.
  eapply IH; [|intros; eapply Hstep; [by right|done..]|done].
  eapply Hstep; [by left|done..].
Qed.
End result_lemmas.
