(* ===== verification/Go.v ===== *)
(** * The parts of the Go language and standard library the operator uses

    Machine integers with their wrap-around, byte strings with the functions of
    package [strings], UTF-8 decoding ([unicode/utf8], used by [range] over a
    string), [strconv.Itoa]/[Atoi], [maps.Copy], [slices.Sort].  A Go string is
    a sequence of bytes: a Rocq [string], whose characters are bytes. *)

From S2P Require Import Prelude.
From Stdlib Require Import Ascii SpecFloat.
#[local] Open Scope Z_scope.

(** ** Machine integers *)

(** Two's-complement truncation to [w] bits, signed. *)
Definition wrapS (w : Z) (z : Z) : Z := (z + 2 ^ (w - 1)) mod 2 ^ w - 2 ^ (w - 1).

Abbreviation int32 := (wrapS 32).
Abbreviation int64 := (wrapS 64).

Definition in_int32 (z : Z) : Prop := - 2 ^ 31 <= z < 2 ^ 31.
Definition in_int64 (z : Z) : Prop := - 2 ^ 63 <= z < 2 ^ 63.
Definition max_int64 : Z := 2 ^ 63 - 1.
Definition min_int64 : Z := - 2 ^ 63.

#[export] Instance in_int32_dec z : Decision (in_int32 z).
Proof. unfold in_int32. apply _. Defined.
#[export] Instance in_int64_dec z : Decision (in_int64 z).
Proof. unfold in_int64. apply _. Defined.

Lemma wrapS_id w z : 0 < w -> - 2 ^ (w - 1) <= z < 2 ^ (w - 1) -> wrapS w z = z.
Proof.
  intros Hw Hz. unfold wrapS.
  assert (2 ^ w = 2 * 2 ^ (w - 1)) as Hp.
  { rewrite <-Z.pow_succ_r by lia. f_equal. lia. }
  rewrite Z.mod_small; lia.
Qed.

Lemma wrapS_range w z : 0 < w -> - 2 ^ (w - 1) <= wrapS w z < 2 ^ (w - 1).
Proof.
  intros Hw. unfold wrapS.
  assert (2 ^ w = 2 * 2 ^ (w - 1)) as Hp.
  { rewrite <-Z.pow_succ_r by lia. f_equal. lia. }
  assert (0 < 2 ^ (w - 1)) by (apply Z.pow_pos_nonneg; lia).
  pose proof (Z.mod_pos_bound (z + 2 ^ (w - 1)) (2 ^ w)). lia.
Qed.

Lemma int32_id z : in_int32 z -> int32 z = z.
Proof. intros. apply wrapS_id; [lia|done]. Qed.
Lemma int64_id z : in_int64 z -> int64 z = z.
Proof. intros. apply wrapS_id; [lia|done]. Qed.

(** ** Byte strings *)

Definition bytes (s : string) : list ascii := String.list_ascii_of_string s.
Definition of_bytes (l : list ascii) : string := String.string_of_list_ascii l.

Lemma of_bytes_bytes s : of_bytes (bytes s) = s.
Proof. apply String.string_of_list_ascii_of_string. Qed.
Lemma bytes_of_bytes l : bytes (of_bytes l) = l.
Proof. apply String.list_ascii_of_string_of_list_ascii. Qed.
Lemma bytes_app s1 s2 : bytes (s1 +:+ s2) = bytes s1 ++ bytes s2.
Proof.
  unfold bytes. induction s1 as [|c s1 IH]; [done|].
  change (String c s1 +:+ s2) with (String c (s1 +:+ s2)).
  cbn. by rewrite IH.
Qed.
#[export] Instance bytes_inj : Inj (=) (=) bytes.
Proof. intros s1 s2 H. by rewrite <-(of_bytes_bytes s1), H, of_bytes_bytes. Qed.

Lemma sapp_assoc s1 s2 s3 : (s1 +:+ s2) +:+ s3 = s1 +:+ (s2 +:+ s3).
Proof. apply bytes_inj. by rewrite !bytes_app, app_assoc. Qed.
Lemma sapp_nil_r s : s +:+ "" = s.
Proof. apply bytes_inj. rewrite bytes_app. apply app_nil_r. Qed.

(** [len(s)] counts bytes. *)
Definition len (s : string) : Z := Z.of_nat (length (bytes s)).

Lemma len_app s1 s2 : len (s1 +:+ s2) = len s1 + len s2.
Proof. unfold len. rewrite bytes_app, length_app. lia. Qed.
Lemma len_nonneg s : 0 <= len s.
Proof. unfold len. lia. Qed.
Lemma len_zero s : len s = 0 <-> s = "".
Proof.
  unfold len. split; [|by intros ->]. intros H.
  apply (inj bytes). destruct (bytes s); [done|]. cbn in H. lia.
Qed.

(** [s == ""] and [s != ""]. *)
Definition nonempty (s : string) : bool := bool_decide (s ≠ "").

Lemma nonempty_true s : nonempty s = true <-> s ≠ "".
Proof. apply bool_decide_eq_true. Qed.
Lemma nonempty_false s : nonempty s = false <-> s = "".
Proof. unfold nonempty. rewrite bool_decide_eq_false. split; [apply dec_stable|naive_solver]. Qed.

(** [strings.HasPrefix(s, p)]. *)
Definition HasPrefix (s p : string) : bool := bool_decide (bytes p `prefix_of` bytes s).

(** [strings.TrimSuffix(s, suf)]. *)
Definition TrimSuffix (s suf : string) : string :=
  if decide (bytes suf `suffix_of` bytes s)
  then of_bytes (take (length (bytes s) - length (bytes suf)) (bytes s)) else s.

(** [strings.ReplaceAll] for a non-empty [old], on bytes: left to right,
    non-overlapping; [skip] counts the bytes of an occurrence still to drop. *)
Fixpoint replace_go (old new : list ascii) (l : list ascii) (skip : nat) : list ascii :=
  match l with
  | [] => []
  | c :: l' =>
    match skip with
    | S k => replace_go old new l' k
    | O => if decide (old `prefix_of` c :: l')
           then new ++ replace_go old new l' (length old - 1)
           else c :: replace_go old new l' 0
    end
  end.
Definition ReplaceAll (s old new : string) : string :=
  of_bytes (replace_go (bytes old) (bytes new) (bytes s) 0).

(** [strings.TrimLeft]/[TrimRight]/[Trim] with a one-byte cutset. *)
Fixpoint drop_while (c : ascii) (l : list ascii) : list ascii :=
  match l with
  | [] => []
  | x :: l' => if decide (x = c) then drop_while c l' else l
  end.
Definition trim_right (c : ascii) (l : list ascii) : list ascii :=
  reverse (drop_while c (reverse l)).
Definition trim (c : ascii) (l : list ascii) : list ascii :=
  trim_right c (drop_while c l).

Section trim_lemmas.
Context (c : ascii).
Implicit Types l : list ascii.

Lemma drop_while_suffix l : drop_while c l `suffix_of` l.
Proof.
  induction l as [|x l IH]; cbn; [done|].
  case_decide; [by apply suffix_cons_r|done].
Qed.
Lemma drop_while_head l : head (drop_while c l) ≠ Some c.
Proof. induction l as [|x l IH]; cbn; [done|]. case_decide; [done|]. cbn. congruence. Qed.
Lemma drop_while_id l : head l ≠ Some c -> drop_while c l = l.
Proof. destruct l as [|x l]; cbn; [done|]. intros. case_decide; congruence. Qed.

Lemma trim_right_prefix l : trim_right c l `prefix_of` l.
Proof.
  destruct (drop_while_suffix (reverse l)) as [k Hk].
  exists (reverse k). unfold trim_right.
  by rewrite <-reverse_app, <-Hk, reverse_involutive.
Qed.
Lemma trim_right_last l : last (trim_right c l) ≠ Some c.
Proof. unfold trim_right. rewrite last_reverse. apply drop_while_head. Qed.
Lemma trim_right_id l : last l ≠ Some c -> trim_right c l = l.
Proof.
  intros Hl. unfold trim_right. rewrite drop_while_id by (by rewrite head_reverse).
  apply reverse_involutive.
Qed.
Lemma trim_right_head l : head l ≠ Some c -> head (trim_right c l) ≠ Some c.
Proof.
  intros Hl. destruct (trim_right_prefix l) as [k Hk].
  destruct (trim_right c l) as [|x r]; [done|]. rewrite Hk in Hl. done.
Qed.

Lemma trim_head l : head (trim c l) ≠ Some c.
Proof. apply trim_right_head, drop_while_head. Qed.
Lemma trim_last l : last (trim c l) ≠ Some c.
Proof. apply trim_right_last. Qed.
Lemma trim_id l : head l ≠ Some c -> last l ≠ Some c -> trim c l = l.
Proof. intros Hh Hl. unfold trim. rewrite drop_while_id by done. by apply trim_right_id. Qed.
Lemma trim_Forall (P : ascii -> Prop) l : Forall P l -> Forall P (trim c l).
Proof.
  rewrite !Forall_forall. intros HP x Hx. apply HP.
  destruct (drop_while_suffix l) as [k1 ->], (trim_right_prefix (drop_while c l)) as [k2 ->].
  rewrite !elem_of_app. auto.
Qed.
Lemma trim_right_Forall (P : ascii -> Prop) l : Forall P l -> Forall P (trim_right c l).
Proof.
  intros HP. destruct (trim_right_prefix l) as [k Hk].
  rewrite Hk in HP. by apply Forall_app in HP as [? _].
Qed.
End trim_lemmas.

(** ** UTF-8: [utf8.DecodeRune] and [range] over a string *)

Definition byte_val (c : ascii) : Z := Z.of_N (N_of_ascii c).

Definition RuneError : Z := 65533.

Definition in_range (lo hi z : Z) : bool := (lo <=? z) && (z <=? hi).

(** First continuation byte allowed after a lead byte, and sequence length;
    [None] for an invalid lead byte. *)
Definition utf8_class (b : Z) : option (nat * Z * Z) :=
  if in_range 194 223 b then Some (2%nat, 128, 191)
  else if b =? 224 then Some (3%nat, 160, 191)
  else if b =? 237 then Some (3%nat, 128, 159)
  else if in_range 225 239 b then Some (3%nat, 128, 191)
  else if b =? 240 then Some (4%nat, 144, 191)
  else if in_range 241 243 b then Some (4%nat, 128, 191)
  else if b =? 244 then Some (4%nat, 128, 143)
  else None.

Definition cont (c : ascii) : bool := in_range 128 191 (byte_val c).
Definition low6 (c : ascii) : Z := byte_val c - 128.

(** The first rune of a non-empty byte sequence and its width. *)
Definition decode_rune (c : ascii) (l : list ascii) : Z * nat :=
  let b := byte_val c in
  if b <? 128 then (b, 1%nat) else
  match utf8_class b, l with
  | Some (2%nat, lo, hi), c1 :: _ =>
    if in_range lo hi (byte_val c1)
    then ((b - 192) * 64 + low6 c1, 2%nat) else (RuneError, 1%nat)
  | Some (3%nat, lo, hi), c1 :: c2 :: _ =>
    if in_range lo hi (byte_val c1) && cont c2
    then ((b - 224) * 4096 + low6 c1 * 64 + low6 c2, 3%nat) else (RuneError, 1%nat)
  | Some (4%nat, lo, hi), c1 :: c2 :: c3 :: _ =>
    if in_range lo hi (byte_val c1) && cont c2 && cont c3
    then ((b - 240) * 262144 + low6 c1 * 4096 + low6 c2 * 64 + low6 c3, 4%nat)
    else (RuneError, 1%nat)
  | _, _ => (RuneError, 1%nat)
  end.

(** [strings.Map(f, s)] for a mapping into single bytes: one application of [f]
    per rune; [skip] counts the remaining bytes of the current rune. *)
Fixpoint map_runes (f : Z -> ascii) (l : list ascii) (skip : nat) : list ascii :=
  match l with
  | [] => []
  | c :: l' =>
    match skip with
    | S k => map_runes f l' k
    | O => let '(r, w) := decode_rune c l' in f r :: map_runes f l' (w - 1)
    end
  end.

Lemma map_runes_Forall (P : ascii -> Prop) f l skip :
  (forall r, P (f r)) -> Forall P (map_runes f l skip).
Proof.
  intros Hf. revert skip. induction l as [|c l IH]; intros skip; cbn; [constructor|].
  destruct skip; [|apply IH]. destruct (decode_rune c l). by constructor.
Qed.

Lemma map_runes_length f l skip : (length (map_runes f l skip) <= length l)%nat.
Proof.
  revert skip. induction l as [|c l IH]; intros skip; cbn; [lia|].
  destruct skip.
  - destruct (decode_rune c l) as [r w]. cbn. specialize (IH (w - 1)%nat). lia.
  - specialize (IH skip). lia.
Qed.

(** A byte below 128 is decoded as itself, whatever follows. *)
Lemma decode_rune_ascii c l : byte_val c < 128 -> decode_rune c l = (byte_val c, 1%nat).
Proof. intros H. unfold decode_rune. by rewrite (proj2 (Z.ltb_lt _ _)). Qed.

(** On ASCII input [strings.Map] is the plain map over bytes. *)
Lemma map_runes_ascii f l :
  Forall (fun c => byte_val c < 128) l -> map_runes f l 0 = (fun c => f (byte_val c)) <$> l.
Proof.
  induction 1 as [|c l Hc Hl IH]; cbn; [done|].
  rewrite decode_rune_ascii by done. cbn. by rewrite IH.
Qed.

(** ** [strconv] *)

(** [strconv.Itoa]. *)
Definition Itoa (z : Z) : string := pretty z.

(** The digit loop of [strconv.ParseUint] in base 10, 64 bits: [inl] is the
    syntax error, [inr None] the range error (raised before the remaining bytes
    are looked at). *)
Definition digit (c : ascii) : option Z :=
  let d := byte_val c - 48 in if in_range 0 9 d then Some d else None.

Fixpoint parse_uint (acc : Z) (l : list ascii) : unit + option Z :=
  match l with
  | [] => inr (Some acc)
  | c :: l' =>
    match digit c with
    | None => inl ()
    | Some d => if acc * 10 + d <? 2 ^ 64 then parse_uint (acc * 10 + d) l' else inr None
    end
  end.

(** The value [strconv.Atoi] returns next to its error: 0 on a syntax error,
    the nearest [int64] on a range error. *)
Definition Atoi (s : string) : Z :=
  match bytes s with
  | [] => 0
  | c :: l =>
    let neg := bool_decide (c = "-"%char) in
    let digits := if neg || bool_decide (c = "+"%char) then l else c :: l in
    match digits with
    | [] => 0
    | _ =>
      match parse_uint 0 digits with
      | inl _ => 0
      | inr None => if neg then min_int64 else max_int64
      | inr (Some u) =>
        if neg then (if 2 ^ 63 <? u then min_int64 else - u)
        else (if 2 ^ 63 <=? u then max_int64 else u)
      end
    end
  end.

Lemma digit_pretty_N_char d : (d < 10)%N -> digit (pretty_N_char d) = Some (Z.of_N d).
Proof.
  intros Hd. assert (d ∈ [0;1;2;3;4;5;6;7;8;9]%N) as H.
  { rewrite !elem_of_cons. lia. }
  rewrite !elem_of_cons in H. by destruct_or?; subst; [..|apply elem_of_nil in H].
Qed.

Lemma parse_uint_pretty_N_go (x : N) s :
  Z.of_N x < 2 ^ 64 ->
  parse_uint 0 (bytes (pretty_N_go x s)) = parse_uint (Z.of_N x) (bytes s).
Proof.
  revert s. induction (N.lt_wf_0 x) as [x _ IH]; intros s Hx.
  destruct (decide (x = 0%N)) as [->|Hne]; [by rewrite pretty_N_go_0|].
  rewrite pretty_N_go_step by lia.
  assert (x `div` 10 < x)%N by (apply N.div_lt; lia).
  rewrite IH by lia. cbn -[Z.mul Z.pow].
  rewrite digit_pretty_N_char by (apply N.mod_lt; lia).
  pose proof (N.Div0.div_mod x 10). rewrite (proj2 (Z.ltb_lt _ _)) by lia.
  f_equal. lia.
Qed.

Lemma pretty_N_go_cons (x : N) s :
  (0 < x)%N -> exists c s', pretty_N_go x s = String c s' /\ is_Some (digit c).
Proof.
  revert s. induction (N.lt_wf_0 x) as [x _ IH]; intros s Hx.
  rewrite pretty_N_go_step by lia.
  destruct (decide (x `div` 10 = 0)%N) as [->|Hne].
  - rewrite pretty_N_go_0. do 2 eexists. split; [done|].
    rewrite digit_pretty_N_char by (apply N.mod_lt; lia). by eexists.
  - apply IH; [apply N.div_lt; lia|by apply N.neq_0_lt_0].
Qed.

(** The decimal form of a natural number starts with a digit and parses back. *)
Lemma pretty_N_digits (x : N) :
  exists c s, pretty x = String c s /\ is_Some (digit c).
Proof.
  unfold pretty, pretty_N. case_decide; [by do 2 eexists|].
  apply pretty_N_go_cons. lia.
Qed.

Lemma Itoa_nonempty z : Itoa z ≠ "".
Proof.
  destruct z as [|p|p]; [done| |done].
  destruct (pretty_N_digits (N.pos p)) as (c & s & E & _).
  change (Itoa (Z.pos p)) with (pretty (N.pos p)). by rewrite E.
Qed.

Lemma parse_uint_pretty_N (x : N) :
  Z.of_N x < 2 ^ 64 -> parse_uint 0 (bytes (pretty x)) = inr (Some (Z.of_N x)).
Proof.
  intros Hx. unfold pretty, pretty_N. case_decide; [by subst|].
  by rewrite parse_uint_pretty_N_go.
Qed.

Lemma digit_not_sign c : is_Some (digit c) -> c ≠ "-"%char /\ c ≠ "+"%char.
Proof. intros [d Hd]. split; intros ->; discriminate Hd. Qed.

(** Round trip: [Atoi] reads back what [Itoa] printed, for every [int]. *)
Lemma Atoi_Itoa z : in_int64 z -> Atoi (Itoa z) = z.
Proof.
  intros Hz. unfold in_int64 in Hz. unfold Itoa, pretty, pretty_Z.
  destruct z as [|p|p]; [done| |];
    change (pretty p) with (pretty (Npos p));
    pose proof (parse_uint_pretty_N (Npos p)) as Hp;
    destruct (pretty_N_digits (Npos p)) as (c & s & Heq & Hd);
    rewrite Heq in *; destruct (digit_not_sign _ Hd) as [Hm Hpl]; unfold Atoi.
  - cbn [bytes String.list_ascii_of_string] in Hp |- *.
    rewrite !bool_decide_eq_false_2 by done. cbn [orb]. rewrite Hp by lia.
    rewrite (proj2 (Z.leb_gt _ _)) by lia. done.
  - change (bytes ("-" +:+ String c s)) with ("-"%char :: bytes (String c s)).
    cbv beta iota zeta. rewrite bool_decide_eq_true_2 by done.
    cbn [orb bytes String.list_ascii_of_string] in Hp |- *. rewrite Hp by lia. rewrite (proj2 (Z.ltb_ge _ _)) by lia. done.
Qed.

(** ** Maps and slices *)

(** [m[k]] on a [map[string]string]: the zero value when the key is absent. *)
Definition map_get (m : gmap string string) (k : string) : string := default "" (m !! k).

(** [maps.Copy(dst, src)]. *)
Definition maps_Copy {V} (dst src : gmap string V) : gmap string V := src ∪ dst.

Lemma lookup_maps_Copy {V} (dst src : gmap string V) k :
  maps_Copy dst src !! k = match src !! k with Some v => Some v | None => dst !! k end.
Proof. unfold maps_Copy. rewrite lookup_union. by destruct (src !! k), (dst !! k). Qed.

(** [slices.Sort] on integers and on strings (byte-wise order). *)
Definition sort_ints (l : list Z) : list Z := merge_sort Z.le l.
Definition sort_strings (l : list string) : list string := merge_sort String.le l.

Lemma sort_ints_perm l : sort_ints l ≡ₚ l.
Proof. apply merge_sort_Permutation. Qed.
Lemma sort_strings_perm l : sort_strings l ≡ₚ l.
Proof. apply merge_sort_Permutation. Qed.
Lemma sort_ints_sorted l : StronglySorted Z.le (sort_ints l).
Proof. apply (StronglySorted_merge_sort _). Qed.
Lemma sort_strings_sorted l : StronglySorted String.le (sort_strings l).
Proof. apply (StronglySorted_merge_sort _). Qed.

(** Sorting forgets the order of the input: this is what makes a slice built
    from a Go map iteration deterministic once it is sorted. *)
Lemma sort_strings_unique l1 l2 : l1 ≡ₚ l2 -> sort_strings l1 = sort_strings l2.
Proof.
  intros H. apply (StronglySorted_unique String.le);
    [apply sort_strings_sorted..|by rewrite !sort_strings_perm].
Qed.

(** ** Dynamic values: [any] as built by map literals and by [json.Unmarshal]

    [VInt] is an integer the code stores, [VFloat] the [float64] of a JSON number. *)
Inductive any :=
| VNil
| VBool (b : bool)
| VInt (z : Z)
| VFloat (f : spec_float)
| VStr (s : string)
| VList (l : list any)
| VMap (m : gmap string any).

Abbreviation anymap := (gmap string any) (only parsing).

(** A [[]string] and a [map[string]string] stored in an [any]. *)
Definition VStrs (l : list string) : any := VList (VStr <$> l).
Definition VStrMap (m : gmap string string) : any := VMap (VStr <$> m).

(** [if b { m[k] = v }]. *)
Definition set_if {V} (b : bool) (k : string) (v : V) (m : gmap string V) : gmap string V :=
  if b then <[k := v]> m else m.

Lemma lookup_set_if {V} b k (v : V) m j :
  set_if b k v m !! j = if b && bool_decide (k = j) then Some v else m !! j.
Proof.
  unfold set_if. destruct b; simpl; [|done]. rewrite lookup_insert.
  case_decide; case_bool_decide; done.
Qed.
