(* ===== verification/Duration.v ===== *)
(** * Durations: [time.ParseDuration]

    The poll interval of a discovery is parsed by the standard library's
    [time.ParseDuration]: a sequence of decimal numbers with units, such as
    [1h30m] or [1.5s].  The accumulators are [uint64]; the fraction of a
    component goes through [float64], for which the IEEE 754 operations of
    [SpecFloat] are used at binary64. *)

From S2P Require Import Prelude Go.
From Stdlib Require Import Ascii SpecFloat.
#[local] Open Scope Z_scope.

(** ** [float64] *)

Definition float64_of (n : Z) : spec_float := binary_normalize 53 1024 n 0 false.
Definition fmul (x y : spec_float) : spec_float := SFmul 53 1024 x y.
Definition fdiv (x y : spec_float) : spec_float := SFdiv 53 1024 x y.

(** [uint64(x)] of a finite non-negative number below [2^64]: its integer part. *)
Definition float_trunc (x : spec_float) : Z :=
  match x with
  | S754_finite _ m e => if 0 <=? e then Zpos m * 2 ^ e else Zpos m / 2 ^ (- e)
  | _ => 0
  end.

(** ** The scanner *)

Definition uint64 (z : Z) : Z := z mod 2 ^ 64.

(** [leadingInt]: the digits at the front; [None] is its overflow error. *)
Fixpoint leadingInt (x : Z) (l : list ascii) : option (Z * list ascii) :=
  match l with
  | [] => Some (x, [])
  | c :: l' =>
    match digit c with
    | None => Some (x, l)
    | Some d =>
      if 2 ^ 63 / 10 <? x then None
      else if 2 ^ 63 <? x * 10 + d then None
      else leadingInt (x * 10 + d) l'
    end
  end.

(** [leadingFraction]: digits that no longer fit are skipped. *)
Fixpoint leadingFraction (x : Z) (scale : spec_float) (overflow : bool) (l : list ascii)
    : Z * spec_float * list ascii :=
  match l with
  | [] => (x, scale, [])
  | c :: l' =>
    match digit c with
    | None => (x, scale, l)
    | Some d =>
      if overflow then leadingFraction x scale overflow l'
      else if (2 ^ 63 - 1) / 10 <? x then leadingFraction x scale true l'
      else if 2 ^ 63 <? x * 10 + d then leadingFraction x scale true l'
      else leadingFraction (x * 10 + d) (fmul scale (float64_of 10)) false l'
    end
  end.

Definition dot : ascii := "."%char.

(** The end of a unit: a dot or a digit. *)
Definition unit_stop (c : ascii) : bool := bool_decide (c = dot) || bool_decide (is_Some (digit c)).

Fixpoint span_unit (l : list ascii) : list ascii * list ascii :=
  match l with
  | [] => ([], [])
  | c :: l' => if unit_stop c then ([], l) else let '(u, rest) := span_unit l' in (c :: u, rest)
  end.

(** [unitMap]; the micro sign is U+00B5 or U+03BC. *)
Definition unitMap : list (string * Z) :=
  [("ns", 1); ("us", 1000); ("µs", 1000); ("μs", 1000); ("ms", 1000000); ("s", 1000000000);
   ("m", 60000000000); ("h", 3600000000000)].

Definition unit_of (u : string) : option Z :=
  e ← list_find (fun p : string * Z => p.1 = u) unitMap; Some e.2.2.

Section parse.
Variable orig : string.
Definition invalid : error := Msg "time: invalid duration %q" [AStr orig].

(** The number of a component: integer part, fraction and its scale, and the rest. *)
Definition number (l : list ascii) : result (Z * Z * spec_float * list ascii) :=
  match l with
  | [] => Err invalid
  | c :: _ =>
    if negb (unit_stop c) then Err invalid
    else
      match leadingInt 0 l with
      | None => Err invalid
      | Some (v, l1) =>
        let pre := negb (length l1 =? length l)%nat in
        let '(f, scale, l2, post) :=
          match l1 with
          | c1 :: l1' =>
            if bool_decide (c1 = dot) then
              let '(f, scale, l2) := leadingFraction 0 (float64_of 1) false l1' in
              (f, scale, l2, negb (length l2 =? length l1')%nat)
            else (0, float64_of 1, l1, false)
          | [] => (0, float64_of 1, l1, false)
          end in
        if negb pre && negb post then Err invalid else Ok (v, f, scale, l2)
      end
  end.

(** One component with its unit, in nanoseconds, and the rest. *)
Definition component (l : list ascii) : result (Z * list ascii) :=
  n ← number l;
  let '(v, f, scale, l2) := n in
  let '(u, rest) := span_unit l2 in
  match u with
  | [] => Err (Msg "time: missing unit in duration %q" [AStr orig])
  | _ =>
    match unit_of (of_bytes u) with
    | None => Err (Msg "time: unknown unit %q in duration %q" [AStr (of_bytes u); AStr orig])
    | Some unit =>
      if 2 ^ 63 / unit <? v then Err invalid
      else
        let v := uint64 (v * unit) in
        if 0 <? f then
          let v := uint64 (v + float_trunc (fmul (float64_of f) (fdiv (float64_of unit) scale))) in
          if 2 ^ 63 <? v then Err invalid else Ok (v, rest)
        else Ok (v, rest)
    end
  end.

(** The loop over the components; every iteration consumes at least a byte, so
    the number of bytes is enough fuel. *)
Fixpoint components (fuel : nat) (d : Z) (l : list ascii) : result Z :=
  match l, fuel with
  | [], _ => Ok d
  | _, O => Err invalid
  | _, S fuel =>
    c ← component l;
    let '(v, rest) := c in
    let d := uint64 (d + v) in
    if 2 ^ 63 <? d then Err invalid else components fuel d rest
  end.
End parse.

Definition ParseDuration (s : string) : result Z :=
  let l := bytes s in
  let '(neg, l) :=
    match l with
    | c :: l' => if bool_decide (c = "-"%char) then (true, l')
                 else if bool_decide (c = "+"%char) then (false, l') else (false, l)
    | [] => (false, l)
    end in
  if bool_decide (l = bytes "0") then Ok 0
  else if bool_decide (l = []) then Err (invalid s)
  else
    d ← components s (length l) 0 l;
    if (neg : bool) then Ok (int64 (- d))
    else if 2 ^ 63 - 1 <? d then Err (invalid s) else Ok d.

(** ** Examples *)

Example ParseDuration_examples :
  ParseDuration "30s" = Ok 30000000000 /\ ParseDuration "1h30m" = Ok 5400000000000 /\
  ParseDuration "1.5h" = Ok 5400000000000 /\ ParseDuration "-0.3s" = Ok (-300000000) /\
  ParseDuration "2562047h47m16.854775807s" = Ok (2 ^ 63 - 1) /\
  ParseDuration "-2562047h47m16.854775808s" = Ok (- 2 ^ 63) /\
  ParseDuration "1.7µs" = Ok 1700 /\ ParseDuration "0" = Ok 0 /\
  is_ok (ParseDuration "2562047h47m16.854775808s") = false /\
  is_ok (ParseDuration "5") = false /\ is_ok (ParseDuration "3 s") = false /\
  is_ok (ParseDuration ".s") = false /\ is_ok (ParseDuration "1d") = false.
Proof. vm_compute. done. Qed.

(** ** Progress: the fuel is enough *)

Lemma leadingInt_length x l v rest :
  leadingInt x l = Some (v, rest) -> (length rest <= length l)%nat.
Proof.
  revert x. induction l as [|c l IH]; intros x; simpl; [by intros [= _ <-]|].
  repeat case_match; try done; [intros ?%IH; lia|by intros [= _ <-]].
Qed.

Lemma leadingFraction_length x scale o l :
  (length (leadingFraction x scale o l).2 <= length l)%nat.
Proof.
  revert x scale o. induction l as [|c l IH]; intros x scale o; simpl; [done|].
  repeat case_match; simpl; try done; etrans; [apply IH|lia|apply IH|lia|apply IH|lia|apply IH|lia].
Qed.

Lemma span_unit_app l : (span_unit l).1 ++ (span_unit l).2 = l.
Proof.
  induction l as [|c l IH]; simpl; [done|]. destruct (unit_stop c); [done|].
  destruct (span_unit l); simpl in *. by rewrite IH.
Qed.

Lemma number_length orig l v f scale rest :
  number orig l = Ok (v, f, scale, rest) -> (length rest <= length l)%nat.
Proof.
  unfold number. destruct l as [|c l]; [done|]. case_match; [done|].
  destruct (leadingInt 0 (c :: l)) as [[v1 l1]|] eqn:El; [|done].
  apply leadingInt_length in El. destruct l1 as [|c1 l1].
  { case_match; [done|]. intros [= _ _ _ <-]. simpl; lia. }
  destruct (bool_decide (c1 = dot)).
  - pose proof (leadingFraction_length 0 (float64_of 1) false l1) as Hf.
    destruct (leadingFraction 0 (float64_of 1) false l1) as [[f1 s1] l2].
    case_match; [done|]. intros [= _ _ _ <-]. simpl in *. lia.
  - case_match; [done|]. by intros [= _ _ _ <-].
Qed.

Lemma component_length orig l v rest :
  component orig l = Ok (v, rest) -> (length rest < length l)%nat.
Proof.
  unfold component. destruct (number orig l) as [[[[n f] scale] l2]|] eqn:En; simpl; [|done].
  apply number_length in En. pose proof (span_unit_app l2) as Es.
  destruct (span_unit l2) as [[|c u] rest']; simpl in *; [done|].
  apply (f_equal length) in Es. rewrite length_cons, length_app in Es.
  repeat case_match; simplify_eq; simpl; try done; intros [= _ <-]; lia.
Qed.

(** More fuel than bytes changes nothing: the loop never runs out. *)
Lemma components_fuel orig fuel1 fuel2 d l :
  (length l <= fuel1)%nat -> (length l <= fuel2)%nat ->
  components orig fuel1 d l = components orig fuel2 d l.
Proof.
  revert fuel2 d l. induction fuel1 as [|fuel1 IH]; intros [|fuel2] d [|c l]; simpl; intros H1 H2;
    try done; try lia.
  destruct (component orig (c :: l)) as [[v rest]|] eqn:Ec; simpl; [|done].
  apply component_length in Ec. simpl in Ec. case_match; [done|]. apply IH; lia.
Qed.

(** ** Range *)

Lemma components_range orig fuel d l r :
  0 <= d <= 2 ^ 63 -> components orig fuel d l = Ok r -> 0 <= r <= 2 ^ 63.
Proof.
  revert d l. induction fuel as [|fuel IH]; intros d [|c l] Hd; simpl; try naive_solver lia.
  destruct (component orig (c :: l)) as [[v rest]|]; simpl; [|done].
  case_match eqn:E; [done|]. apply IH. apply Z.ltb_ge in E. split; [|done].
  by apply Z.mod_pos_bound.
Qed.

Lemma ParseDuration_range s d : ParseDuration s = Ok d -> in_int64 d.
Proof.
  unfold ParseDuration, in_int64. destruct (match bytes s with [] => _ | _ :: _ => _ end) as [neg l].
  case_match; [intros [= <-]; lia|]. case_match; [done|].
  destruct (components s (length l) 0 l) as [r|] eqn:E; simpl; [|done].
  apply components_range in E; [|lia]. destruct neg.
  - intros [= <-]. by apply (wrapS_range 64).
  - case_match eqn:E2; [done|]. apply Z.ltb_ge in E2. intros [= <-]. lia.
Qed.

(** ** Printed durations *)

(** A duration written as components: a number and its unit each. *)
Definition print_duration (l : list (Z * string)) : string :=
  foldr (fun c s => (Itoa c.1 +:+ c.2) +:+ s) "" l.
Definition duration_of (l : list (Z * string)) : Z :=
  foldr (fun c t => c.1 * default 0 (unit_of c.2) + t) 0 l.
Definition proper_component (c : Z * string) : Prop := 0 <= c.1 /\ is_Some (unit_of c.2).
#[export] Instance proper_component_dec c : Decision (proper_component c).
Proof. unfold proper_component. apply _. Defined.

Lemma leadingInt_app x l v rest :
  leadingInt x l = Some (v, []) -> (head rest ≫= digit) = None ->
  leadingInt x (l ++ rest) = Some (v, rest).
Proof.
  revert x. induction l as [|c l IH]; intros x; simpl.
  - intros [= ->] Hr. by destruct rest as [|c rest]; simpl in *; [|rewrite Hr].
  - repeat case_match; try done; auto.
Qed.

Lemma leadingInt_pretty_N_go (x : N) s :
  Z.of_N x <= 2 ^ 63 ->
  leadingInt 0 (bytes (pretty_N_go x s)) = leadingInt (Z.of_N x) (bytes s).
Proof.
  revert s. induction (N.lt_wf_0 x) as [x _ IH]; intros s Hx.
  destruct (decide (x = 0%N)) as [->|Hne]; [by rewrite pretty_N_go_0|].
  rewrite pretty_N_go_step by lia.
  assert (x `div` 10 < x)%N by (apply N.div_lt; lia).
  rewrite IH by lia. cbn -[Z.mul Z.pow Z.div].
  rewrite digit_pretty_N_char by (apply N.mod_lt; lia).
  pose proof (N.Div0.div_mod x 10). assert (Z.of_N (x `div` 10) <= 2 ^ 63 / 10).
  { rewrite N2Z.inj_div. by apply Z.div_le_mono. }
  rewrite !(proj2 (Z.ltb_ge _ _)) by lia. f_equal. lia.
Qed.

Lemma leadingInt_Itoa n rest :
  0 <= n <= 2 ^ 63 -> (head rest ≫= digit) = None ->
  leadingInt 0 (bytes (Itoa n) ++ rest) = Some (n, rest).
Proof.
  intros Hn. apply leadingInt_app. unfold Itoa. destruct n as [|p|p]; [done| |lia].
  change (pretty (Z.pos p)) with (pretty (N.pos p)). unfold pretty, pretty_N.
  case_decide; [done|]. by rewrite leadingInt_pretty_N_go by lia.
Qed.

Lemma head_Itoa n l : 0 <= n -> exists c l', bytes (Itoa n) ++ l = c :: l' /\ is_Some (digit c).
Proof.
  intros Hn. destruct n as [|p|p]; [by do 2 eexists| |lia].
  destruct (pretty_N_digits (N.pos p)) as (c & s & E & Hd).
  change (Itoa (Z.pos p)) with (pretty (N.pos p)). rewrite E. simpl. eauto.
Qed.

(** A unit of the map has no digit or dot, so the scanner reads it whole. *)
Lemma span_unit_known u rest :
  is_Some (unit_of u) -> (forall c, head rest = Some c -> unit_stop c = true) ->
  span_unit (bytes u ++ rest) = (bytes u, rest).
Proof.
  intros [k Hk] Hr. assert (forallb (fun c => negb (unit_stop c)) (bytes u) = true) as Hu.
  { unfold unit_of in Hk. destruct (list_find _ _) as [[i [u' k']]|] eqn:E; [|done].
    apply list_find_Some in E as (Hi%list_elem_of_lookup_2 & Heq & _). simpl in Heq. subst u'.
    revert Hi. unfold unitMap. rewrite !elem_of_cons, elem_of_nil.
    intros Hi. destruct_or?; simplify_eq; reflexivity. }
  induction (bytes u) as [|c l IH]; simpl in *.
  - destruct rest as [|c rest]; simpl; [done|]. by rewrite (Hr c).
  - apply andb_true_iff in Hu as [->%negb_true_iff Hu]. by rewrite IH.
Qed.

Lemma unit_of_known u k : unit_of u = Some k -> 0 < k /\ exists c l,
  bytes u = c :: l /\ digit c = None /\ c ≠ dot.
Proof.
  unfold unit_of. destruct (list_find _ _) as [[i [u' k']]|] eqn:E; [|done].
  apply list_find_Some in E as (Hi%list_elem_of_lookup_2 & Heq & _). simpl in *. subst u'.
  intros [= ->]. revert Hi. unfold unitMap. rewrite !elem_of_cons, elem_of_nil.
  intros Hi. destruct_or?; simplify_eq; (split; [lia|]); by do 2 eexists.
Qed.

Lemma component_print orig n u k rest :
  0 <= n -> unit_of u = Some k -> n * k <= 2 ^ 63 ->
  (forall c, head rest = Some c -> unit_stop c = true) ->
  component orig (bytes (Itoa n +:+ u) ++ rest) = Ok (n * k, rest).
Proof.
  intros Hn Hk Hle Hr. destruct (unit_of_known _ _ Hk) as (Hk0 & c & l & Hu & Hd & Hdot).
  assert (number orig (bytes (Itoa n +:+ u) ++ rest) = Ok (n, 0, float64_of 1, bytes u ++ rest)) as E.
  { rewrite bytes_app, <-app_assoc. unfold number.
    pose proof (leadingInt_Itoa n (bytes u ++ rest)) as Hl.
    destruct (head_Itoa n (bytes u ++ rest)) as (c1 & l1 & E & [d Hd1]); [done|].
    assert (length (bytes u ++ rest) ≠ length (c1 :: l1)) as Hlen.
    { rewrite <-E, (length_app (bytes (Itoa n))). destruct (bytes (Itoa n)) eqn:Eb; simpl; [|lia].
      pose proof (of_bytes_bytes (Itoa n)) as Eo. rewrite Eb in Eo. by destruct (Itoa_nonempty n). }
    rewrite E in *. rewrite Hl by (by nia || rewrite Hu).
    unfold unit_stop. rewrite Hd1, (bool_decide_eq_true_2 (is_Some _)), orb_true_r by eauto.
    cbv zeta. cbn [negb]. rewrite (proj2 (Nat.eqb_neq _ _) Hlen), Hu. cbn [app].
    by rewrite bool_decide_eq_false_2. }
  unfold component. rewrite E. simpl. rewrite span_unit_known by eauto. rewrite Hu. cbv iota.
  rewrite <-Hu, of_bytes_bytes, Hk. assert (n <= 2 ^ 63 / k) by (apply Z.div_le_lower_bound; lia).
  rewrite (proj2 (Z.ltb_ge _ _)) by done. unfold uint64. rewrite Z.mod_small by lia. done.
Qed.

Lemma components_print orig fuel d l :
  Forall proper_component l -> 0 <= d -> d + duration_of l <= 2 ^ 63 ->
  (length (bytes (print_duration l)) <= fuel)%nat ->
  components orig fuel d (bytes (print_duration l)) = Ok (d + duration_of l).
Proof.
  revert fuel d. induction l as [|[n u] l IH]; intros fuel d Hl Hd Hle Hf; simpl in *.
  { destruct fuel; simpl; f_equal; lia. }
  inversion_clear Hl as [|? ? [Hn [k Hk]] Hl']. simpl in *. rewrite Hk in *. simpl in *.
  assert (0 <= duration_of l) as Hpos.
  { clear -Hl'. induction Hl' as [|[m v] l [Hm [j Hj]] _ IHl]; simpl in *; [done|].
    rewrite Hj. simpl. pose proof (unit_of_known _ _ Hj) as [? _]. nia. }
  pose proof (unit_of_known _ _ Hk) as [Hk0 _].
  assert (component orig (bytes ((Itoa n +:+ u) +:+ print_duration l))
          = Ok (n * k, bytes (print_duration l))) as Ec.
  { rewrite bytes_app. apply component_print; [done..|nia|]. intros c Hc. unfold unit_stop.
    destruct Hl' as [|[m v] l [Hm _] _]; simpl in *; [done|].
    rewrite !bytes_app, <-app_assoc in Hc.
    destruct (head_Itoa m (bytes v ++ bytes (print_duration l))) as (c1 & l1 & E & Hd1); [done|].
    rewrite E in Hc. injection Hc as <-. by rewrite (bool_decide_eq_true_2 _ Hd1), orb_true_r. }
  pose proof (component_length _ _ _ _ Ec) as Hlen.
  destruct (bytes ((Itoa n +:+ u) +:+ print_duration l)) as [|c rest] eqn:El; [simpl in Hlen; lia|].
  destruct fuel as [|fuel]; [simpl in Hf; lia|]. simpl. rewrite Ec. simpl.
  unfold uint64. rewrite Z.mod_small by nia. rewrite (proj2 (Z.ltb_ge _ _)) by nia.
  rewrite IH; [f_equal; lia|done|nia|lia|simpl in *; lia].
Qed.

(** A printed duration below [2^63] nanoseconds parses to its length. *)
Lemma ParseDuration_print l :
  l ≠ [] -> Forall proper_component l -> duration_of l < 2 ^ 63 ->
  ParseDuration (print_duration l) = Ok (duration_of l).
Proof.
  intros Hne Hl Hlt. unfold ParseDuration.
  pose proof (components_print (print_duration l) _ 0 l Hl ltac:(lia) ltac:(lia) (le_n _)) as Hc.
  destruct l as [|[n u] l]; [done|]. inversion_clear Hl as [|? ? [Hn [k Hk]] Hl']. simpl in Hn, Hk.
  destruct (unit_of_known _ _ Hk) as (_ & c & ul & Hu & Hdu & _).
  assert (bytes (print_duration ((n, u) :: l)) ≠ bytes "0") as H0.
  { simpl. rewrite !bytes_app, <-app_assoc, Hu. intros E.
    destruct (bytes (Itoa n)) as [|b [|]] eqn:Eb; try done.
    pose proof (of_bytes_bytes (Itoa n)) as Eo. rewrite Eb in Eo. by destruct (Itoa_nonempty n). }
  destruct (head_Itoa n (bytes u ++ bytes (print_duration l))) as (c1 & l1 & E1 & Hd1); [done|].
  simpl in H0, Hc |- *. rewrite !bytes_app, <-app_assoc, E1 in *.
  destruct (digit_not_sign _ Hd1) as [? ?]. rewrite !bool_decide_eq_false_2 by done.
  rewrite Hc. simpl. by rewrite (proj2 (Z.ltb_ge _ _)) by (simpl in *; lia).
Qed.
