(* ===== verification/Json.v ===== *)
(** * JSON: the decoder of [encoding/json]

    The operator decodes the raw JSON of processors, of the raw Data Prepper
    configuration and of rendered templates with [json.Unmarshal].  This file
    models that function of the standard library: the scanner ([checkValid], with
    the error of every state) as a recursive descent to a syntax tree, and the
    decoding of the tree to dynamic values.  Numbers become [float64], rounded as
    [strconv.ParseFloat] does; strings are unquoted with [utf16] surrogates and
    invalid UTF-8 replaced.  [jtext] is the grammar of RFC 8259, and
    [checkValid_exact] states that the scanner accepts exactly its documents. *)

From S2P Require Import Prelude Go.
From Stdlib Require Import Ascii SpecFloat.
#[local] Open Scope Z_scope.

(** ** Syntax trees *)

(** Numbers and strings are kept as written, strings without their quotes. *)
Inductive jtree :=
| JNull
| JBool (b : bool)
| JNum (lit : list ascii)
| JStr (raw : list ascii)
| JArr (l : list jtree)
| JObj (l : list (list ascii * jtree)).

(** ** The scanner *)

Abbreviation quote := (Ascii false true false false false true false false).
Abbreviation backslash := "\"%char.
Abbreviation space := " "%char.

Definition is_space (c : ascii) : bool :=
  bool_decide (c = space) || in_range 9 10 (byte_val c) || (byte_val c =? 13).

Fixpoint skip_ws (l : list ascii) : list ascii :=
  match l with
  | c :: l' => if is_space c then skip_ws l' else l
  | [] => []
  end.

Definition eof : error := Msg "unexpected end of JSON input" [].
Definition invalid (c : ascii) (context : string) : error :=
  Msg "invalid character %q %s" [AInt (byte_val c); AStr context].

(** At the end of the input the scanner is fed one more space: in a state that
    does not skip white space this is the offending character. *)
Definition strict (l : list ascii) (context : string) : error := invalid (default space (head l)) context.

Definition is_digit (c : ascii) : bool := in_range 48 57 (byte_val c).
Definition is_hex (c : ascii) : bool :=
  is_digit c || in_range 97 102 (byte_val c) || in_range 65 70 (byte_val c).

(** The characters after a backslash, [u] apart. *)
Definition simple_escape (c : ascii) : bool := bool_decide (c ∈ bytes "bfnrt\/" ++ [quote]).

(** The body of a string up to its closing quote, and the rest. *)
Fixpoint scan_string (l : list ascii) : result (list ascii * list ascii) :=
  match l with
  | [] => Err eof
  | c :: l1 =>
    if bool_decide (c = quote) then Ok ([], l1)
    else if bool_decide (c = backslash) then
      match l1 with
      | [] => Err (strict [] "in string escape code")
      | e :: l2 =>
        if simple_escape e then r ← scan_string l2; Ok (c :: e :: r.1, r.2)
        else if bool_decide (e = "u"%char) then
          match l2 with
          | h1 :: h2 :: h3 :: h4 :: l3 =>
            if forallb is_hex [h1; h2; h3; h4] then
              r ← scan_string l3; Ok (c :: e :: h1 :: h2 :: h3 :: h4 :: r.1, r.2)
            else Err (strict (filter (fun h => negb (is_hex h)) [h1; h2; h3; h4])
                        "in \u hexadecimal character escape")
          | _ => Err (strict (filter (fun h => negb (is_hex h)) l2)
                        "in \u hexadecimal character escape")
          end
        else Err (invalid e "in string escape code")
      end
    else if byte_val c <? 32 then Err (invalid c "in string literal")
    else r ← scan_string l1; Ok (c :: r.1, r.2)
  end.

Fixpoint span_digits (l : list ascii) : list ascii * list ascii :=
  match l with
  | c :: l' => if is_digit c then let '(d, r) := span_digits l' in (c :: d, r) else ([], l)
  | [] => ([], [])
  end.

(** At least one digit. *)
Definition digits1 (context : string) (l : list ascii) : result (list ascii * list ascii) :=
  match span_digits l with
  | ([], r) => Err (strict r context)
  | dr => Ok dr
  end.

(** The parts of a number: [stateNeg], [state0] and [state1], [stateDot], [stateE]. *)
Definition scan_sign (l : list ascii) : list ascii * list ascii :=
  match l with
  | c :: l' => if bool_decide (c = "-"%char) then ([c], l') else ([], l)
  | [] => ([], [])
  end.

Definition scan_int (l : list ascii) : result (list ascii * list ascii) :=
  match l with
  | c :: l' =>
    if bool_decide (c = "0"%char) then Ok ([c], l')
    else digits1 "in numeric literal" l
  | [] => Err (strict [] "in numeric literal")
  end.

Definition scan_frac (l : list ascii) : result (list ascii * list ascii) :=
  match l with
  | c :: l' =>
    if bool_decide (c = "."%char) then
      r ← digits1 "after decimal point in numeric literal" l'; Ok (c :: r.1, r.2)
    else Ok ([], l)
  | [] => Ok ([], [])
  end.

Definition is_exp (c : ascii) : bool := bool_decide (c = "e"%char) || bool_decide (c = "E"%char).

Definition exp_sign (l : list ascii) : list ascii * list ascii :=
  match l with
  | c :: l' =>
    if bool_decide (c = "-"%char) || bool_decide (c = "+"%char) then ([c], l') else ([], l)
  | [] => ([], [])
  end.

Definition scan_exp (l : list ascii) : result (list ascii * list ascii) :=
  match l with
  | c :: l' =>
    if is_exp c then
      let '(sg, l2) := exp_sign l' in
      r ← digits1 "in exponent of numeric literal" l2; Ok (c :: sg ++ r.1, r.2)
    else Ok ([], l)
  | [] => Ok ([], [])
  end.

Definition scan_number (l : list ascii) : result (list ascii * list ascii) :=
  let '(sg, l0) := scan_sign l in
  i ← scan_int l0;
  f ← scan_frac i.2;
  e ← scan_exp f.2;
  Ok (sg ++ i.1 ++ f.1 ++ e.1, e.2).

(** [true], [false] and [null] after their first letter. *)
Fixpoint scan_word (word : string) (expected l : list ascii) : result (list ascii) :=
  match expected with
  | [] => Ok l
  | x :: expected =>
    match l with
    | c :: l' =>
      if bool_decide (c = x) then scan_word word expected l'
      else Err (Msg "invalid character %q in literal %s (expecting %q)"
                  [AInt (byte_val c); AStr word; AInt (byte_val x)])
    | [] => Err (Msg "invalid character %q in literal %s (expecting %q)"
                   [AInt (byte_val space); AStr word; AInt (byte_val x)])
    end
  end.

Definition maxNestingDepth : Z := 10000.

(** [stateBeginValue], [stateBeginString] and the array elements; [depth] is the
    length of the stack [parseState]. *)
Fixpoint scan_value (fuel : nat) (depth : Z) (l : list ascii) : result (jtree * list ascii) :=
  match fuel with
  | O => Err (Msg "out of fuel" [])
  | S fuel =>
    match skip_ws l with
    | [] => Err eof
    | c :: l1 =>
      if bool_decide (c = "{"%char) then
        if maxNestingDepth <? depth + 1 then Err (invalid c "exceeded max depth") else
        match skip_ws l1 with
        | [] => Err eof
        | c2 :: l2 =>
          if bool_decide (c2 = "}"%char) then Ok (JObj [], l2)
          else r ← scan_members fuel (depth + 1) (c2 :: l2); Ok (JObj r.1, r.2)
        end
      else if bool_decide (c = "["%char) then
        if maxNestingDepth <? depth + 1 then Err (invalid c "exceeded max depth") else
        match skip_ws l1 with
        | [] => Err eof
        | c2 :: l2 =>
          if bool_decide (c2 = "]"%char) then Ok (JArr [], l2)
          else r ← scan_elements fuel (depth + 1) (c2 :: l2); Ok (JArr r.1, r.2)
        end
      else if bool_decide (c = quote) then r ← scan_string l1; Ok (JStr r.1, r.2)
      else if bool_decide (c = "t"%char) then r ← scan_word "true" (bytes "rue") l1; Ok (JBool true, r)
      else if bool_decide (c = "f"%char) then r ← scan_word "false" (bytes "alse") l1; Ok (JBool false, r)
      else if bool_decide (c = "n"%char) then r ← scan_word "null" (bytes "ull") l1; Ok (JNull, r)
      else if is_digit c || bool_decide (c = "-"%char) then
        r ← scan_number (c :: l1); Ok (JNum r.1, r.2)
      else Err (invalid c "looking for beginning of value")
    end
  end
with scan_members (fuel : nat) (depth : Z) (l : list ascii)
    : result (list (list ascii * jtree) * list ascii) :=
  match fuel with
  | O => Err (Msg "out of fuel" [])
  | S fuel =>
    match skip_ws l with
    | [] => Err eof
    | c :: l1 =>
      if bool_decide (c = quote) then
        k ← scan_string l1;
        match skip_ws k.2 with
        | [] => Err eof
        | c :: l2 =>
          if bool_decide (c = ":"%char) then
            v ← scan_value fuel depth l2;
            match skip_ws v.2 with
            | [] => Err eof
            | c :: l3 =>
              if bool_decide (c = ","%char) then
                r ← scan_members fuel depth l3; Ok ((k.1, v.1) :: r.1, r.2)
              else if bool_decide (c = "}"%char) then Ok ([(k.1, v.1)], l3)
              else Err (invalid c "after object key:value pair")
            end
          else Err (invalid c "after object key")
        end
      else Err (invalid c "looking for beginning of object key string")
    end
  end
with scan_elements (fuel : nat) (depth : Z) (l : list ascii) : result (list jtree * list ascii) :=
  match fuel with
  | O => Err (Msg "out of fuel" [])
  | S fuel =>
    v ← scan_value fuel depth l;
    match skip_ws v.2 with
    | [] => Err eof
    | c :: l1 =>
      if bool_decide (c = ","%char) then
        r ← scan_elements fuel depth l1; Ok (v.1 :: r.1, r.2)
      else if bool_decide (c = "]"%char) then Ok ([v.1], l1)
      else Err (invalid c "after array element")
    end
  end.

(** Two calls per byte are enough: see [scan_text]. *)
Definition scan_fuel (l : list ascii) : nat := 2 * length l + 2.

(** [checkValid], with the tree of the document. *)
Definition checkValid (data : string) : result jtree :=
  let l := bytes data in
  r ← scan_value (scan_fuel l) 0 l;
  match skip_ws r.2 with
  | [] => Ok r.1
  | c :: _ => Err (invalid c "after top-level value")
  end.

(** ** [strconv.ParseFloat] on the literals of JSON *)

Definition digits_val (l : list ascii) : Z := foldl (fun n c => n * 10 + (byte_val c - 48)) 0 l.

(** [readFloat] stops accumulating the exponent at 10000. *)
Definition exp_val (l : list ascii) : Z :=
  foldl (fun e c => if e <? 10000 then e * 10 + (byte_val c - 48) else e) 0 l.

(** [mant * 10 ^ e], rounded to nearest, ties to even. *)
Definition round_decimal (neg : bool) (mant e : Z) : spec_float :=
  match mant with
  | Zpos m =>
    if 0 <=? e then
      match Zpos m * 10 ^ e with Zpos p => binary_round 53 1024 neg p 0 | _ => S754_zero neg end
    else
      let '(q, e', loc) := SFdiv_core_binary 53 1024 (Zpos m) 0 (10 ^ (- e)) 0 in
      binary_round_aux 53 1024 neg q e' loc
  | _ => S754_zero neg
  end.

Definition ParseFloat (lit : list ascii) : spec_float :=
  let '(sg, l0) := scan_sign lit in
  let '(i, l1) := span_digits l0 in
  let '(f, l2) := match l1 with
                  | c :: l' => if bool_decide (c = "."%char) then span_digits l' else ([], l1)
                  | [] => ([], [])
                  end in
  let e := match l2 with
           | _ :: l' =>
             let '(es, ds) := exp_sign l' in
             if bool_decide (es = ["-"%char]) then - exp_val ds else exp_val ds
           | [] => 0
           end in
  round_decimal (bool_decide (sg ≠ [])) (digits_val (i ++ f)) (e - Z.of_nat (length f)).

(** ** [unquote] *)

(** [utf8.AppendRune]. *)
Definition encode_rune (r : Z) : list ascii :=
  let byte z := ascii_of_N (Z.to_N z) in
  if in_range 0 127 r then [byte r]
  else if in_range 128 2047 r then [byte (192 + r / 64); byte (128 + r mod 64)]
  else if in_range 2048 55295 r || in_range 57344 65535 r then
    [byte (224 + r / 4096); byte (128 + r / 64 mod 64); byte (128 + r mod 64)]
  else if in_range 65536 1114111 r then
    [byte (240 + r / 262144); byte (128 + r / 4096 mod 64); byte (128 + r / 64 mod 64);
     byte (128 + r mod 64)]
  else [byte 239; byte 191; byte 189].

Definition hex_val (c : ascii) : Z :=
  let b := byte_val c in
  if b <=? 57 then b - 48 else if b <=? 70 then b - 55 else b - 87.

Definition getu4 (h1 h2 h3 h4 : ascii) : Z :=
  ((hex_val h1 * 16 + hex_val h2) * 16 + hex_val h3) * 16 + hex_val h4.

(** [utf16.DecodeRune] of two surrogate halves. *)
Definition surrogate_pair (r1 r2 : Z) : option Z :=
  if in_range 55296 56319 r1 && in_range 56320 57343 r2
  then Some ((r1 - 55296) * 1024 + (r2 - 56320) + 65536) else None.

Definition unescape (c : ascii) : ascii :=
  if bool_decide (c = "b"%char) then ascii_of_N 8
  else if bool_decide (c = "f"%char) then ascii_of_N 12
  else if bool_decide (c = "n"%char) then ascii_of_N 10
  else if bool_decide (c = "r"%char) then ascii_of_N 13
  else if bool_decide (c = "t"%char) then ascii_of_N 9
  else c.

(** [unquoteBytes] on the body of a string the scanner accepted; [skip] counts the
    remaining bytes of the current rune. *)
Fixpoint unquote (l : list ascii) (skip : nat) : list ascii :=
  match l with
  | [] => []
  | c :: l1 =>
    match skip with
    | S k => unquote l1 k
    | O =>
      if bool_decide (c = backslash) then
        match l1 with
        | [] => []
        | e :: l2 =>
          if bool_decide (e = "u"%char) then
            match l2 with
            | h1 :: h2 :: h3 :: h4 :: l3 =>
              let rr := getu4 h1 h2 h3 h4 in
              match l3 with
              | b :: u :: g1 :: g2 :: g3 :: g4 :: l4 =>
                match (if bool_decide (b = backslash) && bool_decide (u = "u"%char)
                       then surrogate_pair rr (getu4 g1 g2 g3 g4) else None) with
                | Some dec => encode_rune dec ++ unquote l4 0
                | None => encode_rune rr ++ unquote l3 0
                end
              | _ => encode_rune rr ++ unquote l3 0
              end
            | _ => []
            end
          else unescape e :: unquote l2 0
        end
      else let '(r, w) := decode_rune c l1 in encode_rune r ++ unquote l1 (w - 1)
    end
  end.

Definition unquoted (raw : list ascii) : string := of_bytes (unquote raw 0).

(** ** Decoding to dynamic values *)

Definition type_error (value type : string) : error :=
  Msg "json: cannot unmarshal %s into Go value of type %s" [AStr value; AStr type].

(** [convertNumber]. *)
Definition convertNumber (lit : list ascii) : result any :=
  match ParseFloat lit with
  | S754_infinity _ => Err (type_error ("number " +:+ of_bytes lit) "float64")
  | f => Ok (VFloat f)
  end.

(** [valueInterface]: of equal keys the last one wins.  A number out of range is
    reported after the document has been decoded; the first one counts. *)
Fixpoint value_of (t : jtree) : result any :=
  match t with
  | JNull => Ok VNil
  | JBool b => Ok (VBool b)
  | JNum lit => convertNumber lit
  | JStr raw => Ok (VStr (unquoted raw))
  | JArr l => vs ← map_res value_of l; Ok (VList vs)
  | JObj l =>
    kvs ← map_res (fun kv => v ← value_of kv.2; Ok (unquoted kv.1, v)) l;
    Ok (VMap (foldl (fun m kv => <[kv.1 := kv.2]> m) ∅ kvs))
  end.

(** [json.Unmarshal(data, &v)] for [v any]. *)
Definition Unmarshal (data : string) : result any := t ← checkValid data; value_of t.

(** [json.Unmarshal(data, &m)] for a nil [m map[string]any]: [null] leaves it nil. *)
Definition unmarshal_map (data : string) : result anymap :=
  t ← checkValid data;
  let mismatch kind := Err (type_error kind "map[string]interface {}") in
  match t with
  | JNull => Ok ∅
  | JObj _ => v ← value_of t; Ok (match v with VMap m => m | _ => ∅ end)
  | JBool _ => mismatch "bool"
  | JNum _ => mismatch "number"
  | JStr _ => mismatch "string"
  | JArr _ => mismatch "array"
  end.

(** Induction over trees. *)
Lemma jtree_nested_ind (P : jtree -> Prop) :
  P JNull -> (forall b, P (JBool b)) -> (forall lit, P (JNum lit)) -> (forall raw, P (JStr raw)) ->
  (forall l, Forall P l -> P (JArr l)) -> (forall l, Forall (fun kt => P kt.2) l -> P (JObj l)) ->
  forall t, P t.
Proof.
  intros Hnull Hbool Hnum Hstr Harr Hobj. fix IH 1. intros [|b|lit|raw|l|l]; [done|auto..| |].
  - apply Harr. induction l as [|t l IHl]; constructor; [apply IH|apply IHl].
  - apply Hobj. induction l as [|[k t] l IHl]; constructor; [apply IH|apply IHl].
Qed.

(** All numbers are in the range of [float64]. *)
Fixpoint finite_numbers (t : jtree) : bool :=
  match t with
  | JNum lit => is_ok (convertNumber lit)
  | JArr l => forallb finite_numbers l
  | JObj l => forallb (fun kt => finite_numbers kt.2) l
  | _ => true
  end.

Lemma is_ok_true {A} (r : result A) : is_ok r = true <-> exists a, r = Ok a.
Proof. destruct r; simpl; split; [eauto|done|done|by intros [? ?]]. Qed.

Lemma map_res_forallb {A B} (f : A -> result B) (g : A -> bool) l :
  Forall (fun a => (exists b, f a = Ok b) <-> g a = true) l ->
  (exists bs, map_res f l = Ok bs) <-> forallb g l = true.
Proof.
  induction 1 as [|a l Ha Hl IH]; simpl; [split; [done|eauto]|]. rewrite andb_true_iff, <-Ha, <-IH.
  destruct (f a) as [b|]; simpl; [|split; [by intros [? ?]|by intros [[? ?] _]]].
  destruct (map_res f l) as [bs|]; simpl; [naive_solver|]. split; [by intros [? ?]|by intros [_ [? ?]]].
Qed.

(** A tree has a value exactly if its numbers are in range. *)
Lemma value_of_total t : (exists v, value_of t = Ok v) <-> finite_numbers t = true.
Proof.
  induction t as [|b|lit|raw|l IH|l IH] using jtree_nested_ind; simpl; try (split; [done|eauto]).
  - by rewrite is_ok_true.
  - rewrite <-(map_res_forallb value_of) by done. destruct (map_res value_of l); simpl; naive_solver.
  - rewrite <-(map_res_forallb (fun kv => v ← value_of kv.2; Ok (unquoted kv.1, v))).
    + destruct (map_res _ l); simpl; naive_solver.
    + eapply Forall_impl; [exact IH|]. intros [k t] Hk. simpl in *. rewrite <-Hk.
      destruct (value_of t); simpl; naive_solver.
Qed.

(** ** The grammar of RFC 8259 *)

Abbreviation white := (Forall (fun c => is_space c = true)).
Abbreviation all_digits := (Forall (fun c => is_digit c = true)).

(** The body of a string: characters, escapes, [u] escapes. *)
Inductive jbody : list ascii -> Prop :=
| body_nil : jbody []
| body_char c l :
  c ≠ quote -> c ≠ backslash -> 32 <= byte_val c -> jbody l -> jbody (c :: l)
| body_escape e l : simple_escape e = true -> jbody l -> jbody (backslash :: e :: l)
| body_unicode h1 h2 h3 h4 l :
  Forall (fun h => is_hex h = true) [h1; h2; h3; h4] -> jbody l ->
  jbody (backslash :: "u"%char :: h1 :: h2 :: h3 :: h4 :: l).

(** [-] int frac exp *)
Inductive int_lit : list ascii -> Prop :=
| int_zero : int_lit ["0"%char]
| int_digits c l : c ≠ "0"%char -> all_digits (c :: l) -> int_lit (c :: l).

Inductive frac_lit : list ascii -> Prop :=
| frac_none : frac_lit []
| frac_some l : l ≠ [] -> all_digits l -> frac_lit ("."%char :: l).

Inductive exp_lit : list ascii -> Prop :=
| exp_none : exp_lit []
| exp_some c sg l :
  is_exp c = true -> (sg = [] \/ sg = ["-"%char] \/ sg = ["+"%char]) -> l ≠ [] -> all_digits l ->
  exp_lit (c :: sg ++ l).

Definition number_lit (lit : list ascii) : Prop :=
  exists sg i f e, lit = sg ++ i ++ f ++ e /\ (sg = [] \/ sg = ["-"%char]) /\
    int_lit i /\ frac_lit f /\ exp_lit e.

(** The texts of a tree, without surrounding white space; of the elements of an
    array and the members of an object up to the closing bracket. *)
Inductive jtext : jtree -> list ascii -> Prop :=
| text_null : jtext JNull (bytes "null")
| text_true : jtext (JBool true) (bytes "true")
| text_false : jtext (JBool false) (bytes "false")
| text_num lit : number_lit lit -> jtext (JNum lit) lit
| text_str raw : jbody raw -> jtext (JStr raw) (quote :: raw ++ [quote])
| text_arr_nil w : white w -> jtext (JArr []) ("["%char :: w ++ ["]"%char])
| text_arr ts l : jelements ts l -> jtext (JArr ts) ("["%char :: l ++ ["]"%char])
| text_obj_nil w : white w -> jtext (JObj []) ("{"%char :: w ++ ["}"%char])
| text_obj ms l : jmembers ms l -> jtext (JObj ms) ("{"%char :: l ++ ["}"%char])
with jelements : list jtree -> list ascii -> Prop :=
| elements_one w1 t l w2 : white w1 -> jtext t l -> white w2 -> jelements [t] (w1 ++ l ++ w2)
| elements_cons w1 t l w2 ts ls :
  white w1 -> jtext t l -> white w2 -> jelements ts ls ->
  jelements (t :: ts) (w1 ++ l ++ w2 ++ ","%char :: ls)
with jmembers : list (list ascii * jtree) -> list ascii -> Prop :=
| members_one w1 k w2 w3 t l w4 :
  white w1 -> jbody k -> white w2 -> white w3 -> jtext t l -> white w4 ->
  jmembers [(k, t)] (w1 ++ quote :: k ++ quote :: w2 ++ ":"%char :: w3 ++ l ++ w4)
| members_cons w1 k w2 w3 t l w4 ms ls :
  white w1 -> jbody k -> white w2 -> white w3 -> jtext t l -> white w4 -> jmembers ms ls ->
  jmembers ((k, t) :: ms)
    (w1 ++ quote :: k ++ quote :: w2 ++ ":"%char :: w3 ++ l ++ w4 ++ ","%char :: ls).

Scheme text_mut := Minimality for jtext Sort Prop
with elements_mut := Minimality for jelements Sort Prop
with members_mut := Minimality for jmembers Sort Prop.
Combined Scheme text_mutual from text_mut, elements_mut, members_mut.

(** Nesting. *)
Fixpoint nesting (t : jtree) : Z :=
  match t with
  | JArr l => 1 + foldr (fun t n => Z.max (nesting t) n) 0 l
  | JObj l => 1 + foldr (fun kt n => Z.max (nesting kt.2) n) 0 l
  | _ => 0
  end.

(** A document: a text between white space, nested at most 10000 deep. *)
Definition jdocument (t : jtree) (data : string) : Prop :=
  exists w1 l w2, bytes data = w1 ++ l ++ w2 /\ white w1 /\ jtext t l /\ white w2 /\
    nesting t <= maxNestingDepth.

(** ** The scanner against the grammar *)

Lemma skip_ws_split l : exists w, l = w ++ skip_ws l /\ white w.
Proof.
  induction l as [|c l (w & IH & Hw)]; [by exists []|]. simpl. destruct (is_space c) eqn:E.
  - exists (c :: w). split; [simpl; congruence|by constructor].
  - by exists [].
Qed.

Lemma skip_ws_white w l : white w -> skip_ws (w ++ l) = skip_ws l.
Proof. induction 1 as [|c w Hc Hw IH]; simpl; [done|]. by rewrite Hc. Qed.

Lemma skip_ws_all w : white w -> skip_ws w = [].
Proof. intros Hw. rewrite <-(app_nil_r w). by rewrite skip_ws_white. Qed.

Lemma skip_ws_stop c l : is_space c = false -> skip_ws (c :: l) = c :: l.
Proof. intros H. simpl. by rewrite H. Qed.

Lemma scan_string_sound l b r : scan_string l = Ok (b, r) -> l = b ++ quote :: r /\ jbody b.
Proof.
  remember (length l) as n eqn:Hn. revert l Hn b r. induction (Nat.lt_wf_0 n) as [n _ IH].
  intros [|c l] -> b r; simpl; [done|].
  case_bool_decide as Hq; [intros [= <- <-]; subst c; split; [done|constructor]|].
  case_bool_decide as Hb; [subst c|].
  - destruct l as [|e l]; [done|]. destruct (simple_escape e) eqn:He.
    + intros ([b' r'] & E & [= <- <-])%bind_Ok. simpl. apply (IH (length l)) in E as [-> ?]; [|simpl; lia|done].
      split; [done|by constructor].
    + case_bool_decide as Hu; [subst e|done].
      destruct l as [|h1 [|h2 [|h3 [|h4 l]]]]; try done.
      destruct (is_hex h1 && _) eqn:Hh; [|done].
      intros ([b' r'] & E & [= <- <-])%bind_Ok. simpl. apply (IH (length l)) in E as [-> ?]; [|simpl; lia|done].
      split; [done|]. constructor; [|assumption]. rewrite !andb_true_iff in Hh.
      destruct_and!. by repeat constructor.
  - destruct (Z.ltb_spec (byte_val c) 32); [done|].
    intros ([b' r'] & E & [= <- <-])%bind_Ok. simpl. apply (IH (length l)) in E as [-> ?]; [|simpl; lia|done].
    split; [done|by constructor].
Qed.

Lemma scan_string_complete b r : jbody b -> scan_string (b ++ quote :: r) = Ok (b, r).
Proof.
  induction 1 as [|c l Hq Hb Hc Hl IH|e l He Hl IH|h1 h2 h3 h4 l Hh Hl IH]; cbn -[bool_decide].
  - done.
  - rewrite !bool_decide_eq_false_2 by done. destruct (Z.ltb_spec (byte_val c) 32); [lia|].
    by rewrite IH.
  - rewrite bool_decide_eq_false_2, bool_decide_eq_true_2 by done. by rewrite He, IH.
  - rewrite bool_decide_eq_false_2, bool_decide_eq_true_2 by done.
    rewrite !Forall_cons in Hh. destruct Hh as (-> & -> & -> & -> & _). by rewrite IH.
Qed.

Lemma span_digits_sound l d r :
  span_digits l = (d, r) -> l = d ++ r /\ all_digits d.
Proof.
  revert d r. induction l as [|c l IH]; simpl; intros d r; [by intros [= <- <-]|].
  destruct (is_digit c) eqn:E; [|by intros [= <- <-]].
  destruct (span_digits l) as [d' r']. intros [= <- <-].
  destruct (IH d' r' eq_refl) as [-> ?]. split; [done|by constructor].
Qed.

(** What may follow a number: nothing that continues it. *)
Definition number_char (c : ascii) : bool := is_digit c || bool_decide (c = "."%char) || is_exp c.
Definition no_digit (r : list ascii) : Prop := forall c l, r = c :: l -> is_digit c = false.
Definition delimited (r : list ascii) : Prop := forall c l, r = c :: l -> number_char c = false.

Lemma delimited_no_digit r : delimited r -> no_digit r.
Proof. intros H c l ->. specialize (H c l eq_refl). unfold number_char in H. by destruct (is_digit c). Qed.

Lemma span_digits_complete d r : all_digits d -> no_digit r -> span_digits (d ++ r) = (d, r).
Proof.
  intros Hd Hr. induction Hd as [|c d Hc Hd IH]; simpl.
  - destruct r as [|c r]; [done|]. simpl. by rewrite (Hr c r).
  - by rewrite Hc, IH.
Qed.

Lemma digits1_sound ctx l d r : digits1 ctx l = Ok (d, r) -> l = d ++ r /\ d ≠ [] /\ all_digits d.
Proof.
  unfold digits1. destruct (span_digits l) as [[|c d'] r'] eqn:E; [done|]. intros [= <- <-].
  apply span_digits_sound in E as [? ?]. done.
Qed.

Lemma digits1_complete ctx d r :
  d ≠ [] -> all_digits d -> no_digit r -> digits1 ctx (d ++ r) = Ok (d, r).
Proof. intros. unfold digits1. rewrite span_digits_complete by done. by destruct d. Qed.

Lemma scan_number_sound l lit r : scan_number l = Ok (lit, r) -> l = lit ++ r /\ number_lit lit.
Proof.
  unfold scan_number. destruct (scan_sign l) as [sg l0] eqn:Es.
  intros ([i r1] & Ei & ([f r2] & Ef & ([e r3] & Ee & [= <- <-])%bind_Ok)%bind_Ok)%bind_Ok. simpl in *.
  assert (l = sg ++ l0 /\ (sg = [] \/ sg = ["-"%char])) as [-> Hsg].
  { unfold scan_sign in Es. destruct l as [|c l]; [injection Es as <- <-; auto|].
    case_bool_decide; injection Es as <- <-; subst; auto. }
  assert (l0 = i ++ r1 /\ int_lit i) as [-> Hi].
  { unfold scan_int in Ei. destruct l0 as [|c l0]; [done|]. case_bool_decide as Hc.
    - injection Ei as <- <-. subst. split; [done|constructor].
    - apply digits1_sound in Ei as (E & Hne & Hd). split; [done|].
      destruct i as [|x i]; [done|]. injection E as <- _. by constructor. }
  assert (r1 = f ++ r2 /\ frac_lit f) as [-> Hf].
  { unfold scan_frac in Ef. destruct r1 as [|c r1]; [injection Ef as <- <-; by repeat constructor|].
    case_bool_decide as Hc; [|injection Ef as <- <-; by repeat constructor].
    apply bind_Ok in Ef as ([d r'] & (-> & ? & ?)%digits1_sound & [= <- <-]). subst.
    split; [done|by constructor]. }
  assert (r2 = e ++ r3 /\ exp_lit e) as [-> He].
  { unfold scan_exp in Ee. destruct r2 as [|c r2]; [injection Ee as <- <-; by repeat constructor|].
    destruct (is_exp c) eqn:Hc; [|injection Ee as <- <-; by repeat constructor].
    destruct (exp_sign r2) as [es r4] eqn:Hs.
    apply bind_Ok in Ee as ([d r'] & (-> & ? & ?)%digits1_sound & [= <- <-]).
    assert (r2 = es ++ d ++ r' /\ (es = [] \/ es = ["-"%char] \/ es = ["+"%char])) as [-> Hes].
    { unfold exp_sign in Hs. destruct r2 as [|x r2]; [injection Hs as <- ?; auto|].
      do 2 case_bool_decide; simpl in Hs; injection Hs as <- <-; subst; auto. }
    simpl. rewrite <-app_assoc. split; [done|by constructor]. }
  split; [by rewrite <-!app_assoc|]. by exists sg, i, f, e.
Qed.

Lemma is_exp_cases c : is_exp c = true -> c = "e"%char \/ c = "E"%char.
Proof. unfold is_exp. do 2 case_bool_decide; naive_solver. Qed.

Lemma exp_no_digit e r : exp_lit e -> delimited r -> no_digit (e ++ r).
Proof.
  intros He Hr. destruct He as [|c sg l Hc]; [by apply delimited_no_digit|].
  intros x y [= <- _]. by apply is_exp_cases in Hc as [->| ->].
Qed.

Lemma frac_no_digit f e r : frac_lit f -> exp_lit e -> delimited r -> no_digit (f ++ e ++ r).
Proof.
  intros Hf He Hr. destruct Hf as [|l]; [by apply (exp_no_digit e r)|]. by intros x y [= <- _].
Qed.

Lemma digit_not_punct c : is_digit c = true -> c ≠ "-"%char /\ c ≠ "+"%char.
Proof. by intros H; split; intros ->. Qed.

Lemma scan_frac_complete f e r :
  frac_lit f -> exp_lit e -> delimited r -> scan_frac (f ++ e ++ r) = Ok (f, e ++ r).
Proof.
  intros Hf He Hr. destruct Hf as [|l Hl Hd]; cbn -[bool_decide].
  - unfold scan_frac. destruct He as [|c sg l Hc]; simpl.
    + destruct r as [|c r]; [done|]. specialize (Hr c r eq_refl). unfold number_char in Hr.
      by destruct (bool_decide (c = "."%char)); [rewrite orb_true_r in Hr|].
    + by apply is_exp_cases in Hc as [->| ->].
  - rewrite digits1_complete; [done..|]. by apply exp_no_digit.
Qed.

Lemma scan_exp_complete e r : exp_lit e -> delimited r -> scan_exp (e ++ r) = Ok (e, r).
Proof.
  intros He Hr. destruct He as [|c sg l Hc Hsg Hl Hd]; cbn -[bool_decide].
  - unfold scan_exp. destruct r as [|c r]; [done|]. specialize (Hr c r eq_refl).
    unfold number_char in Hr. by destruct (is_exp c); [rewrite orb_true_r in Hr|].
  - rewrite Hc, <-app_assoc.
    assert (exp_sign (sg ++ l ++ r) = (sg, l ++ r)) as ->.
    { destruct Hsg as [->|[->| ->]]; [|done..]. destruct l as [|x l]; [done|].
      rewrite Forall_cons in Hd. destruct Hd as [[Hx1 Hx2]%digit_not_punct _]. simpl.
      by rewrite !bool_decide_eq_false_2. }
    rewrite digits1_complete by (done || by apply delimited_no_digit). done.
Qed.

Lemma scan_number_complete lit r :
  number_lit lit -> delimited r -> scan_number (lit ++ r) = Ok (lit, r).
Proof.
  intros (sg & i & f & e & -> & Hsg & Hi & Hf & He) Hr. unfold scan_number.
  rewrite <-!app_assoc.
  assert (scan_sign (sg ++ i ++ f ++ e ++ r) = (sg, i ++ f ++ e ++ r)) as ->.
  { destruct Hsg as [->| ->]; [|done]. destruct Hi as [|c l Hc Hd]; [done|]. simpl.
    rewrite Forall_cons in Hd. destruct Hd as [[Hx _]%digit_not_punct _].
    by rewrite bool_decide_eq_false_2. }
  assert (scan_int (i ++ f ++ e ++ r) = Ok (i, f ++ e ++ r)) as ->.
  { destruct Hi as [|c l Hc Hd]; [done|]. cbn -[bool_decide digits1].
    rewrite bool_decide_eq_false_2 by done.
    rewrite app_comm_cons. by rewrite digits1_complete by (done || by apply frac_no_digit). }
  simpl. rewrite scan_frac_complete by done. simpl. by rewrite scan_exp_complete.
Qed.

Lemma scan_word_sound word x l r : scan_word word x l = Ok r -> l = x ++ r.
Proof.
  revert l. induction x as [|c x IH]; intros l; simpl; [by intros [= <-]|].
  destruct l as [|y l]; [done|]. case_bool_decide; [|done]. intros E%IH. by subst.
Qed.

Lemma scan_word_complete word x r : scan_word word x (x ++ r) = Ok r.
Proof. induction x as [|c x IH]; simpl; [done|]. by rewrite bool_decide_eq_true_2. Qed.

Lemma max_le_foldr {A} (f : A -> Z) (l : list A) d m :
  0 <= m - d -> Forall (fun a => d + f a <= m) l -> d + foldr (fun a n => Z.max (f a) n) 0 l <= m.
Proof. induction 2; simpl; lia. Qed.

(** The scanner accepts only texts of the grammar, and within the limit of nesting. *)
Definition value_sound (scan : Z -> list ascii -> result (jtree * list ascii)) : Prop :=
  forall d l t r, scan d l = Ok (t, r) -> d <= maxNestingDepth ->
    exists w s, l = w ++ s ++ r /\ white w /\ jtext t s /\ d + nesting t <= maxNestingDepth.
Definition members_sound (scan : Z -> list ascii -> result (list (list ascii * jtree) * list ascii)) : Prop :=
  forall d l ms r, scan d l = Ok (ms, r) -> d <= maxNestingDepth ->
    exists s, l = s ++ "}"%char :: r /\ jmembers ms s /\
      Forall (fun kt => d + nesting kt.2 <= maxNestingDepth) ms.
Definition elements_sound (scan : Z -> list ascii -> result (list jtree * list ascii)) : Prop :=
  forall d l ts r, scan d l = Ok (ts, r) -> d <= maxNestingDepth ->
    exists s, l = s ++ "]"%char :: r /\ jelements ts s /\
      Forall (fun t => d + nesting t <= maxNestingDepth) ts.

(** Normal form of concatenations. *)
Ltac app_flat := repeat (rewrite <-app_assoc || rewrite <-app_comm_cons).

(** Name the white space before the next character. *)
Ltac next_char c l :=
  match goal with
  | |- context [skip_ws ?x] =>
    let w := fresh "w" in let E := fresh "E" in let Hw := fresh "Hw" in
    destruct (skip_ws_split x) as (w & E & Hw); destruct (skip_ws x) as [|c l]; [done|]
  end.

Lemma scan_elements_sound fuel :
  value_sound (scan_value fuel) -> elements_sound (scan_elements fuel) ->
  elements_sound (scan_elements (S fuel)).
Proof.
  intros IHv IHe d l ts r. cbn -[bool_decide maxNestingDepth]. intros ([t r1] & Ev & H)%bind_Ok Hd. simpl in H.
  apply IHv in Ev as (w1 & s & -> & Hw1 & Ht & Hn); [done|]. revert H. next_char c l.
  case_bool_decide as Hc; [|case_bool_decide as Hc']; [subst c|subst c|done].
  - intros ([ts' r'] & Ee & [= <- <-])%bind_Ok.
    apply IHe in Ee as (s' & -> & Hs' & Hns); [done|]. simpl.
    exists (w1 ++ s ++ w ++ ","%char :: s'). split_and!; [|by constructor|by constructor].
    rewrite E. by app_flat.
  - intros [= <- <-]. exists (w1 ++ s ++ w). split_and!; [|by constructor|by constructor].
    rewrite E. by app_flat.
Qed.

Lemma scan_members_sound fuel :
  value_sound (scan_value fuel) -> members_sound (scan_members fuel) ->
  members_sound (scan_members (S fuel)).
Proof.
  intros IHv IHm d l ms r. cbn -[bool_decide maxNestingDepth]. next_char c l1. case_bool_decide as Hc; [subst c|done].
  intros ([k r1] & [-> Hk]%scan_string_sound & H)%bind_Ok Hd. simpl in H. revert H.
  next_char c l2. case_bool_decide as Hc; [subst c|done].
  intros ([t r2] & Ev & H)%bind_Ok. simpl in H.
  apply IHv in Ev as (w3 & s & -> & Hw3 & Ht & Hn); [done|]. revert H. next_char c l3.
  case_bool_decide as Hc; [|case_bool_decide as Hc']; [subst c|subst c|done].
  - intros ([ms' r'] & Ee & [= <- <-])%bind_Ok.
    apply IHm in Ee as (s' & -> & Hs' & Hns); [done|]. simpl.
    eexists. split_and!; [|by apply (members_cons w k w0 w3 t s w1 ms' s')|by constructor].
    rewrite E, E0, E1. by app_flat.
  - intros [= <- <-].
    eexists. split_and!; [|by apply (members_one w k w0 w3 t s w1)|by constructor].
    rewrite E, E0, E1. by app_flat.
Qed.

Lemma elements_white w ts s : white w -> jelements ts s -> jelements ts (w ++ s).
Proof.
  intros Hw [w1 t l w2|w1 t l w2 ts' ls]; rewrite app_assoc; constructor; try done; by apply Forall_app.
Qed.

Lemma members_white w ms s : white w -> jmembers ms s -> jmembers ms (w ++ s).
Proof. intros Hw []; rewrite app_assoc; constructor; try done; by apply Forall_app. Qed.

Lemma scan_value_sound fuel :
  members_sound (scan_members fuel) -> elements_sound (scan_elements fuel) ->
  value_sound (scan_value (S fuel)).
Proof.
  intros IHm IHe d l t r. cbn -[bool_decide maxNestingDepth scan_word scan_number]. next_char c l1. intros H Hd.
  exists w. subst l. revert H.
  case_bool_decide as Hc; [subst c|clear Hc].
  { destruct (Z.ltb_spec maxNestingDepth (d + 1)); [done|]. next_char c l2. subst l1.
    case_bool_decide as Hc; [subst c|].
    - intros [= <- <-]. exists ("{"%char :: w0 ++ ["}"%char]).
      split_and!; [by app_flat|done|by constructor|simpl; lia].
    - intros ([ms r'] & Em & [= <- <-])%bind_Ok.
      apply IHm in Em as (s & Es & Hs & Hn); [lia|]. exists ("{"%char :: (w0 ++ s) ++ ["}"%char]).
      split_and!; [rewrite Es; by app_flat|done|constructor; by apply members_white|].
      simpl. rewrite Z.add_assoc. by apply max_le_foldr; [lia|]. }
  case_bool_decide as Hc; [subst c|clear Hc].
  { destruct (Z.ltb_spec maxNestingDepth (d + 1)); [done|]. next_char c l2. subst l1.
    case_bool_decide as Hc; [subst c|].
    - intros [= <- <-]. exists ("["%char :: w0 ++ ["]"%char]).
      split_and!; [by app_flat|done|by constructor|simpl; lia].
    - intros ([ms r'] & Em & [= <- <-])%bind_Ok.
      apply IHe in Em as (s & Es & Hs & Hn); [lia|]. exists ("["%char :: (w0 ++ s) ++ ["]"%char]).
      split_and!; [rewrite Es; by app_flat|done|constructor; by apply elements_white|].
      simpl. rewrite Z.add_assoc. by apply max_le_foldr; [lia|]. }
  case_bool_decide as Hc; [subst c|clear Hc].
  { intros ([b r'] & [-> Hb]%scan_string_sound & [= <- <-])%bind_Ok. exists (quote :: b ++ [quote]).
    split_and!; [by app_flat|done|by constructor|simpl; lia]. }
  case_bool_decide as Hc; [subst c|clear Hc].
  { intros (r' & ->%scan_word_sound & [= <- <-])%bind_Ok. exists (bytes "true").
    split_and!; [done|done|constructor|simpl; lia]. }
  case_bool_decide as Hc; [subst c|clear Hc].
  { intros (r' & ->%scan_word_sound & [= <- <-])%bind_Ok. exists (bytes "false").
    split_and!; [done|done|constructor|simpl; lia]. }
  case_bool_decide as Hc; [subst c|clear Hc].
  { intros (r' & ->%scan_word_sound & [= <- <-])%bind_Ok. exists (bytes "null").
    split_and!; [done|done|constructor|simpl; lia]. }
  destruct (is_digit c || _); [|done].
  intros ([b r'] & [-> Hb]%scan_number_sound & [= <- <-])%bind_Ok. exists b.
  split_and!; [done|done|by constructor|simpl; lia].
Qed.

Lemma scan_sound fuel :
  value_sound (scan_value fuel) /\ members_sound (scan_members fuel) /\
  elements_sound (scan_elements fuel).
Proof.
  induction fuel as [|fuel (IHv & IHm & IHe)]; [by split_and!|].
  auto using scan_value_sound, scan_members_sound, scan_elements_sound.
Qed.

Lemma skip_ws_idem l : skip_ws (skip_ws l) = skip_ws l.
Proof. induction l as [|c l IH]; simpl; [done|]. destruct (is_space c) eqn:E; [done|]. by apply skip_ws_stop. Qed.

Lemma scan_value_skip fuel d l : scan_value fuel d (skip_ws l) = scan_value fuel d l.
Proof. destruct fuel; [done|]. cbn -[bool_decide scan_word scan_number]. by rewrite skip_ws_idem. Qed.

Lemma scan_elements_skip fuel d l : scan_elements fuel d (skip_ws l) = scan_elements fuel d l.
Proof. destruct fuel; [done|]. cbn -[bool_decide scan_value]. by rewrite scan_value_skip. Qed.

Lemma scan_members_skip fuel d l : scan_members fuel d (skip_ws l) = scan_members fuel d l.
Proof. destruct fuel; [done|]. cbn -[bool_decide scan_value]. by rewrite skip_ws_idem. Qed.

(** The first character of a number, and of any text. *)
Lemma number_head lit : number_lit lit ->
  exists c l, lit = c :: l /\ is_digit c || bool_decide (c = "-"%char) = true.
Proof.
  intros (sg & i & f & e & -> & [->| ->] & Hi & _); simpl; [|by eexists _, _].
  destruct Hi as [|c l _ Hd]; [by eexists _, _|]. simpl. eexists _, _. split; [done|].
  rewrite Forall_cons in Hd. by destruct Hd as [-> _].
Qed.

Lemma text_head t s : jtext t s ->
  exists c l, s = c :: l /\ is_space c = false /\ c ≠ "]"%char /\ c ≠ "}"%char.
Proof.
  destruct 1 as [| | |lit (c & l & -> & Hc)%number_head| | | | |]; try by eexists _, _.
  exists c, l. split_and!; [done| |by intros ->..].
  destruct (is_space c) eqn:E; [|done]. unfold is_space in E.
  apply orb_true_iff in Hc as [Hc| ->%bool_decide_eq_true]; [|done].
  unfold is_digit, in_range in *. case_bool_decide as Hs; [by subst|]. simpl in E. lia.
Qed.

Lemma white_delimited w c l :
  white w -> number_char c = false -> delimited (w ++ c :: l).
Proof.
  intros Hw Hc x y E. destruct Hw as [|z w Hz Hw]; simpl in E; injection E as <- _; [done|].
  unfold number_char. destruct (number_char z) eqn:En; [|by unfold number_char in En].
  exfalso. unfold number_char in En. unfold is_space, is_digit, in_range in *.
  apply orb_true_iff in En as [En|He%is_exp_cases]; [apply orb_true_iff in En as [En|En%bool_decide_eq_true]|].
  - case_bool_decide as Hs; [by subst|]. simpl in Hz. lia.
  - by subst.
  - by destruct He as [->| ->].
Qed.

(** The scanner accepts every text of the grammar within the limit of nesting. *)
Definition value_complete (t : jtree) (s : list ascii) : Prop :=
  forall fuel d w r, white w -> delimited r -> d + nesting t <= maxNestingDepth ->
    (2 * length s < fuel)%nat -> scan_value fuel d (w ++ s ++ r) = Ok (t, r).
Definition elements_complete (ts : list jtree) (s : list ascii) : Prop :=
  forall fuel d r, d + foldr (fun t n => Z.max (nesting t) n) 0 ts <= maxNestingDepth ->
    (2 * length s + 1 < fuel)%nat -> scan_elements fuel d (s ++ "]"%char :: r) = Ok (ts, r).
Definition members_complete (ms : list (list ascii * jtree)) (s : list ascii) : Prop :=
  forall fuel d r, d + foldr (fun kt n => Z.max (nesting kt.2) n) 0 ms <= maxNestingDepth ->
    (2 * length s + 1 < fuel)%nat -> scan_members fuel d (s ++ "}"%char :: r) = Ok (ms, r).

Lemma complete_num lit : number_lit lit -> value_complete (JNum lit) lit.
Proof.
  intros Hn. destruct (number_head lit Hn) as (c & l & -> & Hc).
  intros [|fuel] d w r Hw Hr Hd Hfuel; [lia|]. cbn -[bool_decide maxNestingDepth scan_word scan_number].
  rewrite skip_ws_white by done. destruct (text_head (JNum (c :: l)) (c :: l)) as (c' & l' & [= <- <-] & Hs & _);
    [by constructor|].
  rewrite skip_ws_stop by done.
  assert (forall x, is_digit x || bool_decide (x = "-"%char) = false -> bool_decide (c = x) = false) as Hne.
  { intros x Hx. apply bool_decide_eq_false_2. intros ->. congruence. }
  rewrite (Hne "{"%char), (Hne "["%char), (Hne quote), (Hne "t"%char), (Hne "f"%char), (Hne "n"%char), Hc
    by done.
  rewrite app_comm_cons. by rewrite scan_number_complete.
Qed.

Lemma complete_elements_one w1 t l w2 :
  white w1 -> jtext t l -> value_complete t l -> white w2 -> elements_complete [t] (w1 ++ l ++ w2).
Proof.
  intros Hw1 _ IH Hw2 [|fuel] d r Hd Hfuel; [lia|]. rewrite !length_app in Hfuel. simpl in Hd.
  rewrite <-!app_assoc. cbn -[bool_decide scan_value].
  rewrite IH by (done || lia || by apply white_delimited). simpl. by rewrite skip_ws_white.
Qed.

Lemma complete_elements_cons w1 t l w2 ts ls :
  white w1 -> jtext t l -> value_complete t l -> white w2 -> jelements ts ls -> elements_complete ts ls ->
  elements_complete (t :: ts) (w1 ++ l ++ w2 ++ ","%char :: ls).
Proof.
  intros Hw1 _ IH Hw2 _ IHs [|fuel] d r Hd Hfuel; [lia|]. rewrite !length_app in Hfuel. simpl in Hd, Hfuel.
  rewrite <-!app_assoc. cbn -[bool_decide scan_value].
  rewrite IH by (done || lia || by apply white_delimited). simpl. rewrite skip_ws_white by done. simpl.
  by rewrite IHs by lia.
Qed.

Lemma complete_members_one w1 k w2 w3 t l w4 :
  white w1 -> jbody k -> white w2 -> white w3 -> jtext t l -> value_complete t l -> white w4 ->
  members_complete [(k, t)] (w1 ++ quote :: k ++ quote :: w2 ++ ":"%char :: w3 ++ l ++ w4).
Proof.
  intros Hw1 Hk Hw2 Hw3 _ IH Hw4 [|fuel] d r Hd Hfuel; [lia|].
  repeat (rewrite length_app in Hfuel; simpl in Hfuel). simpl in Hd.
  app_flat. cbn -[bool_decide scan_value scan_string]. rewrite skip_ws_white, skip_ws_stop by done.
  rewrite bool_decide_eq_true_2 by done. rewrite scan_string_complete by done.
  cbn -[bool_decide scan_value]. rewrite skip_ws_white, skip_ws_stop by done.
  rewrite bool_decide_eq_true_2 by done.
  rewrite IH by (done || lia || by apply white_delimited). simpl. by rewrite skip_ws_white.
Qed.

Lemma complete_members_cons w1 k w2 w3 t l w4 ms ls :
  white w1 -> jbody k -> white w2 -> white w3 -> jtext t l -> value_complete t l -> white w4 ->
  jmembers ms ls -> members_complete ms ls ->
  members_complete ((k, t) :: ms)
    (w1 ++ quote :: k ++ quote :: w2 ++ ":"%char :: w3 ++ l ++ w4 ++ ","%char :: ls).
Proof.
  intros Hw1 Hk Hw2 Hw3 _ IH Hw4 _ IHs [|fuel] d r Hd Hfuel; [lia|].
  repeat (rewrite length_app in Hfuel; simpl in Hfuel). simpl in Hd.
  app_flat. cbn -[bool_decide scan_value scan_string]. rewrite skip_ws_white, skip_ws_stop by done.
  rewrite bool_decide_eq_true_2 by done. rewrite scan_string_complete by done.
  cbn -[bool_decide scan_value]. rewrite skip_ws_white, skip_ws_stop by done.
  rewrite bool_decide_eq_true_2 by done.
  rewrite IH by (done || lia || by apply white_delimited). simpl. rewrite skip_ws_white by done. simpl.
  by rewrite IHs by lia.
Qed.

(** The first step of [scan_value] after white space. *)
Lemma scan_value_first fuel d w c l :
  white w -> is_space c = false -> scan_value fuel d (w ++ c :: l) = scan_value fuel d (c :: l).
Proof.
  intros Hw Hc. rewrite <-scan_value_skip, skip_ws_white, skip_ws_stop by done. done.
Qed.

Lemma complete_arr ts s :
  jelements ts s -> elements_complete ts s -> value_complete (JArr ts) ("["%char :: s ++ ["]"%char]).
Proof.
  intros Hs IH [|fuel] d w r Hw Hr Hd Hfuel; [lia|]. simpl in Hd, Hfuel. rewrite length_app in Hfuel.
  simpl in Hfuel. rewrite <-app_comm_cons, scan_value_first by done. app_flat.
  cbn -[bool_decide skip_ws maxNestingDepth scan_elements]. rewrite skip_ws_stop by done.
  rewrite bool_decide_eq_false_2, bool_decide_eq_true_2 by done.
  destruct (Z.ltb_spec maxNestingDepth (d + 1)) as [Hlt|_].
  { exfalso. assert (0 <= foldr (fun t n => Z.max (nesting t) n) 0 ts); [|lia].
    clear. induction ts; simpl; lia. }
  assert (scan_elements fuel (d + 1) (skip_ws (s ++ "]"%char :: r)) = Ok (ts, r)) as E
    by (rewrite scan_elements_skip; apply IH; lia).
  assert (exists c l, skip_ws (s ++ "]"%char :: r) = c :: l /\ c ≠ "]"%char) as (c & l & Es & Hc).
  { destruct Hs as [w1 t l w2 Hw1 (c & l' & -> & ? & ? & _)%text_head _
                   |w1 t l w2 ts ls Hw1 (c & l' & -> & ? & ? & _)%text_head _ _]; app_flat;
      rewrite skip_ws_white, skip_ws_stop by done; eauto. }
  rewrite Es in *. simpl. rewrite bool_decide_eq_false_2 by done. by rewrite E.
Qed.

Lemma complete_obj ms s :
  jmembers ms s -> members_complete ms s -> value_complete (JObj ms) ("{"%char :: s ++ ["}"%char]).
Proof.
  intros Hs IH [|fuel] d w r Hw Hr Hd Hfuel; [lia|]. simpl in Hd, Hfuel. rewrite length_app in Hfuel.
  simpl in Hfuel. rewrite <-app_comm_cons, scan_value_first by done. app_flat.
  cbn -[bool_decide skip_ws maxNestingDepth scan_members]. rewrite skip_ws_stop by done.
  rewrite bool_decide_eq_true_2 by done.
  destruct (Z.ltb_spec maxNestingDepth (d + 1)) as [Hlt|_].
  { exfalso. assert (0 <= foldr (fun kt n => Z.max (nesting kt.2) n) 0 ms); [|lia].
    clear. induction ms; simpl; lia. }
  assert (scan_members fuel (d + 1) (skip_ws (s ++ "}"%char :: r)) = Ok (ms, r)) as E
    by (rewrite scan_members_skip; apply IH; lia).
  assert (exists c l, skip_ws (s ++ "}"%char :: r) = c :: l /\ c ≠ "}"%char) as (c & l & Es & Hc)
    by (destruct Hs; app_flat; rewrite skip_ws_white, skip_ws_stop by done; eauto).
  rewrite Es in *. simpl. rewrite bool_decide_eq_false_2 by done. by rewrite E.
Qed.

Lemma complete_str raw : jbody raw -> value_complete (JStr raw) (quote :: raw ++ [quote]).
Proof.
  intros Hb [|fuel] d w r Hw Hr Hd Hfuel; [lia|]. rewrite <-app_comm_cons, scan_value_first by done.
  app_flat. cbn -[bool_decide skip_ws maxNestingDepth scan_string]. rewrite skip_ws_stop by done.
  rewrite !bool_decide_eq_false_2, bool_decide_eq_true_2 by done.
  by rewrite scan_string_complete.
Qed.

Lemma complete_empty_arr w : white w -> value_complete (JArr []) ("["%char :: w ++ ["]"%char]).
Proof.
  intros Hw' [|fuel] d w' r Hw Hr Hd Hfuel; [lia|]. rewrite <-app_comm_cons, scan_value_first by done.
  app_flat. cbn -[bool_decide skip_ws maxNestingDepth]. rewrite skip_ws_stop by done.
  rewrite bool_decide_eq_false_2, bool_decide_eq_true_2 by done. simpl in Hd.
  destruct (Z.ltb_spec maxNestingDepth (d + 1)) as [Hlt|_]; [lia|].
  rewrite skip_ws_white, skip_ws_stop by done. done.
Qed.

Lemma complete_empty_obj w : white w -> value_complete (JObj []) ("{"%char :: w ++ ["}"%char]).
Proof.
  intros Hw' [|fuel] d w' r Hw Hr Hd Hfuel; [lia|]. rewrite <-app_comm_cons, scan_value_first by done.
  app_flat. cbn -[bool_decide skip_ws maxNestingDepth]. rewrite skip_ws_stop by done.
  rewrite bool_decide_eq_true_2 by done. simpl in Hd.
  destruct (Z.ltb_spec maxNestingDepth (d + 1)) as [Hlt|_]; [lia|].
  rewrite skip_ws_white, skip_ws_stop by done. done.
Qed.

(** Keywords are scanned by computation. *)
Ltac complete_word :=
  intros [|fuel] d w r Hw Hr Hd Hfuel; [lia|];
  cbn -[scan_value]; rewrite scan_value_first by done; done.

Lemma complete_null : value_complete JNull (bytes "null").
Proof. complete_word. Qed.
Lemma complete_true : value_complete (JBool true) (bytes "true").
Proof. complete_word. Qed.
Lemma complete_false : value_complete (JBool false) (bytes "false").
Proof. complete_word. Qed.

Lemma text_complete :
  (forall t s, jtext t s -> value_complete t s) /\
  (forall ts s, jelements ts s -> elements_complete ts s) /\
  (forall ms s, jmembers ms s -> members_complete ms s).
Proof.
  apply text_mutual; auto using complete_null, complete_true, complete_false, complete_num, complete_str,
    complete_empty_arr, complete_empty_obj, complete_arr, complete_obj,
    complete_elements_one, complete_elements_cons, complete_members_one, complete_members_cons.
Qed.

(** The scanner accepts exactly the documents. *)
Theorem checkValid_exact data t : checkValid data = Ok t <-> jdocument t data.
Proof.
  unfold checkValid, jdocument. split.
  - intros ([t' r] & E & H)%bind_Ok. simpl in H.
    apply (proj1 (scan_sound _)) in E as (w & s & E & Hw & Ht & Hn); [done|].
    destruct (skip_ws_split r) as (w2 & Er & Hw2). destruct (skip_ws r); [|done].
    injection H as <-. rewrite app_nil_r in Er. subst w2. by exists w, s, r.
  - intros (w1 & s & w2 & -> & Hw1 & Ht & Hw2 & Hn).
    assert (delimited w2) as Hd.
    { intros c l ->. destruct (number_char c) eqn:E; [|done].
      rewrite Forall_cons in Hw2. destruct Hw2 as [Hc _].
      pose proof (white_delimited [c] "]"%char [] (Forall_cons_2 _ _ _ Hc (Forall_nil_2 _)) eq_refl c _ eq_refl).
      congruence. }
    rewrite (proj1 text_complete t s Ht) by (done || (unfold scan_fuel; rewrite !length_app; lia)).
    simpl. by rewrite skip_ws_all.
Qed.

(** ** Fuel *)

Lemma skip_ws_length l : (length (skip_ws l) <= length l)%nat.
Proof. induction l as [|c l IH]; simpl; [done|]. destruct (is_space c); simpl; lia. Qed.

Lemma bind_ext {A B} (r : result A) (f g : A -> result B) :
  (forall a, r = Ok a -> f a = g a) -> (r ≫= f) = (r ≫= g).
Proof. intros H. destruct r; simpl; auto. Qed.

Section fuel.
Variables (n f1 f2 : nat).
Hypothesis members_eq : forall d l, d <= maxNestingDepth -> (length l < n)%nat ->
  scan_members f1 d l = scan_members f2 d l.
Hypothesis elements_eq : forall d l, d <= maxNestingDepth -> (length l < n)%nat ->
  scan_elements f1 d l = scan_elements f2 d l.

Lemma scan_value_fuel d l :
  d <= maxNestingDepth -> (length l <= n)%nat -> scan_value (S f1) d l = scan_value (S f2) d l.
Proof using members_eq elements_eq.
  intros Hd Hl. cbn -[bool_decide maxNestingDepth scan_word scan_number].
  pose proof (skip_ws_length l). destruct (skip_ws l) as [|c l1]; [done|]. simpl in *.
  pose proof (skip_ws_length l1). destruct (Z.ltb_spec maxNestingDepth (d + 1)); [done|].
  destruct (skip_ws l1) as [|c2 l2]; [done|]. simpl in *.
  case_bool_decide; [case_bool_decide; [done|]|case_bool_decide; [case_bool_decide; [done|]|done]].
  - by rewrite members_eq by (simpl; lia).
  - by rewrite elements_eq by (simpl; lia).
Qed.
End fuel.

(** What a value leaves is shorter. *)
Lemma scan_value_shorter fuel d l t r :
  scan_value fuel d l = Ok (t, r) -> d <= maxNestingDepth -> (length r < length l)%nat.
Proof.
  intros E Hd. apply (proj1 (scan_sound _)) in E as (w & s & -> & _ & (c & s' & -> & _)%text_head & _); [done|].
  rewrite !length_app. simpl. lia.
Qed.

Lemma scan_string_shorter l b r : scan_string l = Ok (b, r) -> (length r < length l)%nat.
Proof. intros [-> _]%scan_string_sound. rewrite length_app. simpl. lia. Qed.

Lemma scan_fuel_eq n :
  (forall d l f1 f2, d <= maxNestingDepth -> (length l <= n)%nat -> (2 * n < f1)%nat -> (2 * n < f2)%nat ->
     scan_value f1 d l = scan_value f2 d l) /\
  (forall d l f1 f2, d <= maxNestingDepth -> (length l <= n)%nat -> (2 * n + 1 < f1)%nat -> (2 * n + 1 < f2)%nat ->
     scan_members f1 d l = scan_members f2 d l) /\
  (forall d l f1 f2, d <= maxNestingDepth -> (length l <= n)%nat -> (2 * n + 1 < f1)%nat -> (2 * n + 1 < f2)%nat ->
     scan_elements f1 d l = scan_elements f2 d l).
Proof.
  induction n as [n IH] using lt_wf_ind.
  assert (forall d l f1 f2, d <= maxNestingDepth -> (length l < n)%nat -> (2 * n <= f1 + 0)%nat -> (2 * n <= f2)%nat ->
    scan_members f1 d l = scan_members f2 d l /\ scan_elements f1 d l = scan_elements f2 d l) as Hlt.
  { intros d l f1 f2 Hd Hl H1 H2. destruct (IH (n - 1)%nat ltac:(lia)) as (_ & IHm & IHe).
    split; [apply IHm|apply IHe]; lia || done. }
  assert (forall d l f1 f2, d <= maxNestingDepth -> (length l <= n)%nat -> (2 * n < f1)%nat -> (2 * n < f2)%nat ->
    scan_value f1 d l = scan_value f2 d l) as Hv.
  { intros d l [|f1] [|f2] Hd Hl H1 H2; try lia.
    apply (scan_value_fuel n); try done; intros; apply Hlt; lia || done. }
  split_and!; [done| |].
  - intros d l [|f1] [|f2] Hd Hl H1 H2; try lia. cbn -[bool_decide scan_value scan_string].
    pose proof (skip_ws_length l). destruct (skip_ws l) as [|c l1]; [done|]. case_bool_decide; [|done].
    apply bind_ext. intros [k r] Hk%scan_string_shorter. simpl in *.
    pose proof (skip_ws_length r). destruct (skip_ws r) as [|c2 l2]; [done|]. case_bool_decide; [|done].
    rewrite (Hv d l2 f1 f2) by (simpl in *; lia || done).
    apply bind_ext. intros [t r2] Ht%scan_value_shorter; [|done]. simpl in *.
    pose proof (skip_ws_length r2). destruct (skip_ws r2) as [|c3 l3]; [done|]. case_bool_decide; [|done].
    simpl in *. by rewrite (proj1 (Hlt d l3 f1 f2 ltac:(done) ltac:(lia) ltac:(lia) ltac:(lia))).
  - intros d l [|f1] [|f2] Hd Hl H1 H2; try lia. cbn -[bool_decide scan_value].
    rewrite (Hv d l f1 f2) by (lia || done).
    apply bind_ext. intros [t r] Ht%scan_value_shorter; [|done]. simpl in *.
    pose proof (skip_ws_length r). destruct (skip_ws r) as [|c l1]; [done|]. case_bool_decide; [|done].
    simpl in *. by rewrite (proj2 (Hlt d l1 f1 f2 ltac:(done) ltac:(lia) ltac:(lia) ltac:(lia))).
Qed.

(** More fuel does not change the verdict of the scanner. *)
Lemma checkValid_fuel fuel l : (scan_fuel l <= fuel)%nat -> scan_value fuel 0 l = scan_value (scan_fuel l) 0 l.
Proof.
  intros H. unfold scan_fuel in *. by apply (proj1 (scan_fuel_eq (length l))); lia || done.
Qed.

(** ** Decoding against the grammar *)

(** [data] is a JSON document with value [v]. *)
Definition denotes (data : string) (v : any) : Prop := exists t, jdocument t data /\ value_of t = Ok v.

Lemma Unmarshal_exact data v : Unmarshal data = Ok v <-> denotes data v.
Proof.
  unfold Unmarshal, denotes. rewrite bind_Ok. by setoid_rewrite checkValid_exact.
Qed.

(** Decoding to a map: an object, or [null]. *)
Lemma unmarshal_map_exact data m :
  unmarshal_map data = Ok m <-> denotes data (VMap m) \/ (denotes data VNil /\ m = ∅).
Proof.
  unfold unmarshal_map, denotes. rewrite bind_Ok. setoid_rewrite checkValid_exact. split.
  - intros (t & Ht & H). destruct t as [|b|lit|raw|l|l]; try done; [injection H as <-; right; eauto|].
    left. exists (JObj l). split; [done|]. apply bind_Ok in H as (v & Hv & [= <-]). simpl in Hv |- *.
    by destruct (map_res _ l); simpl in *; [injection Hv as <-|].
  - intros [(t & Ht & Hv)|[(t & Ht & Hv) ->]]; exists t; (split; [done|]);
      destruct t as [|b|lit|raw|l|l]; simpl in *; try done.
    all: try (unfold convertNumber in Hv; by destruct (ParseFloat lit)).
    all: try by destruct (map_res value_of l).
    all: by destruct (map_res _ l); simpl in *; simplify_eq.
Qed.

(** A document whose numbers are in range. *)
Definition json (data : string) : Prop := exists t, jdocument t data /\ finite_numbers t = true.

(** A document that is an object, or [null]. *)
Definition json_object (data : string) : Prop :=
  exists t, jdocument t data /\ finite_numbers t = true /\ (t = JNull \/ exists ms, t = JObj ms).

Lemma Unmarshal_total data : (exists v, Unmarshal data = Ok v) <-> json data.
Proof.
  setoid_rewrite Unmarshal_exact. unfold denotes, json. setoid_rewrite <-value_of_total. naive_solver.
Qed.

Lemma unmarshal_map_total data : (exists m, unmarshal_map data = Ok m) <-> json_object data.
Proof.
  unfold unmarshal_map, json_object. setoid_rewrite bind_Ok. setoid_rewrite checkValid_exact.
  setoid_rewrite <-value_of_total. split.
  - intros (m & t & Ht & H). exists t. destruct t; try done; [split_and!; eauto|].
    apply bind_Ok in H as (v & Hv & _). split_and!; eauto.
  - intros (t & Ht & [v Hv] & [->|[ms ->]]); [by eexists _, _|]. eexists _, _. split; [done|].
    cbn -[value_of]. by rewrite Hv.
Qed.

Lemma json_object_json data : json_object data -> json data.
Proof. intros (t & ? & ? & _). by exists t. Qed.

(** ** Examples *)

(** [{"a": [1, 0.1, "\u00e9"], "b": null, "b": true}]: the later [b] wins. *)
Example decode_object :
  Unmarshal (of_bytes (bytes "{" ++ quote :: bytes "a" ++ quote :: bytes ": [1, 0.1, " ++
    quote :: bytes "\u00e9" ++ quote :: bytes "], " ++ quote :: bytes "b" ++ quote :: bytes ": null, " ++
    quote :: bytes "b" ++ quote :: bytes ": true} "))
  = Ok (VMap (<["b" := VBool true]>
         {["a" := VList [VFloat (S754_finite false 4503599627370496 (-52));
                         VFloat (S754_finite false 7205759403792794 (-56)); VStr "é"]]})).
Proof. vm_compute. reflexivity. Qed.

Example decode_trailing_comma :
  Unmarshal "[1,]" = Err (Msg "invalid character %q %s" [AInt 93; AStr "looking for beginning of value"]).
Proof. reflexivity. Qed.

(** The literal is valid JSON, but not a [float64]. *)
Example decode_out_of_range : is_ok (checkValid "1e309") = true /\ is_ok (Unmarshal "1e309") = false.
Proof. vm_compute. done. Qed.
