(* ===== verification/DeepCopy.v ===== *)
(** * Deep copies: [api/v1alpha1/zz_generated.deepcopy.go]

    Elsewhere values are immutable and a deep copy is the identity.  Here the
    generated functions are modelled on a heap with sharing, which is what they
    are for: objects from the cache of controller-runtime are shared by all
    reconcilers and must not be written through.  A Go value is a scalar, a struct
    or a reference (pointer, slice, map) to a cell of the heap; every generated
    function is a computation on the heap, written with the combinators [ptr],
    [slice], [gomap] and [copy_struct], one per statement form of the generator.
    Its correctness is the class [Copies]: the copy reads like the original and
    reaches only cells that are new. *)

From S2P Require Import Prelude.

(** ** Go values on a heap *)

Abbreviation loc := positive.

Inductive gval :=
| GScalar (s : string)
| GStruct (fields : gmap string gval)
| GRef (l : option loc).

(** What a reference points to: a variable, a backing array, a hash table. *)
Inductive cell :=
| CVar (v : gval)
| CSlice (vs : list gval)
| CMap (kvs : list (string * gval)).

Abbreviation heap := (gmap loc cell).

(** Types, as far as copying is concerned: scalars are all types without
    references that Go copies by assignment (numbers, strings, booleans). *)
Inductive gtype :=
| TScalar
| TStruct (fields : list (string * gtype))
| TPtr (t : gtype)
| TSlice (t : gtype)
| TMap (t : gtype).

(** What can be observed of a value: everything but the addresses. *)
Inductive tree :=
| Leaf (s : string)
| Node (fields : list (string * tree))
| Nil
| Var (t : tree)
| Seq (ts : list tree)
| Dict (kts : list (string * tree)).

(** A copying function takes the value of the source and returns that of the
    target, allocating on the way. *)
Definition copier : Type := gval -> heap -> gval * heap.

Definition alloc (c : cell) (h : heap) : loc * heap := let l := fresh (dom h) in (l, <[l := c]> h).

(** A loop that copies element by element. *)
Fixpoint copy_list (c : copier) (vs : list gval) (h : heap) : list gval * heap :=
  match vs with
  | [] => ([], h)
  | v :: vs => let '(v', h1) := c v h in let '(vs', h2) := copy_list c vs h1 in (v' :: vs', h2)
  end.

(** [*out = *in] alone. *)
Definition assign : copier := fun v h => (v, h).

(** [if in.F != nil { *out = new(T); ( *in).DeepCopyInto( *out) }]; with [assign]
    for [**out = **in]. *)
Definition ptr (c : copier) : copier := fun v h =>
  match v with
  | GRef (Some l) =>
    match h !! l with
    | Some (CVar x) =>
      let '(l', h1) := alloc (CVar (GScalar "")) h in
      let '(x', h2) := c x h1 in (GRef (Some l'), <[l' := CVar x']> h2)
    | _ => (v, h)
    end
  | _ => (v, h)
  end.

(** [if in.F != nil { *out = make([]T, len( *in)); for i := range *in { .. } }];
    with [assign] for [copy( *out, *in)]. *)
Definition slice (c : copier) : copier := fun v h =>
  match v with
  | GRef (Some l) =>
    match h !! l with
    | Some (CSlice vs) =>
      let '(l', h1) := alloc (CSlice []) h in
      let '(vs', h2) := copy_list c vs h1 in (GRef (Some l'), <[l' := CSlice vs']> h2)
    | _ => (v, h)
    end
  | _ => (v, h)
  end.

(** [if in.F != nil { *out = make(map[string]T, len( *in)); for key, val := range *in { .. } }]. *)
Definition gomap (c : copier) : copier := fun v h =>
  match v with
  | GRef (Some l) =>
    match h !! l with
    | Some (CMap kvs) =>
      let '(l', h1) := alloc (CMap []) h in
      let '(vs', h2) := copy_list c kvs.*2 h1 in (GRef (Some l'), <[l' := CMap (zip kvs.*1 vs')]> h2)
    | _ => (v, h)
    end
  | _ => (v, h)
  end.

(** The statements of a [DeepCopyInto] in order, after [*out = *in]. *)
Fixpoint copy_fields (steps : list (string * copier)) (inp out : gmap string gval) (h : heap)
    : gmap string gval * heap :=
  match steps with
  | [] => (out, h)
  | (f, c) :: steps =>
    match inp !! f with
    | Some x => let '(x', h1) := c x h in copy_fields steps inp (<[f := x']> out) h1
    | None => copy_fields steps inp out h
    end
  end.

Definition copy_struct (steps : list (string * copier)) : copier := fun v h =>
  match v with
  | GStruct m => let '(m', h') := copy_fields steps m m h in (GStruct m', h')
  | _ => (v, h)
  end.

#[local] Arguments alloc : simpl never.
#[local] Arguments ptr : simpl never.
#[local] Arguments slice : simpl never.
#[local] Arguments gomap : simpl never.
#[local] Arguments copy_struct : simpl never.

(** ** Reading *)

Fixpoint list_read {A B} (f : A -> option (B * list loc)) (l : list A) : option (list B * list loc) :=
  match l with
  | [] => Some ([], [])
  | a :: l => '(b, L1) ← f a; '(bs, L2) ← list_read f l; Some (b :: bs, L1 ++ L2)
  end.

(** The tree of a value of a type, and the cells it reaches; [None] for a value that
    is not of the type or dangles. *)
Fixpoint read (h : heap) (t : gtype) (v : gval) {struct t} : option (tree * list loc) :=
  let elem {A} (l : loc) (get : cell -> option A) : option A := h !! l ≫= get in
  match t, v with
  | TScalar, GScalar s => Some (Leaf s, [])
  | TStruct fields, GStruct m =>
    '(ts, L) ← list_read (fun ft : string * gtype =>
       x ← m !! ft.1; '(t, L) ← read h ft.2 x; Some ((ft.1, t), L)) fields;
    Some (Node ts, L)
  | TPtr t, GRef (Some l) =>
    x ← elem l (fun c => match c with CVar x => Some x | _ => None end);
    '(tr, L) ← read h t x; Some (Var tr, l :: L)
  | TSlice t, GRef (Some l) =>
    vs ← elem l (fun c => match c with CSlice vs => Some vs | _ => None end);
    '(ts, L) ← list_read (read h t) vs; Some (Seq ts, l :: L)
  | TMap t, GRef (Some l) =>
    kvs ← elem l (fun c => match c with CMap kvs => Some kvs | _ => None end);
    '(ts, L) ← list_read (fun kv : string * gval => '(tr, L) ← read h t kv.2; Some ((kv.1, tr), L)) kvs;
    Some (Dict ts, l :: L)
  | (TPtr _ | TSlice _ | TMap _), GRef None => Some (Nil, [])
  | _, _ => None
  end.

(** Types without references. *)
Fixpoint flat (t : gtype) : bool :=
  match t with
  | TScalar => true
  | TStruct fields => forallb (fun ft => flat ft.2) fields
  | _ => false
  end.

Lemma gtype_nested_ind (P : gtype -> Prop) :
  P TScalar -> (forall fields, Forall (fun ft => P ft.2) fields -> P (TStruct fields)) ->
  (forall t, P t -> P (TPtr t)) -> (forall t, P t -> P (TSlice t)) -> (forall t, P t -> P (TMap t)) ->
  forall t, P t.
Proof.
  intros Hs Hst Hp Hsl Hm. fix IH 1. intros [|fields|t|t|t];
    [exact Hs| |apply Hp, IH|apply Hsl, IH|apply Hm, IH].
  apply Hst. induction fields as [|[f t] fields IHf]; constructor; [apply IH|apply IHf].
Qed.

(** ** Reading depends only on what is reached *)

Lemma list_read_impl {A B} (f g : A -> option (B * list loc)) l bs L (P : loc -> Prop) :
  (forall a b L', a ∈ l -> f a = Some (b, L') -> Forall P L' -> g a = Some (b, L')) ->
  list_read f l = Some (bs, L) -> Forall P L -> list_read g l = Some (bs, L).
Proof.
  revert bs L. induction l as [|a l IH]; intros bs L Hfg; cbn [list_read]; [done|].
  destruct (f a) as [[b L1]|] eqn:Ea; [|done]. cbn.
  destruct (list_read f l) as [[bs' L2]|] eqn:El; [|done]. cbn.
  intros [= <- <-] [H1 H2]%Forall_app. rewrite (Hfg a b L1) by (done || by left). cbn.
  erewrite IH; [done| |done|done]. intros a' b' L' Ha. apply Hfg. by right.
Qed.

Lemma read_agree t v h h' tr L :
  read h t v = Some (tr, L) -> Forall (fun l => h' !! l = h !! l) L -> read h' t v = Some (tr, L).
Proof.
  revert v tr L. induction t as [|fields IH|t IH|t IH|t IH] using gtype_nested_ind; intros v tr L;
    destruct v as [s|m|[l|]]; try done; cbn.
  - destruct (list_read _ fields) as [[ts L']|] eqn:E; [|done]. cbn. intros [= <- <-] HL.
    erewrite (list_read_impl _ _ fields ts L' (fun l => h' !! l = h !! l)); [done| |exact E|done].
    intros [f t] b L1 Hin. cbn. destruct (m !! f) as [x|]; [|done]. cbn.
    destruct (read h t x) as [[tr1 L2]|] eqn:Ex; [|done]. cbn. intros [= <- <-] HL'.
    rewrite Forall_forall in IH. specialize (IH (f, t) Hin x tr1 L2 Ex HL'). cbn in IH. by rewrite IH.
  - destruct (h !! l) as [[x| |]|] eqn:El; try done. cbn.
    destruct (read h t x) as [[tr1 L1]|] eqn:Ex; [|done]. cbn. intros [= <- <-] [Hl HL]%Forall_cons.
    rewrite Hl, El. cbn. by rewrite (IH x tr1 L1 Ex HL).
  - destruct (h !! l) as [[|vs|]|] eqn:El; try done. cbn.
    destruct (list_read _ vs) as [[ts L1]|] eqn:Ex; [|done]. cbn. intros [= <- <-] [Hl HL]%Forall_cons.
    rewrite Hl, El. cbn.
    erewrite (list_read_impl _ _ vs ts L1 (fun l => h' !! l = h !! l)); [done| |exact Ex|done]. eauto.
  - destruct (h !! l) as [[| |kvs]|] eqn:El; try done. cbn.
    destruct (list_read _ kvs) as [[ts L1]|] eqn:Ex; [|done]. cbn. intros [= <- <-] [Hl HL]%Forall_cons.
    rewrite Hl, El. cbn.
    erewrite (list_read_impl _ _ kvs ts L1 (fun l => h' !! l = h !! l)); [done| |exact Ex|done].
    intros [k x] b L2 _. cbn. destruct (read h t x) as [[tr1 L3]|] eqn:Er; [|done]. cbn.
    intros [= <- <-] HL'. by rewrite (IH x tr1 L3 Er HL').
Qed.

(** What is reached is allocated. *)
Lemma list_read_Forall {A B} (f : A -> option (B * list loc)) l bs L (P : loc -> Prop) :
  (forall a b L', a ∈ l -> f a = Some (b, L') -> Forall P L') ->
  list_read f l = Some (bs, L) -> Forall P L.
Proof.
  revert bs L. induction l as [|a l IH]; intros bs L Hf; cbn [list_read]; [intros [= <- <-]; constructor|].
  destruct (f a) as [[b L1]|] eqn:Ea; [|done]. cbn.
  destruct (list_read f l) as [[bs' L2]|] eqn:El; [|done]. cbn. intros [= <- <-].
  apply Forall_app. split; [apply (Hf a b); [by left|done]|].
  apply (IH bs'); [|done]. intros a' b' L' Ha. apply Hf. by right.
Qed.

Lemma read_allocated t v h tr L : read h t v = Some (tr, L) -> Forall (fun l => is_Some (h !! l)) L.
Proof.
  revert v tr L. induction t as [|fields IH|t IH|t IH|t IH] using gtype_nested_ind; intros v tr L;
    destruct v as [s|m|[l|]]; try done; cbn; try by intros [= <- <-].
  - destruct (list_read _ fields) as [[ts L']|] eqn:E; [|done]. cbn. intros [= <- <-].
    refine (list_read_Forall _ _ _ _ _ _ E).
    intros [f t] b L1 Hin. cbn. destruct (m !! f) as [x|]; [|done]. cbn.
    destruct (read h t x) as [[tr1 L2]|] eqn:Ex; [|done]. cbn. intros [= <- <-].
    rewrite Forall_forall in IH. by apply (IH (f, t) Hin x tr1).
  - destruct (h !! l) as [[x| |]|] eqn:El; try done. cbn.
    destruct (read h t x) as [[tr1 L1]|] eqn:Ex; [|done]. cbn. intros [= <- <-].
    constructor; [eauto|]. by apply (IH x tr1).
  - destruct (h !! l) as [[|vs|]|] eqn:El; try done. cbn.
    destruct (list_read _ vs) as [[ts L1]|] eqn:Ex; [|done]. cbn. intros [= <- <-].
    constructor; [eauto|]. refine (list_read_Forall _ _ _ _ _ _ Ex). eauto.
  - destruct (h !! l) as [[| |kvs]|] eqn:El; try done. cbn.
    destruct (list_read _ kvs) as [[ts L1]|] eqn:Ex; [|done]. cbn. intros [= <- <-].
    constructor; [eauto|]. refine (list_read_Forall _ _ _ _ _ _ Ex).
    intros [k x] b L2 _. cbn. destruct (read h t x) as [[tr1 L3]|] eqn:Er; [|done]. cbn.
    intros [= <- <-]. by apply (IH x tr1).
Qed.

Lemma read_mono t v h h' tr L : read h t v = Some (tr, L) -> h ⊆ h' -> read h' t v = Some (tr, L).
Proof.
  intros Hr Hsub. apply (read_agree t v h); [done|].
  eapply Forall_impl; [by eapply read_allocated|]. intros l [c Hc]. rewrite Hc. by eapply lookup_weaken.
Qed.

Lemma list_read_mono t vs h h' ts L :
  list_read (read h t) vs = Some (ts, L) -> h ⊆ h' -> list_read (read h' t) vs = Some (ts, L).
Proof.
  intros Hr Hsub. eapply (list_read_impl _ _ vs ts L (fun _ => True)); [|done|by apply Forall_true].
  intros a b L' _ Ha _. by eapply read_mono.
Qed.

(** ** What a copying function promises *)

(** The copy reads like the original, reaches only new cells, and the cells that
    were there are untouched. *)
Class Copies (t : gtype) (c : copier) : Prop :=
  copies v h tr L : read h t v = Some (tr, L) ->
    exists v' h' L', c v h = (v', h') /\ h ⊆ h' /\ read h' t v' = Some (tr, L') /\
      Forall (fun l => h !! l = None) L'.

Lemma flat_reaches t v h tr L : flat t = true -> read h t v = Some (tr, L) -> L = [].
Proof.
  revert v tr L. induction t as [|fields IH|t IH|t IH|t IH] using gtype_nested_ind; intros v tr L;
    destruct v as [s|m|l]; try done; cbn; [by intros _ [= _ <-]|].
  intros Hf. destruct (list_read _ fields) as [[ts L']|] eqn:E; [|done]. cbn. intros [= _ <-].
  enough (Forall (fun _ => False) L') as HL by (by destruct HL).
  refine (list_read_Forall _ _ _ _ _ _ E). intros [f t] b L1 Hin. cbn.
  destruct (m !! f) as [x|]; [|done]. cbn.
  destruct (read h t x) as [[tr1 L2]|] eqn:Ex; [|done]. cbn. intros [= <- <-].
  rewrite Forall_forall in IH. rewrite forallb_forall in Hf.
  specialize (IH (f, t) Hin x tr1 L2 (Hf (f, t) (proj1 (list_elem_of_In _ _) Hin)) Ex). by subst.
Qed.

(** A value without references is copied by assignment. *)
Lemma Copies_assign t : flat t = true -> Copies t assign.
Proof.
  intros Hf v h tr L Hr. exists v, h, L. split_and!; [done..|].
  rewrite (flat_reaches t v h tr L Hf Hr). constructor.
Qed.

(** Freshness is inherited by smaller heaps. *)
Lemma fresh_weaken (h h1 : heap) L :
  h ⊆ h1 -> Forall (fun l => h1 !! l = None) L -> Forall (fun l => h !! l = None) L.
Proof. intros Hsub H. eapply Forall_impl; [exact H|]. intros l Hl. cbn in *. by apply (lookup_weaken_None h h1 l). Qed.

Lemma copy_list_spec t c vs h ts L :
  Copies t c -> list_read (read h t) vs = Some (ts, L) ->
  exists vs' h' L', copy_list c vs h = (vs', h') /\ h ⊆ h' /\
    list_read (read h' t) vs' = Some (ts, L') /\ Forall (fun l => h !! l = None) L'.
Proof.
  intros Hc. revert h ts L. induction vs as [|v vs IH]; intros h ts L; cbn [list_read copy_list].
  { intros [= <- <-]. exists [], h, []. by split_and!. }
  destruct (read h t v) as [[tr L1]|] eqn:Ev; [|done]. cbn.
  destruct (list_read _ vs) as [[ts' L2]|] eqn:El; [|done]. cbn. intros [= <- <-].
  destruct (copies v h tr L1 Ev) as (v' & h1 & L1' & -> & Hsub1 & Hr1 & Hf1).
  destruct (IH h1 ts' L2) as (vs' & h2 & L2' & -> & Hsub2 & Hr2 & Hf2); [by eapply list_read_mono|].
  exists (v' :: vs'), h2, (L1' ++ L2'). split_and!; [done|by etrans| |].
  - cbn. rewrite (read_mono t v' h1 h2 tr L1') by done. cbn. by rewrite Hr2.
  - apply Forall_app. split; [done|]. by eapply fresh_weaken.
Qed.

(** The cell allocated by [new] or [make], filled at the end. *)
Lemma alloc_spec (x : cell) (h : heap) :
  let '(l, h1) := alloc x h in h !! l = None /\ h1 = <[l := x]> h /\ h ⊆ h1.
Proof.
  unfold alloc. assert (h !! fresh (dom h) = None) by (apply not_elem_of_dom, is_fresh).
  split_and!; [done|done|by apply insert_subseteq].
Qed.

Section fill.
Context (h h2 : heap) (l : loc) (x y : cell).
Hypotheses (Hl : h !! l = None) (Hsub : <[l := x]> h ⊆ h2).

Lemma fill_subseteq : h ⊆ <[l := y]> h2.
Proof using Hl Hsub.
  apply map_subseteq_spec. intros k c Hk. rewrite lookup_insert_ne by congruence.
  eapply lookup_weaken; [|exact Hsub]. rewrite lookup_insert_ne by congruence. done.
Qed.

Lemma fill_agree L :
  Forall (fun k => <[l := x]> h !! k = None) L -> Forall (fun k => <[l := y]> h2 !! k = h2 !! k) L.
Proof.
  intros H. eapply Forall_impl; [exact H|]. intros k Hk. destruct (decide (k = l)) as [->|].
  - by rewrite lookup_insert_eq in Hk.
  - by rewrite lookup_insert_ne.
Qed.

Lemma fill_fresh L :
  Forall (fun k => <[l := x]> h !! k = None) L -> Forall (fun k => h !! k = None) (l :: L).
Proof using Hl.
  intros H. constructor; [done|]. eapply Forall_impl; [exact H|]. intros k Hk.
  by apply lookup_insert_None in Hk as [? _].
Qed.
End fill.

#[export] Instance Copies_ptr t c : Copies t c -> Copies (TPtr t) (ptr c).
Proof.
  intros Hc v h tr L. destruct v as [s|m|[l|]]; try done; cbn [read].
  2:{ intros [= <- <-]. exists (GRef None), h, []. by split_and!. }
  destruct (h !! l) as [[x| |]|] eqn:El; try done. cbn.
  destruct (read h t x) as [[tr1 L1]|] eqn:Ex; [|done]. cbn. intros [= <- <-].
  unfold ptr. rewrite El. pose proof (alloc_spec (CVar (GScalar "")) h) as Ha.
  destruct (alloc _ h) as [l' h1]. destruct Ha as (Hl' & -> & Hsub1).
  destruct (copies x _ tr1 L1 (read_mono _ _ _ _ _ _ Ex Hsub1)) as (x' & h2 & L' & -> & Hsub2 & Hr & Hf).
  eexists _, _, (l' :: L'). split_and!; [done|by eapply fill_subseteq| |by eapply fill_fresh].
  cbn. rewrite lookup_insert_eq. cbn.
  rewrite (read_agree t x' h2 _ tr1 L') by (done || by eapply fill_agree). done.
Qed.

#[export] Instance Copies_slice t c : Copies t c -> Copies (TSlice t) (slice c).
Proof.
  intros Hc v h tr L. destruct v as [s|m|[l|]]; try done; cbn [read].
  2:{ intros [= <- <-]. exists (GRef None), h, []. by split_and!. }
  destruct (h !! l) as [[|vs|]|] eqn:El; try done. cbn.
  destruct (list_read _ vs) as [[ts L1]|] eqn:Ex; [|done]. cbn. intros [= <- <-].
  unfold slice. rewrite El. pose proof (alloc_spec (CSlice []) h) as Ha.
  destruct (alloc _ h) as [l' h1]. destruct Ha as (Hl' & -> & Hsub1).
  destruct (copy_list_spec t c vs _ ts L1 Hc (list_read_mono _ _ _ _ _ _ Ex Hsub1))
    as (vs' & h2 & L' & -> & Hsub2 & Hr & Hf).
  eexists _, _, (l' :: L'). split_and!; [done|by eapply fill_subseteq| |by eapply fill_fresh].
  cbn. rewrite lookup_insert_eq. cbn.
  rewrite (list_read_impl (read h2 t) _ vs' ts L' (fun k => <[l' := CSlice vs']> h2 !! k = h2 !! k));
    [done| |done|by eapply fill_agree].
  intros a b L2 _ Ha HL. by eapply read_agree.
Qed.

(** The values of a map, with and without their keys. *)
Lemma list_read_zip t h (ks : list string) (vs : list gval) ts L :
  length ks = length vs ->
  list_read (fun kv : string * gval => '(tr, L) ← read h t kv.2; Some ((kv.1, tr), L)) (zip ks vs)
    = Some (ts, L) <->
  exists trs, ts = zip ks trs /\ length trs = length vs /\ list_read (read h t) vs = Some (trs, L).
Proof.
  revert vs ts L. induction ks as [|k ks IH]; intros [|v vs] ts L; try done; cbn [zip zip_with list_read].
  { intros _. split; [intros [= <- <-]; by exists []|by intros ([|??] & -> & _ & [= <-])]. }
  cbn. intros [= Hlen]. destruct (read h t v) as [[tr L1]|]; cbn.
  2:{ split; [done|by intros (? & _ & _ & ?)]. }
  specialize (IH vs). destruct (list_read (fun kv => _) (zip ks vs)) as [[ts' L2]|] eqn:E; cbn.
  - destruct (proj1 (IH ts' L2 Hlen) eq_refl) as (trs & -> & Ht & ->). cbn. split.
    + intros [= <- <-]. exists (tr :: trs). split_and!; [done|by cbn; f_equal|done].
    + by intros (? & -> & _ & [= <- <-]).
  - split; [done|]. intros (trs & -> & Ht & Hr).
    destruct (list_read (read h t) vs) as [[trs' L2]|] eqn:Ev; [|done]. cbn in Hr.
    assert (length trs' = length vs) as Hl'.
    { injection Hr as <- _. cbn in Ht. lia. }
    assert (None = Some (zip ks trs', L2)) as [=]. apply IH; [done|by exists trs'].
Qed.

Lemma copy_list_length c vs h vs' h' : copy_list c vs h = (vs', h') -> length vs' = length vs.
Proof.
  revert h vs' h'. induction vs as [|v vs IH]; intros h vs' h'; cbn [copy_list]; [by intros [= <- <-]|].
  destruct (c v h) as [v1 h1]. destruct (copy_list c vs h1) as [vs1 h2] eqn:E. intros [= <- <-].
  cbn. f_equal. by eapply IH.
Qed.

#[export] Instance Copies_gomap t c : Copies t c -> Copies (TMap t) (gomap c).
Proof.
  intros Hc v h tr L. destruct v as [s|m|[l|]]; try done; cbn [read].
  2:{ intros [= <- <-]. exists (GRef None), h, []. by split_and!. }
  destruct (h !! l) as [[| |kvs]|] eqn:El; try done. cbn.
  destruct (list_read _ kvs) as [[ts L1]|] eqn:Ex; [|done]. cbn. intros [= <- <-].
  rewrite <-(zip_fst_snd kvs) in Ex.
  apply list_read_zip in Ex as (trs & -> & Hlen & Ex); [|by rewrite !length_fmap].
  unfold gomap. rewrite El. pose proof (alloc_spec (CMap []) h) as Ha.
  destruct (alloc _ h) as [l' h1]. destruct Ha as (Hl' & -> & Hsub1).
  destruct (copy_list_spec t c kvs.*2 _ trs L1 Hc (list_read_mono _ _ _ _ _ _ Ex Hsub1))
    as (vs' & h2 & L' & Ec & Hsub2 & Hr & Hf). rewrite Ec.
  apply copy_list_length in Ec.
  eexists _, _, (l' :: L'). split_and!; [done|by eapply fill_subseteq| |by eapply fill_fresh].
  cbn. rewrite lookup_insert_eq. cbn.
  set (h3 := <[l' := _]> h2).
  assert (list_read (read h3 t) vs' = Some (trs, L')) as Hr3.
  { apply (list_read_impl (read h2 t) _ vs' trs L' (fun k => h3 !! k = h2 !! k));
      [|done|by eapply fill_agree]. intros a b L2 _ Ha HL. by eapply read_agree. }
  erewrite (proj2 (list_read_zip t h3 kvs.*1 vs' (zip kvs.*1 trs) L' _)); [done|].
  Unshelve. 2:{ by rewrite Ec, !length_fmap. }
  exists trs. split_and!; [done|lia|done].
Qed.

(** ** Structs *)

(** The statements of a function cover a list of fields: those with references
    are copied by a function that deserves it, in the order of the fields. *)
Inductive covers : list (string * gtype) -> list (string * copier) -> Prop :=
| covers_nil : covers [] []
| covers_skip f t fields steps : flat t = true -> covers fields steps -> covers ((f, t) :: fields) steps
| covers_step f t c fields steps :
  Copies t c -> covers fields steps -> covers ((f, t) :: fields) ((f, c) :: steps).

Abbreviation read_field h m := (fun ft : string * gtype =>
  x ← m !! ft.1; '(t, L) ← read h ft.2 x; Some ((ft.1, t), L)).

Lemma read_fields_mono fields (m m' : gmap string gval) h h' ts L :
  list_read (read_field h m) fields = Some (ts, L) -> h ⊆ h' ->
  (forall f, f ∈ fields.*1 -> m' !! f = m !! f) -> list_read (read_field h' m') fields = Some (ts, L).
Proof.
  intros Hr Hsub Hm. eapply (list_read_impl _ _ fields ts L (fun _ => True)); [|done|by apply Forall_true].
  intros [f t] b L' Hin. cbn. rewrite Hm by (apply list_elem_of_fmap; by exists (f, t)).
  destruct (m !! f) as [x|]; [|done]. cbn. destruct (read h t x) as [[tr L1]|] eqn:E; [|done]. cbn.
  intros [= <- <-] _. by rewrite (read_mono t x h h' tr L1).
Qed.

Lemma copy_fields_spec fields steps inp out h ts L :
  covers fields steps -> NoDup fields.*1 -> list_read (read_field h inp) fields = Some (ts, L) ->
  (forall f, f ∈ fields.*1 -> out !! f = inp !! f) ->
  exists out' h' L', copy_fields steps inp out h = (out', h') /\ h ⊆ h' /\
    list_read (read_field h' out') fields = Some (ts, L') /\ Forall (fun l => h !! l = None) L' /\
    (forall f, f ∉ fields.*1 -> out' !! f = out !! f).
Proof.
  intros Hc. revert out h ts L.
  induction Hc as [|f t fields steps Hf Hc IH|f t c fields steps Hcp Hc IH];
    intros out h ts L Hnd; cbn [list_read copy_fields fmap list_fmap].
  { intros [= <- <-] _. exists out, h, []. by split_and!. }
  all: apply NoDup_cons in Hnd as [Hnf Hnd]; cbn; destruct (inp !! f) as [x|] eqn:Ex; [|done]; cbn;
    destruct (read h t x) as [[tr L1]|] eqn:Er; [|done]; cbn;
    destruct (list_read _ fields) as [[ts' L2]|] eqn:El; [|done]; cbn; intros [= <- <-] Hout.
  - destruct (IH out h ts' L2) as (out' & h' & L' & E & Hsub & Hr & Hfr & Hk);
      [done|done|intros g Hg; apply Hout; by right|].
    exists out', h', L'. split_and!; [done|done| |done|intros g Hg; apply Hk; set_solver].
    rewrite Hk, Hout, Ex by (done || by left). cbn. rewrite (read_mono t x h h' tr L1) by done. cbn.
    rewrite Hr. cbn. by rewrite (flat_reaches t x h tr L1).
  - destruct (copies x h tr L1 Er) as (x' & h1 & L1' & -> & Hsub1 & Hr1 & Hf1).
    destruct (IH (<[f := x']> out) h1 ts' L2) as (out' & h' & L' & E & Hsub & Hr & Hfr & Hk); [done| | |].
    + by eapply read_fields_mono.
    + intros g Hg. rewrite lookup_insert_ne by (intros ->; done). apply Hout. by right.
    + exists out', h', (L1' ++ L'). split_and!; [done|by etrans| | |].
      * rewrite Hk, lookup_insert_eq by done. cbn. rewrite (read_mono t x' h1 h' tr L1') by done. cbn.
        by rewrite Hr.
      * apply Forall_app. split; [done|]. by eapply fresh_weaken.
      * intros g Hg. rewrite Hk by set_solver. rewrite lookup_insert_ne; [done|set_solver].
Qed.

Lemma Copies_struct fields steps :
  covers fields steps -> bool_decide (NoDup fields.*1) = true -> Copies (TStruct fields) (copy_struct steps).
Proof.
  intros Hc Hnd%bool_decide_eq_true v h tr L. destruct v as [s|m|l]; try done; cbn [read].
  destruct (list_read _ fields) as [[ts L1]|] eqn:E; [|done]. cbn. intros [= <- <-].
  unfold copy_struct.
  destruct (copy_fields_spec fields steps m m h ts L1 Hc Hnd E ltac:(done))
    as (out' & h' & L' & -> & Hsub & Hr & Hf & _).
  exists (GStruct out'), h', L'. split_and!; [done|done| |done]. cbn. by rewrite Hr.
Qed.
