(* ===== verification/GeneratedCopies.v ===== *)
(** * The generated copying functions of the API types

    One definition per type and function of [api/v1alpha1/zz_generated.deepcopy.go],
    with the statements of the source as combinators of [DeepCopy], and the layout
    of the types from [api/v1alpha1/*_types.go].  The types of Kubernetes that are
    embedded, and their copying functions, are a parameter ([Externals]) with the
    law that those functions copy ([ExternalLaws]). *)

From S2P Require Import Prelude DeepCopy.

(** ** Types of other packages *)

Inductive external :=
| XTypeMeta
| XObjectMeta
| XListMeta
| XCondition
| XTime
| XToleration
| XAffinity
| XPodSecurityContext
| XSecurityContext
| XJSON
| XQuantity.

(** Their layout and their [DeepCopyInto] (for [Quantity], whose values are copied
    by [DeepCopy], likewise). *)
Class Externals := { x_type : external -> gtype; x_copy : external -> copier }.

(** They copy; [TypeMeta] has two strings and is copied by assignment. *)
Class ExternalLaws (X : Externals) : Prop := {
  x_copies e : Copies (x_type e) (x_copy e);
  x_TypeMeta_flat : flat (x_type XTypeMeta) = true }.
#[export] Existing Instance x_copies.

(** [DeepCopyObject]: the copy as an interface value, [nil] for a nil pointer. *)
Definition as_object (c : copier) : copier := fun v h =>
  let '(v', h') := c v h in
  match v' with GRef (Some _) => (v', h') | _ => (GRef None, h') end.

Section functions.
Context {X : Externals}.

Definition type_SecretReference : gtype :=
  TStruct [("Name", TScalar); ("Key", TScalar)].
Definition SecretReference_DeepCopyInto : copier :=
  copy_struct [].
Definition SecretReference_DeepCopy : copier := ptr SecretReference_DeepCopyInto.

Definition type_ResourceRequirements : gtype :=
  TStruct [("Requests", TMap (x_type XQuantity)); ("Limits", TMap (x_type XQuantity))].
Definition ResourceRequirements_DeepCopyInto : copier :=
  copy_struct [("Requests", gomap (x_copy XQuantity)); ("Limits", gomap (x_copy XQuantity))].
Definition ResourceRequirements_DeepCopy : copier := ptr ResourceRequirements_DeepCopyInto.

Definition type_PerReplicaResources : gtype :=
  TStruct [("PerReplica", type_ResourceRequirements)].
Definition PerReplicaResources_DeepCopyInto : copier :=
  copy_struct [("PerReplica", ResourceRequirements_DeepCopyInto)].
Definition PerReplicaResources_DeepCopy : copier := ptr PerReplicaResources_DeepCopyInto.

Definition type_ServiceMonitorSpec : gtype :=
  TStruct [("Enabled", TScalar); ("Interval", TScalar)].
Definition ServiceMonitorSpec_DeepCopyInto : copier :=
  copy_struct [].
Definition ServiceMonitorSpec_DeepCopy : copier := ptr ServiceMonitorSpec_DeepCopyInto.

Definition type_OpenSearchSinkSpec : gtype :=
  TStruct [("Hosts", TSlice TScalar); ("Index", TScalar); ("IndexType", TScalar);
           ("CredentialsSecretRef", TPtr type_SecretReference);
           ("DLQSecretRef", TPtr type_SecretReference); ("Routes", TSlice TScalar)].
Definition OpenSearchSinkSpec_DeepCopyInto : copier :=
  copy_struct [("Hosts", slice assign); ("CredentialsSecretRef", ptr assign);
               ("DLQSecretRef", ptr assign); ("Routes", slice assign)].
Definition OpenSearchSinkSpec_DeepCopy : copier := ptr OpenSearchSinkSpec_DeepCopyInto.

Definition type_PipelineConnectorSinkSpec : gtype :=
  TStruct [("Name", TScalar)].
Definition PipelineConnectorSinkSpec_DeepCopyInto : copier :=
  copy_struct [].
Definition PipelineConnectorSinkSpec_DeepCopy : copier := ptr PipelineConnectorSinkSpec_DeepCopyInto.

Definition type_S3SinkSpec : gtype :=
  TStruct [("Bucket", TScalar); ("Region", TScalar); ("KeyPathPrefix", TScalar); ("Codec", TScalar);
           ("Compression", TScalar); ("CredentialsSecretRef", TPtr type_SecretReference)].
Definition S3SinkSpec_DeepCopyInto : copier :=
  copy_struct [("CredentialsSecretRef", ptr assign)].
Definition S3SinkSpec_DeepCopy : copier := ptr S3SinkSpec_DeepCopyInto.

Definition type_KafkaSinkSpec : gtype :=
  TStruct [("BootstrapServers", TSlice TScalar); ("Topic", TScalar); ("SerdeFormat", TScalar);
           ("CredentialsSecretRef", TPtr type_SecretReference)].
Definition KafkaSinkSpec_DeepCopyInto : copier :=
  copy_struct [("BootstrapServers", slice assign); ("CredentialsSecretRef", ptr assign)].
Definition KafkaSinkSpec_DeepCopy : copier := ptr KafkaSinkSpec_DeepCopyInto.

Definition type_StdoutSinkSpec : gtype :=
  TStruct [].
Definition StdoutSinkSpec_DeepCopyInto : copier :=
  copy_struct [].
Definition StdoutSinkSpec_DeepCopy : copier := ptr StdoutSinkSpec_DeepCopyInto.

Definition type_SinkSpec : gtype :=
  TStruct [("OpenSearch", TPtr type_OpenSearchSinkSpec);
           ("Pipeline", TPtr type_PipelineConnectorSinkSpec); ("S3", TPtr type_S3SinkSpec);
           ("Kafka", TPtr type_KafkaSinkSpec); ("Stdout", TPtr type_StdoutSinkSpec)].
Definition SinkSpec_DeepCopyInto : copier :=
  copy_struct [("OpenSearch", ptr OpenSearchSinkSpec_DeepCopyInto); ("Pipeline", ptr assign);
               ("S3", ptr S3SinkSpec_DeepCopyInto); ("Kafka", ptr KafkaSinkSpec_DeepCopyInto);
               ("Stdout", ptr assign)].
Definition SinkSpec_DeepCopy : copier := ptr SinkSpec_DeepCopyInto.

Definition type_BoundedBlockingBufferSpec : gtype :=
  TStruct [("BufferSize", TScalar); ("BatchSize", TScalar)].
Definition BoundedBlockingBufferSpec_DeepCopyInto : copier :=
  copy_struct [].
Definition BoundedBlockingBufferSpec_DeepCopy : copier := ptr BoundedBlockingBufferSpec_DeepCopyInto.

Definition type_BufferSpec : gtype :=
  TStruct [("BoundedBlocking", TPtr type_BoundedBlockingBufferSpec)].
Definition BufferSpec_DeepCopyInto : copier :=
  copy_struct [("BoundedBlocking", ptr assign)].
Definition BufferSpec_DeepCopy : copier := ptr BufferSpec_DeepCopyInto.

Definition type_HeapCircuitBreakerSpec : gtype :=
  TStruct [("Usage", TScalar)].
Definition HeapCircuitBreakerSpec_DeepCopyInto : copier :=
  copy_struct [].
Definition HeapCircuitBreakerSpec_DeepCopy : copier := ptr HeapCircuitBreakerSpec_DeepCopyInto.

Definition type_CircuitBreakerSpec : gtype :=
  TStruct [("Heap", TPtr type_HeapCircuitBreakerSpec)].
Definition CircuitBreakerSpec_DeepCopyInto : copier :=
  copy_struct [("Heap", ptr assign)].
Definition CircuitBreakerSpec_DeepCopy : copier := ptr CircuitBreakerSpec_DeepCopyInto.

Definition type_DataPrepperConfigSpec : gtype :=
  TStruct [("CircuitBreakers", TPtr type_CircuitBreakerSpec); ("Raw", TPtr (x_type XJSON))].
Definition DataPrepperConfigSpec_DeepCopyInto : copier :=
  copy_struct [("CircuitBreakers", ptr CircuitBreakerSpec_DeepCopyInto); ("Raw", ptr (x_copy XJSON))].
Definition DataPrepperConfigSpec_DeepCopy : copier := ptr DataPrepperConfigSpec_DeepCopyInto.

Definition type_KafkaSourceSpec : gtype :=
  TStruct [("BootstrapServers", TSlice TScalar); ("Topic", TScalar); ("GroupID", TScalar);
           ("CredentialsSecretRef", TPtr type_SecretReference); ("ConsumerConfig", TMap TScalar);
           ("EncryptionType", TScalar)].
Definition KafkaSourceSpec_DeepCopyInto : copier :=
  copy_struct [("BootstrapServers", slice assign); ("CredentialsSecretRef", ptr assign);
               ("ConsumerConfig", gomap assign)].
Definition KafkaSourceSpec_DeepCopy : copier := ptr KafkaSourceSpec_DeepCopyInto.

Definition type_HTTPSourceSpec : gtype :=
  TStruct [("Port", TScalar); ("Path", TScalar)].
Definition HTTPSourceSpec_DeepCopyInto : copier :=
  copy_struct [].
Definition HTTPSourceSpec_DeepCopy : copier := ptr HTTPSourceSpec_DeepCopyInto.

Definition type_OTelSourceSpec : gtype :=
  TStruct [("Port", TScalar); ("Protocols", TSlice TScalar)].
Definition OTelSourceSpec_DeepCopyInto : copier :=
  copy_struct [("Protocols", slice assign)].
Definition OTelSourceSpec_DeepCopy : copier := ptr OTelSourceSpec_DeepCopyInto.

Definition type_JSONCodecSpec : gtype :=
  TStruct [].
Definition JSONCodecSpec_DeepCopyInto : copier :=
  copy_struct [].
Definition JSONCodecSpec_DeepCopy : copier := ptr JSONCodecSpec_DeepCopyInto.

Definition type_CSVCodecSpec : gtype :=
  TStruct [("Delimiter", TScalar); ("HeaderRow", TScalar)].
Definition CSVCodecSpec_DeepCopyInto : copier :=
  copy_struct [].
Definition CSVCodecSpec_DeepCopy : copier := ptr CSVCodecSpec_DeepCopyInto.

Definition type_NewlineCodecSpec : gtype :=
  TStruct [].
Definition NewlineCodecSpec_DeepCopyInto : copier :=
  copy_struct [].
Definition NewlineCodecSpec_DeepCopy : copier := ptr NewlineCodecSpec_DeepCopyInto.

Definition type_ParquetCodecSpec : gtype :=
  TStruct [].
Definition ParquetCodecSpec_DeepCopyInto : copier :=
  copy_struct [].
Definition ParquetCodecSpec_DeepCopy : copier := ptr ParquetCodecSpec_DeepCopyInto.

Definition type_AvroCodecSpec : gtype :=
  TStruct [("Schema", TScalar)].
Definition AvroCodecSpec_DeepCopyInto : copier :=
  copy_struct [].
Definition AvroCodecSpec_DeepCopy : copier := ptr AvroCodecSpec_DeepCopyInto.

Definition type_CodecSpec : gtype :=
  TStruct [("JSON", TPtr type_JSONCodecSpec); ("CSV", TPtr type_CSVCodecSpec);
           ("Newline", TPtr type_NewlineCodecSpec); ("Parquet", TPtr type_ParquetCodecSpec);
           ("Avro", TPtr type_AvroCodecSpec)].
Definition CodecSpec_DeepCopyInto : copier :=
  copy_struct [("JSON", ptr assign); ("CSV", ptr assign); ("Newline", ptr assign);
               ("Parquet", ptr assign); ("Avro", ptr assign)].
Definition CodecSpec_DeepCopy : copier := ptr CodecSpec_DeepCopyInto.

Definition type_S3SourceSpec : gtype :=
  TStruct [("Bucket", TScalar); ("Prefix", TScalar); ("Region", TScalar); ("SQSQueueURL", TScalar);
           ("CredentialsSecretRef", TPtr type_SecretReference); ("Codec", TPtr type_CodecSpec);
           ("Compression", TScalar)].
Definition S3SourceSpec_DeepCopyInto : copier :=
  copy_struct [("CredentialsSecretRef", ptr assign); ("Codec", ptr CodecSpec_DeepCopyInto)].
Definition S3SourceSpec_DeepCopy : copier := ptr S3SourceSpec_DeepCopyInto.

Definition type_PipelineConnectorSourceSpec : gtype :=
  TStruct [("Name", TScalar)].
Definition PipelineConnectorSourceSpec_DeepCopyInto : copier :=
  copy_struct [].
Definition PipelineConnectorSourceSpec_DeepCopy : copier := ptr PipelineConnectorSourceSpec_DeepCopyInto.

Definition type_SourceSpec : gtype :=
  TStruct [("Kafka", TPtr type_KafkaSourceSpec); ("HTTP", TPtr type_HTTPSourceSpec);
           ("OTel", TPtr type_OTelSourceSpec); ("S3", TPtr type_S3SourceSpec);
           ("Pipeline", TPtr type_PipelineConnectorSourceSpec)].
Definition SourceSpec_DeepCopyInto : copier :=
  copy_struct [("Kafka", ptr KafkaSourceSpec_DeepCopyInto); ("HTTP", ptr assign);
               ("OTel", ptr OTelSourceSpec_DeepCopyInto); ("S3", ptr S3SourceSpec_DeepCopyInto);
               ("Pipeline", ptr assign)].
Definition SourceSpec_DeepCopy : copier := ptr SourceSpec_DeepCopyInto.

Definition type_PipelineDefinition : gtype :=
  TStruct [("Name", TScalar); ("Workers", TScalar); ("Delay", TScalar); ("Source", type_SourceSpec);
           ("Buffer", TPtr type_BufferSpec); ("Processors", TSlice (x_type XJSON));
           ("Routes", TSlice (TMap TScalar)); ("Sink", TSlice type_SinkSpec)].
Definition PipelineDefinition_DeepCopyInto : copier :=
  copy_struct [("Source", SourceSpec_DeepCopyInto); ("Buffer", ptr BufferSpec_DeepCopyInto);
               ("Processors", slice (x_copy XJSON)); ("Routes", slice (gomap assign));
               ("Sink", slice SinkSpec_DeepCopyInto)].
Definition PipelineDefinition_DeepCopy : copier := ptr PipelineDefinition_DeepCopyInto.

Definition type_ScalingSpec : gtype :=
  TStruct [("Mode", TScalar); ("MaxReplicas", TPtr TScalar); ("MinReplicas", TPtr TScalar);
           ("FixedReplicas", TPtr TScalar)].
Definition ScalingSpec_DeepCopyInto : copier :=
  copy_struct [("MaxReplicas", ptr assign); ("MinReplicas", ptr assign);
               ("FixedReplicas", ptr assign)].
Definition ScalingSpec_DeepCopy : copier := ptr ScalingSpec_DeepCopyInto.

Definition type_DataPrepperPipelineSpec : gtype :=
  TStruct [("Image", TScalar); ("ImagePullPolicy", TScalar);
           ("Pipelines", TSlice type_PipelineDefinition); ("Scaling", TPtr type_ScalingSpec);
           ("Resources", TPtr type_PerReplicaResources);
           ("DataPrepperConfig", TPtr type_DataPrepperConfigSpec);
           ("ServiceMonitor", TPtr type_ServiceMonitorSpec); ("PodAnnotations", TMap TScalar);
           ("PodLabels", TMap TScalar); ("NodeSelector", TMap TScalar);
           ("Tolerations", TSlice (x_type XToleration)); ("Affinity", TPtr (x_type XAffinity));
           ("PodSecurityContext", TPtr (x_type XPodSecurityContext));
           ("SecurityContext", TPtr (x_type XSecurityContext)); ("ServiceAccountName", TScalar)].
Definition DataPrepperPipelineSpec_DeepCopyInto : copier :=
  copy_struct [("Pipelines", slice PipelineDefinition_DeepCopyInto);
               ("Scaling", ptr ScalingSpec_DeepCopyInto);
               ("Resources", ptr PerReplicaResources_DeepCopyInto);
               ("DataPrepperConfig", ptr DataPrepperConfigSpec_DeepCopyInto);
               ("ServiceMonitor", ptr assign); ("PodAnnotations", gomap assign);
               ("PodLabels", gomap assign); ("NodeSelector", gomap assign);
               ("Tolerations", slice (x_copy XToleration)); ("Affinity", ptr (x_copy XAffinity));
               ("PodSecurityContext", ptr (x_copy XPodSecurityContext));
               ("SecurityContext", ptr (x_copy XSecurityContext))].
Definition DataPrepperPipelineSpec_DeepCopy : copier := ptr DataPrepperPipelineSpec_DeepCopyInto.

Definition type_KafkaStatus : gtype :=
  TStruct [("TopicPartitions", TScalar); ("WorkersPerPod", TScalar); ("TotalConsumers", TScalar)].
Definition KafkaStatus_DeepCopyInto : copier :=
  copy_struct [].
Definition KafkaStatus_DeepCopy : copier := ptr KafkaStatus_DeepCopyInto.

Definition type_DataPrepperPipelineStatus : gtype :=
  TStruct [("Phase", TScalar); ("Replicas", TScalar); ("ReadyReplicas", TScalar);
           ("ObservedGeneration", TScalar); ("Conditions", TSlice (x_type XCondition));
           ("Kafka", TPtr type_KafkaStatus)].
Definition DataPrepperPipelineStatus_DeepCopyInto : copier :=
  copy_struct [("Conditions", slice (x_copy XCondition)); ("Kafka", ptr assign)].
Definition DataPrepperPipelineStatus_DeepCopy : copier := ptr DataPrepperPipelineStatus_DeepCopyInto.

Definition type_DataPrepperPipeline : gtype :=
  TStruct [("TypeMeta", x_type XTypeMeta); ("ObjectMeta", x_type XObjectMeta);
           ("Spec", type_DataPrepperPipelineSpec); ("Status", type_DataPrepperPipelineStatus)].
Definition DataPrepperPipeline_DeepCopyInto : copier :=
  copy_struct [("TypeMeta", assign); ("ObjectMeta", x_copy XObjectMeta);
               ("Spec", DataPrepperPipelineSpec_DeepCopyInto);
               ("Status", DataPrepperPipelineStatus_DeepCopyInto)].
Definition DataPrepperPipeline_DeepCopy : copier := ptr DataPrepperPipeline_DeepCopyInto.
Definition DataPrepperPipeline_DeepCopyObject : copier := as_object DataPrepperPipeline_DeepCopy.

Definition type_DataPrepperPipelineList : gtype :=
  TStruct [("TypeMeta", x_type XTypeMeta); ("ListMeta", x_type XListMeta);
           ("Items", TSlice type_DataPrepperPipeline)].
Definition DataPrepperPipelineList_DeepCopyInto : copier :=
  copy_struct [("TypeMeta", assign); ("ListMeta", x_copy XListMeta);
               ("Items", slice DataPrepperPipeline_DeepCopyInto)].
Definition DataPrepperPipelineList_DeepCopy : copier := ptr DataPrepperPipelineList_DeepCopyInto.
Definition DataPrepperPipelineList_DeepCopyObject : copier := as_object DataPrepperPipelineList_DeepCopy.

Definition type_KafkaTopicSelectorSpec : gtype :=
  TStruct [("Prefix", TScalar); ("ExcludePatterns", TSlice TScalar)].
Definition KafkaTopicSelectorSpec_DeepCopyInto : copier :=
  copy_struct [("ExcludePatterns", slice assign)].
Definition KafkaTopicSelectorSpec_DeepCopy : copier := ptr KafkaTopicSelectorSpec_DeepCopyInto.

Definition type_KafkaDiscoverySpec : gtype :=
  TStruct [("BootstrapServers", TSlice TScalar);
           ("CredentialsSecretRef", TPtr type_SecretReference); ("EncryptionType", TScalar);
           ("TopicSelector", type_KafkaTopicSelectorSpec); ("PollInterval", TScalar);
           ("CleanupPolicy", TScalar)].
Definition KafkaDiscoverySpec_DeepCopyInto : copier :=
  copy_struct [("BootstrapServers", slice assign); ("CredentialsSecretRef", ptr assign);
               ("TopicSelector", KafkaTopicSelectorSpec_DeepCopyInto)].
Definition KafkaDiscoverySpec_DeepCopy : copier := ptr KafkaDiscoverySpec_DeepCopyInto.

Definition type_PipelineTemplateSpec : gtype :=
  TStruct [("Spec", type_DataPrepperPipelineSpec)].
Definition PipelineTemplateSpec_DeepCopyInto : copier :=
  copy_struct [("Spec", DataPrepperPipelineSpec_DeepCopyInto)].
Definition PipelineTemplateSpec_DeepCopy : copier := ptr PipelineTemplateSpec_DeepCopyInto.

Definition type_DiscoveryOverrideSpec : gtype :=
  TStruct [("Pattern", TScalar); ("Spec", type_DataPrepperPipelineSpec)].
Definition DiscoveryOverrideSpec_DeepCopyInto : copier :=
  copy_struct [("Spec", DataPrepperPipelineSpec_DeepCopyInto)].
Definition DiscoveryOverrideSpec_DeepCopy : copier := ptr DiscoveryOverrideSpec_DeepCopyInto.

Definition type_S3PrefixSelectorSpec : gtype :=
  TStruct [("Prefix", TScalar); ("Depth", TScalar); ("ExcludePatterns", TSlice TScalar)].
Definition S3PrefixSelectorSpec_DeepCopyInto : copier :=
  copy_struct [("ExcludePatterns", slice assign)].
Definition S3PrefixSelectorSpec_DeepCopy : copier := ptr S3PrefixSelectorSpec_DeepCopyInto.

Definition type_SQSQueueMappingSpec : gtype :=
  TStruct [("QueueURLTemplate", TScalar); ("Overrides", TMap TScalar)].
Definition SQSQueueMappingSpec_DeepCopyInto : copier :=
  copy_struct [("Overrides", gomap assign)].
Definition SQSQueueMappingSpec_DeepCopy : copier := ptr SQSQueueMappingSpec_DeepCopyInto.

Definition type_S3DiscoverySpec : gtype :=
  TStruct [("Region", TScalar); ("Bucket", TScalar); ("PrefixSelector", type_S3PrefixSelectorSpec);
           ("Endpoint", TScalar); ("ForcePathStyle", TScalar);
           ("CredentialsSecretRef", TPtr type_SecretReference);
           ("SQSQueueMapping", TPtr type_SQSQueueMappingSpec); ("PollInterval", TScalar);
           ("CleanupPolicy", TScalar)].
Definition S3DiscoverySpec_DeepCopyInto : copier :=
  copy_struct [("PrefixSelector", S3PrefixSelectorSpec_DeepCopyInto);
               ("CredentialsSecretRef", ptr assign);
               ("SQSQueueMapping", ptr SQSQueueMappingSpec_DeepCopyInto)].
Definition S3DiscoverySpec_DeepCopy : copier := ptr S3DiscoverySpec_DeepCopyInto.

Definition type_DataPrepperSourceDiscoverySpec : gtype :=
  TStruct [("Kafka", TPtr type_KafkaDiscoverySpec); ("S3", TPtr type_S3DiscoverySpec);
           ("PipelineTemplate", type_PipelineTemplateSpec);
           ("Overrides", TSlice type_DiscoveryOverrideSpec); ("MaxCreationsPerCycle", TPtr TScalar)].
Definition DataPrepperSourceDiscoverySpec_DeepCopyInto : copier :=
  copy_struct [("Kafka", ptr KafkaDiscoverySpec_DeepCopyInto);
               ("S3", ptr S3DiscoverySpec_DeepCopyInto);
               ("PipelineTemplate", PipelineTemplateSpec_DeepCopyInto);
               ("Overrides", slice DiscoveryOverrideSpec_DeepCopyInto);
               ("MaxCreationsPerCycle", ptr assign)].
Definition DataPrepperSourceDiscoverySpec_DeepCopy : copier := ptr DataPrepperSourceDiscoverySpec_DeepCopyInto.

Definition type_DiscoveredSourceStatus : gtype :=
  TStruct [("Name", TScalar); ("Partitions", TScalar); ("PipelineRef", TScalar); ("Status", TScalar)].
Definition DiscoveredSourceStatus_DeepCopyInto : copier :=
  copy_struct [].
Definition DiscoveredSourceStatus_DeepCopy : copier := ptr DiscoveredSourceStatus_DeepCopyInto.

Definition type_DataPrepperSourceDiscoveryStatus : gtype :=
  TStruct [("Phase", TScalar); ("ObservedGeneration", TScalar); ("DiscoveredSources", TScalar);
           ("ActivePipelines", TScalar); ("OrphanedPipelines", TScalar);
           ("UpdatingPipelines", TScalar); ("LastPollTime", TPtr (x_type XTime));
           ("Conditions", TSlice (x_type XCondition));
           ("Sources", TSlice type_DiscoveredSourceStatus)].
Definition DataPrepperSourceDiscoveryStatus_DeepCopyInto : copier :=
  copy_struct [("LastPollTime", ptr (x_copy XTime)); ("Conditions", slice (x_copy XCondition));
               ("Sources", slice assign)].
Definition DataPrepperSourceDiscoveryStatus_DeepCopy : copier := ptr DataPrepperSourceDiscoveryStatus_DeepCopyInto.

Definition type_DataPrepperSourceDiscovery : gtype :=
  TStruct [("TypeMeta", x_type XTypeMeta); ("ObjectMeta", x_type XObjectMeta);
           ("Spec", type_DataPrepperSourceDiscoverySpec);
           ("Status", type_DataPrepperSourceDiscoveryStatus)].
Definition DataPrepperSourceDiscovery_DeepCopyInto : copier :=
  copy_struct [("TypeMeta", assign); ("ObjectMeta", x_copy XObjectMeta);
               ("Spec", DataPrepperSourceDiscoverySpec_DeepCopyInto);
               ("Status", DataPrepperSourceDiscoveryStatus_DeepCopyInto)].
Definition DataPrepperSourceDiscovery_DeepCopy : copier := ptr DataPrepperSourceDiscovery_DeepCopyInto.
Definition DataPrepperSourceDiscovery_DeepCopyObject : copier := as_object DataPrepperSourceDiscovery_DeepCopy.

Definition type_DataPrepperSourceDiscoveryList : gtype :=
  TStruct [("TypeMeta", x_type XTypeMeta); ("ListMeta", x_type XListMeta);
           ("Items", TSlice type_DataPrepperSourceDiscovery)].
Definition DataPrepperSourceDiscoveryList_DeepCopyInto : copier :=
  copy_struct [("TypeMeta", assign); ("ListMeta", x_copy XListMeta);
               ("Items", slice DataPrepperSourceDiscovery_DeepCopyInto)].
Definition DataPrepperSourceDiscoveryList_DeepCopy : copier := ptr DataPrepperSourceDiscoveryList_DeepCopyInto.
Definition DataPrepperSourceDiscoveryList_DeepCopyObject : copier := as_object DataPrepperSourceDiscoveryList_DeepCopy.

Definition type_DefaultKafkaSpec : gtype :=
  TStruct [("BootstrapServers", TSlice TScalar); ("CredentialsSecretRef", TPtr type_SecretReference)].
Definition DefaultKafkaSpec_DeepCopyInto : copier :=
  copy_struct [("BootstrapServers", slice assign); ("CredentialsSecretRef", ptr assign)].
Definition DefaultKafkaSpec_DeepCopy : copier := ptr DefaultKafkaSpec_DeepCopyInto.

Definition type_DefaultSinkSpec : gtype :=
  TStruct [("OpenSearch", TPtr type_OpenSearchSinkSpec)].
Definition DefaultSinkSpec_DeepCopyInto : copier :=
  copy_struct [("OpenSearch", ptr OpenSearchSinkSpec_DeepCopyInto)].
Definition DefaultSinkSpec_DeepCopy : copier := ptr DefaultSinkSpec_DeepCopyInto.

Definition type_DataPrepperDefaultsSpec : gtype :=
  TStruct [("Image", TScalar); ("Sink", TPtr type_DefaultSinkSpec);
           ("Kafka", TPtr type_DefaultKafkaSpec); ("Resources", TPtr type_PerReplicaResources);
           ("DataPrepperConfig", TPtr type_DataPrepperConfigSpec);
           ("ServiceMonitor", TPtr type_ServiceMonitorSpec)].
Definition DataPrepperDefaultsSpec_DeepCopyInto : copier :=
  copy_struct [("Sink", ptr DefaultSinkSpec_DeepCopyInto);
               ("Kafka", ptr DefaultKafkaSpec_DeepCopyInto);
               ("Resources", ptr PerReplicaResources_DeepCopyInto);
               ("DataPrepperConfig", ptr DataPrepperConfigSpec_DeepCopyInto);
               ("ServiceMonitor", ptr assign)].
Definition DataPrepperDefaultsSpec_DeepCopy : copier := ptr DataPrepperDefaultsSpec_DeepCopyInto.

Definition type_DataPrepperDefaults : gtype :=
  TStruct [("TypeMeta", x_type XTypeMeta); ("ObjectMeta", x_type XObjectMeta);
           ("Spec", type_DataPrepperDefaultsSpec)].
Definition DataPrepperDefaults_DeepCopyInto : copier :=
  copy_struct [("TypeMeta", assign); ("ObjectMeta", x_copy XObjectMeta);
               ("Spec", DataPrepperDefaultsSpec_DeepCopyInto)].
Definition DataPrepperDefaults_DeepCopy : copier := ptr DataPrepperDefaults_DeepCopyInto.
Definition DataPrepperDefaults_DeepCopyObject : copier := as_object DataPrepperDefaults_DeepCopy.

Definition type_DataPrepperDefaultsList : gtype :=
  TStruct [("TypeMeta", x_type XTypeMeta); ("ListMeta", x_type XListMeta);
           ("Items", TSlice type_DataPrepperDefaults)].
Definition DataPrepperDefaultsList_DeepCopyInto : copier :=
  copy_struct [("TypeMeta", assign); ("ListMeta", x_copy XListMeta);
               ("Items", slice DataPrepperDefaults_DeepCopyInto)].
Definition DataPrepperDefaultsList_DeepCopy : copier := ptr DataPrepperDefaultsList_DeepCopyInto.
Definition DataPrepperDefaultsList_DeepCopyObject : copier := as_object DataPrepperDefaultsList_DeepCopy.

Definition type_DataPrepperPipelineCustomValidator : gtype :=
  TStruct [].
Definition DataPrepperPipelineCustomValidator_DeepCopyInto : copier :=
  copy_struct [].
Definition DataPrepperPipelineCustomValidator_DeepCopy : copier := ptr DataPrepperPipelineCustomValidator_DeepCopyInto.

(** All functions that return a new object, with the types of their receivers. *)
Definition generated : list (gtype * copier) :=
  [(TPtr type_SecretReference, SecretReference_DeepCopy);
   (TPtr type_ResourceRequirements, ResourceRequirements_DeepCopy);
   (TPtr type_PerReplicaResources, PerReplicaResources_DeepCopy);
   (TPtr type_ServiceMonitorSpec, ServiceMonitorSpec_DeepCopy);
   (TPtr type_OpenSearchSinkSpec, OpenSearchSinkSpec_DeepCopy);
   (TPtr type_PipelineConnectorSinkSpec, PipelineConnectorSinkSpec_DeepCopy);
   (TPtr type_S3SinkSpec, S3SinkSpec_DeepCopy);
   (TPtr type_KafkaSinkSpec, KafkaSinkSpec_DeepCopy);
   (TPtr type_StdoutSinkSpec, StdoutSinkSpec_DeepCopy);
   (TPtr type_SinkSpec, SinkSpec_DeepCopy);
   (TPtr type_BoundedBlockingBufferSpec, BoundedBlockingBufferSpec_DeepCopy);
   (TPtr type_BufferSpec, BufferSpec_DeepCopy);
   (TPtr type_HeapCircuitBreakerSpec, HeapCircuitBreakerSpec_DeepCopy);
   (TPtr type_CircuitBreakerSpec, CircuitBreakerSpec_DeepCopy);
   (TPtr type_DataPrepperConfigSpec, DataPrepperConfigSpec_DeepCopy);
   (TPtr type_KafkaSourceSpec, KafkaSourceSpec_DeepCopy);
   (TPtr type_HTTPSourceSpec, HTTPSourceSpec_DeepCopy);
   (TPtr type_OTelSourceSpec, OTelSourceSpec_DeepCopy);
   (TPtr type_JSONCodecSpec, JSONCodecSpec_DeepCopy);
   (TPtr type_CSVCodecSpec, CSVCodecSpec_DeepCopy);
   (TPtr type_NewlineCodecSpec, NewlineCodecSpec_DeepCopy);
   (TPtr type_ParquetCodecSpec, ParquetCodecSpec_DeepCopy);
   (TPtr type_AvroCodecSpec, AvroCodecSpec_DeepCopy);
   (TPtr type_CodecSpec, CodecSpec_DeepCopy);
   (TPtr type_S3SourceSpec, S3SourceSpec_DeepCopy);
   (TPtr type_PipelineConnectorSourceSpec, PipelineConnectorSourceSpec_DeepCopy);
   (TPtr type_SourceSpec, SourceSpec_DeepCopy);
   (TPtr type_PipelineDefinition, PipelineDefinition_DeepCopy);
   (TPtr type_ScalingSpec, ScalingSpec_DeepCopy);
   (TPtr type_DataPrepperPipelineSpec, DataPrepperPipelineSpec_DeepCopy);
   (TPtr type_KafkaStatus, KafkaStatus_DeepCopy);
   (TPtr type_DataPrepperPipelineStatus, DataPrepperPipelineStatus_DeepCopy);
   (TPtr type_DataPrepperPipeline, DataPrepperPipeline_DeepCopy);
   (TPtr type_DataPrepperPipelineList, DataPrepperPipelineList_DeepCopy);
   (TPtr type_KafkaTopicSelectorSpec, KafkaTopicSelectorSpec_DeepCopy);
   (TPtr type_KafkaDiscoverySpec, KafkaDiscoverySpec_DeepCopy);
   (TPtr type_PipelineTemplateSpec, PipelineTemplateSpec_DeepCopy);
   (TPtr type_DiscoveryOverrideSpec, DiscoveryOverrideSpec_DeepCopy);
   (TPtr type_S3PrefixSelectorSpec, S3PrefixSelectorSpec_DeepCopy);
   (TPtr type_SQSQueueMappingSpec, SQSQueueMappingSpec_DeepCopy);
   (TPtr type_S3DiscoverySpec, S3DiscoverySpec_DeepCopy);
   (TPtr type_DataPrepperSourceDiscoverySpec, DataPrepperSourceDiscoverySpec_DeepCopy);
   (TPtr type_DiscoveredSourceStatus, DiscoveredSourceStatus_DeepCopy);
   (TPtr type_DataPrepperSourceDiscoveryStatus, DataPrepperSourceDiscoveryStatus_DeepCopy);
   (TPtr type_DataPrepperSourceDiscovery, DataPrepperSourceDiscovery_DeepCopy);
   (TPtr type_DataPrepperSourceDiscoveryList, DataPrepperSourceDiscoveryList_DeepCopy);
   (TPtr type_DefaultKafkaSpec, DefaultKafkaSpec_DeepCopy);
   (TPtr type_DefaultSinkSpec, DefaultSinkSpec_DeepCopy);
   (TPtr type_DataPrepperDefaultsSpec, DataPrepperDefaultsSpec_DeepCopy);
   (TPtr type_DataPrepperDefaults, DataPrepperDefaults_DeepCopy);
   (TPtr type_DataPrepperDefaultsList, DataPrepperDefaultsList_DeepCopy);
   (TPtr type_DataPrepperPipelineCustomValidator, DataPrepperPipelineCustomValidator_DeepCopy);
   (TPtr type_DataPrepperPipeline, DataPrepperPipeline_DeepCopyObject);
   (TPtr type_DataPrepperPipelineList, DataPrepperPipelineList_DeepCopyObject);
   (TPtr type_DataPrepperSourceDiscovery, DataPrepperSourceDiscovery_DeepCopyObject);
   (TPtr type_DataPrepperSourceDiscoveryList, DataPrepperSourceDiscoveryList_DeepCopyObject);
   (TPtr type_DataPrepperDefaults, DataPrepperDefaults_DeepCopyObject);
   (TPtr type_DataPrepperDefaultsList, DataPrepperDefaultsList_DeepCopyObject)].

(** ** Correctness *)

Context `{!ExternalLaws X}.

#[local] Instance Copies_TypeMeta : Copies (x_type XTypeMeta) assign.
Proof. apply Copies_assign, x_TypeMeta_flat. Qed.

#[local] Hint Extern 0 (Copies _ assign) => (apply Copies_assign; reflexivity) : typeclass_instances.

(** The fields of a struct in order: copied by a statement, or without references. *)
Ltac solve_copies :=
  apply Copies_struct; [|reflexivity];
  repeat first
    [ apply covers_nil
    | apply covers_step; [solve [typeclasses eauto]|]
    | apply covers_skip; [reflexivity|] ].

#[local] Instance Copies_SecretReference : Copies type_SecretReference SecretReference_DeepCopyInto.
Proof. solve_copies. Qed.
#[local] Instance Copies_ResourceRequirements : Copies type_ResourceRequirements ResourceRequirements_DeepCopyInto.
Proof. solve_copies. Qed.
#[local] Instance Copies_PerReplicaResources : Copies type_PerReplicaResources PerReplicaResources_DeepCopyInto.
Proof. solve_copies. Qed.
#[local] Instance Copies_ServiceMonitorSpec : Copies type_ServiceMonitorSpec ServiceMonitorSpec_DeepCopyInto.
Proof. solve_copies. Qed.
#[local] Instance Copies_OpenSearchSinkSpec : Copies type_OpenSearchSinkSpec OpenSearchSinkSpec_DeepCopyInto.
Proof. solve_copies. Qed.
#[local] Instance Copies_PipelineConnectorSinkSpec : Copies type_PipelineConnectorSinkSpec PipelineConnectorSinkSpec_DeepCopyInto.
Proof. solve_copies. Qed.
#[local] Instance Copies_S3SinkSpec : Copies type_S3SinkSpec S3SinkSpec_DeepCopyInto.
Proof. solve_copies. Qed.
#[local] Instance Copies_KafkaSinkSpec : Copies type_KafkaSinkSpec KafkaSinkSpec_DeepCopyInto.
Proof. solve_copies. Qed.
#[local] Instance Copies_StdoutSinkSpec : Copies type_StdoutSinkSpec StdoutSinkSpec_DeepCopyInto.
Proof. solve_copies. Qed.
#[local] Instance Copies_SinkSpec : Copies type_SinkSpec SinkSpec_DeepCopyInto.
Proof. solve_copies. Qed.
#[local] Instance Copies_BoundedBlockingBufferSpec : Copies type_BoundedBlockingBufferSpec BoundedBlockingBufferSpec_DeepCopyInto.
Proof. solve_copies. Qed.
#[local] Instance Copies_BufferSpec : Copies type_BufferSpec BufferSpec_DeepCopyInto.
Proof. solve_copies. Qed.
#[local] Instance Copies_HeapCircuitBreakerSpec : Copies type_HeapCircuitBreakerSpec HeapCircuitBreakerSpec_DeepCopyInto.
Proof. solve_copies. Qed.
#[local] Instance Copies_CircuitBreakerSpec : Copies type_CircuitBreakerSpec CircuitBreakerSpec_DeepCopyInto.
Proof. solve_copies. Qed.
#[local] Instance Copies_DataPrepperConfigSpec : Copies type_DataPrepperConfigSpec DataPrepperConfigSpec_DeepCopyInto.
Proof. solve_copies. Qed.
#[local] Instance Copies_KafkaSourceSpec : Copies type_KafkaSourceSpec KafkaSourceSpec_DeepCopyInto.
Proof. solve_copies. Qed.
#[local] Instance Copies_HTTPSourceSpec : Copies type_HTTPSourceSpec HTTPSourceSpec_DeepCopyInto.
Proof. solve_copies. Qed.
#[local] Instance Copies_OTelSourceSpec : Copies type_OTelSourceSpec OTelSourceSpec_DeepCopyInto.
Proof. solve_copies. Qed.
#[local] Instance Copies_JSONCodecSpec : Copies type_JSONCodecSpec JSONCodecSpec_DeepCopyInto.
Proof. solve_copies. Qed.
#[local] Instance Copies_CSVCodecSpec : Copies type_CSVCodecSpec CSVCodecSpec_DeepCopyInto.
Proof. solve_copies. Qed.
#[local] Instance Copies_NewlineCodecSpec : Copies type_NewlineCodecSpec NewlineCodecSpec_DeepCopyInto.
Proof. solve_copies. Qed.
#[local] Instance Copies_ParquetCodecSpec : Copies type_ParquetCodecSpec ParquetCodecSpec_DeepCopyInto.
Proof. solve_copies. Qed.
#[local] Instance Copies_AvroCodecSpec : Copies type_AvroCodecSpec AvroCodecSpec_DeepCopyInto.
Proof. solve_copies. Qed.
#[local] Instance Copies_CodecSpec : Copies type_CodecSpec CodecSpec_DeepCopyInto.
Proof. solve_copies. Qed.
#[local] Instance Copies_S3SourceSpec : Copies type_S3SourceSpec S3SourceSpec_DeepCopyInto.
Proof. solve_copies. Qed.
#[local] Instance Copies_PipelineConnectorSourceSpec : Copies type_PipelineConnectorSourceSpec PipelineConnectorSourceSpec_DeepCopyInto.
Proof. solve_copies. Qed.
#[local] Instance Copies_SourceSpec : Copies type_SourceSpec SourceSpec_DeepCopyInto.
Proof. solve_copies. Qed.
#[local] Instance Copies_PipelineDefinition : Copies type_PipelineDefinition PipelineDefinition_DeepCopyInto.
Proof. solve_copies. Qed.
#[local] Instance Copies_ScalingSpec : Copies type_ScalingSpec ScalingSpec_DeepCopyInto.
Proof. solve_copies. Qed.
#[local] Instance Copies_DataPrepperPipelineSpec : Copies type_DataPrepperPipelineSpec DataPrepperPipelineSpec_DeepCopyInto.
Proof. solve_copies. Qed.
#[local] Instance Copies_KafkaStatus : Copies type_KafkaStatus KafkaStatus_DeepCopyInto.
Proof. solve_copies. Qed.
#[local] Instance Copies_DataPrepperPipelineStatus : Copies type_DataPrepperPipelineStatus DataPrepperPipelineStatus_DeepCopyInto.
Proof. solve_copies. Qed.
#[local] Instance Copies_DataPrepperPipeline : Copies type_DataPrepperPipeline DataPrepperPipeline_DeepCopyInto.
Proof. solve_copies. Qed.
#[local] Instance Copies_DataPrepperPipelineList : Copies type_DataPrepperPipelineList DataPrepperPipelineList_DeepCopyInto.
Proof. solve_copies. Qed.
#[local] Instance Copies_KafkaTopicSelectorSpec : Copies type_KafkaTopicSelectorSpec KafkaTopicSelectorSpec_DeepCopyInto.
Proof. solve_copies. Qed.
#[local] Instance Copies_KafkaDiscoverySpec : Copies type_KafkaDiscoverySpec KafkaDiscoverySpec_DeepCopyInto.
Proof. solve_copies. Qed.
#[local] Instance Copies_PipelineTemplateSpec : Copies type_PipelineTemplateSpec PipelineTemplateSpec_DeepCopyInto.
Proof. solve_copies. Qed.
#[local] Instance Copies_DiscoveryOverrideSpec : Copies type_DiscoveryOverrideSpec DiscoveryOverrideSpec_DeepCopyInto.
Proof. solve_copies. Qed.
#[local] Instance Copies_S3PrefixSelectorSpec : Copies type_S3PrefixSelectorSpec S3PrefixSelectorSpec_DeepCopyInto.
Proof. solve_copies. Qed.
#[local] Instance Copies_SQSQueueMappingSpec : Copies type_SQSQueueMappingSpec SQSQueueMappingSpec_DeepCopyInto.
Proof. solve_copies. Qed.
#[local] Instance Copies_S3DiscoverySpec : Copies type_S3DiscoverySpec S3DiscoverySpec_DeepCopyInto.
Proof. solve_copies. Qed.
#[local] Instance Copies_DataPrepperSourceDiscoverySpec : Copies type_DataPrepperSourceDiscoverySpec DataPrepperSourceDiscoverySpec_DeepCopyInto.
Proof. solve_copies. Qed.
#[local] Instance Copies_DiscoveredSourceStatus : Copies type_DiscoveredSourceStatus DiscoveredSourceStatus_DeepCopyInto.
Proof. solve_copies. Qed.
#[local] Instance Copies_DataPrepperSourceDiscoveryStatus : Copies type_DataPrepperSourceDiscoveryStatus DataPrepperSourceDiscoveryStatus_DeepCopyInto.
Proof. solve_copies. Qed.
#[local] Instance Copies_DataPrepperSourceDiscovery : Copies type_DataPrepperSourceDiscovery DataPrepperSourceDiscovery_DeepCopyInto.
Proof. solve_copies. Qed.
#[local] Instance Copies_DataPrepperSourceDiscoveryList : Copies type_DataPrepperSourceDiscoveryList DataPrepperSourceDiscoveryList_DeepCopyInto.
Proof. solve_copies. Qed.
#[local] Instance Copies_DefaultKafkaSpec : Copies type_DefaultKafkaSpec DefaultKafkaSpec_DeepCopyInto.
Proof. solve_copies. Qed.
#[local] Instance Copies_DefaultSinkSpec : Copies type_DefaultSinkSpec DefaultSinkSpec_DeepCopyInto.
Proof. solve_copies. Qed.
#[local] Instance Copies_DataPrepperDefaultsSpec : Copies type_DataPrepperDefaultsSpec DataPrepperDefaultsSpec_DeepCopyInto.
Proof. solve_copies. Qed.
#[local] Instance Copies_DataPrepperDefaults : Copies type_DataPrepperDefaults DataPrepperDefaults_DeepCopyInto.
Proof. solve_copies. Qed.
#[local] Instance Copies_DataPrepperDefaultsList : Copies type_DataPrepperDefaultsList DataPrepperDefaultsList_DeepCopyInto.
Proof. solve_copies. Qed.
#[local] Instance Copies_DataPrepperPipelineCustomValidator : Copies type_DataPrepperPipelineCustomValidator DataPrepperPipelineCustomValidator_DeepCopyInto.
Proof. solve_copies. Qed.

Lemma Copies_as_object t c : Copies (TPtr t) c -> Copies (TPtr t) (as_object c).
Proof.
  intros Hc v h tr L Hr. destruct (copies v h tr L Hr) as (v' & h' & L' & E & Hsub & Hr' & Hf).
  exists v', h', L'. split_and!; [|done..]. unfold as_object. rewrite E.
  by destruct v' as [| |[l|]].
Qed.

Lemma generated_copies : Forall (fun tc => Copies tc.1 tc.2) generated.
Proof.
  unfold generated. repeat constructor; cbn; try apply Copies_as_object; apply Copies_ptr; typeclasses eauto.
Qed.

(** C21: the generated deep copies isolate.  For each of the 52 API types, the
    result of [DeepCopy] (and of [DeepCopyObject] for the root types) reads exactly
    like its argument, a nil pointer gives a nil pointer, all cells it reaches are
    new, no existing cell changes; and whatever is written later through the copy
    leaves the original as it was, and the other way round.  In particular no
    pointer, slice or map of any type, at any depth, is forgotten. *)
Theorem deep_copies_isolated t c v h tr L :
  (t, c) ∈ generated -> read h t v = Some (tr, L) ->
  exists v' h' L', c v h = (v', h') /\ read h' t v' = Some (tr, L') /\
    (forall l, l ∈ L' -> h !! l = None) /\ h ⊆ h' /\
    (forall h'', (forall l, l ∉ L' -> h'' !! l = h' !! l) -> read h'' t v = Some (tr, L)) /\
    (forall h'', (forall l, l ∉ L -> h'' !! l = h' !! l) -> read h'' t v' = Some (tr, L')).
Proof.
  intros Hin Hr. pose proof generated_copies as Hc. rewrite Forall_forall in Hc.
  specialize (Hc (t, c) Hin v h tr L Hr) as (v' & h' & L' & E & Hsub & Hr' & Hf). cbn in *.
  rewrite Forall_forall in Hf. pose proof (read_allocated _ _ _ _ _ Hr) as Ha. rewrite Forall_forall in Ha.
  exists v', h', L'. split_and!; [done..| |]; intros h'' Hh''.
  - apply (read_agree t v h'); [by eapply read_mono|]. apply Forall_forall. intros l Hl. apply Hh''.
    intros Hl'. destruct (Ha l Hl) as [x Hx]. by rewrite Hf in Hx.
  - apply (read_agree t v' h'); [done|]. apply Forall_forall. intros l Hl. apply Hh''.
    intros Hl'. destruct (Ha l Hl') as [x Hx]. by rewrite Hf in Hx.
Qed.
End functions.

(** ** Witness *)
Module CopyExamples.

#[export] Instance opaque : Externals := {| x_type _ := TScalar; x_copy _ := assign |}.

#[export] Instance opaque_laws : ExternalLaws opaque.
Proof. constructor; [intros e; by apply Copies_assign|done]. Qed.

(** A Kafka source with two servers and a secret. *)
Definition memory : heap :=
  {[1%positive := CVar (GStruct (list_to_map
      [("BootstrapServers", GRef (Some 2%positive)); ("Topic", GScalar "logs"); ("GroupID", GScalar "g");
       ("CredentialsSecretRef", GRef (Some 3%positive)); ("ConsumerConfig", GRef None);
       ("EncryptionType", GScalar "ssl")]));
    2%positive := CSlice [GScalar "a:9092"; GScalar "b:9092"];
    3%positive := CVar (GStruct (list_to_map [("Name", GScalar "kafka"); ("Key", GScalar "")]))]}.

Definition source : gval := GRef (Some 1%positive).

Lemma deep_copies_isolated_witness :
  exists tr v' h', read memory (TPtr type_KafkaSourceSpec) source = Some (tr, [1; 2; 3]%positive) /\
    KafkaSourceSpec_DeepCopy source memory = (v', h') /\
    read (<[2%positive := CSlice []]> h') (TPtr type_KafkaSourceSpec) v'
    = read h' (TPtr type_KafkaSourceSpec) v'.
Proof.
  eexists. destruct (deep_copies_isolated (TPtr type_KafkaSourceSpec) KafkaSourceSpec_DeepCopy source memory
    (match read memory (TPtr type_KafkaSourceSpec) source with Some (tr, _) => tr | None => Nil end)
    [1; 2; 3]%positive) as (v' & h' & L' & E & Hr & _ & _ & _ & Hw).
  - apply (list_elem_of_lookup_2 _ 15%nat). reflexivity.
  - vm_compute. reflexivity.
  - exists v', h'. split; [vm_compute; reflexivity|]. split; [exact E|].
    rewrite Hr. apply Hw. intros l Hl. apply lookup_insert_ne. intros <-. apply Hl.
    right. left.
Defined.

End CopyExamples.
