(* ===== verification/JsonEncode.v ===== *)
(** * JSON: the encoder of [encoding/json]

    [json.Marshal] of pipeline specs: quoting of strings with the HTML-safe
    escapes of the standard library, integers, the compact form of a document, and
    the compaction of raw documents that values of type [apiextensionsv1.JSON]
    contribute.  The text is built as a tree of [Json] and printed; [print_valid]
    states that the decoder reads the tree back, [unquote_quoted] that it reads
    back the strings. *)

From S2P Require Import Prelude Go Json.
From Stdlib Require Import Ascii.
#[local] Open Scope Z_scope.
#[local] Ltac Zify.zify_post_hook ::= Z.div_mod_to_equations.

(** ** Runes of a byte sequence *)

(** [utf8.Valid]; [skip] counts the remaining bytes of the current rune. *)
Fixpoint valid_utf8 (l : list ascii) (skip : nat) : bool :=
  match l with
  | [] => true
  | c :: l' =>
    match skip with
    | S k => valid_utf8 l' k
    | O =>
      let '(r, w) := decode_rune c l' in
      negb ((r =? RuneError) && (w =? 1)%nat) && valid_utf8 l' (w - 1)
    end
  end.

Lemma skip_drop {A} (f : list ascii -> nat -> A) :
  (forall n, f [] n = f [] 0%nat) -> (forall c l k, f (c :: l) (S k) = f l k) ->
  forall l n, f l n = f (drop n l) 0%nat.
Proof.
  intros H0 HS l. induction l as [|c l IH]; intros [|n]; cbn; try done. by rewrite HS.
Qed.

Lemma valid_utf8_drop l n : valid_utf8 l n = valid_utf8 (drop n l) 0.
Proof. apply (skip_drop valid_utf8); [by intros []|done]. Qed.

Lemma unquote_drop l n : unquote l n = unquote (drop n l) 0.
Proof. apply (skip_drop unquote); [by intros []|done]. Qed.

Lemma byte_val_range c : 0 <= byte_val c < 256.
Proof.
  unfold byte_val. pose proof (N_ascii_bounded c). lia.
Qed.

Lemma byte_val_inj c : ascii_of_N (Z.to_N (byte_val c)) = c.
Proof. unfold byte_val. by rewrite N2Z.id, ascii_N_embedding. Qed.

Lemma byte_val_of z : 0 <= z < 256 -> byte_val (ascii_of_N (Z.to_N z)) = z.
Proof. intros H. unfold byte_val. rewrite N_ascii_embedding by lia. lia. Qed.

Lemma byte_eq c d : byte_val c = byte_val d -> c = d.
Proof. intros H. by rewrite <-(byte_val_inj c), H, byte_val_inj. Qed.

Lemma in_range_spec lo hi z : in_range lo hi z = true <-> lo <= z <= hi.
Proof. unfold in_range. lia. Qed.

(** What a lead byte allows. *)
Lemma utf8_class_spec b n lo hi : utf8_class b = Some (n, lo, hi) ->
  128 <= lo /\ hi <= 191 /\
  ((n = 2%nat /\ 194 <= b <= 223) \/
   (n = 3%nat /\ 224 <= b <= 239 /\ (b = 224 -> lo = 160) /\ (b = 237 -> hi = 159)) \/
   (n = 4%nat /\ 240 <= b <= 244 /\ (b = 240 -> lo = 144) /\ (b = 244 -> hi = 143))).
Proof.
  unfold utf8_class. intros H.
  repeat match type of H with
  | (if ?x then _ else _) = _ =>
    let E := fresh "E" in destruct x eqn:E; [injection H as <- <- <-|];
      try apply in_range_spec in E; try apply Z.eqb_eq in E; try lia
  end; try done.
  all: unfold in_range in *; lia.
Qed.

(** A byte from its value. *)
Lemma byte_of z c : byte_val c = z -> ascii_of_N (Z.to_N z) = c.
Proof. intros <-. apply byte_val_inj. Qed.

(** Everything about a rune that is decoded without error: its bytes decode to it
    whatever follows, and it is encoded by them. *)
Record rune_spec (c : ascii) (conts : list ascii) (r : Z) : Prop := {
  rs_decode : forall x, decode_rune c (conts ++ x) = (r, S (length conts));
  rs_encode : encode_rune r = c :: conts;
  rs_high : Forall (fun d => 128 <= byte_val d) conts;
  rs_ascii : byte_val c < 128 -> conts = [] /\ r = byte_val c }.

Lemma rune_ascii c : byte_val c < 128 -> rune_spec c [] (byte_val c).
Proof.
  intros H. pose proof (byte_val_range c). split; cbn; [intros x; by apply decode_rune_ascii| |done|done].
  unfold encode_rune. rewrite (proj2 (in_range_spec 0 127 _)) by lia. by rewrite byte_val_inj.
Qed.

Lemma rune_two c c1 lo hi :
  utf8_class (byte_val c) = Some (2%nat, lo, hi) -> in_range lo hi (byte_val c1) = true ->
  128 <= byte_val c -> rune_spec c [c1] ((byte_val c - 192) * 64 + low6 c1).
Proof.
  intros Hc H1 Hb. pose proof (utf8_class_spec _ _ _ _ Hc) as (? & ? & Hcl). apply in_range_spec in H1 as H1'.
  assert (194 <= byte_val c <= 223) by (destruct Hcl as [?|[?|?]]; [tauto|lia|lia]).
  unfold low6. split; [intros x| |repeat constructor; lia|lia].
  - cbn. unfold decode_rune. rewrite (proj2 (Z.ltb_ge _ _)), Hc, H1 by lia. done.
  - unfold encode_rune. set (r := _ + _).
    assert (r / 64 = byte_val c - 192 /\ r mod 64 = byte_val c1 - 128) as [E1 E2] by (subst r; lia).
    rewrite (proj2 (in_range_spec 128 2047 _)) by (subst r; lia).
    replace (in_range 0 127 r) with false by (unfold in_range; subst r; lia).
    rewrite E1, E2. f_equal; [apply byte_of; lia|]. f_equal. apply byte_of; lia.
Qed.

Lemma rune_three c c1 c2 lo hi :
  utf8_class (byte_val c) = Some (3%nat, lo, hi) -> in_range lo hi (byte_val c1) = true -> cont c2 = true ->
  128 <= byte_val c ->
  rune_spec c [c1; c2] ((byte_val c - 224) * 4096 + low6 c1 * 64 + low6 c2).
Proof.
  intros Hc H1 H2 Hb. pose proof (utf8_class_spec _ _ _ _ Hc) as (? & ? & Hcl).
  apply in_range_spec in H1 as H1'. unfold cont in H2. apply in_range_spec in H2 as H2'.
  assert (224 <= byte_val c <= 239 /\ (byte_val c = 224 -> lo = 160) /\ (byte_val c = 237 -> hi = 159))
    as (? & ? & ?) by (destruct Hcl as [?|[?|?]]; [lia|tauto|lia]).
  unfold low6. split; [intros x| |repeat constructor; lia|lia].
  - cbn. unfold decode_rune. rewrite (proj2 (Z.ltb_ge _ _)), Hc by lia. unfold cont. by rewrite H1, H2.
  - unfold encode_rune. set (r := _ + _).
    assert (r / 4096 = byte_val c - 224 /\ r / 64 mod 64 = byte_val c1 - 128 /\ r mod 64 = byte_val c2 - 128)
      as (E1 & E2 & E3) by (subst r; lia).
    assert (2048 <= r <= 65535 /\ ~ (55296 <= r <= 57343)) as [? ?] by (subst r; lia).
    replace (in_range 0 127 r) with false by (unfold in_range; lia).
    replace (in_range 128 2047 r) with false by (unfold in_range; lia).
    replace (in_range 2048 55295 r || in_range 57344 65535 r) with true by (unfold in_range; lia).
    rewrite E1, E2, E3. repeat (f_equal; [apply byte_of; lia|]). f_equal. apply byte_of; lia.
Qed.

Lemma rune_four c c1 c2 c3 lo hi :
  utf8_class (byte_val c) = Some (4%nat, lo, hi) -> in_range lo hi (byte_val c1) = true -> cont c2 = true ->
  cont c3 = true -> 128 <= byte_val c ->
  rune_spec c [c1; c2; c3] ((byte_val c - 240) * 262144 + low6 c1 * 4096 + low6 c2 * 64 + low6 c3).
Proof.
  intros Hc H1 H2 H3 Hb. pose proof (utf8_class_spec _ _ _ _ Hc) as (? & ? & Hcl).
  apply in_range_spec in H1 as H1'. unfold cont in H2, H3. apply in_range_spec in H2 as H2'.
  apply in_range_spec in H3 as H3'.
  assert (240 <= byte_val c <= 244 /\ (byte_val c = 240 -> lo = 144) /\ (byte_val c = 244 -> hi = 143))
    as (? & ? & ?) by (destruct Hcl as [?|[?|?]]; [lia|lia|tauto]).
  unfold low6. split; [intros x| |repeat constructor; lia|lia].
  - cbn. unfold decode_rune. rewrite (proj2 (Z.ltb_ge _ _)), Hc by lia. unfold cont. by rewrite H1, H2, H3.
  - unfold encode_rune. set (r := _ + _).
    assert (r / 262144 = byte_val c - 240 /\ r / 4096 mod 64 = byte_val c1 - 128 /\
            r / 64 mod 64 = byte_val c2 - 128 /\ r mod 64 = byte_val c3 - 128)
      as (E1 & E2 & E3 & E4) by (subst r; lia).
    assert (65536 <= r <= 1114111) by (subst r; lia).
    replace (in_range 0 127 r) with false by (unfold in_range; lia).
    replace (in_range 128 2047 r) with false by (unfold in_range; lia).
    replace (in_range 2048 55295 r || in_range 57344 65535 r) with false by (unfold in_range; lia).
    rewrite (proj2 (in_range_spec 65536 1114111 _)) by lia.
    rewrite E1, E2, E3, E4. repeat (f_equal; [apply byte_of; lia|]). f_equal. apply byte_of; lia.
Qed.

(** A rune is decoded without error, or is the replacement of one byte. *)
Lemma decode_rune_cases c l :
  decode_rune c l = (RuneError, 1%nat) \/ exists conts rest r, l = conts ++ rest /\ rune_spec c conts r.
Proof.
  destruct (Z.ltb_spec (byte_val c) 128) as [Hb|Hb].
  { right. exists [], l, (byte_val c). split; [done|by apply rune_ascii]. }
  destruct (decode_rune c l) as [r w] eqn:E. unfold decode_rune in E.
  rewrite (proj2 (Z.ltb_ge _ _)) in E by lia.
  destruct (utf8_class (byte_val c)) as [[[n lo] hi]|] eqn:Hc; [|by left].
  destruct n as [|[|[|[|[|n]]]]]; try by left.
  - destruct l as [|c1 l]; [by left|]. destruct (in_range lo hi _) eqn:H1; [|by left].
    right. eexists [c1], l, _. split; [done|]. by eapply rune_two.
  - destruct l as [|c1 [|c2 l]]; try by left. destruct (in_range lo hi _) eqn:H1; [|by left].
    destruct (cont c2) eqn:H2; [|by left]. right. eexists [c1; c2], l, _. split; [done|]. by eapply rune_three.
  - destruct l as [|c1 [|c2 [|c3 l]]]; try by left. destruct (in_range lo hi _) eqn:H1; [|by left].
    destruct (cont c2) eqn:H2; [|by left]. destruct (cont c3) eqn:H3; [|by left].
    right. eexists [c1; c2; c3], l, _. split; [done|]. by eapply rune_four.
Qed.

(** ** Quoting: [appendString] with HTML escapes *)

(** The lower-case hexadecimal digit of a number below 16. *)
Definition hex_char (n : Z) : ascii := ascii_of_N (Z.to_N (if n <? 10 then 48 + n else 87 + n)).

(** [\u00xy] *)
Definition escape_byte (c : ascii) : list ascii :=
  bytes "\u00" ++ [hex_char (byte_val c / 16); hex_char (byte_val c mod 16)].

(** A byte below 128. *)
Definition escape_ascii (c : ascii) : list ascii :=
  if bool_decide (c = quote) || bool_decide (c = backslash) then [backslash; c]
  else if byte_val c =? 8 then bytes "\b"
  else if byte_val c =? 12 then bytes "\f"
  else if byte_val c =? 10 then bytes "\n"
  else if byte_val c =? 13 then bytes "\r"
  else if byte_val c =? 9 then bytes "\t"
  else if (byte_val c <? 32) || bool_decide (c ∈ bytes "<>&") then escape_byte c
  else [c].

(** The text of the first rune of a string. *)
Definition escape_rune (c : ascii) (l : list ascii) : list ascii :=
  if byte_val c <? 128 then escape_ascii c else
  let '(r, w) := decode_rune c l in
  if (r =? RuneError) && (w =? 1)%nat then bytes "\ufffd"
  else if r =? 8232 then bytes "\u2028"
  else if r =? 8233 then bytes "\u2029"
  else c :: take (w - 1) l.

Fixpoint quote_bytes (l : list ascii) (skip : nat) : list ascii :=
  match l with
  | [] => []
  | c :: l' =>
    match skip with
    | S k => quote_bytes l' k
    | O => escape_rune c l' ++ quote_bytes l' (snd (decode_rune c l') - 1)
    end
  end.

(** The body of the quoted string. *)
Definition quoted (s : string) : list ascii := quote_bytes (bytes s) 0.

Lemma quote_drop l n : quote_bytes l n = quote_bytes (drop n l) 0.
Proof. apply (skip_drop quote_bytes); [by intros []|done]. Qed.

(** Byte sequences by their runes. *)
Lemma runes_ind (P : list ascii -> Prop) :
  P [] ->
  (forall c l, decode_rune c l = (RuneError, 1%nat) -> P l -> P (c :: l)) ->
  (forall c conts r rest, rune_spec c conts r -> P rest -> P (c :: conts ++ rest)) ->
  forall l, P l.
Proof.
  intros Hnil Hbad Hok l. remember (length l) as n eqn:Hn. revert l Hn.
  induction (Nat.lt_wf_0 n) as [n _ IH]. intros [|c l] ->; [done|].
  destruct (decode_rune_cases c l) as [E|(conts & rest & r & -> & Hr)].
  - apply Hbad; [done|]. by apply (IH (length l)); [simpl; lia|].
  - eapply Hok; [done|]. apply (IH (length rest)); [|done]. simpl. rewrite length_app. lia.
Qed.

Lemma quote_rune c conts r rest :
  rune_spec c conts r ->
  quote_bytes (c :: conts ++ rest) 0 = escape_rune c (conts ++ rest) ++ quote_bytes rest 0.
Proof.
  intros Hr. cbn -[decode_rune escape_rune]. rewrite (rs_decode _ _ _ Hr). cbn -[escape_rune].
  rewrite Nat.sub_0_r, quote_drop. by rewrite drop_app_length.
Qed.

Lemma valid_rune c conts r rest :
  rune_spec c conts r -> valid_utf8 (c :: conts ++ rest) 0 = valid_utf8 rest 0.
Proof.
  intros Hr. cbn -[decode_rune]. rewrite (rs_decode _ _ _ Hr). cbn [snd fst].
  rewrite valid_utf8_drop. replace (S (length conts) - 1)%nat with (length conts) by lia.
  rewrite drop_app_length. destruct conts as [|c1 conts]; simpl; [|by rewrite andb_false_r].
  destruct (Z.eqb_spec r RuneError) as [->|]; [|done].
  exfalso. pose proof (rs_encode _ _ _ Hr) as E. by vm_compute in E.
Qed.

Lemma valid_cases c l : valid_utf8 (c :: l) 0 = true -> decode_rune c l ≠ (RuneError, 1%nat).
Proof. intros H E. cbn -[decode_rune] in H. by rewrite E in H. Qed.

(** A text that decodes to given bytes whatever follows. *)
Definition decodes (t b : list ascii) : Prop := forall x, unquote (t ++ x) 0 = b ++ unquote x 0.

Lemma decodes_plain c : byte_val c < 128 -> c ≠ backslash -> decodes [c] [c].
Proof.
  intros Hc Hb x. cbn -[decode_rune]. rewrite bool_decide_eq_false_2 by done.
  rewrite decode_rune_ascii by done. cbn -[encode_rune]. by rewrite (rs_encode _ _ _ (rune_ascii c Hc)).
Qed.

Lemma decodes_simple e : e ≠ "u"%char -> decodes [backslash; e] [unescape e].
Proof.
  intros He x. cbn -[unescape bool_decide]. rewrite bool_decide_eq_true_2 by done.
  by rewrite bool_decide_eq_false_2.
Qed.

(** A [\u] escape that is no surrogate. *)
Lemma decodes_unicode h1 h2 h3 h4 :
  ~ (55296 <= getu4 h1 h2 h3 h4 <= 56319) ->
  decodes (backslash :: "u"%char :: [h1; h2; h3; h4]) (encode_rune (getu4 h1 h2 h3 h4)).
Proof.
  intros Hs x. cbn -[getu4 encode_rune bool_decide surrogate_pair].
  rewrite !bool_decide_eq_true_2 by done.
  destruct x as [|b [|u [|g1 [|g2 [|g3 [|g4 x]]]]]]; try done.
  assert (surrogate_pair (getu4 h1 h2 h3 h4) (getu4 g1 g2 g3 g4) = None) as ->.
  { unfold surrogate_pair. replace (in_range 55296 56319 _) with false by (unfold in_range; lia). done. }
  by destruct (bool_decide _ && _).
Qed.

Lemma hex_val_char n : 0 <= n < 16 -> hex_val (hex_char n) = n.
Proof.
  intros H. unfold hex_val, hex_char. destruct (Z.ltb_spec n 10); rewrite byte_val_of by lia.
  - rewrite (proj2 (Z.leb_le _ _)) by lia. lia.
  - rewrite !(proj2 (Z.leb_gt _ _)) by lia. lia.
Qed.

Lemma is_hex_char n : 0 <= n < 16 -> is_hex (hex_char n) = true.
Proof.
  intros H. unfold is_hex, is_digit, hex_char, in_range. destruct (Z.ltb_spec n 10); rewrite byte_val_of by lia; lia.
Qed.

Lemma decodes_escape_byte c : byte_val c < 128 -> decodes (escape_byte c) [c].
Proof.
  intros Hc. pose proof (byte_val_range c). set (h := hex_char (byte_val c / 16)).
  set (g := hex_char (byte_val c mod 16)).
  assert (getu4 "0"%char "0"%char h g = byte_val c) as Hu.
  { unfold getu4. change (hex_val "0"%char) with 0. subst h g. rewrite !hex_val_char by lia. lia. }
  assert (encode_rune (getu4 "0"%char "0"%char h g) = [c]) as <- by
    (rewrite Hu; apply (rs_encode _ _ _ (rune_ascii c Hc))).
  apply (decodes_unicode "0"%char "0"%char h g). rewrite Hu. lia.
Qed.

Lemma decodes_escape_ascii c : byte_val c < 128 -> decodes (escape_ascii c) [c].
Proof.
  intros Hc. unfold escape_ascii.
  case_bool_decide as Hq; [subst c; by apply (decodes_simple quote)|].
  case_bool_decide as Hb; [subst c; by apply (decodes_simple backslash)|]. simpl.
  repeat match goal with
  | |- context [byte_val c =? ?n] =>
    let E := fresh "E" in destruct (Z.eqb_spec (byte_val c) n) as [E|E];
      [replace c with (ascii_of_N (Z.to_N n)) by (by apply byte_of); by apply decodes_simple|]
  end.
  destruct (_ || _); [by apply decodes_escape_byte|by apply decodes_plain].
Qed.

(** A rune that stands for itself. *)
Lemma decodes_rune c conts r : rune_spec c conts r -> c ≠ backslash -> decodes (c :: conts) (c :: conts).
Proof.
  intros Hr Hb x. cbn -[decode_rune]. rewrite bool_decide_eq_false_2 by done.
  rewrite (rs_decode _ _ _ Hr). rewrite (rs_encode _ _ _ Hr). cbn. f_equal. f_equal.
  rewrite Nat.sub_0_r, unquote_drop. by rewrite drop_app_length.
Qed.

Lemma decodes_app t1 t2 b1 b2 : decodes t1 b1 -> decodes t2 b2 -> decodes (t1 ++ t2) (b1 ++ b2).
Proof. intros H1 H2 x. by rewrite <-app_assoc, H1, H2, app_assoc. Qed.

Lemma decodes_escape_rune c conts r rest :
  rune_spec c conts r -> decodes (escape_rune c (conts ++ rest)) (c :: conts).
Proof.
  intros Hr. unfold escape_rune. destruct (Z.ltb_spec (byte_val c) 128) as [Hc|Hc].
  { destruct (rs_ascii _ _ _ Hr Hc) as [-> ->]. by apply decodes_escape_ascii. }
  rewrite (rs_decode _ _ _ Hr). rewrite <-(rs_encode _ _ _ Hr).
  replace (S (length conts) - 1)%nat with (length conts) by lia. rewrite take_app_length.
  assert ((r =? RuneError) && (S (length conts) =? 1)%nat = false) as ->.
  { destruct conts; [|by rewrite andb_false_r]. destruct (Z.eqb_spec r RuneError) as [->|]; [|done].
    pose proof (rs_encode _ _ _ Hr) as E. by vm_compute in E. }
  destruct (Z.eqb_spec r 8232) as [->|]; 
    [apply (decodes_unicode "2"%char "0"%char "2"%char "8"%char); by intros [? ?]|].
  destruct (Z.eqb_spec r 8233) as [->|]; 
    [apply (decodes_unicode "2"%char "0"%char "2"%char "9"%char); by intros [? ?]|].
  rewrite (rs_encode _ _ _ Hr). apply (decodes_rune _ _ _ Hr). intros ->. by vm_compute in Hc.
Qed.

(** The decoder reads the string back. *)
Lemma unquote_quote l : valid_utf8 l 0 = true -> unquote (quote_bytes l 0) 0 = l.
Proof.
  induction l as [|c l E IH|c conts r rest Hr IH] using runes_ind; intros Hv; [done| |].
  - by apply valid_cases in Hv.
  - rewrite (valid_rune _ _ _ _ Hr) in Hv. rewrite (quote_rune _ _ _ _ Hr).
    rewrite (decodes_escape_rune _ _ _ _ Hr). rewrite IH by done. done.
Qed.

Lemma unquote_quoted s : valid_utf8 (bytes s) 0 = true -> unquoted (quoted s) = s.
Proof. intros H. unfold unquoted, quoted. by rewrite unquote_quote, of_bytes_bytes. Qed.

(** ** Quoted strings are string bodies *)

Lemma jbody_app b1 b2 : jbody b1 -> jbody b2 -> jbody (b1 ++ b2).
Proof.
  intros Hb1 Hb2. induction Hb1 as [|c l Hq Hs Hc Hl IH|e l He Hl IH|h1 h2 h3 h4 l Hh Hl IH]; simpl;
    [done|by constructor..].
Qed.

Lemma jbody_byte c : 32 <= byte_val c -> c ≠ quote -> c ≠ backslash -> jbody [c].
Proof. intros. constructor; [done..|constructor]. Qed.

Lemma jbody_escape_byte c : byte_val c < 128 -> jbody (escape_byte c).
Proof.
  intros Hc. pose proof (byte_val_range c).
  apply (body_unicode "0"%char "0"%char); [|constructor].
  repeat constructor; apply is_hex_char; lia.
Qed.

Lemma jbody_escape_ascii c : byte_val c < 128 -> jbody (escape_ascii c).
Proof.
  intros Hc. unfold escape_ascii.
  case_bool_decide as Hq; [subst c; by repeat constructor|].
  case_bool_decide as Hb; [subst c; by repeat constructor|]. simpl.
  repeat match goal with |- context [byte_val c =? ?n] => destruct (byte_val c =? n); [by repeat constructor|] end.
  destruct (byte_val c <? 32) eqn:E; simpl; [by apply jbody_escape_byte|].
  case_bool_decide; [by apply jbody_escape_byte|]. apply jbody_byte; [lia|done|done].
Qed.

Lemma jbody_high l : Forall (fun d => 128 <= byte_val d) l -> jbody l.
Proof.
  induction 1 as [|c l Hc Hl IH]; [constructor|]. constructor; [..|lia|done]; intros ->; by vm_compute in Hc.
Qed.

Lemma jbody_escape_rune c l : jbody (escape_rune c l).
Proof.
  unfold escape_rune. destruct (Z.ltb_spec (byte_val c) 128) as [Hc|Hc]; [by apply jbody_escape_ascii|].
  destruct (decode_rune_cases c l) as [->|(conts & rest & r & -> & Hr)]; [by repeat constructor|].
  rewrite (rs_decode _ _ _ Hr). destruct (_ && _); [by repeat constructor|].
  destruct (r =? 8232); [by repeat constructor|]. destruct (r =? 8233); [by repeat constructor|].
  replace (S (length conts) - 1)%nat with (length conts) by lia. rewrite take_app_length.
  apply jbody_high. constructor; [done|]. apply (rs_high _ _ _ Hr).
Qed.

Lemma jbody_quoted s : jbody (quoted s).
Proof.
  unfold quoted. generalize 0%nat. induction (bytes s) as [|c l IH]; intros n; [constructor|].
  destruct n as [|n]; cbn; [|apply IH]. apply jbody_app; [apply jbody_escape_rune|apply IH].
Qed.

(** ** Printing *)

Fixpoint join (l : list (list ascii)) : list ascii :=
  match l with
  | [] => []
  | [x] => x
  | x :: l => x ++ ","%char :: join l
  end.

(** The compact text of a tree. *)
Fixpoint print (t : jtree) : list ascii :=
  match t with
  | JNull => bytes "null"
  | JBool true => bytes "true"
  | JBool false => bytes "false"
  | JNum lit => lit
  | JStr raw => quote :: raw ++ [quote]
  | JArr l => "["%char :: join (print <$> l) ++ ["]"%char]
  | JObj l => "{"%char :: join ((fun kt => quote :: kt.1 ++ quote :: ":"%char :: print kt.2) <$> l) ++ ["}"%char]
  end.

(** Trees whose leaves are literals of the grammar. *)
Inductive wf_tree : jtree -> Prop :=
| wf_null : wf_tree JNull
| wf_bool b : wf_tree (JBool b)
| wf_num lit : number_lit lit -> wf_tree (JNum lit)
| wf_str raw : jbody raw -> wf_tree (JStr raw)
| wf_arr l : Forall wf_tree l -> wf_tree (JArr l)
| wf_obj l : Forall (fun kt => jbody kt.1 /\ wf_tree kt.2) l -> wf_tree (JObj l).

Lemma print_elements ts : ts ≠ [] -> Forall (fun t => jtext t (print t)) ts -> jelements ts (join (print <$> ts)).
Proof.
  intros Hne. induction 1 as [|t ts Ht Hts IH]; [done|]. destruct ts as [|t2 ts].
  - cbn. rewrite <-(app_nil_r (print t)). by apply (elements_one [] t _ []).
  - change (join (print <$> t :: t2 :: ts)) with ([] ++ print t ++ [] ++ ","%char :: join (print <$> t2 :: ts)).
    constructor; [done..|]. by apply IH.
Qed.

Abbreviation print_member := (fun kt : list ascii * jtree => quote :: kt.1 ++ quote :: ":"%char :: print kt.2).

Lemma print_members ms :
  ms ≠ [] -> Forall (fun kt => jbody kt.1 /\ jtext kt.2 (print kt.2)) ms -> jmembers ms (join (print_member <$> ms)).
Proof.
  intros Hne. induction 1 as [|[k t] ms [Hk Ht] Hms IH]; [done|]. destruct ms as [|kt2 ms].
  - cbn. replace (quote :: k ++ quote :: ":"%char :: print t)
      with ([] ++ quote :: k ++ quote :: [] ++ ":"%char :: [] ++ print t ++ []) by (cbn; by rewrite app_nil_r).
    by constructor.
  - replace (join (print_member <$> (k, t) :: kt2 :: ms))
      with ([] ++ quote :: k ++ quote :: [] ++ ":"%char :: [] ++ print t ++ [] ++
            ","%char :: join (print_member <$> kt2 :: ms)).
    + constructor; [done..|]. by apply IH.
    + cbn -[join]. change (join ?l) with (join l) at 2. cbn [join]. by app_flat.
Qed.

Lemma print_text t : wf_tree t -> jtext t (print t).
Proof.
  induction t as [|b|lit|raw|l IH|l IH] using jtree_nested_ind; inversion_clear 1 as [| |? Hl|? Hl|? Hl|? Hl]; cbn.
  - constructor.
  - destruct b; constructor.
  - by constructor.
  - by constructor.
  - destruct (decide (l = [])) as [->|Hne]; [by apply (text_arr_nil [])|].
    constructor. apply print_elements; [done|]. rewrite Forall_forall in *. eauto.
  - destruct (decide (l = [])) as [->|Hne]; [by apply (text_obj_nil [])|].
    constructor. apply print_members; [done|]. rewrite Forall_forall in *. intros kt Hin.
    destruct (Hl kt Hin). split; [done|]. by apply IH.
Qed.

(** The decoder reads a printed tree back. *)
Lemma print_valid t :
  wf_tree t -> nesting t <= maxNestingDepth -> checkValid (of_bytes (print t)) = Ok t.
Proof.
  intros Hwf Hn. apply checkValid_exact. exists [], (print t), []. rewrite bytes_of_bytes, app_nil_r.
  split_and!; [done|done|by apply print_text|done|done].
Qed.

(** ** Integers *)

(** [strconv.ParseInt(lit, 10, 64)] on a number literal, and the width check
    [OverflowInt]. *)
Definition parse_int (width : Z) (lit : list ascii) : option Z :=
  let '(sg, digits) := scan_sign lit in
  match digits, parse_uint 0 digits with
  | _ :: _, inr (Some u) =>
    let z := match sg with [] => u | _ => - u end in
    if (- 2 ^ (width - 1) <=? z) && (z <? 2 ^ (width - 1)) then Some z else None
  | _, _ => None
  end.

(** The literal of an integer. *)
Definition int_text (z : Z) : list ascii := bytes (Itoa z).

Lemma pretty_N_char_digit d : (d < 10)%N ->
  is_digit (pretty_N_char d) = true /\ (d ≠ 0%N -> pretty_N_char d ≠ "0"%char).
Proof.
  intros Hd. assert (d ∈ [0;1;2;3;4;5;6;7;8;9]%N) as H by (rewrite !elem_of_cons; lia).
  rewrite !elem_of_cons in H. by destruct_or?; subst; [..|apply elem_of_nil in H].
Qed.

Lemma pretty_N_go_digits (x : N) s : (0 < x)%N ->
  exists c l, bytes (pretty_N_go x s) = c :: l ++ bytes s /\ c ≠ "0"%char /\ all_digits (c :: l).
Proof.
  revert s. induction (N.lt_wf_0 x) as [x _ IH]; intros s Hx. rewrite pretty_N_go_step by lia.
  destruct (pretty_N_char_digit (x `mod` 10)) as [Hd Hz]; [apply N.mod_lt; lia|].
  destruct (decide (x `div` 10 = 0)%N) as [E|Hne].
  - rewrite E, pretty_N_go_0. exists (pretty_N_char (x `mod` 10)), []. split_and!; [done| |by repeat constructor].
    apply Hz. pose proof (N.Div0.div_mod x 10). lia.
  - destruct (IH (x `div` 10)%N) with (s := String (pretty_N_char (x `mod` 10)) s) as (c & l & -> & Hc & Hl);
      [apply N.div_lt; lia|lia|].
    exists c, (l ++ [pretty_N_char (x `mod` 10)]). inversion_clear Hl.
    split_and!; [cbn; by rewrite <-app_assoc|done|]. constructor; [done|]. apply Forall_app. by repeat constructor.
Qed.

Lemma pretty_N_int_lit (x : N) : int_lit (bytes (pretty x)).
Proof.
  unfold pretty, pretty_N. case_decide; [constructor|].
  destruct (pretty_N_go_digits x "") as (c & l & -> & Hc & Hl); [lia|]. rewrite app_nil_r. by constructor.
Qed.

Lemma int_text_lit z : number_lit (int_text z).
Proof.
  assert (exists sg (x : N), int_text z = sg ++ bytes (pretty x) /\ (sg = [] \/ sg = ["-"%char])) as (sg & x & -> & Hsg).
  { destruct z as [|p|p]; [exists [], 0%N|exists [], (Npos p)|exists ["-"%char], (Npos p)]; auto. }
  exists sg, (bytes (pretty x)), [], []. rewrite !app_nil_r. split_and!; [done..| |constructor|constructor].
  apply pretty_N_int_lit.
Qed.

(** An integer in range is read back. *)
Lemma parse_int_text width z :
  0 < width <= 64 -> - 2 ^ (width - 1) <= z < 2 ^ (width - 1) -> parse_int width (int_text z) = Some z.
Proof.
  intros Hw Hz. assert (2 ^ (width - 1) <= 2 ^ 63) by (apply Z.pow_le_mono_r; lia).
  assert (Hchk : forall u, u = z -> (if (- 2 ^ (width - 1) <=? u) && (u <? 2 ^ (width - 1)) then Some u else None) = Some z).
  { intros u ->. by rewrite (proj2 (Z.leb_le _ _)), (proj2 (Z.ltb_lt _ _)) by lia. }
  unfold parse_int, int_text, Itoa, pretty, pretty_Z.
  destruct z as [|p|p]; [by apply Hchk| |]; change (pretty p) with (pretty (Npos p));
    pose proof (parse_uint_pretty_N (Npos p) ltac:(lia)) as Hp;
    destruct (pretty_N_digits (Npos p)) as (c & s & Heq & Hd); rewrite Heq in *.
  - cbn [bytes String.list_ascii_of_string scan_sign] in *. destruct (digit_not_sign _ Hd) as [Hm _].
    rewrite bool_decide_eq_false_2 by done. rewrite Hp. by apply Hchk.
  - change (bytes ("-" +:+ String c s)) with ("-"%char :: bytes (String c s)). cbn [scan_sign].
    rewrite bool_decide_eq_true_2 by done. cbn [bytes String.list_ascii_of_string] in *. rewrite Hp. by apply Hchk.
Qed.
