(* ===== verification/Codec.v ===== *)
(** * Codecs: [encoding/json] on typed values

    How the standard library maps a Go type to JSON, as combinators: a [codec] is
    what [json.Marshal] and [json.Unmarshal] do for one type, and the codec of a
    struct is built from those of its fields and their tags.  Decoding follows
    [decode.go]: it updates a value in place, keeps the first type mismatch aside
    and goes on, and stops at the error of an [UnmarshalJSON] method.

    A slice and a map are encoded as the code that builds them in this program
    leaves them: an empty slice as [null], an empty map as [{}]; every map field of
    the API and every slice field but the required ones is [omitempty].

    The laws ([lawful]) are stated once for a whole family of readings: a text that
    is written, rewritten in its strings by [R] and read again gives the value with
    [sigma] applied to its strings.  Round trips are the case of the identity,
    rendered templates the case of a substitution. *)

From S2P Require Import Prelude Go Json JsonEncode.
From Stdlib Require Import Ascii.
#[local] Open Scope Z_scope.

(** ** Decoding with saved errors *)

(** A value with the first type mismatch, or the error that stopped the decoder. *)
Definition D (A : Type) : Type := result (A * option error).

#[export] Instance D_ret : MRet D := fun _ a => Ok (a, None).
#[export] Instance D_bind : MBind D := fun _ _ f m =>
  match m with
  | Err e => Err e
  | Ok (a, saved) =>
    match f a with
    | Err e => Err e
    | Ok (b, later) => Ok (b, match saved with Some _ => saved | None => later end)
    end
  end.

(** [saveError]. *)
Definition save {A} (e : error) (a : A) : D A := Ok (a, Some e).

Lemma D_bind_ret {A B} (a : A) (f : A -> D B) : (mret a : D A) ≫= f = f a.
Proof. cbn. by destruct (f a) as [[]|]. Qed.

(** The struct and the fields the decoder is in ([errorContext]). *)
Definition context : Type := string * list string.
Definition no_context : context := ("", []).
Definition within (struct field : string) (ctx : context) : context := (struct, ctx.2 ++ [field]).

(** [UnmarshalTypeError] with its context. *)
Definition mismatch (ctx : context) (value type : string) : error :=
  match ctx.2 with
  | [] => type_error value type
  | path => Msg "json: cannot unmarshal %s into Go struct field %s.%s of type %s"
              [AStr value; AStr ctx.1; AStr (String.concat "." path); AStr type]
  end.

Definition describe (t : jtree) : string :=
  match t with
  | JNull => "null"
  | JBool _ => "bool"
  | JNum _ => "number"
  | JStr _ => "string"
  | JArr _ => "array"
  | JObj _ => "object"
  end.

(** ** Types the operator takes from Kubernetes *)

Inductive external :=
| ExtJSON | ExtQuantity | ExtToleration | ExtAffinity | ExtPodSecurityContext | ExtSecurityContext.

(** Their values are opaque strings; how they are written and read is theirs. *)
Class Externals := {
  ext_zero : external -> string;
  ext_encode : external -> string -> result jtree;
  ext_decode : external -> context -> string -> jtree -> D string }.

(** ** Codecs *)

(** What the content of a value is made of. *)
Inductive leaf :=
| LStr (s : string)
| LKey (k : string)
| LInt (width z : Z)
| LExt (x : external) (v : string).

Record codec (A : Type) := mkCodec {
  zero : A;
  (** [isEmptyValue] *)
  is_empty : A -> bool;
  (** whether a value can be written as [null] *)
  nullable : bool;
  encode : A -> result jtree;
  decode : context -> A -> jtree -> D A;
  leaves : A -> list leaf;
  remap : (string -> string) -> (external -> string -> string) -> A -> A }.
Arguments mkCodec {A}.
Arguments zero {A}. Arguments is_empty {A}. Arguments nullable {A}. Arguments encode {A}.
Arguments decode {A}. Arguments leaves {A}. Arguments remap {A}.

Definition string_as (type : string) : codec string := {|
  zero := "";
  is_empty s := bool_decide (s = "");
  nullable := false;
  encode s := Ok (JStr (quoted s));
  decode ctx old t :=
    match t with
    | JNull => mret old
    | JStr raw => mret (unquoted raw)
    | _ => save (mismatch ctx (describe t) type) old
    end;
  leaves s := [LStr s];
  remap fs _ s := fs s |}.

Abbreviation string_codec := (string_as "string").

Definition bool_codec : codec bool := {|
  zero := false;
  is_empty := negb;
  nullable := false;
  encode b := Ok (JBool b);
  decode ctx old t :=
    match t with
    | JNull => mret old
    | JBool b => mret b
    | _ => save (mismatch ctx (describe t) "bool") old
    end;
  leaves _ := [];
  remap _ _ b := b |}.

Definition int_as (type : string) (width : Z) : codec Z := {|
  zero := 0;
  is_empty z := z =? 0;
  nullable := false;
  encode z := Ok (JNum (int_text z));
  decode ctx old t :=
    match t with
    | JNull => mret old
    | JNum lit =>
      match parse_int width lit with
      | Some z => mret z
      | None => save (mismatch ctx ("number " +:+ of_bytes lit) type) old
      end
    | _ => save (mismatch ctx (describe t) type) old
    end;
  leaves z := [LInt width z];
  remap _ _ z := z |}.

Abbreviation int_codec := (int_as "int" 64).
Abbreviation int32_codec := (int_as "int32" 32).

(** [*T] *)
Definition pointer {A} (c : codec A) : codec (option A) := {|
  zero := None;
  is_empty o := match o with None => true | Some _ => false end;
  nullable := true;
  encode o := match o with None => Ok JNull | Some a => encode c a end;
  decode ctx old t :=
    match t with
    | JNull => mret None
    | _ => a ← decode c ctx (default (zero c) old) t; mret (Some a)
    end;
  leaves o := match o with None => [] | Some a => leaves c a end;
  remap fs fe o := remap c fs fe <$> o |}.

(** The elements are decoded into those the slice has, then into zero values. *)
Fixpoint decode_elements {A} (c : codec A) (ctx : context) (old : list A) (ts : list jtree) : D (list A) :=
  match ts with
  | [] => mret []
  | t :: ts =>
    a ← decode c ctx (default (zero c) (head old)) t;
    l ← decode_elements c ctx (tail old) ts;
    mret (a :: l)
  end.

(** [[]T] *)
Definition slice_of {A} (type : string) (c : codec A) : codec (list A) := {|
  zero := [];
  is_empty l := match l with [] => true | _ => false end;
  nullable := true;
  encode l := match l with [] => Ok JNull | _ => JArr <$> map_res (encode c) l end;
  decode ctx old t :=
    match t with
    | JNull => mret []
    | JArr ts => decode_elements c ctx old ts
    | _ => save (mismatch ctx (describe t) type) old
    end;
  leaves l := l ≫= leaves c;
  remap fs fe l := remap c fs fe <$> l |}.

(** The entries of a map in the order of their keys. *)
Definition sorted_entries {A} (m : gmap string A) : list (string * A) :=
  merge_sort (fun p q => String.le p.1 q.1) (map_to_list m).

Definition encode_entry {A} (c : codec A) (ka : string * A) : result (list ascii * jtree) :=
  t ← encode c ka.2; Ok (quoted ka.1, t).

(** Every value is decoded afresh and stored. *)
Fixpoint decode_entries {A} (c : codec A) (ctx : context) (m : gmap string A) (ms : list (list ascii * jtree))
    : D (gmap string A) :=
  match ms with
  | [] => mret m
  | (k, t) :: ms =>
    a ← decode c ctx (zero c) t;
    decode_entries c ctx (<[unquoted k := a]> m) ms
  end.

(** [map[string]T] *)
Definition string_map {A} (type : string) (c : codec A) : codec (gmap string A) := {|
  zero := ∅;
  is_empty m := bool_decide (map_to_list m = []);
  nullable := false;
  encode m := JObj <$> map_res (encode_entry c) (sorted_entries m);
  decode ctx old t :=
    match t with
    | JNull => mret ∅
    | JObj ms => decode_entries c ctx old ms
    | _ => save (mismatch ctx (describe t) type) old
    end;
  leaves m := sorted_entries m ≫= (fun ka => LKey ka.1 :: leaves c ka.2);
  remap fs fe m := remap c fs fe <$> m |}.

(** A type of Kubernetes. *)
Definition external_codec `{Externals} (x : external) : codec string := {|
  zero := ext_zero x;
  is_empty _ := false;
  nullable := false;
  encode := ext_encode x;
  decode := ext_decode x;
  leaves v := [LExt x v];
  remap _ fe v := fe x v |}.

(** ** Structs *)

(** A field: its key and whether it is [omitempty]. *)
Record field := mkField {
  f_type : Type;
  f_name : string;
  f_omit : bool;
  f_codec : codec f_type }.
Arguments mkField {f_type}.

(** The values of the fields. *)
Fixpoint tuple (fs : list field) : Type :=
  match fs with
  | [] => unit
  | f :: fs => f_type f * tuple fs
  end.

Abbreviation names fs := (f_name <$> fs).

Fixpoint zeros (fs : list field) : tuple fs :=
  match fs with
  | [] => tt
  | f :: fs => (zero (f_codec f), zeros fs)
  end.

Definition omitted (f : field) (a : f_type f) : bool := f_omit f && is_empty (f_codec f) a.

Fixpoint encode_fields (fs : list field) : tuple fs -> result (list (list ascii * jtree)) :=
  match fs with
  | [] => fun _ => Ok []
  | f :: fs => fun x =>
    if omitted f x.1 then encode_fields fs x.2
    else t ← encode (f_codec f) x.1; ms ← encode_fields fs x.2; Ok ((quoted (f_name f), t) :: ms)
  end.

(** [foldName]: upper case, with the two runes outside ASCII that fold to an ASCII
    letter; the others fold to runes outside ASCII, which occur in no key. *)
Definition fold_byte (c : ascii) : ascii :=
  if in_range 97 122 (byte_val c) then ascii_of_N (Z.to_N (byte_val c - 32)) else c.

Fixpoint fold_name (l : list ascii) (skip : nat) : list ascii :=
  match l with
  | [] => []
  | c :: l' =>
    match skip with
    | S k => fold_name l' k
    | O =>
      let '(r, w) := decode_rune c l' in
      (if byte_val c <? 128 then [fold_byte c]
       else if r =? 8490 then bytes "K"
       else if r =? 383 then bytes "S"
       else c :: take (w - 1) l') ++ fold_name l' (w - 1)
    end
  end.

(** The field a key names: the one with that name, or else one with that name up
    to case. *)
Definition resolve (ns : list string) (key : string) : option string :=
  if bool_decide (key ∈ ns) then Some key
  else head (filter (fun n => fold_name (bytes n) 0 = fold_name (bytes key) 0) ns).

(** Decode into the field of a given name. *)
Fixpoint set_field (ctx : context) (struct name : string) (t : jtree) (fs : list field) : tuple fs -> D (tuple fs) :=
  match fs with
  | [] => fun x => mret x
  | f :: fs => fun x =>
    if bool_decide (f_name f = name)
    then a ← decode (f_codec f) (within struct name ctx) x.1 t; mret (a, x.2)
    else y ← set_field ctx struct name t fs x.2; mret (x.1, y)
  end.

(** The members in order; unknown keys are skipped. *)
Fixpoint decode_members (ctx : context) (struct : string) (fs : list field) (ms : list (list ascii * jtree))
    (x : tuple fs) : D (tuple fs) :=
  match ms with
  | [] => mret x
  | (k, t) :: ms =>
    y ← match resolve (names fs) (unquoted k) with
        | Some name => set_field ctx struct name t fs x
        | None => mret x
        end;
    decode_members ctx struct fs ms y
  end.

Fixpoint leaves_fields (fs : list field) : tuple fs -> list leaf :=
  match fs with
  | [] => fun _ => []
  | f :: fs => fun x => leaves (f_codec f) x.1 ++ leaves_fields fs x.2
  end.

Fixpoint remap_fields fs_str fs_ext (fs : list field) : tuple fs -> tuple fs :=
  match fs with
  | [] => fun x => x
  | f :: fs => fun x => (remap (f_codec f) fs_str fs_ext x.1, remap_fields fs_str fs_ext fs x.2)
  end.

(** A struct of the package [v1alpha1], a record that is the tuple of its fields. *)
Definition struct {A} (name : string) (fs : list field) (unpack : A -> tuple fs) (pack : tuple fs -> A) : codec A := {|
  zero := pack (zeros fs);
  is_empty _ := false;
  nullable := false;
  encode a := JObj <$> encode_fields fs (unpack a);
  decode ctx old t :=
    match t with
    | JNull => mret old
    | JObj ms => x ← decode_members ctx name fs ms (unpack old); mret (pack x)
    | _ => save (mismatch ctx (describe t) ("v1alpha1." +:+ name)) old
    end;
  leaves a := leaves_fields fs (unpack a);
  remap fs_str fs_ext a := pack (remap_fields fs_str fs_ext fs (unpack a)) |}.

(** A value of another type with the same content. *)
Definition wrap {A B} (unpack : A -> B) (pack : B -> A) (c : codec B) : codec A := {|
  zero := pack (zero c);
  is_empty a := is_empty c (unpack a);
  nullable := nullable c;
  encode a := encode c (unpack a);
  decode ctx old t := b ← decode c ctx (unpack old) t; mret (pack b);
  leaves a := leaves c (unpack a);
  remap fs fe a := pack (remap c fs fe (unpack a)) |}.

(** [json.Marshal] and [json.Unmarshal] into a fresh value. *)
Definition marshal {A} (c : codec A) (a : A) : result string :=
  t ← encode c a; Ok (of_bytes (print t)).

Definition unmarshal {A} (c : codec A) (data : string) : result A :=
  t ← checkValid data;
  match decode c no_context (zero c) t with
  | Ok (a, None) => Ok a
  | Ok (_, Some e) => Err e
  | Err e => Err e
  end.

(** ** Trees that differ in their strings *)

Inductive rewritten (R : list ascii -> list ascii -> Prop) : jtree -> jtree -> Prop :=
| rw_null : rewritten R JNull JNull
| rw_bool b : rewritten R (JBool b) (JBool b)
| rw_num lit : rewritten R (JNum lit) (JNum lit)
| rw_str raw raw' : R raw raw' -> rewritten R (JStr raw) (JStr raw')
| rw_arr l l' : Forall2 (rewritten R) l l' -> rewritten R (JArr l) (JArr l')
| rw_obj l l' :
  Forall2 (fun kt kt' => R kt.1 kt'.1 /\ rewritten R kt.2 kt'.2) l l' -> rewritten R (JObj l) (JObj l').

Lemma rewritten_eq t t' : rewritten eq t t' -> t = t'.
Proof.
  revert t'. induction t as [|b|lit|raw|l IH|l IH] using jtree_nested_ind;
    intros t'; inversion_clear 1 as [| | |? ? HR|? l' HR|? l' HR]; try congruence.
  - f_equal. revert l' HR. induction IH as [|t l Ht Hl IH]; inversion_clear 1; [done|]. f_equal; auto.
  - f_equal. revert l' HR. induction IH as [|[k t] l Ht Hl IH]; inversion_clear 1 as [|? [k' t''] ? ? [Hk ?]]; [done|].
    simpl in *. subst k'. f_equal; [|auto]. f_equal. auto.
Qed.

(** The string bodies and keys of a tree. *)
Fixpoint bodies (t : jtree) : list (list ascii) :=
  match t with
  | JStr raw => [raw]
  | JArr l => l ≫= bodies
  | JObj l => l ≫= (fun kt => kt.1 :: bodies kt.2)
  | _ => []
  end.

Lemma rewritten_refl R t : Forall (fun b => R b b) (bodies t) -> rewritten R t t.
Proof.
  induction t as [|b|lit|raw|l IH|l IH] using jtree_nested_ind; cbn; intros Hb; constructor.
  - by inversion Hb.
  - induction IH as [|t l Ht Hl IH]; constructor; cbn in Hb; apply Forall_app in Hb as [? ?]; auto.
  - induction IH as [|[k t] l Ht Hl IH]; constructor; cbn in Hb; apply Forall_cons in Hb as [? [? ?]%Forall_app]; auto.
Qed.

Lemma nesting_arr l d : nesting (JArr l) <= d + 1 <-> 0 <= d /\ Forall (fun t => nesting t <= d) l.
Proof.
  transitivity (foldr (fun t n => Z.max (nesting t) n) 0 l <= d); [cbn; lia|].
  induction l as [|t l IH]; cbn; [intuition|]. rewrite Forall_cons, Z.max_lub_iff, IH. tauto.
Qed.

Lemma nesting_obj l d : nesting (JObj l) <= d + 1 <-> 0 <= d /\ Forall (fun kt => nesting kt.2 <= d) l.
Proof.
  transitivity (foldr (fun kt n => Z.max (nesting kt.2) n) 0 l <= d); [cbn; lia|].
  induction l as [|t l IH]; cbn; [intuition|]. rewrite Forall_cons, Z.max_lub_iff, IH. tauto.
Qed.

Lemma rewritten_nesting R t t' : rewritten R t t' -> nesting t' = nesting t.
Proof.
  revert t'. induction t as [|b|lit|raw|l IH|l IH] using jtree_nested_ind;
    intros t' Hrw; inversion Hrw as [| | |? ? HR|? l' HR|? l' HR]; subst; clear Hrw; try done; cbn; f_equal.
  - induction HR as [|t t' l l' Ht HR IHl]; [done|]. apply Forall_cons in IH as [IHt IH]. cbn. by rewrite IHt, IHl.
  - induction HR as [|kt kt' l l' [_ Ht] HR IHl]; [done|]. apply Forall_cons in IH as [IHt IH]. cbn. by rewrite IHt, IHl.
Qed.

(** ** The laws *)

(** Strings are rewritten by [R], which reads as [sigma] on the strings the
    predicate [P] allows; the values of Kubernetes types come back as [nu] says. *)
Record reading `{Externals} (P : leaf -> Prop) (R : list ascii -> list ascii -> Prop)
    (sigma : string -> string) (nu : external -> string -> string) (depth : Z) : Prop := {
  rd_depth : 0 <= depth;
  rd_empty : sigma "" = "";
  rd_str s : P (LStr s) -> exists raw, R (quoted s) raw /\ jbody raw /\ unquoted raw = sigma s;
  rd_key k : P (LKey k) -> R (quoted k) (quoted k) /\ valid_utf8 (bytes k) 0 = true;
  rd_int width z : P (LInt width z) -> - 2 ^ (width - 1) <= z < 2 ^ (width - 1);
  rd_ext x v : P (LExt x v) -> exists t t', ext_encode x v = Ok t /\ wf_tree t /\ wf_tree t' /\
    t' ≠ JNull /\ nesting t' <= depth /\ rewritten R t t' /\
    forall ctx, ext_decode x ctx (ext_zero x) t' = mret (nu x v) }.

Section laws.
Context `{Externals}.
Variables (P : leaf -> Prop) (R : list ascii -> list ascii -> Prop).
Variables (sigma : string -> string) (nu : external -> string -> string) (depth : Z).
Hypothesis rd : reading P R sigma nu depth.

(** Written as [t], rewritten to [t'], read as [b]. *)
Record read {A} (c : codec A) (d : Z) (b : A) (t t' : jtree) : Prop := {
  read_wf : wf_tree t;
  read_wf' : wf_tree t';
  read_nesting : nesting t' <= d;
  read_null : nullable c = false -> t' ≠ JNull;
  read_rewritten : rewritten R t t';
  read_decode ctx : decode c ctx (zero c) t' = mret b }.

Record lawful {A} (d : Z) (c : codec A) : Prop := {
  law_read a : Forall P (leaves c a) ->
    exists t t', encode c a = Ok t /\ read c d (remap c sigma nu a) t t';
  law_empty a : is_empty c a = true -> remap c sigma nu a = zero c }.

Lemma lawful_mono {A} (c : codec A) d d' : d <= d' -> lawful d c -> lawful d' c.
Proof.
  intros Hd [Hr He]. split; [|done]. intros a Ha. destruct (Hr a Ha) as (t & t' & E & []).
  exists t, t'. split; [done|]. split; auto. lia.
Qed.

Lemma string_lawful type : lawful depth (string_as type).
Proof.
  pose proof (rd_depth _ _ _ _ _ rd). split; cbn.
  - intros s Hs%Forall_inv. destruct (rd_str _ _ _ _ _ rd s Hs) as (raw & HR & Hb & Hu).
    exists (JStr (quoted s)), (JStr raw). split; [done|].
    split; cbn [decode string_as]; [constructor; apply jbody_quoted|by constructor|done|done|by constructor|].
    intros _. by rewrite Hu.
  - intros s ->%bool_decide_eq_true. apply (rd_empty _ _ _ _ _ rd).
Qed.

Lemma bool_lawful : lawful depth bool_codec.
Proof.
  pose proof (rd_depth _ _ _ _ _ rd). split; [intros b _|by intros []].
  exists (JBool b), (JBool b). split; [done|]. split; try done; constructor.
Qed.

Lemma int_lawful type width : 0 < width <= 64 -> lawful depth (int_as type width).
Proof.
  pose proof (rd_depth _ _ _ _ _ rd). intros Hw. split; cbn; [|intros z; lia].
  intros z Hz%Forall_inv%(rd_int _ _ _ _ _ rd). exists (JNum (int_text z)), (JNum (int_text z)). split; [done|].
  split; cbn; [constructor; apply int_text_lit..|done|done|constructor|].
  intros ctx. by rewrite parse_int_text.
Qed.

Lemma external_lawful x : lawful depth (external_codec x).
Proof.
  split; cbn; [|done]. intros v Hv%Forall_inv.
  destruct (rd_ext _ _ _ _ _ rd x v Hv) as (t & t' & ? & ? & ? & ? & ? & ? & ?).
  exists t, t'. by split.
Qed.

Lemma pointer_lawful {A} d (c : codec A) : 0 <= d -> nullable c = false -> lawful d c -> lawful d (pointer c).
Proof.
  intros Hd Hn [Hr He]. split; [|by intros []]. intros [a|] Ha; cbn in Ha.
  - destruct (Hr a Ha) as (t & t' & E & [Hw Hw' Hne Hnull HR Hdec]). exists t, t'. split; [done|].
    split; try done. intros ctx. specialize (Hnull Hn). specialize (Hdec ctx).
    cbn. destruct t'; try done; by rewrite Hdec.
  - exists JNull, JNull. split; [done|]. split; cbn; try done; constructor.
Qed.

Lemma wrap_lawful {A B} d (unpack : A -> B) (pack : B -> A) (c : codec B) :
  (forall b, unpack (pack b) = b) -> lawful d c -> lawful d (wrap unpack pack c).
Proof.
  intros Hup [Hr He]. split; cbn.
  - intros a Ha. destruct (Hr _ Ha) as (t & t' & E & []). exists t, t'. split; [done|]. split; try done.
    intros ctx. cbn. rewrite Hup, read_decode0. done.
  - intros a Ha. by rewrite He.
Qed.

(** *** Slices and maps *)

Lemma elements_read {A} d (c : codec A) l : lawful d c -> Forall P (l ≫= leaves c) ->
  exists ts ts', map_res (encode c) l = Ok ts /\ Forall wf_tree ts /\ Forall wf_tree ts' /\
    Forall (fun t => nesting t <= d) ts' /\ Forall2 (rewritten R) ts ts' /\
    forall ctx, decode_elements c ctx [] ts' = mret (remap c sigma nu <$> l).
Proof.
  intros [Hr _]. induction l as [|a l IH]; cbn; [intros _; by exists [], []|].
  intros [Ha Hl]%Forall_app. destruct (Hr a Ha) as (t & t' & -> & []).
  destruct (IH Hl) as (ts & ts' & -> & ? & ? & ? & ? & Hdec). exists (t :: ts), (t' :: ts').
  split_and!; [done|by constructor..|]. intros ctx. cbn [decode_elements head tail default].
  rewrite read_decode0, D_bind_ret, Hdec. done.
Qed.

Lemma slice_lawful {A} d type (c : codec A) : 0 <= d -> lawful d c -> lawful (d + 1) (slice_of type c).
Proof.
  intros Hd Hc. split; [|by intros []]. intros [|a l] Ha.
  { exists JNull, JNull. split; [done|]. split; cbn; try done; try constructor. lia. }
  destruct (elements_read d c (a :: l) Hc Ha) as (ts & ts' & E & Hw & Hw' & Hn & HR & Hdec).
  exists (JArr ts), (JArr ts'). split; [unfold encode, slice_of; by rewrite E|].
  split; [by constructor..|by apply nesting_arr|done|by constructor|exact Hdec].
Qed.

Lemma sorted_entries_perm {A} (m : gmap string A) : sorted_entries m ≡ₚ map_to_list m.
Proof. apply merge_sort_Permutation. Qed.

Lemma entries_read {A} d (c : codec A) (l : list (string * A)) : lawful d c ->
  Forall P (l ≫= (fun ka => LKey ka.1 :: leaves c ka.2)) ->
  exists ms ms', map_res (encode_entry c) l = Ok ms /\
    Forall (fun kt => jbody kt.1 /\ wf_tree kt.2) ms /\ Forall (fun kt => jbody kt.1 /\ wf_tree kt.2) ms' /\
    Forall (fun kt => nesting kt.2 <= d) ms' /\
    Forall2 (fun kt kt' => R kt.1 kt'.1 /\ rewritten R kt.2 kt'.2) ms ms' /\
    forall ctx m, decode_entries c ctx m ms' = mret (foldl (fun m ka => <[ka.1 := remap c sigma nu ka.2]> m) m l).
Proof.
  intros [Hr _]. induction l as [|[k a] l IH]; cbn; [intros _; by exists [], []|].
  intros [Hk [Ha Hl]%Forall_app]%Forall_cons. destruct (Hr a Ha) as (t & t' & E & []).
  destruct (rd_key _ _ _ _ _ rd k Hk) as [HRk Hv].
  destruct (IH Hl) as (ms & ms' & Ems & ? & ? & ? & ? & Hdec).
  exists ((quoted k, t) :: ms), ((quoted k, t') :: ms').
  assert (encode_entry c (k, a) = Ok (quoted k, t)) as Ek by (unfold encode_entry; cbn; by rewrite E).
  rewrite Ek. cbn. rewrite Ems.
  split_and!; [done|
    (constructor; [split; [apply jbody_quoted|done]|done])..|by constructor|by constructor|].
  intros ctx m. cbn [decode_entries]. rewrite read_decode0, D_bind_ret, unquote_quoted, Hdec by done. done.
Qed.

(** Storing every entry once gives the map. *)
Lemma foldl_insert {A B} (f : A -> B) (l : list (string * A)) (m : gmap string B) :
  NoDup l.*1 ->
  foldl (fun m ka => <[ka.1 := f ka.2]> m) m l = list_to_map (prod_map id f <$> l) ∪ m.
Proof.
  revert m. induction l as [|[k a] l IH]; intros m; cbn; [by rewrite (left_id_L ∅ (∪))|].
  intros [Hk Hl]%NoDup_cons. rewrite IH by done. rewrite <-insert_union_l, <-insert_union_r; [done|].
  apply not_elem_of_list_to_map_1. by rewrite <-list_fmap_compose.
Qed.

Lemma foldl_entries {A B} (f : A -> B) (m : gmap string A) :
  foldl (fun m ka => <[ka.1 := f ka.2]> m) ∅ (sorted_entries m) = f <$> m.
Proof.
  rewrite foldl_insert, (right_id_L ∅ (∪)).
  - rewrite list_to_map_fmap. f_equal. rewrite (list_to_map_proper _ (map_to_list m)).
    + apply list_to_map_to_list.
    + rewrite sorted_entries_perm. apply NoDup_fst_map_to_list.
    + apply sorted_entries_perm.
  - rewrite sorted_entries_perm. apply NoDup_fst_map_to_list.
Qed.

Lemma map_lawful {A} d type (c : codec A) : 0 <= d -> lawful d c -> lawful (d + 1) (string_map type c).
Proof.
  intros Hd Hc. split.
  - intros m Hm. destruct (entries_read d c (sorted_entries m) Hc Hm) as (ms & ms' & E & Hw & Hw' & Hn & HR & Hdec).
    exists (JObj ms), (JObj ms'). split; [cbn; by rewrite E|].
    split; [by constructor..|by apply nesting_obj|done|by constructor|].
    intros ctx. cbn. rewrite Hdec, foldl_entries. done.
  - intros m Hm%bool_decide_eq_true%map_to_list_empty_iff. subst m. apply fmap_empty.
Qed.

(** *** Structs *)

(** The members decoded into the fields they name exactly. *)
Fixpoint set_fields ctx struct_name fs (ms : list (list ascii * jtree)) (x : tuple fs) : D (tuple fs) :=
  match ms with
  | [] => mret x
  | (k, t) :: ms => y ← set_field ctx struct_name (unquoted k) t fs x; set_fields ctx struct_name fs ms y
  end.

Lemma decode_members_exact ctx struct_name fs ms x :
  Forall (fun kt => unquoted kt.1 ∈ names fs) ms ->
  decode_members ctx struct_name fs ms x = set_fields ctx struct_name fs ms x.
Proof.
  revert x. induction ms as [|[k t] ms IH]; intros x; [done|]. intros [Hk Hms]%Forall_cons. cbn in *.
  unfold resolve. rewrite bool_decide_eq_true_2 by done.
  destruct (set_field _ _ _ _ _ _) as [[y s]|]; [|done]. cbn. by rewrite IH.
Qed.

Lemma set_fields_skip ctx struct_name f fs ms (x : tuple (f :: fs)) :
  Forall (fun kt => f_name f ≠ unquoted kt.1) ms ->
  set_fields ctx struct_name (f :: fs) ms x = (y ← set_fields ctx struct_name fs ms x.2; mret (x.1, y)).
Proof.
  revert x. induction ms as [|[k t] ms IH]; intros [a x]; [done|]. intros [Hk Hms]%Forall_cons. cbn in *.
  rewrite bool_decide_eq_false_2 by done.
  destruct (set_field _ _ _ _ _ _) as [[y s]|]; [|done]. cbn. rewrite IH by done. cbn.
  destruct (set_fields _ _ _ _ _) as [[z s']|]; [|done]. cbn. by destruct s, s'.
Qed.

(** Names of fields, which the rewriting leaves alone. *)
Definition fixed_name (n : string) : Prop := R (quoted n) (quoted n) /\ valid_utf8 (bytes n) 0 = true.

Lemma fields_read d fs (x : tuple fs) :
  Forall (fun f => lawful d (f_codec f)) fs -> NoDup (names fs) -> Forall fixed_name (names fs) ->
  Forall P (leaves_fields fs x) ->
  exists ms ms', encode_fields fs x = Ok ms /\
    Forall (fun kt => jbody kt.1 /\ wf_tree kt.2) ms /\ Forall (fun kt => jbody kt.1 /\ wf_tree kt.2) ms' /\
    Forall (fun kt => nesting kt.2 <= d) ms' /\
    Forall2 (fun kt kt' => R kt.1 kt'.1 /\ rewritten R kt.2 kt'.2) ms ms' /\
    Forall (fun kt => unquoted kt.1 ∈ names fs) ms' /\
    forall ctx struct_name,
      set_fields ctx struct_name fs ms' (zeros fs) = mret (remap_fields sigma nu fs x).
Proof.
  induction fs as [|f fs IH]; [destruct x; intros; by exists [], []|].
  destruct x as [a x]. intros [Hf Hfs]%Forall_cons [Hnot Hnd]%NoDup_cons [[HRn Hvn] Hns]%Forall_cons.
  cbn. intros [Ha Hx]%Forall_app.
  destruct (IH x Hfs Hnd Hns Hx) as (ms & ms' & E & Hw & Hw' & Hn & HR & Hin & Hdec).
  assert (Hskip : Forall (fun kt => f_name f ≠ unquoted kt.1) ms').
  { eapply Forall_impl; [exact Hin|]. intros kt Hkt Heq. apply Hnot. rewrite Heq. exact Hkt. }
  assert (Hin' : Forall (fun kt => unquoted kt.1 ∈ f_name f :: names fs) ms').
  { eapply Forall_impl; [exact Hin|]. intros kt Hkt. by right. }
  destruct (omitted f a) eqn:Ho.
  - exists ms, ms'. split_and!; try done. intros ctx sn. rewrite set_fields_skip by done. cbn. rewrite Hdec. cbn.
    apply andb_prop in Ho as [_ Ho]. by rewrite (law_empty _ _ Hf a Ho).
  - destruct (law_read _ _ Hf a Ha) as (t & t' & -> & []). cbn. rewrite E. cbn.
    exists ((quoted (f_name f), t) :: ms), ((quoted (f_name f), t') :: ms').
    split_and!; [done|(constructor; [split; [apply jbody_quoted|done]|done])..|by constructor|by constructor| |].
    + constructor; [|done]. cbn [fst]. rewrite unquote_quoted by done. by left.
    + intros ctx sn. cbn [set_fields zeros]. rewrite unquote_quoted by done. cbn [set_field].
      rewrite bool_decide_eq_true_2 by done. cbn [fst snd]. rewrite read_decode0, !D_bind_ret.
      rewrite set_fields_skip by done. cbn [fst snd]. by rewrite Hdec.
Qed.

Lemma struct_lawful {A} d name fs (unpack : A -> tuple fs) (pack : tuple fs -> A) :
  0 <= d -> (forall x, unpack (pack x) = x) -> NoDup (names fs) -> Forall fixed_name (names fs) ->
  Forall (fun f => lawful d (f_codec f)) fs -> lawful (d + 1) (struct name fs unpack pack).
Proof.
  intros Hd Hup Hnd Hns Hfs. split; [|done]. intros a Ha.
  destruct (fields_read d fs (unpack a) Hfs Hnd Hns Ha) as (ms & ms' & E & Hw & Hw' & Hn & HR & Hin & Hdec).
  exists (JObj ms), (JObj ms'). split; [cbn; by rewrite E|].
  split; [by constructor..|by apply nesting_obj|done|by constructor|].
  intros ctx. cbn. rewrite Hup, decode_members_exact by done. by rewrite Hdec.
Qed.

(** *** Documents *)

Lemma lawful_marshal {A} d (c : codec A) a :
  d <= maxNestingDepth -> lawful d c -> Forall P (leaves c a) ->
  exists t t', encode c a = Ok t /\ marshal c a = Ok (of_bytes (print t)) /\ wf_tree t /\ rewritten R t t' /\
    checkValid (of_bytes (print t')) = Ok t' /\
    unmarshal c (of_bytes (print t')) = Ok (remap c sigma nu a).
Proof.
  intros Hd Hc Ha. destruct (law_read _ _ Hc a Ha) as (t & t' & E & []).
  assert (checkValid (of_bytes (print t')) = Ok t') as Hv by (apply print_valid; [done|lia]).
  exists t, t'. split_and!; [done|unfold marshal; by rewrite E|done|done|done|].
  unfold unmarshal. rewrite Hv. cbn. by rewrite read_decode0.
Qed.

End laws.

(** ** Normal forms *)

(** Values of Kubernetes types replaced by others that are written alike: the
    whole is written alike. *)
Section normal.
Context `{Externals}.
Variables (P : leaf -> Prop) (nu : external -> string -> string).
Hypothesis nu_encode : forall x v, P (LExt x v) -> ext_encode x (nu x v) = ext_encode x v.

Record stable {A} (c : codec A) : Prop := {
  stable_encode a : Forall P (leaves c a) -> encode c (remap c id nu a) = encode c a;
  stable_empty a : is_empty c (remap c id nu a) = is_empty c a }.

Lemma string_stable type : stable (string_as type).
Proof. by split. Qed.

Lemma bool_stable : stable bool_codec.
Proof. by split. Qed.

Lemma int_stable type width : stable (int_as type width).
Proof. by split. Qed.

Lemma external_stable x : stable (external_codec x).
Proof. split; cbn; [|done]. intros v Hv%Forall_inv. auto. Qed.

Lemma pointer_stable {A} (c : codec A) : stable c -> stable (pointer c).
Proof. intros [He _]. split; [|by intros []]. intros [a|] Ha; cbn; auto. Qed.

Lemma slice_stable {A} type (c : codec A) : stable c -> stable (slice_of type c).
Proof.
  intros [He _]. split; [|by intros []]. intros [|a l] Ha; [done|]. cbn in Ha |- *.
  assert (forall l, Forall P (l ≫= leaves c) -> map_res (encode c) (remap c id nu <$> l) = map_res (encode c) l) as Hl.
  { clear -He. induction l as [|a l IH]; [done|]. cbn. intros [Ha Hl]%Forall_app.
    rewrite (He a Ha), (IH Hl). done. }
  apply Forall_app in Ha as [Ha Hl']. rewrite He by done.
  change (list_fmap _ _ (remap c id nu) l) with (remap c id nu <$> l). by rewrite Hl.
Qed.

Lemma fields_stable fs : Forall (fun f => stable (f_codec f)) fs ->
  forall x, Forall P (leaves_fields fs x) -> encode_fields fs (remap_fields id nu fs x) = encode_fields fs x.
Proof.
  induction 1 as [|f fs [He Hem] Hfs IH]; [done|]. intros [b x]. cbn. intros [Hb Hx]%Forall_app.
  unfold omitted. rewrite Hem, (He b Hb), (IH x Hx). done.
Qed.

Lemma struct_stable {A} name fs (unpack : A -> tuple fs) (pack : tuple fs -> A) :
  (forall x, unpack (pack x) = x) -> Forall (fun f => stable (f_codec f)) fs ->
  stable (struct name fs unpack pack).
Proof.
  intros Hup Hfs. split; [|done]. intros a Ha. cbn in *. by rewrite Hup, fields_stable.
Qed.

Lemma wrap_stable {A B} (unpack : A -> B) (pack : B -> A) (c : codec B) :
  (forall b, unpack (pack b) = b) -> stable c -> stable (wrap unpack pack c).
Proof. intros Hup [He Hem]. split; cbn; intros; rewrite Hup; auto. Qed.

#[local] Instance key_le_trans {A} : Transitive (fun p q : string * A => String.le p.1 q.1).
Proof. intros p q r. apply transitivity. Qed.
#[local] Instance key_le_total {A} : Total (fun p q : string * A => String.le p.1 q.1).
Proof. intros p q. apply total, _. Qed.

Lemma sorted_entries_fmap {A B} (f : A -> B) (m : gmap string A) :
  sorted_entries (f <$> m) = prod_map id f <$> sorted_entries m.
Proof.
  assert (prod_map id f <$> sorted_entries m ≡ₚ map_to_list (f <$> m)) as Hp
    by by rewrite sorted_entries_perm, map_to_list_fmap.
  apply (StronglySorted_unique_strong (fun p q => String.le p.1 q.1)).
  - intros [k1 b1] [k2 b2]. rewrite Hp, sorted_entries_perm, !elem_of_map_to_list. cbn. intros H1 H2 Hle Hge.
    assert (k1 = k2) as -> by (by apply (anti_symm String.le)). congruence.
  - apply (StronglySorted_merge_sort _).
  - eapply StronglySorted_fmap, (StronglySorted_merge_sort _). done.
  - by rewrite sorted_entries_perm, Hp.
Qed.

Lemma map_stable {A} type (c : codec A) : stable c -> stable (string_map type c).
Proof.
  intros [He _]. split.
  - intros m Hm. cbn in *. rewrite sorted_entries_fmap. f_equal. induction (sorted_entries m) as [|[k a] l IH]; [done|].
    cbn in Hm |- *. apply Forall_cons in Hm as [_ [Ha Hl]%Forall_app].
    assert (encode_entry c (k, remap c id nu a) = encode_entry c (k, a)) as E
      by (unfold encode_entry; cbn; by rewrite He).
    change (prod_map id (remap c id nu) (k, a)) with (k, remap c id nu a). rewrite E.
    change (list_fmap _ _ _ l) with (prod_map id (remap c id nu) <$> l). by rewrite IH.
  - intros m. cbn. apply bool_decide_ext. by rewrite !map_to_list_empty_iff, fmap_empty_iff.
Qed.

End normal.

(** A value whose content the maps leave alone stays as it is. *)
Section still.
Variables (sigma : string -> string) (nu : external -> string -> string).

Definition still (l : leaf) : Prop :=
  match l with
  | LStr s => sigma s = s
  | LExt x v => nu x v = v
  | LKey _ | LInt _ _ => True
  end.

Definition keeps {A} (c : codec A) : Prop := forall a, Forall still (leaves c a) -> remap c sigma nu a = a.

Lemma string_keeps type : keeps (string_as type).
Proof. intros s Hs%Forall_inv. apply Hs. Qed.

Lemma bool_keeps : keeps bool_codec.
Proof. done. Qed.

Lemma int_keeps type width : keeps (int_as type width).
Proof. done. Qed.

Lemma external_keeps `{Externals} x : keeps (external_codec x).
Proof. intros v Hv%Forall_inv. apply Hv. Qed.

Lemma pointer_keeps {A} (c : codec A) : keeps c -> keeps (pointer c).
Proof. intros Hc [a|]; cbn; [|done]. intros Ha. by rewrite Hc. Qed.

Lemma slice_keeps {A} type (c : codec A) : keeps c -> keeps (slice_of type c).
Proof.
  intros Hc l. cbn. induction l as [|a l IH]; cbn; [done|]. intros [Ha Hl]%Forall_app. rewrite Hc by done.
  f_equal. by apply IH.
Qed.

Lemma map_keeps {A} type (c : codec A) : keeps c -> keeps (string_map type c).
Proof.
  intros Hc m. cbn. intros Hm. apply map_eq. intros k. rewrite lookup_fmap.
  destruct (m !! k) as [a|] eqn:E; [|done]. cbn. f_equal. apply Hc.
  apply elem_of_map_to_list in E. rewrite <-sorted_entries_perm in E.
  rewrite Forall_forall in *. intros x Hx. apply Hm. apply list_elem_of_bind. exists (k, a).
  split; [by right|done].
Qed.

Lemma wrap_keeps {A B} (unpack : A -> B) (pack : B -> A) (c : codec B) :
  (forall a, pack (unpack a) = a) -> keeps c -> keeps (wrap unpack pack c).
Proof. intros Hpu Hc a Ha. cbn in *. by rewrite Hc, Hpu. Qed.

Lemma struct_keeps {A} name fs (unpack : A -> tuple fs) (pack : tuple fs -> A) :
  (forall a, pack (unpack a) = a) -> Forall (fun f => keeps (f_codec f)) fs -> keeps (struct name fs unpack pack).
Proof.
  intros Hpu Hfs a. cbn. intros Ha. rewrite <-(Hpu a) at 2. f_equal. revert Ha. generalize (unpack a).
  clear -Hfs. induction Hfs as [|f fs Hf Hfs IH]; [done|]. intros [b x]. cbn. intros [Hb Hx]%Forall_app.
  by rewrite Hf, IH.
Qed.

End still.

(** ** Codecs built from the combinators *)

(** The keys of struct tags: letters and digits. *)
Definition plain_name (n : string) : bool :=
  forallb (fun c => in_range 48 57 (byte_val c) || in_range 65 90 (byte_val c) || in_range 97 122 (byte_val c))
    (bytes n).

(** Built from the combinators with at most [k] levels of brackets around the
    values of Kubernetes types. *)
Inductive built `{Externals} : forall {A}, nat -> codec A -> Prop :=
| b_string k type : built k (string_as type)
| b_bool k : built k bool_codec
| b_int k type width : 0 < width <= 64 -> built k (int_as type width)
| b_external k x : built k (external_codec x)
| b_pointer {A} k (c : codec A) : nullable c = false -> built k c -> built k (pointer c)
| b_slice {A} k type (c : codec A) : built k c -> built (S k) (slice_of type c)
| b_map {A} k type (c : codec A) : built k c -> built (S k) (string_map type c)
| b_wrap {A B} k (unpack : A -> B) (pack : B -> A) c :
  (forall b, unpack (pack b) = b) -> (forall a, pack (unpack a) = a) -> built k c -> built k (wrap unpack pack c)
| b_struct {A} k name fs (unpack : A -> tuple fs) (pack : tuple fs -> A) :
  (forall x, unpack (pack x) = x) -> (forall a, pack (unpack a) = a) ->
  NoDup (names fs) -> Forall (fun n => plain_name n = true /\ valid_utf8 (bytes n) 0 = true) (names fs) ->
  Forall (fun f => built k (f_codec f)) fs -> built (S k) (struct name fs unpack pack).

Section built.
Context `{Externals}.

Lemma built_nested_ind (Q : forall A, nat -> codec A -> Prop) :
  (forall k type, Q _ k (string_as type)) -> (forall k, Q _ k bool_codec) ->
  (forall k type width, 0 < width <= 64 -> Q _ k (int_as type width)) ->
  (forall k x, Q _ k (external_codec x)) ->
  (forall A k (c : codec A), nullable c = false -> Q _ k c -> Q _ k (pointer c)) ->
  (forall A k type (c : codec A), Q _ k c -> Q _ (S k) (slice_of type c)) ->
  (forall A k type (c : codec A), Q _ k c -> Q _ (S k) (string_map type c)) ->
  (forall A B k (unpack : A -> B) (pack : B -> A) c, (forall b, unpack (pack b) = b) ->
     (forall a, pack (unpack a) = a) -> Q _ k c -> Q _ k (wrap unpack pack c)) ->
  (forall A k name fs (unpack : A -> tuple fs) (pack : tuple fs -> A), (forall x, unpack (pack x) = x) ->
     (forall a, pack (unpack a) = a) -> NoDup (names fs) ->
     Forall (fun n => plain_name n = true /\ valid_utf8 (bytes n) 0 = true) (names fs) ->
     Forall (fun f => Q _ k (f_codec f)) fs -> Q _ (S k) (struct name fs unpack pack)) ->
  forall A k (c : codec A), built k c -> Q A k c.
Proof.
  intros H1 H2 H3 H4 H5 H6 H7 H8 H9. fix IH 4.
  intros A k c [| | | |? ? ? ? Hc|? ? ? ? Hc|? ? ? ? Hc|? ? ? ? ? ? ? ? Hc|? ? ? fs ? ? ? ? ? ? Hfs];
    [apply H1|apply H2|by apply H3|apply H4|apply H5; [done|]|apply H6|apply H7|apply H8; [done..|]|apply H9; [done..|]];
    [by apply IH..|].
  clear -IH Hfs. induction Hfs as [|f fs Hf Hfs IHfs]; constructor; [exact (IH _ _ _ Hf)|exact IHfs].
Qed.

Lemma built_lawful P R sigma nu depth {A} k (c : codec A) :
  reading P R sigma nu depth -> (forall n, plain_name n = true -> R (quoted n) (quoted n)) ->
  built k c -> lawful P R sigma nu (depth + Z.of_nat k) c.
Proof.
  intros rd Hn. pose proof (rd_depth _ _ _ _ _ rd) as Hd. revert A k c. apply built_nested_ind.
  - intros. eapply lawful_mono; [|by eapply string_lawful]. lia.
  - intros. eapply lawful_mono; [|by eapply bool_lawful]. lia.
  - intros. eapply lawful_mono; [|by eapply int_lawful]. lia.
  - intros. eapply lawful_mono; [|by eapply external_lawful]. lia.
  - intros. apply pointer_lawful; [lia|done..].
  - intros. rewrite Nat2Z.inj_succ, Z.add_succ_r. apply slice_lawful; [lia|done].
  - intros. rewrite Nat2Z.inj_succ, Z.add_succ_r. eapply map_lawful; [done|lia|done].
  - intros. by apply wrap_lawful.
  - intros A k name fs unpack pack Hup _ Hnd Hns Hfs. rewrite Nat2Z.inj_succ, Z.add_succ_r.
    apply struct_lawful; [lia|done..| |done].
    eapply Forall_impl; [exact Hns|]. intros n [Hp Hv]. split; [by apply Hn|done].
Qed.

Lemma built_stable (P : leaf -> Prop) nu {A} k (c : codec A) :
  (forall x v, P (LExt x v) -> ext_encode x (nu x v) = ext_encode x v) -> built k c -> stable P nu c.
Proof.
  intros Hnu. revert A k c. apply built_nested_ind; intros;
    [apply string_stable|apply bool_stable|apply int_stable|by apply external_stable|by apply pointer_stable
    |by apply slice_stable|by apply map_stable|by apply wrap_stable|by apply struct_stable].
Qed.

Lemma built_keeps sigma nu {A} k (c : codec A) : built k c -> keeps sigma nu c.
Proof.
  revert A k c. apply built_nested_ind; intros;
    [apply string_keeps|apply bool_keeps|apply int_keeps|by apply external_keeps|by apply pointer_keeps
    |by apply slice_keeps|by apply map_keeps|by apply wrap_keeps|by apply struct_keeps].
Qed.

End built.
