(* ===== verification/Glob.v ===== *)
(** * Shell patterns: [path/filepath.Match] of the Go standard library

    The matcher the operator uses for exclude patterns and overrides, on Unix
    (separator ['/'], backslash escapes).  It works chunk by chunk: a chunk is
    a star-free part of the pattern, [matchChunk] matches it at the start of a
    string and keeps checking the syntax of the chunk after a mismatch. *)

From S2P Require Import Prelude Go.
From Stdlib Require Import Ascii.
#[local] Open Scope Z_scope.
#[local] Open Scope char_scope.

Definition ErrBadPattern : error := Msg "syntax error in pattern" [].

(** [utf8.DecodeRuneInString] with the rest of the string; on an empty string
    [RuneError] and nothing consumed. *)
Definition decodeRune (l : list ascii) : Z * nat :=
  match l with [] => (RuneError, 0%nat) | c :: l => decode_rune c l end.

(** [scanChunk]: the chunk up to the next star outside a bracket. *)
Fixpoint scan (inrange : bool) (p : list ascii) : list ascii * list ascii :=
  match p with
  | [] => ([], [])
  | c :: p' =>
    if bool_decide (c = "\") then
      match p' with
      | [] => ([c], [])
      | d :: p'' => let '(chunk, rest) := scan inrange p'' in (c :: d :: chunk, rest)
      end
    else if bool_decide (c = "*") && negb inrange then ([], p)
    else
      let inrange := if bool_decide (c = "[") then true
                     else if bool_decide (c = "]") then false else inrange in
      let '(chunk, rest) := scan inrange p' in (c :: chunk, rest)
  end.

Fixpoint skipStars (p : list ascii) : bool * list ascii :=
  match p with
  | c :: p' => if bool_decide (c = "*") then (true, snd (skipStars p')) else (false, p)
  | [] => (false, [])
  end.

Definition scanChunk (pattern : list ascii) : bool * list ascii * list ascii :=
  let '(star, pattern) := skipStars pattern in
  let '(chunk, rest) := scan false pattern in
  (star, chunk, rest).

Definition getEsc (chunk : list ascii) : result (Z * list ascii) :=
  match chunk with
  | [] => Err ErrBadPattern
  | c :: chunk' =>
    if bool_decide (c = "-") || bool_decide (c = "]") then Err ErrBadPattern
    else
      let chunk := if bool_decide (c = "\") then chunk' else chunk in
      match chunk with
      | [] => Err ErrBadPattern
      | _ =>
        let '(r, n) := decodeRune chunk in
        if (r =? RuneError)%Z && bool_decide (n = 1%nat) then Err ErrBadPattern
        else match drop n chunk with
             | [] => Err ErrBadPattern
             | nchunk => Ok (r, nchunk)
             end
      end
  end.

(** The ranges of a bracket expression; [nrange] says whether one was read. *)
Fixpoint ranges (fuel : nat) (r : Z) (nrange matched : bool) (chunk : list ascii)
    : result (bool * list ascii) :=
  match fuel with
  | O => Err ErrBadPattern
  | S fuel =>
    match chunk with
    | "]" :: rest =>
      if nrange then Ok (matched, rest) else Err ErrBadPattern
    | _ =>
      e ← getEsc chunk;
      let '(lo, chunk) := e in
      e ← (match chunk with
           | "-" :: chunk => getEsc chunk
           | _ => Ok (lo, chunk)
           end);
      let '(hi, chunk) := e in
      ranges fuel r true (matched || ((lo <=? r)%Z && (r <=? hi)%Z)) chunk
    end
  end.

(** The loop of [matchChunk]; [None] is a mismatch. *)
Fixpoint matchChunk (fuel : nat) (failed : bool) (chunk s : list ascii)
    : result (option (list ascii)) :=
  match chunk with
  | [] => Ok (if failed then None else Some s)
  | c :: chunk' =>
    match fuel with
    | O => Err ErrBadPattern
    | S fuel =>
      let failed := failed || bool_decide (s = []) in
      let literal (failed : bool) (c : ascii) (chunk : list ascii) :=
        if failed then matchChunk fuel true chunk s
        else match s with
             | [] => matchChunk fuel true chunk s
             | d :: s => matchChunk fuel (negb (bool_decide (c = d))) chunk s
             end in
      if bool_decide (c = "[") then
        let '(r, s) := if failed then (0, s)
                       else let '(r, n) := decodeRune s in (r, drop n s) in
        let '(negated, chunk) := match chunk' with
                                 | "^" :: chunk => (true, chunk)
                                 | _ => (false, chunk')
                                 end in
        e ← ranges (S (length chunk)) r false false chunk;
        let '(matched, chunk) := e in
        matchChunk fuel (failed || Bool.eqb matched negated) chunk s
      else if bool_decide (c = "?") then
        if failed then matchChunk fuel true chunk' s
        else matchChunk fuel (bool_decide (head s = Some "/")) chunk' (drop (decodeRune s).2 s)
      else if bool_decide (c = "\") then
        match chunk' with
        | [] => Err ErrBadPattern
        | d :: chunk'' => literal failed d chunk''
        end
      else literal failed c chunk'
    end
  end.

Definition match_chunk (chunk s : list ascii) : result (option (list ascii)) :=
  matchChunk (length chunk) false chunk s.

(** The search for a later position after a star, which does not cross a
    separator; the last chunk must exhaust the name. *)
Fixpoint skipMatch (chunk rest name : list ascii) : result (option (list ascii)) :=
  match name with
  | [] => Ok None
  | c :: name' =>
    if bool_decide (c = "/") then Ok None
    else
      t ← match_chunk chunk name';
      match t with
      | Some t => if bool_decide (rest = []) && negb (bool_decide (t = []))
                  then skipMatch chunk rest name' else Ok (Some t)
      | None => skipMatch chunk rest name'
      end
  end.

(** The syntax check of the rest of the pattern after a mismatch. *)
Fixpoint checkRest (fuel : nat) (pattern : list ascii) : result unit :=
  match pattern, fuel with
  | [], _ | _, O => Ok tt
  | _, S fuel =>
    let '(_, chunk, rest) := scanChunk pattern in
    _ ← match_chunk chunk [];
    checkRest fuel rest
  end.

Fixpoint match_go (fuel : nat) (pattern name : list ascii) : result bool :=
  match pattern, fuel with
  | [], _ | _, O => Ok (bool_decide (name = []))
  | _, S fuel =>
    let '(star, chunk, rest) := scanChunk pattern in
    if star && bool_decide (chunk = []) then Ok (negb (bool_decide ("/" ∈ name)))
    else
      t ← match_chunk chunk name;
      match t with
      | Some t =>
        if bool_decide (t = []) || negb (bool_decide (rest = [])) then match_go fuel rest t
        else if star then
          t ← skipMatch chunk rest name;
          match t with
          | Some t => match_go fuel rest t
          | None => _ ← checkRest fuel rest; Ok false
          end
        else _ ← checkRest fuel rest; Ok false
      | None =>
        if star then
          t ← skipMatch chunk rest name;
          match t with
          | Some t => match_go fuel rest t
          | None => _ ← checkRest fuel rest; Ok false
          end
        else _ ← checkRest fuel rest; Ok false
      end
  end.

(** [filepath.Match(pattern, name)]. *)
Definition Match (pattern name : string) : result bool :=
  match_go (S (length (bytes pattern))) (bytes pattern) (bytes name).

#[local] Close Scope char_scope.
Example Match_star : Match "staging-*" "staging-logs" = Ok true. Proof. reflexivity. Qed.
Example Match_sep : Match "a*" "ab/c" = Ok false. Proof. reflexivity. Qed.
Example Match_class : Match "[a-c]x?[^0-9]" "bxyz" = Ok true. Proof. reflexivity. Qed.
Example Match_middle : Match "*-internal-*" "a-internal-b-internal-c" = Ok true.
Proof. reflexivity. Qed.
Example Match_bad : Match "[]a]" "a" = Err ErrBadPattern. Proof. reflexivity. Qed.
Example Match_bad_late : Match "x*[a" "y" = Err ErrBadPattern. Proof. reflexivity. Qed.
Example Match_star_end : Match "*ab" "abab" = Ok true. Proof. reflexivity. Qed.
Example Match_escape : Match "a\*" "a*" = Ok true. Proof. reflexivity. Qed.

(** ** The fuel is enough

    Every loop consumes its pattern, so that its result does not depend on the
    fuel once that exceeds the length of the pattern. *)

Lemma decodeRune_pos l : l ≠ [] -> (1 <= (decodeRune l).2)%nat.
Proof.
  destruct l as [|c l]; [done|]. intros _. simpl. unfold decode_rune.
  repeat case_match; simpl; lia.
Qed.

Lemma getEsc_length chunk r rest : getEsc chunk = Ok (r, rest) -> (length rest < length chunk)%nat.
Proof.
  unfold getEsc. destruct chunk as [|c chunk]; [done|].
  destruct (_ || _); [done|].
  set (body := if bool_decide (c = "\"%char) then chunk else c :: chunk).
  assert (Hb : (length body <= S (length chunk))%nat) by (subst body; case_match; simpl; lia).
  destruct body as [|b bs] eqn:Eb; [done|]. rewrite <-Eb in *.
  pose proof (decodeRune_pos body) as Hpos. destruct (decodeRune body) as [r' n].
  destruct (_ && _); [done|]. destruct (drop n body) as [|d ds] eqn:Ed; [done|].
  intros [= <- <-]. apply (f_equal length) in Ed. rewrite length_drop in Ed.
  assert (1 <= n)%nat by (apply Hpos; by rewrite Eb). simpl in *. lia.
Qed.

Definition range_hi (lo : Z) (chunk : list ascii) : result (Z * list ascii) :=
  match chunk with "-"%char :: chunk => getEsc chunk | _ => Ok (lo, chunk) end.

Lemma range_hi_length lo chunk hi rest :
  range_hi lo chunk = Ok (hi, rest) -> (length rest <= length chunk)%nat.
Proof.
  destruct chunk as [|[[] [] [] [] [] [] [] []] chunk]; simpl;
    try (intros [= <- <-]; simpl; lia). intros H%getEsc_length. lia.
Qed.

Definition is_close (chunk : list ascii) : option (list ascii) :=
  match chunk with "]"%char :: rest => Some rest | _ => None end.

Lemma ranges_step fuel r nrange matched chunk :
  ranges (S fuel) r nrange matched chunk =
  match is_close chunk with
  | Some rest => if nrange then Ok (matched, rest) else Err ErrBadPattern
  | None =>
    e ← getEsc chunk;
    let '(lo, chunk) := e in
    e ← range_hi lo chunk;
    let '(hi, chunk) := e in
    ranges fuel r true (matched || ((lo <=? r)%Z && (r <=? hi)%Z)) chunk
  end.
Proof. destruct chunk as [|[[] [] [] [] [] [] [] []] chunk]; reflexivity. Qed.

Lemma is_close_length chunk rest : is_close chunk = Some rest -> (length rest < length chunk)%nat.
Proof.
  destruct chunk as [|[[] [] [] [] [] [] [] []] chunk]; simpl; try done. intros [= <-]. lia.
Qed.

Lemma ranges_fuel f1 f2 r nrange matched chunk :
  (length chunk < f1)%nat -> (length chunk < f2)%nat ->
  ranges f1 r nrange matched chunk = ranges f2 r nrange matched chunk.
Proof.
  revert f2 nrange matched chunk. induction f1 as [|f1 IH]; intros f2 nrange matched chunk H1 H2; [lia|].
  destruct f2 as [|f2]; [lia|]. rewrite !ranges_step.
  destruct (is_close chunk); [done|].
  destruct (getEsc chunk) as [[lo c1]|] eqn:E1; simpl; [|done].
  destruct (range_hi lo c1) as [[hi c2]|] eqn:E2; simpl; [|done].
  apply getEsc_length in E1. apply range_hi_length in E2. apply IH; lia.
Qed.

Lemma ranges_length f r nrange matched chunk m rest :
  ranges f r nrange matched chunk = Ok (m, rest) -> (length rest < length chunk)%nat.
Proof.
  revert nrange matched chunk. induction f as [|f IH]; intros nrange matched chunk; [done|].
  rewrite ranges_step. destruct (is_close chunk) eqn:Ec.
  { destruct nrange; [|done]. intros [= <- <-]. by apply is_close_length. }
  destruct (getEsc chunk) as [[lo c1]|] eqn:E1; simpl; [|done].
  destruct (range_hi lo c1) as [[hi c2]|] eqn:E2; simpl; [|done].
  apply getEsc_length in E1. apply range_hi_length in E2. intros H%IH. lia.
Qed.

Lemma matchChunk_fuel f1 f2 failed chunk s :
  (length chunk <= f1)%nat -> (length chunk <= f2)%nat ->
  matchChunk f1 failed chunk s = matchChunk f2 failed chunk s.
Proof.
  revert f2 failed chunk s. induction f1 as [|f1 IH]; intros f2 failed chunk s H1 H2.
  { destruct chunk; [by destruct f2|simpl in H1; lia]. }
  destruct chunk as [|c chunk]; [by destruct f2|]. destruct f2 as [|f2]; [simpl in H2; lia|].
  simpl in H1, H2. cbn [matchChunk].
  assert (Hlit : forall (fl : bool) d chunk0, (length chunk0 <= length chunk)%nat ->
    (if fl then matchChunk f1 true chunk0 s
     else match s with [] => matchChunk f1 true chunk0 s
          | e :: s => matchChunk f1 (negb (bool_decide (d = e))) chunk0 s end) =
    (if fl then matchChunk f2 true chunk0 s
     else match s with [] => matchChunk f2 true chunk0 s
          | e :: s => matchChunk f2 (negb (bool_decide (d = e))) chunk0 s end)).
  { intros fl d chunk0 Hl. destruct fl; [apply IH; lia|]. destruct s; apply IH; lia. }
  destruct (bool_decide (c = "["%char)).
  - destruct (if failed || bool_decide (s = []) then (0%Z, s)
              else let '(r, n) := decodeRune s in (r, drop n s)) as [r s'].
    set (neg := match chunk with "^"%char :: chunk0 => (true, chunk0) | _ => (false, chunk) end).
    assert (Hn : (length neg.2 <= length chunk)%nat).
    { subst neg. destruct chunk as [|[[] [] [] [] [] [] [] []] ?]; simpl; lia. }
    destruct neg as [negated chunk0]. simpl in Hn.
    destruct (ranges _ r false false chunk0) as [[m rest]|] eqn:Er; simpl; [|done].
    apply ranges_length in Er. apply IH; lia.
  - destruct (bool_decide (c = "?"%char)).
    + destruct (failed || bool_decide (s = [])); apply IH; lia.
    + destruct (bool_decide (c = "\"%char)); [|apply Hlit; lia].
      destruct chunk as [|d chunk]; [done|]. apply Hlit. simpl. lia.
Qed.

Lemma scan_length inrange p chunk rest :
  scan inrange p = (chunk, rest) -> p = chunk ++ rest.
Proof.
  enough (forall n p inrange chunk rest, (length p <= n)%nat ->
            scan inrange p = (chunk, rest) -> p = chunk ++ rest) as H by (by eapply H).
  clear. intros n. induction n as [|n IH]; intros p inrange chunk rest Hn.
  { destruct p; [by intros [= <- <-]|simpl in Hn; lia]. }
  destruct p as [|c p]; [by intros [= <- <-]|]. simpl in Hn. cbn [scan].
  destruct (bool_decide (c = "\"%char)).
  - destruct p as [|d p]; [by intros [= <- <-]|]. simpl in Hn.
    destruct (scan inrange p) as [ch r] eqn:E. intros [= <- <-].
    apply IH in E; [|lia]. by rewrite E.
  - destruct (_ && _); [by intros [= <- <-]|].
    destruct (scan _ p) as [ch r] eqn:E. intros [= <- <-]. apply IH in E; [|lia]. by rewrite E.
Qed.

Lemma skipStars_length p : (length (skipStars p).2 <= length p)%nat /\
  ((skipStars p).1 = true -> (length (skipStars p).2 < length p)%nat) /\
  ((skipStars p).1 = false -> (skipStars p).2 = p).
Proof.
  induction p as [|c p (IH1 & IH2 & IH3)]; simpl; [done|].
  destruct (bool_decide (c = "*"%char)); simpl; [|done]. split_and!; [lia|lia|done].
Qed.

Lemma scan_first c p : c ≠ "*"%char -> (scan false (c :: p)).1 ≠ [].
Proof.
  intros Hc. cbn [scan]. destruct (bool_decide (c = "\"%char)).
  - destruct p as [|d p]; [done|]. by destruct (scan false p).
  - rewrite bool_decide_eq_false_2 by done. simpl. by destruct (scan _ p).
Qed.

(** A chunk or a star is consumed. *)
Lemma scanChunk_length p star chunk rest :
  p ≠ [] -> scanChunk p = (star, chunk, rest) -> (length rest < length p)%nat.
Proof.
  intros Hp. unfold scanChunk. pose proof (skipStars_length p) as (H1 & H2 & H3).
  destruct (skipStars p) as [st q] eqn:Es. simpl in *.
  destruct (scan false q) as [ch r] eqn:E. intros [= <- <- <-].
  pose proof (scan_length _ _ _ _ E) as Hq. apply (f_equal length) in Hq. rewrite length_app in Hq.
  destruct st; [specialize (H2 eq_refl); lia|]. specialize (H3 eq_refl). subst q.
  destruct p as [|c p]; [done|]. simpl in Es.
  destruct (bool_decide (c = "*"%char)) eqn:Ec; [done|]. apply bool_decide_eq_false in Ec.
  pose proof (scan_first c p Ec) as Hne. rewrite E in Hne. destruct ch; [done|]. simpl in *. lia.
Qed.

Lemma checkRest_fuel f1 f2 p :
  (length p <= f1)%nat -> (length p <= f2)%nat -> checkRest f1 p = checkRest f2 p.
Proof.
  revert f2 p. induction f1 as [|f1 IH]; intros f2 p H1 H2.
  { destruct p; [by destruct f2|simpl in H1; lia]. }
  destruct p as [|c p]; [by destruct f2|]. destruct f2 as [|f2]; [simpl in H2; lia|].
  cbn [checkRest]. destruct (scanChunk (c :: p)) as [[star chunk] rest] eqn:E.
  apply scanChunk_length in E; [|done]. simpl in *.
  destruct (match_chunk chunk []); simpl; [|done]. apply IH; lia.
Qed.

Lemma match_go_fuel f1 f2 p name :
  (length p <= f1)%nat -> (length p <= f2)%nat -> match_go f1 p name = match_go f2 p name.
Proof.
  revert f2 p name. induction f1 as [|f1 IH]; intros f2 p name H1 H2.
  { destruct p; [by destruct f2|simpl in H1; lia]. }
  destruct p as [|c p]; [by destruct f2|]. destruct f2 as [|f2]; [simpl in H2; lia|].
  cbn [match_go]. destruct (scanChunk (c :: p)) as [[star chunk] rest] eqn:E.
  apply scanChunk_length in E; [|done]. simpl in H1, H2, E.
  rewrite (checkRest_fuel f1 f2) by lia.
  assert (forall t, match_go f1 rest t = match_go f2 rest t) as Hgo by (intros; apply IH; lia).
  assert (Hskip : (t ← skipMatch chunk rest name; match t with Some t => match_go f1 rest t
                   | None => _ ← checkRest f2 rest; Ok false end) =
                  (t ← skipMatch chunk rest name; match t with Some t => match_go f2 rest t
                   | None => _ ← checkRest f2 rest; Ok false end)).
  { destruct (skipMatch chunk rest name) as [[t|]|]; simpl; [apply Hgo|done|done]. }
  destruct (star && _); [done|]. destruct (match_chunk chunk name) as [[t|]|]; simpl; [|by rewrite Hskip|done].
  rewrite Hskip. destruct (_ || _); [apply Hgo|done].
Qed.

(** ** Literal patterns and prefix patterns *)

Definition plain (c : ascii) : Prop :=
  c ≠ "*"%char /\ c ≠ "?"%char /\ c ≠ "["%char /\ c ≠ "\"%char.

Lemma scan_plain l rest :
  Forall plain l -> (rest = [] \/ exists r, rest = "*"%char :: r) -> scan false (l ++ rest) = (l, rest).
Proof.
  intros Hl Hrest. induction Hl as [|c l (H1 & H2 & H3 & H4) Hl IH]; simpl.
  { by destruct Hrest as [->|[r ->]]. }
  rewrite (bool_decide_eq_false_2 (c = "\"%char)), (bool_decide_eq_false_2 (c = "*"%char)),
    (bool_decide_eq_false_2 (c = "["%char)) by done. simpl.
  destruct (bool_decide (c = "]"%char)); by rewrite IH.
Qed.

Lemma matchChunk_plain fuel failed l s :
  Forall plain l -> (length l <= fuel)%nat ->
  matchChunk fuel failed l s =
  Ok (if failed then None else if decide (l `prefix_of` s) then Some (drop (length l) s) else None).
Proof.
  intros Hl. revert fuel failed s. induction Hl as [|c l (H1 & H2 & H3 & H4) Hl IH];
    intros fuel failed s Hf.
  { destruct fuel, failed; simpl; try done; by rewrite decide_True by apply prefix_nil. }
  destruct fuel as [|fuel]; [simpl in Hf; lia|]. simpl in Hf. cbn [matchChunk].
  rewrite !bool_decide_eq_false_2 by done.
  destruct failed; cbn [orb]; [by rewrite IH by lia|].
  destruct s as [|d s].
  { rewrite bool_decide_eq_true_2 by done. by rewrite IH by lia. }
  rewrite bool_decide_eq_false_2 by done.
  rewrite IH by lia. f_equal. case_bool_decide as Hd; cbn [negb].
  - subst d. destruct (decide (l `prefix_of` s)).
    + by rewrite decide_True by (by apply prefix_cons).
    + rewrite decide_False; [done|]. by intros ?%prefix_cons_inv_2.
  - rewrite decide_False; [done|]. by intros ?%prefix_cons_inv_1.
Qed.

Lemma scanChunk_plain c l rest :
  Forall plain (c :: l) -> (rest = [] \/ exists r, rest = "*"%char :: r) ->
  scanChunk (c :: l ++ rest) = (false, c :: l, rest).
Proof.
  intros Hl Hrest. unfold scanChunk. cbn [skipStars].
  rewrite bool_decide_eq_false_2 by (by apply Forall_cons in Hl as [[? _] _]).
  change (c :: l ++ rest) with ((c :: l) ++ rest). by rewrite (scan_plain (c :: l) rest).
Qed.

(** A pattern without special characters matches itself only. *)
Lemma Match_plain p n :
  Forall plain (bytes p) -> Match p n = Ok (bool_decide (n = p)).
Proof.
  intros Hp. unfold Match.
  transitivity (Ok (bool_decide (bytes n = bytes p))).
  2: { f_equal. apply bool_decide_ext. split; [apply bytes_inj|by intros ->]. }
  generalize (bytes n). clear n. intros n.
  destruct (bytes p) as [|c l]; [simpl; f_equal; by apply bool_decide_ext|]. cbn [match_go].
  replace (scanChunk (c :: l)) with (false, c :: l, [] : list ascii)
    by (symmetry; rewrite <-(app_nil_r l) at 1; apply scanChunk_plain; [done|by left]).
  simpl. unfold match_chunk. rewrite matchChunk_plain by done. simpl.
  destruct (decide (c :: l `prefix_of` n)) as [[t ->]|Hn].
  - simpl. rewrite drop_app_length. destruct t as [|d t]; simpl; f_equal.
    + symmetry. apply bool_decide_eq_true. by rewrite app_nil_r.
    + symmetry. apply bool_decide_eq_false. intros E. apply (f_equal length) in E.
      simpl in E. rewrite length_app in E. simpl in E. lia.
  - simpl. f_equal. symmetry. apply bool_decide_eq_false. intros ->. by apply Hn.
Qed.

(** A plain prefix followed by a star matches the names with that prefix whose
    rest has no separator. *)
Lemma Match_prefix p n :
  Forall plain (bytes p) ->
  Match (p +:+ "*") n =
  Ok (bool_decide (bytes p `prefix_of` bytes n /\ "/"%char ∉ drop (length (bytes p)) (bytes n))).
Proof.
  intros Hp. unfold Match. rewrite bytes_app. generalize (bytes n). clear n. intros n.
  change (bytes "*") with ["*"%char].
  assert (Hstar : forall f t, match_go (S f) ["*"%char] t = Ok (negb (bool_decide ("/"%char ∈ t)))) by done.
  destruct (bytes p) as [|c l].
  { cbn [app length]. rewrite Hstar. f_equal. apply eq_bool_prop_intro. rewrite negb_True, !bool_decide_spec.
    split; [|by intros []]. intros Hs. split; [apply prefix_nil|done]. }
  rewrite length_app, Nat.add_1_r.
  change ((c :: l) ++ ["*"%char]) with (c :: l ++ ["*"%char]). cbn [match_go].
  rewrite (scanChunk_plain c l ["*"%char]) by (done || (right; by eexists)).
  cbn [andb]. unfold match_chunk. rewrite matchChunk_plain by done. cbn [mbind result_bind].
  destruct (decide (c :: l `prefix_of` n)) as [[t ->]|Hn].
  - rewrite drop_app_length, (bool_decide_eq_false_2 (["*"%char] = [])), orb_true_r by done.
    transitivity (match_go (S (length l)) ["*"%char] t); [done|]. rewrite Hstar. f_equal. apply eq_bool_prop_intro. rewrite negb_True, !bool_decide_spec.
    split; [|by intros []]. intros Hs. split; [by apply prefix_app_r|done].
  - transitivity (Ok false : result bool); [by destruct (length (c :: l))|].
    f_equal. symmetry. apply bool_decide_eq_false. by intros [].
Qed.
