(* ===== verification/Api.v ===== *)
(** * The custom resources: [api/v1alpha1/*_types.go]

    One record per Go struct, one field per Go field.  A Rocq field name is the
    Go name with a struct prefix.  Pointers that may be [nil] are [option]s,
    slices are lists, [map[string]string] fields are [gmap string string] (a nil
    map and an empty map are not told apart by the code for these fields; the
    metadata maps, for which the code tests [!= nil], are [option (gmap _ _)]).
    [int], [int32] and [int64] are [Z].

    Kubernetes types the operator only copies ([Toleration], [Affinity],
    security contexts, resource quantities) are represented by their serialised
    form, an opaque string. *)

From S2P Require Import Prelude Go.
#[local] Open Scope Z_scope.

Abbreviation Opaque := string (only parsing).
Abbreviation StringMap := (gmap string string) (only parsing).

(** ** [common_types.go] *)

Record SecretReference := mkSecretReference { Secret_Name : string; Secret_Key : string }.

Record ResourceRequirements := mkResourceRequirements {
  Res_Requests : gmap string Opaque;
  Res_Limits : gmap string Opaque }.

Record PerReplicaResources := mkPerReplicaResources { PerReplica : ResourceRequirements }.

Record ServiceMonitorSpec := mkServiceMonitorSpec { SM_Enabled : bool; SM_Interval : string }.

Record OpenSearchSinkSpec := mkOpenSearchSinkSpec {
  OS_Hosts : list string;
  OS_Index : string;
  OS_IndexType : string;
  OS_CredentialsSecretRef : option SecretReference;
  OS_DLQSecretRef : option SecretReference;
  OS_Routes : list string }.

Record PipelineConnectorSinkSpec := mkPipelineConnectorSinkSpec { PSink_Name : string }.

Record S3SinkSpec := mkS3SinkSpec {
  S3Sink_Bucket : string;
  S3Sink_Region : string;
  S3Sink_KeyPathPrefix : string;
  S3Sink_Codec : string;
  S3Sink_Compression : string;
  S3Sink_CredentialsSecretRef : option SecretReference }.

Record KafkaSinkSpec := mkKafkaSinkSpec {
  KSink_BootstrapServers : list string;
  KSink_Topic : string;
  KSink_SerdeFormat : string;
  KSink_CredentialsSecretRef : option SecretReference }.

Record StdoutSinkSpec := mkStdoutSinkSpec {}.

(** A discriminated union by convention only: nothing in the type forces
    exactly one member to be set; the webhook checks it. *)
Record SinkSpec := mkSinkSpec {
  Sink_OpenSearch : option OpenSearchSinkSpec;
  Sink_Pipeline : option PipelineConnectorSinkSpec;
  Sink_S3 : option S3SinkSpec;
  Sink_Kafka : option KafkaSinkSpec;
  Sink_Stdout : option StdoutSinkSpec }.

Record BoundedBlockingBufferSpec := mkBoundedBlockingBufferSpec {
  BB_BufferSize : Z;
  BB_BatchSize : Z }.

Record BufferSpec := mkBufferSpec { Buf_BoundedBlocking : option BoundedBlockingBufferSpec }.

Record HeapCircuitBreakerSpec := mkHeapCircuitBreakerSpec { Heap_Usage : string }.
Record CircuitBreakerSpec := mkCircuitBreakerSpec { CB_Heap : option HeapCircuitBreakerSpec }.

(** [apiextensionsv1.JSON]: the raw bytes of a JSON document. *)
Record JSON := mkJSON { JSON_Raw : string }.

Record DataPrepperConfigSpec := mkDataPrepperConfigSpec {
  DPC_CircuitBreakers : option CircuitBreakerSpec;
  DPC_Raw : option JSON }.

(** ** [dataprepperpipeline_types.go] *)

Record KafkaSourceSpec := mkKafkaSourceSpec {
  KSrc_BootstrapServers : list string;
  KSrc_Topic : string;
  KSrc_GroupID : string;
  KSrc_CredentialsSecretRef : option SecretReference;
  KSrc_ConsumerConfig : StringMap;
  KSrc_EncryptionType : string }.

Record HTTPSourceSpec := mkHTTPSourceSpec { HTTP_Port : Z; HTTP_Path : string }.

Record OTelSourceSpec := mkOTelSourceSpec { OTel_Port : Z; OTel_Protocols : list string }.

Record JSONCodecSpec := mkJSONCodecSpec {}.
Record CSVCodecSpec := mkCSVCodecSpec { CSV_Delimiter : string; CSV_HeaderRow : bool }.
Record NewlineCodecSpec := mkNewlineCodecSpec {}.
Record ParquetCodecSpec := mkParquetCodecSpec {}.
Record AvroCodecSpec := mkAvroCodecSpec { Avro_Schema : string }.

Record CodecSpec := mkCodecSpec {
  Codec_JSON : option JSONCodecSpec;
  Codec_CSV : option CSVCodecSpec;
  Codec_Newline : option NewlineCodecSpec;
  Codec_Parquet : option ParquetCodecSpec;
  Codec_Avro : option AvroCodecSpec }.

Record S3SourceSpec := mkS3SourceSpec {
  S3Src_Bucket : string;
  S3Src_Prefix : string;
  S3Src_Region : string;
  S3Src_SQSQueueURL : string;
  S3Src_CredentialsSecretRef : option SecretReference;
  S3Src_Codec : option CodecSpec;
  S3Src_Compression : string }.

Record PipelineConnectorSourceSpec := mkPipelineConnectorSourceSpec { PSrc_Name : string }.

Record SourceSpec := mkSourceSpec {
  Src_Kafka : option KafkaSourceSpec;
  Src_HTTP : option HTTPSourceSpec;
  Src_OTel : option OTelSourceSpec;
  Src_S3 : option S3SourceSpec;
  Src_Pipeline : option PipelineConnectorSourceSpec }.

Record PipelineDefinition := mkPipelineDefinition {
  PD_Name : string;
  PD_Workers : Z;
  PD_Delay : Z;
  PD_Source : SourceSpec;
  PD_Buffer : option BufferSpec;
  PD_Processors : list JSON;
  PD_Routes : list StringMap;
  PD_Sink : list SinkSpec }.

(** [ScalingMode] is a string type; its two constants. *)
Definition ScalingModeAuto : string := "auto".
Definition ScalingModeManual : string := "manual".

Record ScalingSpec := mkScalingSpec {
  Scaling_Mode : string;
  Scaling_MaxReplicas : option Z;
  Scaling_MinReplicas : option Z;
  Scaling_FixedReplicas : option Z }.

Record DataPrepperPipelineSpec := mkDataPrepperPipelineSpec {
  Spec_Image : string;
  Spec_ImagePullPolicy : string;
  Spec_Pipelines : list PipelineDefinition;
  Spec_Scaling : option ScalingSpec;
  Spec_Resources : option PerReplicaResources;
  Spec_DataPrepperConfig : option DataPrepperConfigSpec;
  Spec_ServiceMonitor : option ServiceMonitorSpec;
  Spec_PodAnnotations : StringMap;
  Spec_PodLabels : StringMap;
  Spec_NodeSelector : StringMap;
  Spec_Tolerations : list Opaque;
  Spec_Affinity : option Opaque;
  Spec_PodSecurityContext : option Opaque;
  Spec_SecurityContext : option Opaque;
  Spec_ServiceAccountName : string }.

(** [PipelinePhase] is a string type whose zero value [""] is a phase of its
    own (a status that was never written). *)
Inductive PipelinePhase :=
| PipelinePhaseUnset
| PipelinePhasePending
| PipelinePhaseRunning
| PipelinePhaseDegraded
| PipelinePhaseError.

#[export] Instance PipelinePhase_eq_dec : EqDecision PipelinePhase.
Proof. solve_decision. Defined.

Record KafkaStatus := mkKafkaStatus {
  KS_TopicPartitions : Z;
  KS_WorkersPerPod : Z;
  KS_TotalConsumers : Z }.

(** ** Object metadata and conditions ([k8s.io/apimachinery])

    Only the fields the operator reads or writes. *)

Record OwnerReference := mkOwnerReference { Owner_UID : string; Owner_Name : string }.

Record ObjectMeta := mkObjectMeta {
  Meta_Name : string;
  Meta_Namespace : string;
  Meta_UID : string;
  Meta_Generation : Z;
  Meta_DeletionTimestamp : option Z;
  Meta_Labels : option StringMap;
  Meta_Annotations : option StringMap;
  Meta_Finalizers : list string;
  Meta_OwnerReferences : list OwnerReference }.

Inductive ConditionStatus := ConditionTrue | ConditionFalse | ConditionUnknown.

#[export] Instance ConditionStatus_eq_dec : EqDecision ConditionStatus.
Proof. solve_decision. Defined.

(** [metav1.Condition] without [lastTransitionTime], which the callee
    [meta.SetStatusCondition] fills in and the operator never reads. *)
Record Condition := mkCondition {
  Cond_Type : string;
  Cond_Status : ConditionStatus;
  Cond_ObservedGeneration : Z;
  Cond_Reason : string;
  Cond_Message : message }.

Record DataPrepperPipelineStatus := mkDataPrepperPipelineStatus {
  PStatus_Phase : PipelinePhase;
  PStatus_Replicas : Z;
  PStatus_ReadyReplicas : Z;
  PStatus_ObservedGeneration : Z;
  PStatus_Conditions : list Condition;
  PStatus_Kafka : option KafkaStatus }.

Record DataPrepperPipeline := mkDataPrepperPipeline {
  P_Meta : ObjectMeta;
  P_Spec : DataPrepperPipelineSpec;
  P_Status : DataPrepperPipelineStatus }.

(** ** [datapreppersourcediscovery_types.go] *)

Record KafkaTopicSelectorSpec := mkKafkaTopicSelectorSpec {
  Topic_Prefix : string;
  Topic_ExcludePatterns : list string }.

Record KafkaDiscoverySpec := mkKafkaDiscoverySpec {
  KDisc_BootstrapServers : list string;
  KDisc_CredentialsSecretRef : option SecretReference;
  KDisc_EncryptionType : string;
  KDisc_TopicSelector : KafkaTopicSelectorSpec;
  KDisc_PollInterval : string;
  KDisc_CleanupPolicy : string }.

Record PipelineTemplateSpec := mkPipelineTemplateSpec { Template_Spec : DataPrepperPipelineSpec }.

Record DiscoveryOverrideSpec := mkDiscoveryOverrideSpec {
  Override_Pattern : string;
  Override_Spec : DataPrepperPipelineSpec }.

Record S3PrefixSelectorSpec := mkS3PrefixSelectorSpec {
  Sel_Prefix : string;
  Sel_Depth : Z;
  Sel_ExcludePatterns : list string }.

Record SQSQueueMappingSpec := mkSQSQueueMappingSpec {
  SQS_QueueURLTemplate : string;
  SQS_Overrides : StringMap }.

Record S3DiscoverySpec := mkS3DiscoverySpec {
  S3Disc_Region : string;
  S3Disc_Bucket : string;
  S3Disc_PrefixSelector : S3PrefixSelectorSpec;
  S3Disc_Endpoint : string;
  S3Disc_ForcePathStyle : bool;
  S3Disc_CredentialsSecretRef : option SecretReference;
  S3Disc_SQSQueueMapping : option SQSQueueMappingSpec;
  S3Disc_PollInterval : string;
  S3Disc_CleanupPolicy : string }.

Record DataPrepperSourceDiscoverySpec := mkDataPrepperSourceDiscoverySpec {
  DSpec_Kafka : option KafkaDiscoverySpec;
  DSpec_S3 : option S3DiscoverySpec;
  DSpec_PipelineTemplate : PipelineTemplateSpec;
  DSpec_Overrides : list DiscoveryOverrideSpec;
  DSpec_MaxCreationsPerCycle : option Z }.

Record DiscoveredSourceStatus := mkDiscoveredSourceStatus {
  DSS_Name : string;
  DSS_Partitions : Z;
  DSS_PipelineRef : string;
  DSS_Status : string }.

Inductive DiscoveryPhase :=
| DiscoveryPhaseUnset
| DiscoveryPhaseRunning
| DiscoveryPhaseError
| DiscoveryPhaseIdle.

#[export] Instance DiscoveryPhase_eq_dec : EqDecision DiscoveryPhase.
Proof. solve_decision. Defined.

Record DataPrepperSourceDiscoveryStatus := mkDataPrepperSourceDiscoveryStatus {
  DStatus_Phase : DiscoveryPhase;
  DStatus_ObservedGeneration : Z;
  DStatus_DiscoveredSources : Z;
  DStatus_ActivePipelines : Z;
  DStatus_OrphanedPipelines : Z;
  DStatus_UpdatingPipelines : Z;
  DStatus_LastPollTime : option Z;
  DStatus_Conditions : list Condition;
  DStatus_Sources : list DiscoveredSourceStatus }.

Record DataPrepperSourceDiscovery := mkDataPrepperSourceDiscovery {
  D_Meta : ObjectMeta;
  D_Spec : DataPrepperSourceDiscoverySpec;
  D_Status : DataPrepperSourceDiscoveryStatus }.

(** ** [dataprepperdefaults_types.go] *)

Record DefaultKafkaSpec := mkDefaultKafkaSpec {
  DefKafka_BootstrapServers : list string;
  DefKafka_CredentialsSecretRef : option SecretReference }.

Record DefaultSinkSpec := mkDefaultSinkSpec { DefSink_OpenSearch : option OpenSearchSinkSpec }.

Record DataPrepperDefaultsSpec := mkDataPrepperDefaultsSpec {
  Def_Image : string;
  Def_Sink : option DefaultSinkSpec;
  Def_Kafka : option DefaultKafkaSpec;
  Def_Resources : option PerReplicaResources;
  Def_DataPrepperConfig : option DataPrepperConfigSpec;
  Def_ServiceMonitor : option ServiceMonitorSpec }.

Record DataPrepperDefaults := mkDataPrepperDefaults {
  Defaults_Meta : ObjectMeta;
  Defaults_Spec : DataPrepperDefaultsSpec }.

(** ** Zero values

    The Go zero value of the structs that the code builds with composite
    literals naming only some fields. *)

Definition zero_ObjectMeta : ObjectMeta := mkObjectMeta "" "" "" 0 None None None [] [].

Definition zero_SourceSpec : SourceSpec := mkSourceSpec None None None None None.

Definition zero_PipelineSpec : DataPrepperPipelineSpec :=
  mkDataPrepperPipelineSpec "" "" [] None None None None ∅ ∅ ∅ [] None None None "".

Definition zero_PipelineStatus : DataPrepperPipelineStatus :=
  mkDataPrepperPipelineStatus PipelinePhaseUnset 0 0 0 [] None.

Definition zero_DefaultsSpec : DataPrepperDefaultsSpec :=
  mkDataPrepperDefaultsSpec "" None None None None None.
