(* ===== verification/SpecJson.v ===== *)
(** * The JSON form of pipeline specs: the struct tags of [api/v1alpha1]

    One codec per struct of [common_types.go] and [dataprepperpipeline_types.go],
    field by field with its key and [omitempty] option, and with them
    [json.Marshal] and [json.Unmarshal] on [DataPrepperPipelineSpec]
    ([MarshalSpec], [UnmarshalSpec]).  What the discovery controller needs of them:
    a spec is read back as it was written up to the form of the raw documents in
    it, and specs with the same text are the same. *)

From S2P Require Import Prelude Go Json JsonEncode Codec Api.
From Stdlib Require Import Ascii.
#[local] Open Scope Z_scope.

Notation "<| x ; .. ; y |>" := (pair x .. (pair y tt) ..).
(** The tags [json:k] and [json:k,omitempty]. *)
Abbreviation tag k c := (mkField k%string false c).
Abbreviation omitempty k c := (mkField k%string true c).

Abbreviation strings_codec := (slice_of "[]string" string_codec).
Abbreviation string_map_codec := (string_map "map[string]string" string_codec).

(** ** [common_types.go] *)

Definition SecretReference_codec : codec SecretReference :=
  struct "SecretReference" [tag "name" string_codec; omitempty "key" string_codec]
    (fun r => <| Secret_Name r; Secret_Key r |>)
    (fun '<| name; key |> => mkSecretReference name key).

Abbreviation secret_codec := (pointer SecretReference_codec).

Definition ServiceMonitorSpec_codec : codec ServiceMonitorSpec :=
  struct "ServiceMonitorSpec" [omitempty "enabled" bool_codec; omitempty "interval" string_codec]
    (fun s => <| SM_Enabled s; SM_Interval s |>)
    (fun '<| enabled; interval |> => mkServiceMonitorSpec enabled interval).

Definition OpenSearchSinkSpec_codec : codec OpenSearchSinkSpec :=
  struct "OpenSearchSinkSpec"
    [tag "hosts" strings_codec; omitempty "index" string_codec; omitempty "indexType" string_codec;
     omitempty "credentialsSecretRef" secret_codec; omitempty "dlqSecretRef" secret_codec; omitempty "routes" strings_codec]
    (fun s => <| OS_Hosts s; OS_Index s; OS_IndexType s; OS_CredentialsSecretRef s; OS_DLQSecretRef s; OS_Routes s |>)
    (fun '<| hosts; index; indexType; cred; dlq; routes |> =>
       mkOpenSearchSinkSpec hosts index indexType cred dlq routes).

Section codecs.
Context `{Externals}.

Definition JSON_codec : codec JSON := wrap JSON_Raw mkJSON (external_codec ExtJSON).

Abbreviation resource_list_codec := (string_map "v1.ResourceList" (external_codec ExtQuantity)).

Definition ResourceRequirements_codec : codec ResourceRequirements :=
  struct "ResourceRequirements"
    [omitempty "requests" resource_list_codec; omitempty "limits" resource_list_codec]
    (fun r => <| Res_Requests r; Res_Limits r |>)
    (fun '<| requests; limits |> => mkResourceRequirements requests limits).

(** [omitempty] does not omit a struct. *)
Definition PerReplicaResources_codec : codec PerReplicaResources :=
  struct "PerReplicaResources" [omitempty "perReplica" ResourceRequirements_codec]
    (fun r => <| PerReplica r |>) (fun '<| perReplica |> => mkPerReplicaResources perReplica).

Definition PipelineConnectorSinkSpec_codec : codec PipelineConnectorSinkSpec :=
  struct "PipelineConnectorSinkSpec" [tag "name" string_codec]
    (fun s => <| PSink_Name s |>) (fun '<| name |> => mkPipelineConnectorSinkSpec name).

Definition S3SinkSpec_codec : codec S3SinkSpec :=
  struct "S3SinkSpec"
    [tag "bucket" string_codec; tag "region" string_codec; omitempty "keyPathPrefix" string_codec;
     omitempty "codec" string_codec; omitempty "compression" string_codec;
     omitempty "credentialsSecretRef" secret_codec]
    (fun s => <| S3Sink_Bucket s; S3Sink_Region s; S3Sink_KeyPathPrefix s; S3Sink_Codec s;
                 S3Sink_Compression s; S3Sink_CredentialsSecretRef s |>)
    (fun '<| bucket; region; keyPathPrefix; codec; compression; cred |> =>
       mkS3SinkSpec bucket region keyPathPrefix codec compression cred).

Definition KafkaSinkSpec_codec : codec KafkaSinkSpec :=
  struct "KafkaSinkSpec"
    [tag "bootstrapServers" strings_codec; tag "topic" string_codec; omitempty "serdeFormat" string_codec;
     omitempty "credentialsSecretRef" secret_codec]
    (fun s => <| KSink_BootstrapServers s; KSink_Topic s; KSink_SerdeFormat s; KSink_CredentialsSecretRef s |>)
    (fun '<| servers; topic; serde; cred |> => mkKafkaSinkSpec servers topic serde cred).

Definition StdoutSinkSpec_codec : codec StdoutSinkSpec :=
  struct "StdoutSinkSpec" [] (fun _ => tt) (fun _ => mkStdoutSinkSpec).

Definition SinkSpec_codec : codec SinkSpec :=
  struct "SinkSpec"
    [omitempty "opensearch" (pointer OpenSearchSinkSpec_codec);
     omitempty "pipeline" (pointer PipelineConnectorSinkSpec_codec);
     omitempty "s3" (pointer S3SinkSpec_codec);
     omitempty "kafka" (pointer KafkaSinkSpec_codec);
     omitempty "stdout" (pointer StdoutSinkSpec_codec)]
    (fun s => <| Sink_OpenSearch s; Sink_Pipeline s; Sink_S3 s; Sink_Kafka s; Sink_Stdout s |>)
    (fun '<| opensearch; pipeline; s3; kafka; stdout |> => mkSinkSpec opensearch pipeline s3 kafka stdout).

Definition BoundedBlockingBufferSpec_codec : codec BoundedBlockingBufferSpec :=
  struct "BoundedBlockingBufferSpec" [omitempty "bufferSize" int_codec; omitempty "batchSize" int_codec]
    (fun b => <| BB_BufferSize b; BB_BatchSize b |>)
    (fun '<| bufferSize; batchSize |> => mkBoundedBlockingBufferSpec bufferSize batchSize).

Definition BufferSpec_codec : codec BufferSpec :=
  struct "BufferSpec" [omitempty "boundedBlocking" (pointer BoundedBlockingBufferSpec_codec)]
    (fun b => <| Buf_BoundedBlocking b |>) (fun '<| boundedBlocking |> => mkBufferSpec boundedBlocking).

Definition HeapCircuitBreakerSpec_codec : codec HeapCircuitBreakerSpec :=
  struct "HeapCircuitBreakerSpec" [tag "usage" string_codec]
    (fun h => <| Heap_Usage h |>) (fun '<| usage |> => mkHeapCircuitBreakerSpec usage).

Definition CircuitBreakerSpec_codec : codec CircuitBreakerSpec :=
  struct "CircuitBreakerSpec" [omitempty "heap" (pointer HeapCircuitBreakerSpec_codec)]
    (fun c => <| CB_Heap c |>) (fun '<| heap |> => mkCircuitBreakerSpec heap).

Definition DataPrepperConfigSpec_codec : codec DataPrepperConfigSpec :=
  struct "DataPrepperConfigSpec"
    [omitempty "circuitBreakers" (pointer CircuitBreakerSpec_codec); omitempty "raw" (pointer JSON_codec)]
    (fun c => <| DPC_CircuitBreakers c; DPC_Raw c |>)
    (fun '<| circuitBreakers; raw |> => mkDataPrepperConfigSpec circuitBreakers raw).

(** ** [dataprepperpipeline_types.go] *)

Definition KafkaSourceSpec_codec : codec KafkaSourceSpec :=
  struct "KafkaSourceSpec"
    [tag "bootstrapServers" strings_codec; tag "topic" string_codec; tag "groupId" string_codec;
     omitempty "credentialsSecretRef" secret_codec; omitempty "consumerConfig" string_map_codec;
     omitempty "encryptionType" string_codec]
    (fun s => <| KSrc_BootstrapServers s; KSrc_Topic s; KSrc_GroupID s; KSrc_CredentialsSecretRef s;
                 KSrc_ConsumerConfig s; KSrc_EncryptionType s |>)
    (fun '<| servers; topic; group; cred; config; encryption |> =>
       mkKafkaSourceSpec servers topic group cred config encryption).

Definition HTTPSourceSpec_codec : codec HTTPSourceSpec :=
  struct "HTTPSourceSpec" [tag "port" int_codec; omitempty "path" string_codec]
    (fun s => <| HTTP_Port s; HTTP_Path s |>) (fun '<| port; path |> => mkHTTPSourceSpec port path).

Definition OTelSourceSpec_codec : codec OTelSourceSpec :=
  struct "OTelSourceSpec" [tag "port" int_codec; omitempty "protocols" strings_codec]
    (fun s => <| OTel_Port s; OTel_Protocols s |>) (fun '<| port; protocols |> => mkOTelSourceSpec port protocols).

Definition JSONCodecSpec_codec : codec JSONCodecSpec :=
  struct "JSONCodecSpec" [] (fun _ => tt) (fun _ => mkJSONCodecSpec).

Definition CSVCodecSpec_codec : codec CSVCodecSpec :=
  struct "CSVCodecSpec" [omitempty "delimiter" string_codec; omitempty "headerRow" bool_codec]
    (fun c => <| CSV_Delimiter c; CSV_HeaderRow c |>)
    (fun '<| delimiter; headerRow |> => mkCSVCodecSpec delimiter headerRow).

Definition NewlineCodecSpec_codec : codec NewlineCodecSpec :=
  struct "NewlineCodecSpec" [] (fun _ => tt) (fun _ => mkNewlineCodecSpec).

Definition ParquetCodecSpec_codec : codec ParquetCodecSpec :=
  struct "ParquetCodecSpec" [] (fun _ => tt) (fun _ => mkParquetCodecSpec).

Definition AvroCodecSpec_codec : codec AvroCodecSpec :=
  struct "AvroCodecSpec" [omitempty "schema" string_codec]
    (fun c => <| Avro_Schema c |>) (fun '<| schema |> => mkAvroCodecSpec schema).

Definition CodecSpec_codec : codec CodecSpec :=
  struct "CodecSpec"
    [omitempty "json" (pointer JSONCodecSpec_codec); omitempty "csv" (pointer CSVCodecSpec_codec);
     omitempty "newline" (pointer NewlineCodecSpec_codec); omitempty "parquet" (pointer ParquetCodecSpec_codec);
     omitempty "avro" (pointer AvroCodecSpec_codec)]
    (fun c => <| Codec_JSON c; Codec_CSV c; Codec_Newline c; Codec_Parquet c; Codec_Avro c |>)
    (fun '<| json; csv; newline; parquet; avro |> => mkCodecSpec json csv newline parquet avro).

Definition S3SourceSpec_codec : codec S3SourceSpec :=
  struct "S3SourceSpec"
    [tag "bucket" string_codec; omitempty "prefix" string_codec; tag "region" string_codec;
     omitempty "sqsQueueUrl" string_codec; omitempty "credentialsSecretRef" secret_codec;
     omitempty "codec" (pointer CodecSpec_codec); omitempty "compression" string_codec]
    (fun s => <| S3Src_Bucket s; S3Src_Prefix s; S3Src_Region s; S3Src_SQSQueueURL s;
                 S3Src_CredentialsSecretRef s; S3Src_Codec s; S3Src_Compression s |>)
    (fun '<| bucket; prefix; region; url; cred; codec; compression |> =>
       mkS3SourceSpec bucket prefix region url cred codec compression).

Definition PipelineConnectorSourceSpec_codec : codec PipelineConnectorSourceSpec :=
  struct "PipelineConnectorSourceSpec" [tag "name" string_codec]
    (fun s => <| PSrc_Name s |>) (fun '<| name |> => mkPipelineConnectorSourceSpec name).

Definition SourceSpec_codec : codec SourceSpec :=
  struct "SourceSpec"
    [omitempty "kafka" (pointer KafkaSourceSpec_codec); omitempty "http" (pointer HTTPSourceSpec_codec);
     omitempty "otel" (pointer OTelSourceSpec_codec); omitempty "s3" (pointer S3SourceSpec_codec);
     omitempty "pipeline" (pointer PipelineConnectorSourceSpec_codec)]
    (fun s => <| Src_Kafka s; Src_HTTP s; Src_OTel s; Src_S3 s; Src_Pipeline s |>)
    (fun '<| kafka; http; otel; s3; pipeline |> => mkSourceSpec kafka http otel s3 pipeline).

Definition PipelineDefinition_codec : codec PipelineDefinition :=
  struct "PipelineDefinition"
    [tag "name" string_codec; omitempty "workers" int_codec; omitempty "delay" int_codec;
     tag "source" SourceSpec_codec; omitempty "buffer" (pointer BufferSpec_codec);
     omitempty "processors" (slice_of "[]v1.JSON" JSON_codec);
     omitempty "routes" (slice_of "[]map[string]string" string_map_codec);
     tag "sink" (slice_of "[]v1alpha1.SinkSpec" SinkSpec_codec)]
    (fun p => <| PD_Name p; PD_Workers p; PD_Delay p; PD_Source p; PD_Buffer p; PD_Processors p;
                 PD_Routes p; PD_Sink p |>)
    (fun '<| name; workers; delay; source; buffer; processors; routes; sink |> =>
       mkPipelineDefinition name workers delay source buffer processors routes sink).

Definition ScalingSpec_codec : codec ScalingSpec :=
  struct "ScalingSpec"
    [omitempty "mode" (string_as "v1alpha1.ScalingMode"); omitempty "maxReplicas" (pointer int32_codec);
     omitempty "minReplicas" (pointer int32_codec); omitempty "fixedReplicas" (pointer int32_codec)]
    (fun s => <| Scaling_Mode s; Scaling_MaxReplicas s; Scaling_MinReplicas s; Scaling_FixedReplicas s |>)
    (fun '<| mode; maxReplicas; minReplicas; fixedReplicas |> =>
       mkScalingSpec mode maxReplicas minReplicas fixedReplicas).

Definition DataPrepperPipelineSpec_codec : codec DataPrepperPipelineSpec :=
  struct "DataPrepperPipelineSpec"
    [omitempty "image" string_codec; omitempty "imagePullPolicy" string_codec;
     tag "pipelines" (slice_of "[]v1alpha1.PipelineDefinition" PipelineDefinition_codec);
     omitempty "scaling" (pointer ScalingSpec_codec);
     omitempty "resources" (pointer PerReplicaResources_codec);
     omitempty "dataPrepperConfig" (pointer DataPrepperConfigSpec_codec);
     omitempty "serviceMonitor" (pointer ServiceMonitorSpec_codec);
     omitempty "podAnnotations" string_map_codec; omitempty "podLabels" string_map_codec;
     omitempty "nodeSelector" string_map_codec;
     omitempty "tolerations" (slice_of "[]v1.Toleration" (external_codec ExtToleration));
     omitempty "affinity" (pointer (external_codec ExtAffinity));
     omitempty "podSecurityContext" (pointer (external_codec ExtPodSecurityContext));
     omitempty "securityContext" (pointer (external_codec ExtSecurityContext));
     omitempty "serviceAccountName" string_codec]
    (fun s => <| Spec_Image s; Spec_ImagePullPolicy s; Spec_Pipelines s; Spec_Scaling s; Spec_Resources s;
                 Spec_DataPrepperConfig s; Spec_ServiceMonitor s; Spec_PodAnnotations s; Spec_PodLabels s;
                 Spec_NodeSelector s; Spec_Tolerations s; Spec_Affinity s; Spec_PodSecurityContext s;
                 Spec_SecurityContext s; Spec_ServiceAccountName s |>)
    (fun '<| image; policy; pipelines; scaling; resources; config; monitor; annotations; labels; selector;
             tolerations; affinity; podSecurity; security; account |> =>
       mkDataPrepperPipelineSpec image policy pipelines scaling resources config monitor annotations labels
         selector tolerations affinity podSecurity security account).

Definition MarshalSpec : DataPrepperPipelineSpec -> result string := marshal DataPrepperPipelineSpec_codec.
Definition UnmarshalSpec : string -> result DataPrepperPipelineSpec := unmarshal DataPrepperPipelineSpec_codec.

End codecs.


(** ** The codecs are built from the combinators *)

(** A record and the tuple of its fields. *)
Ltac solve_iso :=
  let x := fresh "x" in
  intros x; cbn in x;
  repeat match goal with
  | p : (_ * _)%type |- _ => destruct p
  | u : unit |- _ => destruct u
  end; try reflexivity; destruct x; reflexivity.

Create HintDb built.

Ltac solve_field :=
  lazymatch goal with
  | |- built _ (pointer _) => apply b_pointer; [reflexivity|solve_field]
  | |- built (S _) (slice_of _ _) => apply b_slice; solve_field
  | |- built (S _) (string_map _ _) => apply b_map; solve_field
  | |- built _ JSON_codec => apply b_wrap; [done|by intros []|solve_field]
  | |- built _ (string_as _) => apply b_string
  | |- built _ bool_codec => apply b_bool
  | |- built _ (int_as _ _) => apply b_int; lia
  | |- built _ (external_codec _) => apply b_external
  | |- built _ _ => auto with built nocore
  end.

(** The codec of a struct. *)
Ltac solve_struct :=
  intros; apply b_struct;
  [solve_iso|solve_iso|apply (bool_decide_unpack _); reflexivity
  |repeat (constructor; [split; by vm_compute|]); constructor
  |repeat (constructor; [cbn [f_codec]; solve_field|]); constructor].

Section built.
Context `{Externals}.

Lemma SecretReference_built k : built (S k) SecretReference_codec.
Proof. solve_struct. Qed.
#[local] Hint Resolve SecretReference_built : built.
Lemma ServiceMonitorSpec_built k : built (S k) ServiceMonitorSpec_codec.
Proof. solve_struct. Qed.
#[local] Hint Resolve ServiceMonitorSpec_built : built.
Lemma OpenSearchSinkSpec_built k : built (S (S k)) OpenSearchSinkSpec_codec.
Proof. solve_struct. Qed.
#[local] Hint Resolve OpenSearchSinkSpec_built : built.
Lemma ResourceRequirements_built k : built (S (S k)) ResourceRequirements_codec.
Proof. solve_struct. Qed.
#[local] Hint Resolve ResourceRequirements_built : built.
Lemma PerReplicaResources_built k : built (S (S (S k))) PerReplicaResources_codec.
Proof. solve_struct. Qed.
#[local] Hint Resolve PerReplicaResources_built : built.
Lemma PipelineConnectorSinkSpec_built k : built (S k) PipelineConnectorSinkSpec_codec.
Proof. solve_struct. Qed.
#[local] Hint Resolve PipelineConnectorSinkSpec_built : built.
Lemma S3SinkSpec_built k : built (S (S k)) S3SinkSpec_codec.
Proof. solve_struct. Qed.
#[local] Hint Resolve S3SinkSpec_built : built.
Lemma KafkaSinkSpec_built k : built (S (S k)) KafkaSinkSpec_codec.
Proof. solve_struct. Qed.
#[local] Hint Resolve KafkaSinkSpec_built : built.
Lemma StdoutSinkSpec_built k : built (S k) StdoutSinkSpec_codec.
Proof. solve_struct. Qed.
#[local] Hint Resolve StdoutSinkSpec_built : built.
Lemma SinkSpec_built k : built (S (S (S k))) SinkSpec_codec.
Proof. solve_struct. Qed.
#[local] Hint Resolve SinkSpec_built : built.
Lemma BoundedBlockingBufferSpec_built k : built (S k) BoundedBlockingBufferSpec_codec.
Proof. solve_struct. Qed.
#[local] Hint Resolve BoundedBlockingBufferSpec_built : built.
Lemma BufferSpec_built k : built (S (S k)) BufferSpec_codec.
Proof. solve_struct. Qed.
#[local] Hint Resolve BufferSpec_built : built.
Lemma HeapCircuitBreakerSpec_built k : built (S k) HeapCircuitBreakerSpec_codec.
Proof. solve_struct. Qed.
#[local] Hint Resolve HeapCircuitBreakerSpec_built : built.
Lemma CircuitBreakerSpec_built k : built (S (S k)) CircuitBreakerSpec_codec.
Proof. solve_struct. Qed.
#[local] Hint Resolve CircuitBreakerSpec_built : built.
Lemma DataPrepperConfigSpec_built k : built (S (S (S k))) DataPrepperConfigSpec_codec.
Proof. solve_struct. Qed.
#[local] Hint Resolve DataPrepperConfigSpec_built : built.
Lemma KafkaSourceSpec_built k : built (S (S k)) KafkaSourceSpec_codec.
Proof. solve_struct. Qed.
#[local] Hint Resolve KafkaSourceSpec_built : built.
Lemma HTTPSourceSpec_built k : built (S k) HTTPSourceSpec_codec.
Proof. solve_struct. Qed.
#[local] Hint Resolve HTTPSourceSpec_built : built.
Lemma OTelSourceSpec_built k : built (S (S k)) OTelSourceSpec_codec.
Proof. solve_struct. Qed.
#[local] Hint Resolve OTelSourceSpec_built : built.
Lemma JSONCodecSpec_built k : built (S k) JSONCodecSpec_codec.
Proof. solve_struct. Qed.
#[local] Hint Resolve JSONCodecSpec_built : built.
Lemma CSVCodecSpec_built k : built (S k) CSVCodecSpec_codec.
Proof. solve_struct. Qed.
#[local] Hint Resolve CSVCodecSpec_built : built.
Lemma NewlineCodecSpec_built k : built (S k) NewlineCodecSpec_codec.
Proof. solve_struct. Qed.
#[local] Hint Resolve NewlineCodecSpec_built : built.
Lemma ParquetCodecSpec_built k : built (S k) ParquetCodecSpec_codec.
Proof. solve_struct. Qed.
#[local] Hint Resolve ParquetCodecSpec_built : built.
Lemma AvroCodecSpec_built k : built (S k) AvroCodecSpec_codec.
Proof. solve_struct. Qed.
#[local] Hint Resolve AvroCodecSpec_built : built.
Lemma CodecSpec_built k : built (S (S k)) CodecSpec_codec.
Proof. solve_struct. Qed.
#[local] Hint Resolve CodecSpec_built : built.
Lemma S3SourceSpec_built k : built (S (S (S k))) S3SourceSpec_codec.
Proof. solve_struct. Qed.
#[local] Hint Resolve S3SourceSpec_built : built.
Lemma PipelineConnectorSourceSpec_built k : built (S k) PipelineConnectorSourceSpec_codec.
Proof. solve_struct. Qed.
#[local] Hint Resolve PipelineConnectorSourceSpec_built : built.
Lemma SourceSpec_built k : built (S (S (S (S k)))) SourceSpec_codec.
Proof. solve_struct. Qed.
#[local] Hint Resolve SourceSpec_built : built.
Lemma PipelineDefinition_built k : built (S (S (S (S (S k))))) PipelineDefinition_codec.
Proof. solve_struct. Qed.
#[local] Hint Resolve PipelineDefinition_built : built.
Lemma ScalingSpec_built k : built (S k) ScalingSpec_codec.
Proof. solve_struct. Qed.
#[local] Hint Resolve ScalingSpec_built : built.
Lemma DataPrepperPipelineSpec_built k : built (S (S (S (S (S (S (S k))))))) DataPrepperPipelineSpec_codec.
Proof. solve_struct. Qed.
#[local] Hint Resolve DataPrepperPipelineSpec_built : built.

End built.

(** ** Written and read *)

(** What [encoding/json] promises of the Kubernetes types on the values it
    supports: they are written as well-formed documents other than [null], nested
    at most [ext_depth] deep, and read back in a canonical form that is written
    the same. *)
Definition ext_depth : Z := 9000.

Class ExternalLaws `{Externals} := {
  ext_good : external -> string -> Prop;
  ext_canonical : external -> string -> string;
  ext_read x v : ext_good x v -> exists t, ext_encode x v = Ok t /\ wf_tree t /\ t ≠ JNull /\
    nesting t <= ext_depth /\ forall ctx, ext_decode x ctx (ext_zero x) t = mret (ext_canonical x v);
  ext_rewrite x v : ext_good x v -> ext_encode x (ext_canonical x v) = ext_encode x v;
  (** [apiextensionsv1.JSON] keeps the text of any document but [null]. *)
  ext_json ctx t : t ≠ JNull -> ext_decode ExtJSON ctx (ext_zero ExtJSON) t = mret (of_bytes (print t)) }.

Section roundtrip.
Context `{ExternalLaws}.
Implicit Types spec : DataPrepperPipelineSpec.

(** Strings are UTF-8, integers fit their width, Kubernetes values are supported. *)
Definition supported (l : leaf) : Prop :=
  match l with
  | LStr s | LKey s => valid_utf8 (bytes s) 0 = true
  | LInt width z => - 2 ^ (width - 1) <= z < 2 ^ (width - 1)
  | LExt x v => ext_good x v
  end.

Definition spec_leaves spec : list leaf := leaves DataPrepperPipelineSpec_codec spec.
Definition well_formed spec : Prop := Forall supported (spec_leaves spec).

(** The spec with its Kubernetes values in canonical form. *)
Definition canonical spec : DataPrepperPipelineSpec :=
  remap DataPrepperPipelineSpec_codec id ext_canonical spec.

Lemma eq_reading : reading supported eq id ext_canonical ext_depth.
Proof.
  split; [done|done| |by intros k|by intros width z|].
  - intros s Hs. exists (quoted s). split_and!; [done|apply jbody_quoted|by apply unquote_quoted].
  - intros x v Hv. destruct (ext_read x v Hv) as (t & E & Hw & Hn & Hd & Hdec).
    exists t, t. split_and!; try done. apply rewritten_refl, Forall_true. done.
Qed.

Lemma spec_roundtrip spec : well_formed spec ->
  exists t, encode DataPrepperPipelineSpec_codec spec = Ok t /\ wf_tree t /\
    MarshalSpec spec = Ok (of_bytes (print t)) /\ checkValid (of_bytes (print t)) = Ok t /\
    UnmarshalSpec (of_bytes (print t)) = Ok (canonical spec).
Proof.
  intros Hs. pose proof (built_lawful _ _ _ _ _ _ _ eq_reading (fun _ _ => eq_refl) (DataPrepperPipelineSpec_built 0)) as Hl.
  destruct (lawful_marshal _ _ _ _ _ _ spec (proj1 (Z.leb_le (ext_depth + 7) maxNestingDepth) eq_refl) Hl Hs) as (t & t' & E & Em & Hw & HR & Hv & Hu).
  apply rewritten_eq in HR as <-. by exists t.
Qed.

Lemma canonical_marshal spec : well_formed spec -> MarshalSpec (canonical spec) = MarshalSpec spec.
Proof.
  intros Hs. unfold MarshalSpec, marshal, canonical.
  rewrite (stable_encode supported ext_canonical); [done| |done].
  eapply built_stable; [apply ext_rewrite|apply (DataPrepperPipelineSpec_built 0)].
Qed.

Lemma canonical_still spec :
  (forall x v, LExt x v ∈ spec_leaves spec -> ext_canonical x v = v) -> canonical spec = spec.
Proof.
  intros Hs. apply (built_keeps id ext_canonical _ _ (DataPrepperPipelineSpec_built 0)).
  apply Forall_forall. intros [] Hl; try done. by apply Hs.
Qed.

(** Specs with the same text are the same up to the form of the Kubernetes values. *)
Lemma marshal_injective spec1 spec2 : well_formed spec1 -> well_formed spec2 ->
  MarshalSpec spec1 = MarshalSpec spec2 <-> canonical spec1 = canonical spec2.
Proof.
  intros H1 H2. split.
  - intros Heq. destruct (spec_roundtrip spec1 H1) as (t1 & _ & _ & E1 & _ & U1).
    destruct (spec_roundtrip spec2 H2) as (t2 & _ & _ & E2 & _ & U2).
    rewrite E1, E2 in Heq. injection Heq as Heq. rewrite Heq in U1. congruence.
  - intros Heq. by rewrite <-(canonical_marshal spec1), Heq, canonical_marshal.
Qed.

(** C18: every pipeline spec whose strings are UTF-8, whose integers fit their Go
    types and whose raw documents and Kubernetes values are supported by
    [encoding/json] is written as a valid JSON document; reading the document gives
    the spec back with only those raw documents and Kubernetes values brought to
    their canonical form, and writing the result gives the same document again, so
    a spec and what is read back from its document have the same hash. *)
Theorem spec_json_roundtrip spec :
  well_formed spec ->
  exists data, MarshalSpec spec = Ok data /\ is_ok (checkValid data) = true /\
    UnmarshalSpec data = Ok (canonical spec) /\ MarshalSpec (canonical spec) = Ok data /\
    ((forall x v, LExt x v ∈ spec_leaves spec -> ext_canonical x v = v) -> canonical spec = spec).
Proof.
  intros Hs. destruct (spec_roundtrip spec Hs) as (t & _ & _ & E & Hv & U). exists (of_bytes (print t)).
  rewrite canonical_marshal, Hv by done. split_and!; try done. apply canonical_still.
Qed.

End roundtrip.

(** ** Kubernetes values as documents *)

(** The instance in which an opaque value is a JSON document and its canonical form
    the compact one. *)
Definition document_externals : Externals := {|
  ext_zero _ := "";
  ext_encode _ v := checkValid v;
  ext_decode _ _ _ t := mret (of_bytes (print t)) |}.

Lemma jtext_wf :
  (forall t l, jtext t l -> wf_tree t) /\ (forall ts l, jelements ts l -> Forall wf_tree ts) /\
  (forall ms l, jmembers ms l -> Forall (fun kt => jbody kt.1 /\ wf_tree kt.2) ms).
Proof. apply text_mutual; intros; repeat constructor; auto. Qed.

Lemma checkValid_wf v t : checkValid v = Ok t -> wf_tree t.
Proof. intros (w1 & l & w2 & _ & _ & Ht & _)%checkValid_exact. by eapply (proj1 jtext_wf). Qed.

Definition document_good (v : string) : bool :=
  match checkValid v with
  | Ok JNull | Err _ => false
  | Ok t => nesting t <=? ext_depth
  end.

Definition document_canonical (v : string) : string :=
  match checkValid v with Ok t => of_bytes (print t) | Err _ => v end.

Lemma document_good_spec v : document_good v = true ->
  exists t, checkValid v = Ok t /\ wf_tree t /\ t ≠ JNull /\ nesting t <= ext_depth.
Proof.
  unfold document_good. destruct (checkValid v) as [t|] eqn:E; [|done]. intros Ht. exists t.
  split_and!; [done|by eapply checkValid_wf|by intros ->|by destruct t; try done; apply Z.leb_le].
Qed.

#[local] Existing Instance document_externals.

#[local] Program Instance document_laws : ExternalLaws := {|
  ext_good _ v := document_good v = true;
  ext_canonical _ v := document_canonical v |}.
Next Obligation.
  intros x v (t & E & Hw & Hn & Hd)%document_good_spec. exists t. split_and!; [done..|].
  unfold document_canonical. by rewrite E.
Qed.
Next Obligation.
  intros x v (t & E & Hw & Hn & Hd)%document_good_spec.
  cbn [ext_encode document_externals]. unfold document_canonical. rewrite !E.
  apply print_valid; [done|]. by transitivity ext_depth.
Qed.
Next Obligation. done. Qed.

(** A text with its single quotes read as double quotes. *)
Definition dq (s : string) : string :=
  of_bytes ((fun c => if bool_decide (c = "'"%char) then quote else c) <$> bytes s).

(** A spec with most features, and a raw document that is not compact. *)
Definition sample_spec : DataPrepperPipelineSpec :=
  mkDataPrepperPipelineSpec "dp:2.8" ""
    [mkPipelineDefinition "entry" 2 0
       (mkSourceSpec (Some (mkKafkaSourceSpec ["b1:9092"; "b2:9092"] "logs <&>" "g" (Some (mkSecretReference "s" ""))
          {["auto.offset.reset" := "earliest"; "a" := "b"]} "ssl")) None None None None)
       (Some (mkBufferSpec (Some (mkBoundedBlockingBufferSpec 512 (-1)))))
       [mkJSON (dq "{ 'grok' : [1, 2e3] }")] [{["r" := "x == 1"]}]
       [mkSinkSpec (Some (mkOpenSearchSinkSpec ["h"] "i" "" None None [])) None None None (Some mkStdoutSinkSpec)]]
    (Some (mkScalingSpec "manual" None None (Some 3)))
    (Some (mkPerReplicaResources (mkResourceRequirements ∅ ∅))) None None ∅ {["l" := "v"]} ∅ [] None None None "".

(** The leaves of a concrete spec are supported. *)
Ltac solve_leaves :=
  lazymatch goal with |- Forall ?Q ?l => let l' := eval vm_compute in l in change_no_check (Forall Q l') end;
  repeat (constructor; [first [done|cbn; lia|vm_compute; reflexivity]|]); constructor.

Lemma sample_well_formed : well_formed sample_spec.
Proof. unfold well_formed. solve_leaves. Qed.

(** Its text, and what is read back. *)
Lemma spec_json_roundtrip_witness :
  well_formed sample_spec /\ exists data, MarshalSpec sample_spec = Ok data /\
    UnmarshalSpec data = Ok (canonical sample_spec) /\ MarshalSpec (canonical sample_spec) = Ok data.
Proof.
  split; [apply sample_well_formed|].
  destruct (spec_json_roundtrip sample_spec sample_well_formed) as (data & E & _ & U & M & _).
  exact (ex_intro _ data (conj E (conj U M))).
Defined.

Example sample_text :
  MarshalSpec sample_spec = Ok (dq ("{'image':'dp:2.8','pipelines':[{'name':'entry','workers':2,'source':{'kafka':{" +:+
    "'bootstrapServers':['b1:9092','b2:9092'],'topic':'logs \u003c\u0026\u003e','groupId':'g'," +:+
    "'credentialsSecretRef':{'name':'s'},'consumerConfig':{'a':'b','auto.offset.reset':'earliest'}," +:+
    "'encryptionType':'ssl'}},'buffer':{'boundedBlocking':{'bufferSize':512,'batchSize':-1}}," +:+
    "'processors':[{'grok':[1,2e3]}],'routes':[{'r':'x == 1'}]," +:+
    "'sink':[{'opensearch':{'hosts':['h'],'index':'i'},'stdout':{}}]}]," +:+
    "'scaling':{'mode':'manual','fixedReplicas':3},'resources':{'perReplica':{}},'podLabels':{'l':'v'}}")).
Proof. by vm_compute. Qed.

(** Keys match up to case, unknown keys are skipped, a later key wins, [null] is
    the zero value for pointers and slices and nothing for strings. *)
Example lenient_keys :
  Spec_Image <$> UnmarshalSpec (dq "{'IMAGE':'a','other':{'image':1},'image':null,'pipelines':null}") = Ok "a" /\
  Spec_Image <$> UnmarshalSpec (dq "{'image':'a','Image':'b'}") = Ok "b" /\
  (length ∘ Spec_Pipelines) <$> UnmarshalSpec "null" = Ok 0%nat.
Proof. by vm_compute. Qed.

(** The first mismatch is reported, with its place. *)
Example mismatches :
  UnmarshalSpec (dq "{'image':'a','scaling':{'mode':1,'maxReplicas':2147483648},'pipelines':{}}") =
    Err (Msg "json: cannot unmarshal %s into Go struct field %s.%s of type %s"
      [AStr "number"; AStr "ScalingSpec"; AStr "scaling.mode"; AStr "v1alpha1.ScalingMode"]) /\
  UnmarshalSpec (dq "{'scaling':{'maxReplicas':2147483648}}") =
    Err (Msg "json: cannot unmarshal %s into Go struct field %s.%s of type %s"
      [AStr "number 2147483648"; AStr "ScalingSpec"; AStr "scaling.maxReplicas"; AStr "int32"]) /\
  UnmarshalSpec "[]" = Err (type_error "array" "v1alpha1.DataPrepperPipelineSpec").
Proof. by vm_compute. Qed.
