(* ===== verification/Graph.v ===== *)
(** * Pipeline graph validation: [internal/validation/graph.go]

    [ValidateGraph] rejects duplicate names, references to unknown pipelines
    and cycles of sink references, the latter with a depth-first search that
    colours nodes 0 (white), 1 (grey, on the current path) and 2 (black, done).
    The search is modelled with the colour map passed as state and with fuel for
    its recursion; [dfs_fuel_enough] shows that one unit of fuel per pipeline is
    enough, so that the fuel never shows in [ValidateGraph]. *)

From S2P Require Import Prelude Go.

Record PipelineDef := mkPipelineDef {
  GP_Name : string;
  GP_SourcePipeline : string;
  GP_SinkPipelines : list string }.

(** The three values of [color map[string]int]: 0, 1 and 2. *)
Inductive color := White | Gray | Black.

#[export] Instance color_eq_dec : EqDecision color.
Proof. solve_decision. Defined.

Abbreviation colors := (gmap string color) (only parsing).
Abbreviation adjacency := (gmap string (list string)) (only parsing).

(** Reading an absent key of a Go map gives the zero value. *)
Definition col (c : colors) (n : string) : color := default White (c !! n).
Definition succs (adj : adjacency) (n : string) : list string := default [] (adj !! n).

(** First loop: [names], failing on a duplicate. *)
Definition add_name (names : gset string) (p : PipelineDef) : result (gset string) :=
  if decide (GP_Name p ∈ names)
  then Err (Msg "duplicate pipeline: %s" [AStr (GP_Name p)])
  else Ok ({[GP_Name p]} ∪ names).

(** Second loop: every source and sink reference must be a known name. *)
Definition check_refs (names : gset string) (p : PipelineDef) : result unit :=
  if nonempty (GP_SourcePipeline p) && bool_decide (GP_SourcePipeline p ∉ names)
  then Err (Msg "%q: unknown source %q" [AStr (GP_Name p); AStr (GP_SourcePipeline p)])
  else check_all (fun s =>
         if decide (s ∈ names) then Ok tt
         else Err (Msg "%q: unknown sink %q" [AStr (GP_Name p); AStr s]))
       (GP_SinkPipelines p).

(** Third loop: [adj[p.Name] = append(adj[p.Name], p.SinkPipelines...)]. *)
Definition build_adj (pipelines : list PipelineDef) : adjacency :=
  foldl (fun adj p => <[GP_Name p := succs adj (GP_Name p) ++ GP_SinkPipelines p]> adj)
        ∅ pipelines.

Definition cycle_error (n next : string) : error := Msg "cycle: %s -> %s" [AStr n; AStr next].

(** The loop [for _, next := range adj[n]] of the closure [dfs]; [rec] is the
    recursive call.  [None] means that the fuel ran out. *)
Fixpoint visit (rec : string -> colors -> option (result colors))
    (n : string) (nexts : list string) (c : colors) : option (result colors) :=
  match nexts with
  | [] => Some (Ok c)
  | next :: rest =>
    match col c next with
    | Gray => Some (Err (cycle_error n next))
    | White => match rec next c with
               | Some (Ok c') => visit rec n rest c'
               | r => r
               end
    | Black => visit rec n rest c
    end
  end.

Fixpoint dfs (adj : adjacency) (fuel : nat) (n : string) (c : colors)
    : option (result colors) :=
  match fuel with
  | O => None
  | S fuel =>
    match visit (dfs adj fuel) n (succs adj n) (<[n := Gray]> c) with
    | Some (Ok c') => Some (Ok (<[n := Black]> c'))
    | r => r
    end
  end.

(** Last loop: start a search from every node that is still white. *)
Fixpoint dfs_all (adj : adjacency) (fuel : nat) (ns : list string) (c : colors)
    : option (result colors) :=
  match ns with
  | [] => Some (Ok c)
  | n :: ns =>
    match col c n with
    | White => match dfs adj fuel n c with
               | Some (Ok c') => dfs_all adj fuel ns c'
               | r => r
               end
    | _ => dfs_all adj fuel ns c
    end
  end.

Definition fuel_error : error := Msg "search fuel exhausted" [].

Definition detect_cycles (pipelines : list PipelineDef) : result unit :=
  match dfs_all (build_adj pipelines) (length pipelines) (GP_Name <$> pipelines) ∅ with
  | Some r => _ ← r; Ok tt
  | None => Err fuel_error
  end.

Definition ValidateGraph (pipelines : list PipelineDef) : result unit :=
  names ← fold_res add_name ∅ pipelines;
  _ ← check_all (check_refs names) pipelines;
  detect_cycles pipelines.

(** ** Specification *)

(** The sink edges, which are the only ones the search follows. *)
Definition edge (pipelines : list PipelineDef) (a b : string) : Prop :=
  exists p, p ∈ pipelines /\ GP_Name p = a /\ b ∈ GP_SinkPipelines p.

Definition acyclic {A} (R : relation A) : Prop := forall x, ~ tc R x x.

Definition refs_resolve (pipelines : list PipelineDef) : Prop :=
  forall p, p ∈ pipelines ->
    (GP_SourcePipeline p = "" \/ GP_SourcePipeline p ∈ GP_Name <$> pipelines) /\
    (forall s, s ∈ GP_SinkPipelines p -> s ∈ GP_Name <$> pipelines).

Record valid_graph (pipelines : list PipelineDef) : Prop := {
  vg_nodup : NoDup (GP_Name <$> pipelines);
  vg_refs : refs_resolve pipelines;
  vg_acyclic : acyclic (edge pipelines) }.

(** ** The name and reference checks *)

Lemma add_names_Ok names0 pipelines names :
  fold_res add_name names0 pipelines = Ok names <->
  NoDup (GP_Name <$> pipelines) /\ (forall n, n ∈ GP_Name <$> pipelines -> n ∉ names0) /\
  names = names0 ∪ list_to_set (GP_Name <$> pipelines).
Proof.
  revert names0. induction pipelines as [|p ps IH]; intros names0; simpl.
  { split.
    - intros [= <-]. split; [constructor|]. split; [set_solver|]. set_solver.
    - intros (_ & _ & ->). f_equal. set_solver. }
  change (list_fmap PipelineDef string GP_Name ps) with (GP_Name <$> ps).
  rewrite NoDup_cons. destruct (add_name names0 p) as [names1|e] eqn:E; simpl;
    unfold add_name in E; case_decide as Hin; simplify_eq.
  - rewrite IH. split.
    + intros (Hnd & Hd & ->). set_solver.
    + intros ([Hp Hnd] & Hd & ->). split; [done|]. set_solver.
  - split; [done|]. intros ([Hp Hnd] & Hd & ->). set_solver.
Qed.

Lemma check_refs_Ok names p :
  check_refs names p = Ok tt <->
  (GP_SourcePipeline p = "" \/ GP_SourcePipeline p ∈ names) /\
  (forall s, s ∈ GP_SinkPipelines p -> s ∈ names).
Proof.
  assert (forall l, check_all (fun s => if decide (s ∈ names) then Ok tt
            else Err (Msg "%q: unknown sink %q" [AStr (GP_Name p); AStr s])) l = Ok tt <->
          forall s, s ∈ l -> s ∈ names) as Hsinks.
  { intros l. rewrite check_all_Ok, Forall_forall. split; intros H s Hs;
      specialize (H s Hs); [by case_decide|by rewrite decide_True]. }
  unfold check_refs, nonempty. rewrite <-Hsinks.
  destruct (decide (GP_SourcePipeline p = "")) as [He|He];
    [rewrite bool_decide_eq_false_2 by naive_solver | rewrite bool_decide_eq_true_2 by done];
    simpl; [naive_solver|].
  destruct (decide (GP_SourcePipeline p ∈ names)) as [Hin|Hin];
    [rewrite bool_decide_eq_false_2 by naive_solver | rewrite bool_decide_eq_true_2 by done];
    naive_solver.
Qed.

Lemma succs_build_adj_acc pipelines adj n :
  succs (foldl (fun adj p =>
     <[GP_Name p := succs adj (GP_Name p) ++ GP_SinkPipelines p]> adj) adj pipelines) n =
  succs adj n ++ mjoin (GP_SinkPipelines <$> filter (fun p => GP_Name p = n) pipelines).
Proof.
  revert adj. induction pipelines as [|p ps IH]; intros adj; [by rewrite app_nil_r|].
  simpl foldl. rewrite IH. unfold succs at 1. rewrite lookup_insert, filter_cons.
  case_decide as Hp; subst; simpl; [|done]. by rewrite <-app_assoc.
Qed.

Lemma elem_of_succs_build_adj pipelines a b :
  b ∈ succs (build_adj pipelines) a <-> edge pipelines a b.
Proof.
  unfold build_adj. rewrite succs_build_adj_acc. unfold succs, edge.
  rewrite lookup_empty. simpl. rewrite list_elem_of_join. split.
  - intros (l & Hb & Hl). apply list_elem_of_fmap in Hl as (p & -> & Hp).
    apply list_elem_of_filter in Hp as [<- Hp]. eauto.
  - intros (p & Hp & <- & Hb). exists (GP_SinkPipelines p). split; [done|].
    apply list_elem_of_fmap. exists p. split; [done|]. by apply list_elem_of_filter.
Qed.

(** ** The depth-first search *)

Section search.
Context (adj : adjacency).

Definition E (a b : string) : Prop := b ∈ succs adj a.

(** Black nodes have no infinite path: they are accessible for the successor
    relation.  This is the invariant that yields acyclicity. *)
Definition black_acc (c : colors) : Prop :=
  forall x, col c x = Black -> Acc (flip E) x.

(** Grey nodes are on the path that leads to the current node. *)
Definition gray_reach (c : colors) (n : string) : Prop :=
  forall x, col c x = Gray -> rtc E x n.

(** How a finished call may change the colours. *)
Definition evolves (c c' : colors) : Prop :=
  (forall x, col c x = Black -> col c' x = Black) /\
  (forall x, col c' x = White -> col c x = White) /\
  (forall x, col c' x = Gray <-> col c x = Gray).

(** The error a search may report: a real cycle through the named edge. *)
Definition real_cycle (e : error) : Prop :=
  exists n next, e = cycle_error n next /\ E n next /\ rtc E next n.

Lemma col_empty x : col ∅ x = White.
Proof. unfold col. by rewrite lookup_empty. Qed.

Lemma col_insert c n k x : col (<[n := k]> c) x = if decide (n = x) then k else col c x.
Proof. unfold col. rewrite lookup_insert. by case_decide. Qed.

#[local] Instance evolves_refl : Reflexive evolves.
Proof. unfold evolves. naive_solver. Qed.
#[local] Instance evolves_trans : Transitive evolves.
Proof. intros c1 c2 c3 (?&?&?) (?&?&?). unfold evolves. naive_solver. Qed.

Definition finished (c : colors) (n : string) (c' : colors) : Prop :=
  black_acc c' /\ col c' n = Black /\ evolves c c'.

Definition search_post (r : option (result colors)) (Q : colors -> Prop) : Prop :=
  match r with
  | None => True
  | Some (Ok c') => Q c'
  | Some (Err e) => real_cycle e
  end.

Lemma visit_spec rec n nexts c :
  (forall next c, E n next -> col c next = White -> black_acc c -> gray_reach c next ->
     search_post (rec next c) (finished c next)) ->
  (forall x, x ∈ nexts -> E n x) ->
  black_acc c -> gray_reach c n ->
  search_post (visit rec n nexts c)
    (fun c' => black_acc c' /\ evolves c c' /\ forall x, x ∈ nexts -> col c' x = Black).
Proof.
  intros Hrec. revert c. induction nexts as [|next rest IH]; intros c HE Hb Hg; simpl.
  { split; [done|]. split; [reflexivity|]. intros x Hx. by apply elem_of_nil in Hx. }
  assert (E n next) as Hen by (apply HE; by left).
  assert (forall x, x ∈ rest -> E n x) as HE' by (intros; apply HE; by right).
  destruct (col c next) eqn:Hc.
  - assert (gray_reach c next) as Hg'.
    { intros x Hx. eapply rtc_r; [by apply Hg|done]. }
    specialize (Hrec next c Hen Hc Hb Hg').
    destruct (rec next c) as [[c1|e]|]; simpl in *; [|done..].
    destruct Hrec as (Hb1 & Hn1 & Hev).
    assert (gray_reach c1 n) as Hg1 by (intros x Hx; apply Hg; by apply Hev).
    specialize (IH c1 HE' Hb1 Hg1). unfold search_post in *.
    destruct (visit rec n rest c1) as [[c2|e]|]; [|done..].
    destruct IH as (Hb2 & Hev2 & Hr). split; [done|]. split; [by etrans|].
    intros x [->|Hx]%elem_of_cons; [by apply Hev2|by apply Hr].
  - simpl. exists n, next. split; [done|]. split; [done|]. by apply Hg.
  - specialize (IH c HE' Hb Hg). unfold search_post in *.
    destruct (visit rec n rest c) as [[c2|e]|]; [|done..].
    destruct IH as (Hb2 & Hev2 & Hr). split; [done|]. split; [done|].
    intros x [->|Hx]%elem_of_cons; [by apply Hev2|by apply Hr].
Qed.

Lemma black_acc_gray c n : col c n = White -> black_acc c -> black_acc (<[n := Gray]> c).
Proof. intros Hn Hb x. rewrite col_insert. case_decide; [done|]. apply Hb. Qed.

Lemma gray_reach_self c n : gray_reach c n -> gray_reach (<[n := Gray]> c) n.
Proof. intros Hg x. rewrite col_insert. case_decide; [by subst|apply Hg]. Qed.

Lemma evolves_blacken c n c' :
  col c n = White -> evolves (<[n := Gray]> c) c' -> evolves c (<[n := Black]> c').
Proof.
  intros Hn (Hb & Hw & Hg). split; [|split]; intros x;
    specialize (Hb x); specialize (Hw x); specialize (Hg x); rewrite !col_insert in *;
    destruct (decide (n = x)) as [<-|]; rewrite ?Hn; tauto || intuition congruence.
Qed.

Lemma dfs_spec fuel n c :
  col c n = White -> black_acc c -> gray_reach c n ->
  search_post (dfs adj fuel n c) (finished c n).
Proof.
  revert n c. induction fuel as [|fuel IH]; intros n c Hn Hb Hg; simpl; [done|].
  pose proof (visit_spec (dfs adj fuel) n (succs adj n) (<[n := Gray]> c)) as Hv.
  destruct (visit (dfs adj fuel) n (succs adj n) (<[n:=Gray]> c)) as [[c1|e]|]; simpl in *.
  - destruct Hv as (Hb1 & Hev & Hs);
      [intros; by apply IH|done|by apply black_acc_gray|by apply gray_reach_self|].
    assert (Acc (flip E) n) as Hacc by (constructor; intros y Hy; by apply Hb1, Hs).
    split; [|split].
    + intros x. rewrite col_insert. case_decide; [by subst|apply Hb1].
    + rewrite col_insert. by case_decide.
    + by apply evolves_blacken.
  - apply Hv; [intros; by apply IH|done|by apply black_acc_gray|by apply gray_reach_self].
  - done.
Qed.

(** ** Termination: one unit of fuel per node is enough *)

Context (ns : list string) (Hclosed : forall n x, n ∈ ns -> E n x -> x ∈ ns).

Definition whites (c : colors) : nat := length (filter (fun x => col c x = White) ns).

Lemma whites_mono c c' :
  (forall x, col c' x = White -> col c x = White) -> (whites c' <= whites c)%nat.
Proof.
  intros H. unfold whites. clear Hclosed. induction ns as [|n l IH]; [done|].
  rewrite !filter_cons. repeat case_decide; simpl; try lia. naive_solver.
Qed.

Lemma whites_gray c n :
  n ∈ ns -> col c n = White -> (whites (<[n := Gray]> c) < whites c)%nat.
Proof.
  intros Hin Hn. unfold whites. clear Hclosed. induction ns as [|m l IH];
    [by apply elem_of_nil in Hin|].
  assert (length (filter (fun x => col (<[n:=Gray]> c) x = White) l) <=
          length (filter (fun x => col c x = White) l))%nat as Hle.
  { clear IH Hin. induction l as [|k l IH]; [done|]. rewrite !filter_cons, col_insert.
    repeat case_decide; simpl; try lia; naive_solver. }
  rewrite !filter_cons, col_insert.
  apply elem_of_cons in Hin as [<-|Hin].
  - destruct (decide (n = n)) as [_|]; [|done].
    rewrite decide_False by done. rewrite decide_True by done. simpl. lia.
  - specialize (IH Hin). repeat case_decide; simpl; try lia; naive_solver.
Qed.

Lemma visit_fuel rec n nexts c k :
  (forall next c, next ∈ ns -> col c next = White -> (whites c <= k)%nat ->
     rec next c ≠ None /\
     forall c', rec next c = Some (Ok c') -> (whites c' <= whites c)%nat) ->
  (forall x, x ∈ nexts -> x ∈ ns) -> (whites c <= k)%nat ->
  visit rec n nexts c ≠ None /\
  forall c', visit rec n nexts c = Some (Ok c') -> (whites c' <= whites c)%nat.
Proof.
  intros Hrec. revert c. induction nexts as [|next rest IH]; intros c Hns Hk; simpl.
  { split; [done|]. by intros ? [= <-]. }
  assert (forall x, x ∈ rest -> x ∈ ns) as Hns' by (intros; apply Hns; by right).
  destruct (col c next) eqn:Hc; [|done|by apply IH].
  destruct (Hrec next c) as [Hne Hle]; [apply Hns; by left|done..|].
  destruct (rec next c) as [[c1|e]|]; [|done..].
  specialize (Hle c1 eq_refl). destruct (IH c1 Hns') as [Hne' Hle']; [lia|].
  split; [done|]. intros c' Hc'. specialize (Hle' c' Hc'). lia.
Qed.

Lemma dfs_fuel_enough fuel n c :
  n ∈ ns -> col c n = White -> (whites c <= fuel)%nat ->
  dfs adj fuel n c ≠ None /\
  forall c', dfs adj fuel n c = Some (Ok c') -> (whites c' <= whites c)%nat.
Proof.
  revert n c. induction fuel as [|fuel IH]; intros n c Hin Hn Hf.
  { pose proof (whites_gray c n Hin Hn). lia. }
  pose proof (whites_gray c n Hin Hn) as Hlt. simpl.
  destruct (visit_fuel (dfs adj fuel) n (succs adj n) (<[n:=Gray]> c) fuel) as [Hne Hle];
    [intros; by apply IH|intros; by eapply Hclosed|lia|].
  destruct (visit _ n _ _) as [[c1|e]|] eqn:Hv; [|done..].
  split; [done|]. intros c' [= <-].
  assert (whites (<[n := Black]> c1) <= whites c1)%nat; [|specialize (Hle c1 eq_refl); lia].
  apply whites_mono. intros x. rewrite col_insert. by case_decide.
Qed.
End search.

Section search_all.
Context (adj : adjacency).
#[local] Existing Instance evolves_refl.
#[local] Existing Instance evolves_trans.

Lemma dfs_all_spec fuel ns c :
  black_acc adj c -> (forall x, col c x ≠ Gray) ->
  search_post adj (dfs_all adj fuel ns c)
    (fun c' => black_acc adj c' /\ evolves c c' /\ forall n, n ∈ ns -> col c' n = Black).
Proof.
  revert c. induction ns as [|n ns IH]; intros c Hb Hg; simpl.
  { split; [done|]. split; [reflexivity|]. intros x Hx. by apply elem_of_nil in Hx. }
  destruct (col c n) eqn:Hc; [|by destruct (Hg n)|].
  - assert (gray_reach adj c n) as Hgr by (intros x Hx; by destruct (Hg x)).
    pose proof (dfs_spec adj fuel n c Hc Hb Hgr) as Hd.
    destruct (dfs adj fuel n c) as [[c1|e]|]; simpl in *; [|done..].
    destruct Hd as (Hb1 & Hn1 & Hev).
    assert (forall x, col c1 x ≠ Gray) as Hg1 by (intros x Hx; by eapply (Hg x), Hev).
    specialize (IH c1 Hb1 Hg1). unfold search_post in *.
    destruct (dfs_all adj fuel ns c1) as [[c2|e]|]; [|done..].
    destruct IH as (Hb2 & Hev2 & Hr). split; [done|]. split; [by etrans|].
    intros x [->|Hx]%elem_of_cons; [by apply Hev2|by apply Hr].
  - specialize (IH c Hb Hg). unfold search_post in *.
    destruct (dfs_all adj fuel ns c) as [[c2|e]|]; [|done..].
    destruct IH as (Hb2 & Hev2 & Hr). split; [done|]. split; [done|].
    intros x [->|Hx]%elem_of_cons; [by apply Hev2|by apply Hr].
Qed.

Lemma dfs_all_fuel_enough all fuel ns c :
  (forall n x, n ∈ all -> E adj n x -> x ∈ all) -> (forall n, n ∈ ns -> n ∈ all) ->
  (whites all c <= fuel)%nat -> dfs_all adj fuel ns c ≠ None.
Proof.
  intros Hcl. revert c. induction ns as [|n ns IH]; intros c Hns Hf; simpl; [done|].
  assert (forall n, n ∈ ns -> n ∈ all) as Hns' by (intros; apply Hns; by right).
  destruct (col c n) eqn:Hc; [|by apply IH..].
  destruct (dfs_fuel_enough adj all Hcl fuel n c) as [Hne Hle]; [apply Hns; by left|done..|].
  destruct (dfs adj fuel n c) as [[c1|e]|]; [|done..].
  apply IH; [done|]. specialize (Hle c1 eq_refl). lia.
Qed.
End search_all.

Lemma tc_head {A} (R : relation A) x z : tc R x z -> exists y, R x y /\ rtc R y z.
Proof. destruct 1 as [x z H|x y z Hxy Hyz]; eauto using rtc_refl, tc_rtc. Qed.

(** An accessible element is on no cycle. *)
Lemma Acc_no_cycle {A} (R : relation A) x : Acc (flip R) x -> ~ tc R x x.
Proof.
  induction 1 as [x _ IH]. intros Hc.
  destruct (tc_head _ _ _ Hc) as (y & Hxy & Hyx).
  apply (IH y Hxy). eapply tc_rtc_l; [done|by apply tc_once].
Qed.

Lemma detect_cycles_post pipelines :
  refs_resolve pipelines ->
  match detect_cycles pipelines with
  | Ok _ => acyclic (edge pipelines)
  | Err e => exists n next, e = cycle_error n next /\ edge pipelines n next /\
                            rtc (edge pipelines) next n
  end.
Proof.
  intros Hrefs. set (adj := build_adj pipelines). set (ns := GP_Name <$> pipelines).
  assert (forall a b, E adj a b <-> edge pipelines a b) as HE
    by (intros; apply elem_of_succs_build_adj).
  assert (forall a b, rtc (E adj) a b -> rtc (edge pipelines) a b) as Hrtc.
  { intros a b. apply (rtc_congruence id). intros x y. apply HE. }
  assert (dfs_all adj (length pipelines) ns ∅ ≠ None) as Hfuel.
  { apply (dfs_all_fuel_enough _ ns); [|done|].
    - intros n x _ Hx%HE. destruct Hx as (p & Hp & _ & Hx). by eapply Hrefs.
    - unfold whites. etrans; [apply length_filter|]. unfold ns. by rewrite length_fmap. }
  pose proof (dfs_all_spec adj (length pipelines) ns ∅) as Hpost.
  unfold detect_cycles. fold adj ns.
  destruct (dfs_all adj (length pipelines) ns ∅) as [[c|e]|]; simpl in *; [| |done].
  - destruct Hpost as (Hb & _ & Hblack);
      [by intros x; rewrite col_empty..|].
    intros x Hx. assert (tc (E adj) x x) as Hx'.
    { revert Hx. apply (tc_congruence id). intros a b. apply HE. }
    revert Hx'. apply Acc_no_cycle, Hb, Hblack.
    destruct (tc_head _ _ _ Hx) as (y & (p & Hp & <- & _) & _).
    by apply list_elem_of_fmap_2.
  - destruct Hpost as (n & next & -> & Hen & Hr);
      [by intros x; rewrite col_empty..|].
    exists n, next. split; [done|]. split; [by apply HE|by apply Hrtc].
Qed.

(** The name set the first loop leaves when it succeeds. *)
Lemma names_Ok pipelines names :
  fold_res add_name ∅ pipelines = Ok names <->
  NoDup (GP_Name <$> pipelines) /\ names = list_to_set (GP_Name <$> pipelines).
Proof. rewrite add_names_Ok. rewrite (left_id_L ∅ (∪)). set_solver. Qed.

Lemma refs_Ok pipelines :
  check_all (check_refs (list_to_set (GP_Name <$> pipelines))) pipelines = Ok tt <->
  refs_resolve pipelines.
Proof.
  rewrite check_all_Ok, Forall_forall. unfold refs_resolve.
  setoid_rewrite check_refs_Ok. setoid_rewrite elem_of_list_to_set. done.
Qed.

(** ** Correctness of [ValidateGraph] *)

Lemma ValidateGraph_Ok pipelines :
  ValidateGraph pipelines = Ok tt <-> valid_graph pipelines.
Proof.
  unfold ValidateGraph. destruct (fold_res add_name ∅ pipelines) as [names|e] eqn:Hn; simpl.
  - apply names_Ok in Hn as [Hnd ->].
    destruct (check_all _ pipelines) as [[]|e] eqn:Hr; simpl.
    + apply refs_Ok in Hr. pose proof (detect_cycles_post pipelines Hr) as Hd.
      destruct (detect_cycles pipelines) as [[]|e]; [by split|].
      destruct Hd as (n & next & _ & He & Hp).
      split; [done|]. intros [_ _ Ha]. destruct (Ha n).
      eapply tc_rtc_r; [by apply tc_once|done].
    + split; [done|]. intros [_ Hrefs _]. apply refs_Ok in Hrefs. congruence.
  - split; [done|]. intros [Hnd _ _].
    assert (fold_res add_name ∅ pipelines = Ok (list_to_set (GP_Name <$> pipelines)))
      by (by apply names_Ok). congruence.
Qed.


(** The four ways in which a graph can be refused. *)
Inductive graph_fault (pipelines : list PipelineDef) : error -> Prop :=
| fault_duplicate l1 p l2 :
    pipelines = l1 ++ p :: l2 -> GP_Name p ∈ GP_Name <$> l1 ->
    graph_fault pipelines (Msg "duplicate pipeline: %s" [AStr (GP_Name p)])
| fault_source p :
    p ∈ pipelines -> GP_SourcePipeline p ≠ "" ->
    GP_SourcePipeline p ∉ GP_Name <$> pipelines ->
    graph_fault pipelines
      (Msg "%q: unknown source %q" [AStr (GP_Name p); AStr (GP_SourcePipeline p)])
| fault_sink p s :
    p ∈ pipelines -> s ∈ GP_SinkPipelines p -> s ∉ GP_Name <$> pipelines ->
    graph_fault pipelines (Msg "%q: unknown sink %q" [AStr (GP_Name p); AStr s])
| fault_cycle n next :
    edge pipelines n next -> rtc (edge pipelines) next n ->
    graph_fault pipelines (cycle_error n next).

Lemma add_names_Err names0 pipelines e :
  fold_res add_name names0 pipelines = Err e ->
  exists l1 p l2, pipelines = l1 ++ p :: l2 /\
    (GP_Name p ∈ names0 \/ GP_Name p ∈ GP_Name <$> l1) /\
    e = Msg "duplicate pipeline: %s" [AStr (GP_Name p)].
Proof.
  revert names0. induction pipelines as [|p ps IH]; intros names0; simpl; [done|].
  destruct (add_name names0 p) as [names1|e'] eqn:E; simpl;
    unfold add_name in E; case_decide; simplify_eq; intros He.
  - destruct (IH _ He) as (l1 & q & l2 & -> & Hin & ->).
    exists (p :: l1), q, l2. split; [done|]. split; [|done]. set_solver.
  - simplify_eq. exists [], p, ps. eauto.
Qed.

Lemma check_refs_Err pipelines p e :
  p ∈ pipelines -> check_refs (list_to_set (GP_Name <$> pipelines)) p = Err e ->
  graph_fault pipelines e.
Proof.
  intros Hp. unfold check_refs. destruct (nonempty (GP_SourcePipeline p)) eqn:Hne; simpl.
  - case_bool_decide as Hin.
    + intros [= <-]. apply fault_source; [done|by apply nonempty_true|set_solver].
    + intros (s & Hs & He)%check_all_Err. case_decide; simplify_eq.
      apply fault_sink; [done..|set_solver].
  - intros (s & Hs & He)%check_all_Err. case_decide; simplify_eq.
    apply fault_sink; [done..|set_solver].
Qed.

(** C35: the error of [ValidateGraph] is truthful: it names a pipeline that
    really repeats an earlier name, a source or sink reference that is really
    unknown, or two ends of an edge that really closes a cycle. *)
Theorem ValidateGraph_error_truthful pipelines e :
  ValidateGraph pipelines = Err e -> graph_fault pipelines e.
Proof.
  unfold ValidateGraph. destruct (fold_res add_name ∅ pipelines) as [names|e'] eqn:Hn; simpl.
  - apply names_Ok in Hn as [Hnd ->].
    destruct (check_all _ pipelines) as [[]|e'] eqn:Hr; simpl.
    + apply refs_Ok in Hr. pose proof (detect_cycles_post pipelines Hr) as Hd.
      destruct (detect_cycles pipelines) as [[]|e']; [done|]. intros [= <-].
      destruct Hd as (n & next & -> & He & Hp). by constructor.
    + intros [= <-]. apply check_all_Err in Hr as (p & Hp & He).
      by eapply check_refs_Err.
  - intros [= <-]. apply add_names_Err in Hn as (l1 & p & l2 & Heq & [Hin|Hin] & ->);
      [set_solver|]. by eapply fault_duplicate.
Qed.

Lemma ValidateGraph_error_truthful_witness :
  exists e, ValidateGraph [mkPipelineDef "a" "" ["b"]; mkPipelineDef "b" "" ["a"]] = Err e /\
            graph_fault [mkPipelineDef "a" "" ["b"]; mkPipelineDef "b" "" ["a"]] e.
Proof.
  exists (cycle_error "b" "a"). split; [reflexivity|].
  apply (ValidateGraph_error_truthful _ _). reflexivity.
Defined.

(** [ValidateGraph] does not look at source references beyond checking that
    their names exist: two lists of pipelines with the same names and the same
    sink references, whose references all resolve, get the same verdict.  So a
    cycle of source references ([a] reads from [b], [b] reads from [a]) is
    accepted although the package comment promises an acyclic graph. *)
Theorem ValidateGraph_ignores_sources pipelines pipelines' :
  Forall2 (fun p p' => GP_Name p = GP_Name p' /\ GP_SinkPipelines p = GP_SinkPipelines p')
    pipelines pipelines' ->
  refs_resolve pipelines -> refs_resolve pipelines' ->
  (ValidateGraph pipelines = Ok tt <-> ValidateGraph pipelines' = Ok tt).
Proof.
  intros HF Hr Hr'. rewrite !ValidateGraph_Ok.
  assert (GP_Name <$> pipelines = GP_Name <$> pipelines') as Hnames.
  { clear -HF. induction HF as [|p p' l l' [Hn _] _ IH]; csimpl; congruence. }
  assert (forall a b, edge pipelines a b <-> edge pipelines' a b) as Hedge.
  { clear -HF. intros a b. unfold edge.
    induction HF as [|p p' l l' [Hn Hs] _ IH]; [set_solver|].
    setoid_rewrite elem_of_cons. naive_solver congruence. }
  assert (acyclic (edge pipelines) <-> acyclic (edge pipelines')) as Hac.
  { split; intros Ha x Hx; apply (Ha x); revert Hx; apply (tc_congruence id);
      intros; by apply Hedge. }
  split; intros [H1 _ H3]; constructor; [congruence|done|tauto|congruence|done|tauto].
Qed.

Lemma ValidateGraph_ignores_sources_witness :
  ValidateGraph [mkPipelineDef "a" "b" []; mkPipelineDef "b" "a" []] = Ok tt.
Proof.
  apply (ValidateGraph_ignores_sources
           [mkPipelineDef "a" "" []; mkPipelineDef "b" "" []]
           [mkPipelineDef "a" "b" []; mkPipelineDef "b" "a" []]).
  - repeat constructor.
  - apply refs_Ok. reflexivity.
  - apply refs_Ok. reflexivity.
  - reflexivity.
Defined.
