(* ===== verification/Webhook.v ===== *)
(** * The validating webhook: [api/v1alpha1/dataprepperpipeline_webhook.go]

    [validatePipeline] is the admission check of a [DataPrepperPipeline].  The
    reader the webhook uses to look up the namespace's [DataPrepperDefaults] is
    the controller-runtime client: a parameter ([None] when [webhookReader] is
    [nil]).  The Prometheus counter [WebhookValidationTotal] is a pair of
    counters. *)

From S2P Require Import Prelude Go Api Graph.
#[local] Open Scope Z_scope.

(** [webhookReader.Get] for a [DataPrepperDefaults], by namespace and name. *)
Abbreviation DefaultsReader := (option (string -> string -> result DataPrepperDefaults))
  (only parsing).

(** ** Counting the members of the unions *)

Definition count {A} (o : option A) : Z := if o then 1 else 0.

Definition countSourceTypes (s : SourceSpec) : Z :=
  count (Src_Kafka s) + count (Src_HTTP s) + count (Src_OTel s) + count (Src_S3 s) +
  count (Src_Pipeline s).

Definition countCodecTypes (c : CodecSpec) : Z :=
  count (Codec_JSON c) + count (Codec_CSV c) + count (Codec_Newline c) +
  count (Codec_Parquet c) + count (Codec_Avro c).

Definition countSinkTypes (s : SinkSpec) : Z :=
  count (Sink_OpenSearch s) + count (Sink_Pipeline s) + count (Sink_S3 s) +
  count (Sink_Kafka s) + count (Sink_Stdout s).

(** ** The checks *)

Definition validateImage (reader : DefaultsReader) (p : DataPrepperPipeline) : result unit :=
  if nonempty (Spec_Image (P_Spec p)) then Ok tt else
  let ns := Meta_Namespace (P_Meta p) in
  let failed := Err (Msg "spec.image is required" []) in
  match reader with
  | Some get =>
    if nonempty ns then
      match get ns "default" with
      | Ok d => if nonempty (Def_Image (Defaults_Spec d)) then Ok tt else failed
      | Err _ => failed
      end
    else failed
  | None => failed
  end.

Definition validateSourceUnion (pd : PipelineDefinition) : result unit :=
  let sourceCount := countSourceTypes (PD_Source pd) in
  if sourceCount =? 1 then Ok tt
  else Err (Msg "pipeline %q must have exactly one source type, got %d"
              [AStr (PD_Name pd); AInt sourceCount]).

(** [pd.Source.S3 != nil && pd.Source.S3.Codec != nil] and more than one codec. *)
Definition validateCodec (pd : PipelineDefinition) : result unit :=
  match Src_S3 (PD_Source pd) ≫= S3Src_Codec with
  | Some codec =>
    let c := countCodecTypes codec in
    if 1 <? c
    then Err (Msg "pipeline %q S3 source codec must have at most one type, got %d"
                [AStr (PD_Name pd); AInt c])
    else Ok tt
  | None => Ok tt
  end.

Fixpoint validateSinks (name : string) (j : Z) (sinks : list SinkSpec) : result unit :=
  match sinks with
  | [] => Ok tt
  | s :: rest =>
    let c := countSinkTypes s in
    if c =? 1 then validateSinks name (j + 1) rest
    else Err (Msg "pipeline %q sink[%d] must have exactly one sink type, got %d"
                [AStr name; AInt j; AInt c])
  end.

(** One round of the loop over [spec.pipelines]; the state is [names]. *)
Definition validateDefinition (i : Z) (names : gset string) (pd : PipelineDefinition)
    : result (gset string) :=
  if negb (nonempty (PD_Name pd))
  then Err (Msg "spec.pipelines[%d].name is required" [AInt i])
  else if bool_decide (PD_Name pd ∈ names)
  then Err (Msg "duplicate pipeline name: %s" [AStr (PD_Name pd)])
  else
    _ ← validateSourceUnion pd;
    _ ← (match PD_Sink pd with
         | [] => Err (Msg "pipeline %q must have at least one sink" [AStr (PD_Name pd)])
         | _ => Ok tt
         end);
    _ ← validateCodec pd;
    _ ← validateSinks (PD_Name pd) 0 (PD_Sink pd);
    Ok ({[PD_Name pd]} ∪ names).

Fixpoint validateDefinitions_from (i : Z) (names : gset string) (l : list PipelineDefinition)
    : result unit :=
  match l with
  | [] => Ok tt
  | pd :: rest =>
    names' ← validateDefinition i names pd;
    validateDefinitions_from (i + 1) names' rest
  end.

Definition validatePipelineDefinitions (pipelines : list PipelineDefinition) : result unit :=
  validateDefinitions_from 0 ∅ pipelines.

(** The graph handed to [validation.ValidateGraph]. *)
Definition graphDef (pd : PipelineDefinition) : PipelineDef :=
  mkPipelineDef (PD_Name pd)
    (match Src_Pipeline (PD_Source pd) with Some s => PSrc_Name s | None => "" end)
    (omap (fun s => PSink_Name <$> Sink_Pipeline s) (PD_Sink pd)).

Definition graphDefs (pipelines : list PipelineDefinition) : list PipelineDef :=
  graphDef <$> pipelines.

Definition validatePipelineGraph (pipelines : list PipelineDefinition) : result unit :=
  wrap_err "pipeline graph validation failed: %w" [] (ValidateGraph (graphDefs pipelines)).

Definition validateScaling (scaling : option ScalingSpec) : result unit :=
  match scaling with
  | None => Ok tt
  | Some s =>
    if bool_decide (Scaling_Mode s = ScalingModeManual) &&
       match Scaling_FixedReplicas s with Some f => f <? 1 | None => false end
    then Err (Msg "fixedReplicas must be >= 1" [])
    else if match Scaling_MaxReplicas s, Scaling_MinReplicas s with
            | Some mx, Some mn => mx <? mn
            | _, _ => false
            end
    then Err (Msg "maxReplicas must be >= minReplicas" [])
    else Ok tt
  end.

Definition validatePipeline (reader : DefaultsReader) (p : DataPrepperPipeline) : result unit :=
  let name := Meta_Name (P_Meta p) in
  let spec := P_Spec p in
  if 244 <? len name
  then Err (Msg "metadata.name must be at most 244 characters (current: %d) to allow headless service suffix"
              [AInt (len name)])
  else
    _ ← validateImage reader p;
    match Spec_Pipelines spec with
    | [] => Err (Msg "spec.pipelines must not be empty" [])
    | pipelines =>
      _ ← validatePipelineDefinitions pipelines;
      _ ← validatePipelineGraph pipelines;
      validateScaling (Spec_Scaling spec)
    end.

(** ** The admission entry points *)

(** [WebhookValidationTotal] by label. *)
Record ValidationMetrics := mkValidationMetrics { VM_accepted : Z; VM_rejected : Z }.

Definition recordValidationMetric (r : result unit) (m : ValidationMetrics) : ValidationMetrics :=
  match r with
  | Err _ => mkValidationMetrics (VM_accepted m) (VM_rejected m + 1)
  | Ok _ => mkValidationMetrics (VM_accepted m + 1) (VM_rejected m)
  end.

Definition ValidateCreate (reader : DefaultsReader) (obj : DataPrepperPipeline)
    (m : ValidationMetrics) : result unit * ValidationMetrics :=
  let r := validatePipeline reader obj in (r, recordValidationMetric r m).

Definition ValidateUpdate (reader : DefaultsReader) (oldObj newObj : DataPrepperPipeline)
    (m : ValidationMetrics) : result unit * ValidationMetrics :=
  let r := validatePipeline reader newObj in (r, recordValidationMetric r m).

Definition ValidateDelete (obj : DataPrepperPipeline) (m : ValidationMetrics)
    : result unit * ValidationMetrics := (Ok tt, m).

(** ** Specification: what an admissible pipeline is

    The Go structs for sources, sinks and codecs are unions by convention; the
    views below are the tagged unions they stand for. *)

Inductive SourceView :=
| VKafka (k : KafkaSourceSpec) | VHTTP (h : HTTPSourceSpec) | VOTel (o : OTelSourceSpec)
| VS3 (s : S3SourceSpec) | VPipeline (p : PipelineConnectorSourceSpec).

Definition of_SourceView (v : SourceView) : SourceSpec :=
  match v with
  | VKafka k => mkSourceSpec (Some k) None None None None
  | VHTTP h => mkSourceSpec None (Some h) None None None
  | VOTel o => mkSourceSpec None None (Some o) None None
  | VS3 s => mkSourceSpec None None None (Some s) None
  | VPipeline p => mkSourceSpec None None None None (Some p)
  end.

Inductive SinkView :=
| VOpenSearch (o : OpenSearchSinkSpec) | VPipelineSink (p : PipelineConnectorSinkSpec)
| VS3Sink (s : S3SinkSpec) | VKafkaSink (k : KafkaSinkSpec) | VStdout (s : StdoutSinkSpec).

Definition of_SinkView (v : SinkView) : SinkSpec :=
  match v with
  | VOpenSearch o => mkSinkSpec (Some o) None None None None
  | VPipelineSink p => mkSinkSpec None (Some p) None None None
  | VS3Sink s => mkSinkSpec None None (Some s) None None
  | VKafkaSink k => mkSinkSpec None None None (Some k) None
  | VStdout s => mkSinkSpec None None None None (Some s)
  end.

Inductive CodecView :=
| VJSON (c : JSONCodecSpec) | VCSV (c : CSVCodecSpec) | VNewline (c : NewlineCodecSpec)
| VParquet (c : ParquetCodecSpec) | VAvro (c : AvroCodecSpec).

Definition of_CodecView (v : option CodecView) : CodecSpec :=
  match v with
  | None => mkCodecSpec None None None None None
  | Some (VJSON c) => mkCodecSpec (Some c) None None None None
  | Some (VCSV c) => mkCodecSpec None (Some c) None None None
  | Some (VNewline c) => mkCodecSpec None None (Some c) None None
  | Some (VParquet c) => mkCodecSpec None None None (Some c) None
  | Some (VAvro c) => mkCodecSpec None None None None (Some c)
  end.

Record wf_definition (pd : PipelineDefinition) : Prop := {
  wfd_name : PD_Name pd ≠ "";
  wfd_source : exists v, PD_Source pd = of_SourceView v;
  wfd_has_sink : PD_Sink pd ≠ [];
  wfd_codec : forall s3 c, Src_S3 (PD_Source pd) = Some s3 -> S3Src_Codec s3 = Some c ->
                exists v, c = of_CodecView v;
  wfd_sinks : forall s, s ∈ PD_Sink pd -> exists v, s = of_SinkView v }.

Definition image_available (reader : DefaultsReader) (p : DataPrepperPipeline) : Prop :=
  Spec_Image (P_Spec p) ≠ "" \/
  exists get d, reader = Some get /\ Meta_Namespace (P_Meta p) ≠ "" /\
    get (Meta_Namespace (P_Meta p)) "default" = Ok d /\ Def_Image (Defaults_Spec d) ≠ "".

Definition scaling_consistent (scaling : option ScalingSpec) : Prop :=
  forall s, scaling = Some s ->
    (Scaling_Mode s = ScalingModeManual ->
       forall f, Scaling_FixedReplicas s = Some f -> 1 <= f) /\
    (forall mx mn, Scaling_MaxReplicas s = Some mx -> Scaling_MinReplicas s = Some mn -> mn <= mx).

Record admissible (reader : DefaultsReader) (p : DataPrepperPipeline) : Prop := {
  adm_name : len (Meta_Name (P_Meta p)) <= 244;
  adm_image : image_available reader p;
  adm_pipelines : Spec_Pipelines (P_Spec p) ≠ [];
  adm_definitions : Forall wf_definition (Spec_Pipelines (P_Spec p));
  adm_graph : valid_graph (graphDefs (Spec_Pipelines (P_Spec p)));
  adm_scaling : scaling_consistent (Spec_Scaling (P_Spec p)) }.

(** ** Lemmas on the individual checks *)

Lemma countSourceTypes_one s : countSourceTypes s = 1 <-> exists v, s = of_SourceView v.
Proof.
  split; [|by intros [[] ->]].
  destruct s as [[k|] [h|] [o|] [s|] [p|]]; unfold countSourceTypes; simpl; intros; try lia;
    [exists (VKafka k)|exists (VHTTP h)|exists (VOTel o)|exists (VS3 s)|exists (VPipeline p)]; done.
Qed.

Lemma countSinkTypes_one s : countSinkTypes s = 1 <-> exists v, s = of_SinkView v.
Proof.
  split; [|by intros [[] ->]].
  destruct s as [[o|] [p|] [s|] [k|] [t|]]; unfold countSinkTypes; simpl; intros; try lia;
    [exists (VOpenSearch o)|exists (VPipelineSink p)|exists (VS3Sink s)|exists (VKafkaSink k)
    |exists (VStdout t)]; done.
Qed.

Lemma countCodecTypes_le_one c : countCodecTypes c <= 1 <-> exists v, c = of_CodecView v.
Proof.
  split; [|by intros [[[]|] ->]].
  destruct c as [[j|] [v|] [n|] [p|] [a|]]; unfold countCodecTypes; simpl; intros; try lia;
    [exists (Some (VJSON j))|exists (Some (VCSV v))|exists (Some (VNewline n))
    |exists (Some (VParquet p))|exists (Some (VAvro a))|exists None]; done.
Qed.

Lemma validateImage_Ok reader p : validateImage reader p = Ok tt <-> image_available reader p.
Proof.
  unfold validateImage, image_available.
  destruct (nonempty (Spec_Image (P_Spec p))) eqn:Hi; [apply nonempty_true in Hi; split; by eauto|].
  apply nonempty_false in Hi. split.
  - destruct reader as [get|]; [|done].
    destruct (nonempty (Meta_Namespace (P_Meta p))) eqn:Hn; [|done].
    destruct (get _ "default") as [d|e] eqn:Hg; [|done].
    destruct (nonempty (Def_Image (Defaults_Spec d))) eqn:Hd; [|done].
    apply nonempty_true in Hn, Hd. eauto 8.
  - intros [?|(get & d & -> & Hn & -> & Hd)]; [done|].
    apply nonempty_true in Hn, Hd. by rewrite Hn, Hd.
Qed.

Lemma validateCodec_Ok pd :
  validateCodec pd = Ok tt <->
  forall s3 c, Src_S3 (PD_Source pd) = Some s3 -> S3Src_Codec s3 = Some c ->
    exists v, c = of_CodecView v.
Proof.
  unfold validateCodec. destruct (Src_S3 (PD_Source pd)) as [s3|]; simpl; [|naive_solver].
  destruct (S3Src_Codec s3) as [c|] eqn:Hc; [|naive_solver].
  destruct (Z.ltb_spec 1 (countCodecTypes c)) as [Hlt|Hle].
  - split; [done|]. intros H. destruct (H s3 c eq_refl Hc) as [v Hv].
    assert (countCodecTypes c <= 1) by (apply countCodecTypes_le_one; eauto). lia.
  - split; [|done]. intros _ ? ? [= <-] ?. simplify_eq. by apply countCodecTypes_le_one.
Qed.

Lemma validateSinks_Ok name j sinks :
  validateSinks name j sinks = Ok tt <-> forall s, s ∈ sinks -> exists v, s = of_SinkView v.
Proof.
  revert j. induction sinks as [|s sinks IH]; intros j; simpl; [set_solver|].
  setoid_rewrite elem_of_cons. destruct (Z.eqb_spec (countSinkTypes s) 1) as [H|H].
  - rewrite IH. apply countSinkTypes_one in H. naive_solver.
  - split; [done|]. intros Hs. destruct H. apply countSinkTypes_one. eauto.
Qed.

Lemma validateDefinition_Ok i names pd names' :
  validateDefinition i names pd = Ok names' <->
  wf_definition pd /\ PD_Name pd ∉ names /\ names' = {[PD_Name pd]} ∪ names.
Proof.
  unfold validateDefinition. destruct (nonempty (PD_Name pd)) eqn:Hn; simpl;
    [apply nonempty_true in Hn|apply nonempty_false in Hn; split; [done|by intros [[] _]]].
  case_bool_decide as Hin; [naive_solver|].
  unfold validateSourceUnion.
  destruct (Z.eqb_spec (countSourceTypes (PD_Source pd)) 1) as [Hs|Hs]; simpl.
  2:{ split; [done|]. intros [[_ Hsrc _ _ _] _]. destruct Hs. by apply countSourceTypes_one. }
  apply countSourceTypes_one in Hs.
  destruct (PD_Sink pd) as [|s0 rest] eqn:Hsink; [split; [done|by intros [[] _]]|].
  destruct (validateCodec pd) as [[]|e] eqn:Hc; simpl.
  2:{ split; [done|]. intros [[_ _ _ Hc' _] _]. rewrite <-validateCodec_Ok in Hc'. congruence. }
  rewrite validateCodec_Ok in Hc.
  change (if countSinkTypes s0 =? 1 then validateSinks (PD_Name pd) (0 + 1) rest else _)
    with (validateSinks (PD_Name pd) 0 (s0 :: rest)). rewrite <-Hsink.
  destruct (validateSinks (PD_Name pd) 0 (PD_Sink pd)) as [[]|e] eqn:Hv; simpl.
  2:{ split; [done|]. intros [[_ _ _ _ Hv'] _].
      rewrite <-(validateSinks_Ok (PD_Name pd) 0) in Hv'. congruence. }
  rewrite validateSinks_Ok in Hv. split.
  - intros [= <-]. split; [|done]. constructor; [done..|congruence|done|done].
  - by intros (_ & _ & ->).
Qed.

Lemma validateDefinitions_from_Ok i names l :
  validateDefinitions_from i names l = Ok tt <->
  Forall wf_definition l /\ NoDup (PD_Name <$> l) /\ (forall n, n ∈ PD_Name <$> l -> n ∉ names).
Proof.
  revert i names. induction l as [|pd l IH]; intros i names; simpl.
  { split; [|done]. intros _. split; [done|]. split; [constructor|set_solver]. }
  rewrite Forall_cons, NoDup_cons.
  destruct (validateDefinition i names pd) as [names'|e] eqn:Hd; simpl.
  - apply validateDefinition_Ok in Hd as (Hwf & Hin & ->). rewrite IH. set_solver.
  - split; [done|]. intros ([Hwf _] & _ & Hn).
    assert (validateDefinition i names pd = Ok ({[PD_Name pd]} ∪ names)); [|congruence].
    apply validateDefinition_Ok. set_solver.
Qed.

Lemma validateScaling_Ok scaling : validateScaling scaling = Ok tt <-> scaling_consistent scaling.
Proof.
  unfold validateScaling, scaling_consistent. destruct scaling as [[mode mx mn fx]|];
    [|by split]; simpl.
  assert (forall (P Q : Prop) (b1 b2 : bool) e1 e2,
    (b1 = false <-> P) -> (b2 = false <-> Q) ->
    (if b1 then Err e1 else if b2 then Err e2 else Ok tt) = Ok tt <-> P /\ Q) as Hif.
  { intros P Q [] [] e1 e2 HP HQ; rewrite <-HP, <-HQ; split; by intuition. }
  rewrite Hif; [split; [by intros H s [= <-]|by intros H; apply (H _ eq_refl)]| |].
  - case_bool_decide as Hm; destruct fx as [f|]; simpl; [|by split..].
    rewrite Z.ltb_ge. split; [by intros ? ? ? [= <-]|intros H; by apply H].
  - destruct mx as [mx|], mn as [mn|]; [|by split..].
    rewrite Z.ltb_ge. split; [by intros ? ? ? [= <-] [= <-]|intros H; by apply H].
Qed.

(** The names of the graph nodes are the names of the definitions. *)
Lemma graphDefs_names pipelines : GP_Name <$> graphDefs pipelines = PD_Name <$> pipelines.
Proof. unfold graphDefs. rewrite <-list_fmap_compose. by apply list_fmap_ext. Qed.

(** ** Correctness of the admission check *)

Lemma validatePipeline_Ok reader p :
  validatePipeline reader p = Ok tt <-> admissible reader p.
Proof.
  unfold validatePipeline. destruct (Z.ltb_spec 244 (len (Meta_Name (P_Meta p)))) as [Hl|Hl].
  { split; [done|]. intros []. lia. }
  destruct (validateImage reader p) as [[]|e] eqn:Hi; simpl.
  2:{ split; [done|]. intros [_ Hi' _ _ _ _]. apply validateImage_Ok in Hi'. congruence. }
  apply validateImage_Ok in Hi.
  destruct (Spec_Pipelines (P_Spec p)) as [|pd0 rest] eqn:Hps; [split; [done|by intros []]|].
  rewrite <-Hps. set (ps := Spec_Pipelines (P_Spec p)) in *.
  assert (ps ≠ []) as Hne by congruence. clear pd0 rest Hps.
  destruct (validatePipelineDefinitions ps) as [[]|e] eqn:Hd; simpl.
  2:{ split; [done|]. intros [_ _ _ Hd' Hg _]. exfalso.
      assert (validatePipelineDefinitions ps = Ok tt); [|congruence].
      apply validateDefinitions_from_Ok. split; [done|]. split; [|set_solver].
      rewrite <-graphDefs_names. by apply vg_nodup. }
  apply validateDefinitions_from_Ok in Hd as (Hwf & Hnd & _).
  unfold validatePipelineGraph.
  destruct (ValidateGraph (graphDefs ps)) as [[]|e] eqn:Hg; simpl.
  2:{ split; [done|]. intros [_ _ _ _ Hg' _]. apply ValidateGraph_Ok in Hg'.
      unfold ps in *. congruence. }
  apply ValidateGraph_Ok in Hg. rewrite validateScaling_Ok.
  split; [by constructor|by intros []].
Qed.


(** The admission requests the API server may send, in any sequence. *)
Inductive Request :=
| Create (obj : DataPrepperPipeline)
| Update (oldObj newObj : DataPrepperPipeline)
| Delete (obj : DataPrepperPipeline).

Definition handle (reader : DefaultsReader) (m : ValidationMetrics) (r : Request)
    : result unit * ValidationMetrics :=
  match r with
  | Create obj => ValidateCreate reader obj m
  | Update oldObj newObj => ValidateUpdate reader oldObj newObj m
  | Delete obj => ValidateDelete obj m
  end.

Definition handle_all (reader : DefaultsReader) (m : ValidationMetrics) (rs : list Request)
    : ValidationMetrics := foldl (fun m r => snd (handle reader m r)) m rs.

(** The object a request asks to store, if any. *)
Definition stored (r : Request) : option DataPrepperPipeline :=
  match r with Create obj => Some obj | Update _ obj => Some obj | Delete _ => None end.

Definition admits (reader : DefaultsReader) (p : DataPrepperPipeline) : bool :=
  is_ok (validatePipeline reader p).

(** over any sequence of admission requests the two counters of
    [WebhookValidationTotal] count exactly the admitted and the refused create
    and update requests; deletions are always admitted and never counted. *)
Theorem handle_all_counts reader m rs :
  handle_all reader m rs =
  mkValidationMetrics
    (VM_accepted m + Z.of_nat (length (filter (admits reader) (omap stored rs))))
    (VM_rejected m + Z.of_nat (length (filter (fun p => negb (admits reader p)) (omap stored rs)))).
Proof.
  revert m. induction rs as [|r rs IH]; intros m.
  { destruct m. unfold handle_all. simpl. f_equal; lia. }
  change (handle_all reader m (r :: rs)) with (handle_all reader (snd (handle reader m r)) rs).
  rewrite IH.
  assert (forall p, snd (validatePipeline reader p, recordValidationMetric (validatePipeline reader p) m)
    = if admits reader p then mkValidationMetrics (VM_accepted m + 1) (VM_rejected m)
      else mkValidationMetrics (VM_accepted m) (VM_rejected m + 1)) as Hrec.
  { intros p. unfold admits. by destruct (validatePipeline reader p). }
  destruct r as [p|o p|p]; [| |done];
    simpl handle; unfold ValidateCreate, ValidateUpdate; rewrite Hrec;
    csimpl; rewrite !filter_cons; cbv beta; destruct (admits reader p); csimpl; f_equal; lia.
Qed.

Definition example_pipeline : DataPrepperPipeline :=
  mkDataPrepperPipeline
    (mkObjectMeta "logs" "prod" "uid-1" 1 None None None [] [])
    (mkDataPrepperPipelineSpec "data-prepper:2" ""
       [mkPipelineDefinition "entry" 0 0 (of_SourceView (VHTTP (mkHTTPSourceSpec 2021 "/log")))
          None [] [] [of_SinkView (VPipelineSink (mkPipelineConnectorSinkSpec "out"))];
        mkPipelineDefinition "out" 0 0
          (of_SourceView (VPipeline (mkPipelineConnectorSourceSpec "entry")))
          None [] [] [of_SinkView (VStdout mkStdoutSinkSpec)]]
       None None None None ∅ ∅ ∅ [] None None None "")
    zero_PipelineStatus.

(** The characterisation is not vacuous: a two-stage pipeline is admitted. *)
Example example_pipeline_admitted : validatePipeline None example_pipeline = Ok tt.
Proof. reflexivity. Qed.
