(* ===== verification/Scaler.v ===== *)
(** * Scaling arithmetic: [internal/scaler/scaler.go]

    [CalculateKafka] computes [ceil(partitions / replicas)] through [float64]:
    [int32(math.Ceil(float64(partitions)/float64(replicas)))].  The binary64
    quotient is modelled as IEEE 754 defines it, the real quotient rounded to 53
    significant bits, ties to even; the theorems show that for [int32] operands
    the detour through floating point is exact. *)

From S2P Require Import Prelude Go.
#[local] Open Scope Z_scope.

(** ** binary64 division of positive integers *)

(** [a / b] rounded to the nearest integer, ties to even. *)
Definition round_half_even (a b : Z) : Z :=
  let q := a / b in
  let r := a mod b in
  if 2 * r <? b then q
  else if b <? 2 * r then q + 1
  else if Z.even q then q else q + 1.

(** The scale [k] for which [p * 2^k / r] lies in [2^52, 2^53). *)
Definition quot_scale (p r : Z) : Z :=
  let k := 52 - (Z.log2 p - Z.log2 r) in
  if p * 2 ^ k <? r * 2 ^ 52 then k + 1 else k.

(** The binary64 quotient of two positive integers below [2^31] (no overflow,
    no subnormal): the pair [(m, k)] stands for [m * 2^-k]. *)
Definition fquot (p r : Z) : Z * Z :=
  let k := quot_scale p r in (round_half_even (p * 2 ^ k) r, k).

(** [math.Floor] and [math.Ceil] of such a number. *)
Definition ffloor (x : Z * Z) : Z := fst x / 2 ^ snd x.
Definition fceil (x : Z * Z) : Z := - (- fst x / 2 ^ snd x).

Section scaler.
(** [int32(+Inf)]: the Go specification leaves the result of converting a
    value that does not fit to the implementation. *)
Variable int32_of_inf : Z.

(** [int32(math.Ceil(float64(p) / float64(r)))] for [p > 0]. *)
Definition ceil_quot (p r : Z) : Z :=
  if 0 <? r then int32 (fceil (fquot p r))
  else if r <? 0 then int32 (- ffloor (fquot p (- r)))
  else int32_of_inf.

Record Result := mkResult { Replicas : Z; TopicWorkers : Z }.

Definition CalculateStatic (fixedReplicas : Z) : Result :=
  mkResult (if fixedReplicas <? 1 then 1 else fixedReplicas) 0.

Definition CalculateKafka (partitions maxReplicas minReplicas : Z) : result Result :=
  if partitions <=? 0
  then Err (Msg "invalid partition count: %d" [AInt partitions])
  else
    let replicas := Z.max (Z.min partitions maxReplicas) minReplicas in
    let workers := Z.max (ceil_quot partitions replicas) 1 in
    Ok (mkResult replicas workers).
End scaler.

(** ** The rounded quotient keeps the ceiling *)

Lemma round_half_even_bounds a b :
  0 < b -> 2 * a - b <= 2 * (round_half_even a b * b) <= 2 * a + b.
Proof.
  intros Hb. unfold round_half_even. pose proof (Z.div_mod a b). pose proof (Z.mod_pos_bound a b Hb).
  destruct (Z.ltb_spec (2 * (a mod b)) b); [nia|].
  destruct (Z.ltb_spec b (2 * (a mod b))); [nia|]. destruct (Z.even _); nia.
Qed.

(** Rounding to an integer never crosses an integer. *)
Lemma round_half_even_le a b n : 0 < b -> a <= n * b -> round_half_even a b <= n.
Proof.
  intros Hb Hn. pose proof (Z.div_mod a b). pose proof (Z.mod_pos_bound a b Hb).
  unfold round_half_even.
  destruct (Z.ltb_spec (2 * (a mod b)) b); [nia|].
  assert (a / b < n) by nia.
  destruct (Z.ltb_spec b (2 * (a mod b))); [lia|]. destruct (Z.even _); lia.
Qed.

Lemma quot_scale_spec p r :
  0 < p < 2 ^ 31 -> 0 < r < 2 ^ 31 ->
  0 <= quot_scale p r /\ r * 2 ^ 52 <= p * 2 ^ quot_scale p r.
Proof.
  intros Hp Hr. unfold quot_scale.
  pose proof (Z.log2_spec p) as Hlp. pose proof (Z.log2_spec r) as Hlr.
  assert (0 <= Z.log2 p <= 30) as Hp30.
  { split; [apply Z.log2_nonneg|]. apply Z.lt_succ_r, Z.log2_lt_pow2; lia. }
  pose proof (Z.log2_nonneg r) as Hr0. set (k := 52 - (Z.log2 p - Z.log2 r)).
  assert (0 <= k) by lia.
  destruct (Z.ltb_spec (p * 2 ^ k) (r * 2 ^ 52)); [|lia]. split; [lia|].
  assert (2 ^ (k + 1) * 2 ^ Z.log2 p = 2 ^ (Z.succ (Z.log2 r)) * 2 ^ 52) as Hpow.
  { rewrite <-!Z.pow_add_r by lia. f_equal. lia. }
  assert (0 < 2 ^ (k + 1)) by (apply Z.pow_pos_nonneg; lia). nia.
Qed.

Lemma ceil_quot_ceiling inf p r :
  0 < p < 2 ^ 31 -> 0 < r < 2 ^ 31 -> ceil_quot inf p r = (p + r - 1) / r.
Proof.
  intros Hp Hr. unfold ceil_quot. rewrite (proj2 (Z.ltb_lt 0 r)) by lia.
  unfold fceil, fquot. simpl fst. simpl snd.
  destruct (quot_scale_spec p r Hp Hr) as [Hk Hscale]. set (k := quot_scale p r) in *.
  assert (0 < 2 ^ k) as Hpk by (apply Z.pow_pos_nonneg; lia).
  set (m := round_half_even (p * 2 ^ k) r). set (w := (p + r - 1) / r).
  assert (w * r < p + r /\ p <= w * r) as [Hw1 Hw2].
  { pose proof (Z.div_mod (p + r - 1) r). pose proof (Z.mod_pos_bound (p + r - 1) r).
    unfold w. nia. }
  assert (m <= w * 2 ^ k) as Hm1 by (apply round_half_even_le; nia).
  assert ((w - 1) * 2 ^ k < m) as Hm2.
  { pose proof (round_half_even_bounds (p * 2 ^ k) r) as Hb. fold m in Hb.
    assert (r < 2 * 2 ^ k) as Hbig by nia.
    assert (1 <= p - (w - 1) * r) by nia.
    assert (2 ^ k <= (p - (w - 1) * r) * 2 ^ k) by nia. nia. }
  assert (- m / 2 ^ k = - w) as ->.
  { symmetry. apply (Z.div_unique _ _ _ (w * 2 ^ k - m)); nia. }
  rewrite Z.opp_involutive. apply int32_id. unfold in_int32. nia.
Qed.

(** The floating-point ceiling of the code is the exact integer ceiling:
    for all positive [int32] operands,
    [int32(math.Ceil(float64(p)/float64(r)))] is the least integer [w] with
    [p <= w * r], i.e. [(p + r - 1) / r]. *)
Theorem ceil_quot_exact inf p r :
  0 < p < 2 ^ 31 -> 0 < r < 2 ^ 31 -> ceil_quot inf p r = (p + r - 1) / r.
Proof. apply ceil_quot_ceiling. Qed.

Lemma ceil_quot_exact_witness : ceil_quot 0 2147483647 3 = 715827883.
Proof.
  rewrite (ceil_quot_exact 0 2147483647 3) by lia. reflexivity.
Defined.

(** The quotient 1/3 is the binary64 number 0x3FD5555555555555. *)
Example fquot_third : fquot 1 3 = (6004799503160661, 54).
Proof. reflexivity. Qed.

(** ** The scaling plans *)

(** What a scaling plan for a topic promises. *)
Record kafka_plan (partitions maxReplicas minReplicas : Z) (res : Result) : Prop := {
  plan_bounds : minReplicas <= Replicas res <= maxReplicas;
  plan_no_idle : Replicas res <= Z.max partitions minReplicas;
  plan_workers : 1 <= TopicWorkers res;
  plan_serves : partitions <= TopicWorkers res * Replicas res;
  plan_least : (TopicWorkers res - 1) * Replicas res < partitions }.

Lemma CalculateKafka_sound inf partitions maxReplicas minReplicas :
  0 < partitions < 2 ^ 31 -> 1 <= minReplicas <= maxReplicas -> maxReplicas < 2 ^ 31 ->
  exists res, CalculateKafka inf partitions maxReplicas minReplicas = Ok res /\
    kafka_plan partitions maxReplicas minReplicas res.
Proof.
  intros Hp Hb Hmx. unfold CalculateKafka. rewrite (proj2 (Z.leb_gt _ _)) by lia.
  eexists. split; [done|]. set (r := Z.max _ minReplicas).
  rewrite ceil_quot_ceiling by lia. set (w := (partitions + r - 1) / r).
  assert (1 <= w /\ w * r < partitions + r /\ partitions <= w * r) as (? & ? & ?).
  { pose proof (Z.div_mod (partitions + r - 1) r).
    pose proof (Z.mod_pos_bound (partitions + r - 1) r). unfold w. nia. }
  rewrite Z.max_l by lia. constructor; simpl; nia.
Qed.

(** C5: with sane bounds [1 <= min <= max] the Kafka plan stays within the
    bounds, serves every partition ([replicas * workers >= partitions]) with the
    least number of consumer threads per replica that does so, and starts no
    more replicas than partitions unless [minReplicas] asks for more. *)
Theorem CalculateKafka_plan inf partitions maxReplicas minReplicas :
  0 < partitions < 2 ^ 31 -> 1 <= minReplicas <= maxReplicas -> maxReplicas < 2 ^ 31 ->
  exists res, CalculateKafka inf partitions maxReplicas minReplicas = Ok res /\
    kafka_plan partitions maxReplicas minReplicas res.
Proof. apply CalculateKafka_sound. Qed.

Lemma CalculateKafka_plan_witness :
  exists res, CalculateKafka 0 12 5 1 = Ok res /\ kafka_plan 12 5 1 res.
Proof. apply (CalculateKafka_plan 0 12 5 1); lia. Defined.

Lemma CalculateKafka_invalid inf partitions mx mn :
  partitions <= 0 <-> exists e, CalculateKafka inf partitions mx mn = Err e.
Proof.
  unfold CalculateKafka. destruct (Z.leb_spec partitions 0); [naive_solver|].
  split; [intros; lia|]. by intros [? ?].
Qed.

(** [TotalConsumers], an [int32] product, does not wrap when the partitions and
    the replicas together fit. *)
Lemma CalculateKafka_total inf partitions mx mn res :
  0 < partitions -> 1 <= mn <= mx -> partitions + mx <= 2 ^ 31 ->
  CalculateKafka inf partitions mx mn = Ok res ->
  int32 (Replicas res * TopicWorkers res) = Replicas res * TopicWorkers res.
Proof.
  intros Hp Hb Hs H.
  destruct (CalculateKafka_sound inf partitions mx mn) as (res' & H' & [Hr _ Hw _ Hlt]);
    [lia..|]. assert (res' = res) as -> by congruence.
  apply int32_id. unfold in_int32. nia.
Qed.

Lemma CalculateStatic_pos fixed : 1 <= Replicas (CalculateStatic fixed).
Proof. unfold CalculateStatic. simpl. destruct (Z.ltb_spec fixed 1); lia. Qed.
