(* ===== verification/PeerForwarder.v ===== *)
(** * Peer forwarder detection: [internal/peerforwarder/detector.go] *)

From S2P Require Import Prelude Go.
#[local] Open Scope Z_scope.

Definition PeerForwarderPort : Z := 4994.
Definition DiscoveryModeDNS : string := "dns".

Definition statefulProcessors : gset string :=
  {["aggregate"; "service_map"; "service_map_stateful"; "otel_traces"; "otel_trace_raw";
    "otel_traces_raw"]}.

(** The three nested loops: pipelines, processors, keys of a processor map.  The
    iteration order over the keys of a Go map is not specified; the loop only
    asks whether some key is stateful, so the order does not show. *)
Definition NeedsForwarding (processors : list (list anymap)) : bool :=
  existsb (existsb (fun proc : anymap =>
    existsb (fun name => bool_decide (name ∈ statefulProcessors)) (map_to_list proc).*1))
  processors.

Definition GenerateConfig (name namespace : string) : anymap :=
  {["peer_forwarder" := VMap
     {["discovery_mode" := VStr DiscoveryModeDNS;
       "domain_name" := VStr (name +:+ "-headless." +:+ namespace +:+ ".svc.cluster.local");
       "port" := VInt PeerForwarderPort]}]}.

Lemma existsb_elem_of {A} (f : A -> bool) l : existsb f l = true <-> exists x, x ∈ l /\ f x = true.
Proof. rewrite existsb_exists. by setoid_rewrite list_elem_of_In. Qed.

(** A processor uses peer forwarding when one of its keys is a stateful
    processor. *)
Definition stateful_processor (proc : anymap) : Prop :=
  exists name, is_Some (proc !! name) /\ name ∈ statefulProcessors.

Lemma NeedsForwarding_true processors :
  NeedsForwarding processors = true <->
  exists procs proc, procs ∈ processors /\ proc ∈ procs /\ stateful_processor proc.
Proof.
  unfold NeedsForwarding, stateful_processor. rewrite existsb_elem_of.
  setoid_rewrite existsb_elem_of. setoid_rewrite existsb_elem_of.
  setoid_rewrite bool_decide_eq_true. setoid_rewrite list_elem_of_fmap. split.
  - intros (procs & Hps & proc & Hp & name & ([k v] & -> & Hkv) & Hst).
    apply elem_of_map_to_list in Hkv. eauto 10.
  - intros (procs & proc & Hps & Hp & name & [v Hv] & Hst).
    exists procs. split; [done|]. exists proc. split; [done|]. exists name. split; [|done].
    exists (name, v). split; [done|]. by apply elem_of_map_to_list.
Qed.
