(* ===== verification/PipelineConfig.v ===== *)
(** * Generated Data Prepper configuration

    [internal/generator/pipeline_config.go] (the [pipelines.yaml] document) and
    [internal/generator/dp_config.go] (the [data-prepper-config.yaml] document).
    The documents are dynamic values ([any]).  The raw processors and the raw
    configuration are decoded by [Unmarshal] and [unmarshal_map] of [Json]. *)

From S2P Require Import Prelude Go Json Api PeerForwarder Graph Webhook.
#[local] Open Scope Z_scope.

(** ** Sources *)

(** The SASL block; the secret itself is referenced through environment
    variables and never copied into the document. *)
Definition sasl_plain : any :=
  VMap {["sasl" := VMap {["plain" := VMap
    {["username" := VStr "${KAFKA_USERNAME}"; "password" := VStr "${KAFKA_PASSWORD}"]}]}]}.

Definition is_some {A} (o : option A) : bool := if o then true else false.

Definition kafka_topic (kafka : KafkaSourceSpec) (topicWorkers : Z) : anymap :=
  set_if (0 <? topicWorkers) "workers" (VInt topicWorkers)
    {["name" := VStr (KSrc_Topic kafka); "group_id" := VStr (KSrc_GroupID kafka)]}.

Definition buildKafkaSource (kafka : KafkaSourceSpec) (topicWorkers : Z) : anymap :=
  let cfg : anymap :=
    {["bootstrap_servers" := VStrs (KSrc_BootstrapServers kafka);
      "topics" := VList [VMap (kafka_topic kafka topicWorkers)]]} in
  let cfg := set_if (is_some (KSrc_CredentialsSecretRef kafka)) "authentication" sasl_plain cfg in
  let cfg := set_if (nonempty (KSrc_EncryptionType kafka)) "encryption"
               (VMap {["type" := VStr (KSrc_EncryptionType kafka)]}) cfg in
  let cfg := set_if (bool_decide (KSrc_ConsumerConfig kafka ≠ ∅)) "consumer_config"
               (VStrMap (KSrc_ConsumerConfig kafka)) cfg in
  {["kafka" := VMap cfg]}.

Definition buildHTTPSource (http : HTTPSourceSpec) : anymap :=
  {["http" := VMap (set_if (nonempty (HTTP_Path http)) "path" (VStr (HTTP_Path http))
                     {["port" := VInt (HTTP_Port http)]})]}.

Definition otelSourceName (protocols : list string) : string :=
  match protocols with
  | p :: _ =>
    if bool_decide (p = "metrics") then "otel_metrics_source"
    else if bool_decide (p = "logs") then "otel_logs_source"
    else "otel_trace_source"
  | [] => "otel_trace_source"
  end.

Definition buildOTelSource (otel : OTelSourceSpec) : anymap :=
  {[otelSourceName (OTel_Protocols otel) := VMap {["port" := VInt (OTel_Port otel)]}]}.

Definition buildCodec (codec : CodecSpec) : anymap :=
  match codec with
  | mkCodecSpec (Some _) _ _ _ _ => {["json" := VMap ∅]}
  | mkCodecSpec None (Some csv) _ _ _ =>
    {["csv" := VMap (set_if (CSV_HeaderRow csv) "header" (VBool true)
                 (set_if (nonempty (CSV_Delimiter csv)) "delimiter" (VStr (CSV_Delimiter csv)) ∅))]}
  | mkCodecSpec None None (Some _) _ _ => {["newline" := VMap ∅]}
  | mkCodecSpec None None None (Some _) _ => {["parquet" := VMap ∅]}
  | mkCodecSpec None None None None (Some avro) =>
    {["avro" := VMap (set_if (nonempty (Avro_Schema avro)) "schema" (VStr (Avro_Schema avro)) ∅)]}
  | mkCodecSpec None None None None None => ∅
  end.

Definition buildS3Source (s3 : S3SourceSpec) : anymap :=
  let cfg : anymap := {["bucket" := VStr (S3Src_Bucket s3); "region" := VStr (S3Src_Region s3)]} in
  let cfg := set_if (nonempty (S3Src_Prefix s3)) "key_path_prefix" (VStr (S3Src_Prefix s3)) cfg in
  let has_queue := nonempty (S3Src_SQSQueueURL s3) in
  let cfg := set_if has_queue "notification_type" (VStr "sqs") cfg in
  let cfg := set_if has_queue "sqs" (VMap {["queue_url" := VStr (S3Src_SQSQueueURL s3)]}) cfg in
  let cfg := match S3Src_Codec s3 with
             | Some codec => <["codec" := VMap (buildCodec codec)]> cfg
             | None => cfg
             end in
  let cfg := set_if (nonempty (S3Src_Compression s3)) "compression"
               (VStr (S3Src_Compression s3)) cfg in
  {["s3" := VMap cfg]}.

Definition buildSource (spec : SourceSpec) (topicWorkers : Z) : result anymap :=
  match spec with
  | mkSourceSpec (Some kafka) _ _ _ _ => Ok (buildKafkaSource kafka topicWorkers)
  | mkSourceSpec None (Some http) _ _ _ => Ok (buildHTTPSource http)
  | mkSourceSpec None None (Some otel) _ _ => Ok (buildOTelSource otel)
  | mkSourceSpec None None None (Some s3) _ => Ok (buildS3Source s3)
  | mkSourceSpec None None None None (Some p) =>
    Ok {["pipeline" := VMap {["name" := VStr (PSrc_Name p)]}]}
  | mkSourceSpec None None None None None => Err (Msg "no source specified" [])
  end.

(** ** Buffers *)

(** [None] is the nil map. *)
Definition buildBuffer (buffer : BufferSpec) : option anymap :=
  match Buf_BoundedBlocking buffer with
  | Some bb =>
    let cfg := set_if (0 <? BB_BufferSize bb) "buffer_size" (VInt (BB_BufferSize bb)) ∅ in
    let cfg := set_if (0 <? BB_BatchSize bb) "batch_size" (VInt (BB_BatchSize bb)) cfg in
    Some {["bounded_blocking" := VMap cfg]}
  | None => None
  end.

(** ** Sinks *)

Definition buildOpenSearchSink (os : OpenSearchSinkSpec) : anymap :=
  let cfg : anymap := {["hosts" := VStrs (OS_Hosts os)]} in
  let cfg := set_if (nonempty (OS_Index os)) "index" (VStr (OS_Index os)) cfg in
  let cfg := set_if (nonempty (OS_IndexType os)) "index_type" (VStr (OS_IndexType os)) cfg in
  let has_credentials := is_some (OS_CredentialsSecretRef os) in
  let cfg := set_if has_credentials "username" (VStr "${OPENSEARCH_USERNAME}") cfg in
  let cfg := set_if has_credentials "password" (VStr "${OPENSEARCH_PASSWORD}") cfg in
  let cfg := set_if (bool_decide (OS_Routes os ≠ [])) "routes" (VStrs (OS_Routes os)) cfg in
  {["opensearch" := VMap cfg]}.

Definition buildS3Sink (s3 : S3SinkSpec) : anymap :=
  let cfg : anymap := {["bucket" := VStr (S3Sink_Bucket s3); "region" := VStr (S3Sink_Region s3)]} in
  let cfg := set_if (nonempty (S3Sink_KeyPathPrefix s3)) "key_path_prefix"
               (VStr (S3Sink_KeyPathPrefix s3)) cfg in
  let cfg := set_if (nonempty (S3Sink_Codec s3)) "codec" (VStr (S3Sink_Codec s3)) cfg in
  let cfg := set_if (nonempty (S3Sink_Compression s3)) "compression"
               (VStr (S3Sink_Compression s3)) cfg in
  let cfg := <["aws" := VMap {["region" := VStr (S3Sink_Region s3)]}]> cfg in
  {["s3" := VMap cfg]}.

Definition buildKafkaSink (kafka : KafkaSinkSpec) : anymap :=
  let cfg : anymap := {["bootstrap_servers" := VStrs (KSink_BootstrapServers kafka);
               "topic" := VStr (KSink_Topic kafka)]} in
  let cfg := set_if (nonempty (KSink_SerdeFormat kafka)) "serde_format"
               (VStr (KSink_SerdeFormat kafka)) cfg in
  let cfg := set_if (is_some (KSink_CredentialsSecretRef kafka)) "authentication" sasl_plain cfg in
  {["kafka" := VMap cfg]}.

Definition buildSink (s : SinkSpec) : result any :=
  match s with
  | mkSinkSpec (Some os) _ _ _ _ => Ok (VMap (buildOpenSearchSink os))
  | mkSinkSpec None (Some p) _ _ _ =>
    Ok (VMap {["pipeline" := VMap {["name" := VStr (PSink_Name p)]}]})
  | mkSinkSpec None None (Some s3) _ _ => Ok (VMap (buildS3Sink s3))
  | mkSinkSpec None None None (Some kafka) _ => Ok (VMap (buildKafkaSink kafka))
  | mkSinkSpec None None None None (Some _) => Ok (VMap {["stdout" := VMap ∅]})
  | mkSinkSpec None None None None None => Err (Msg "no sink type specified" [])
  end.

Definition buildSinks (sinks : list SinkSpec) : result (list any) := map_res buildSink sinks.

(** ** Processors *)

Definition buildProcessor (proc : JSON) : result any :=
  wrap_err "unmarshal processor: %w" [] (Unmarshal (JSON_Raw proc)).

Definition buildProcessors (processors : list JSON) : result (list any) :=
  map_res buildProcessor processors.

(** ** One pipeline and the whole document *)

Definition mergeRoutes (routes : list (gmap string string)) : gmap string string :=
  foldl maps_Copy ∅ routes.

Definition pipelineWorkers (p : PipelineDefinition) (topicWorkers : Z) : option Z :=
  if 0 <? PD_Workers p then Some (PD_Workers p)
  else if is_some (Src_Kafka (PD_Source p)) && (0 <? topicWorkers) then Some topicWorkers
  else None.

(** The body of the loop over the definitions: the map [pc]. *)
Definition pipelineEntry (p : PipelineDefinition) (topicWorkers : Z) : result anymap :=
  let pc : anymap :=
    match pipelineWorkers p topicWorkers with
    | Some w => {["workers" := VInt w]}
    | None => ∅
    end in
  let pc := set_if (0 <? PD_Delay p) "delay" (VInt (PD_Delay p)) pc in
  source ← wrap_err "pipeline %q source: %w" [AStr (PD_Name p)]
             (buildSource (PD_Source p) topicWorkers);
  let pc := <["source" := VMap source]> pc in
  let pc := match PD_Buffer p ≫= buildBuffer with
            | Some buf => <["buffer" := VMap buf]> pc
            | None => pc
            end in
  pc ← (if bool_decide (PD_Processors p ≠ []) then
          procs ← wrap_err "pipeline %q processors: %w" [AStr (PD_Name p)]
                    (buildProcessors (PD_Processors p));
          Ok (<["processor" := VList procs]> pc)
        else Ok pc);
  let pc := set_if (bool_decide (PD_Routes p ≠ [])) "route"
              (VStrMap (mergeRoutes (PD_Routes p))) pc in
  sinks ← wrap_err "pipeline %q sinks: %w" [AStr (PD_Name p)] (buildSinks (PD_Sink p));
  Ok (<["sink" := VList sinks]> pc).

Definition addPipeline (topicWorkers : Z) (config : anymap) (p : PipelineDefinition)
    : result anymap :=
  pc ← pipelineEntry p topicWorkers; Ok (<[PD_Name p := VMap pc]> config).

Definition GeneratePipelineConfig (pipelines : list PipelineDefinition) (topicWorkers : Z)
    : result anymap :=
  fold_res (addPipeline topicWorkers) ∅ pipelines.

(** ** [data-prepper-config.yaml] *)

Definition GenerateDPConfig (spec : DataPrepperPipelineSpec) (needsPeerForwarder : bool)
    (name namespace : string) : result anymap :=
  let config : anymap := {["ssl" := VBool false]} in
  config ←
    match Spec_DataPrepperConfig spec with
    | None => Ok config
    | Some dpc =>
      let config :=
        match DPC_CircuitBreakers dpc ≫= CB_Heap with
        | Some heap =>
          <["circuit_breakers" := VMap {["heap" := VMap {["usage" := VStr (Heap_Usage heap)]}]}]>
            config
        | None => config
        end in
      match DPC_Raw dpc with
      | None => Ok config
      | Some raw =>
        m ← wrap_err "unmarshal raw data-prepper config: %w" [] (unmarshal_map (JSON_Raw raw));
        Ok (maps_Copy config m)
      end
    end;
  Ok (if needsPeerForwarder then maps_Copy config (GenerateConfig name namespace) else config).

(** ** Processor maps for peer-forwarder detection ([generator/helpers.go]) *)

Definition jsonToMap (j : JSON) : result anymap :=
  wrap_err "unmarshal JSON: %w" [] (unmarshal_map (JSON_Raw j)).

Definition ExtractProcessorMaps (pipelines : list PipelineDefinition)
    : result (list (list anymap)) :=
  map_res (fun p =>
    map_res (fun proc => wrap_err "pipeline %q processor: %w" [AStr (PD_Name p)] (jsonToMap proc))
      (PD_Processors p)) pipelines.
(** ** Lemmas *)

(** Evaluate lookups of literal keys in maps built with [insert] and [set_if]. *)
Ltac lookup_keys :=
  repeat first
    [ rewrite lookup_insert_eq
    | rewrite lookup_insert_ne by discriminate
    | rewrite lookup_set_if, (bool_decide_eq_true_2 (_ = _)) by reflexivity
    | rewrite lookup_set_if, (bool_decide_eq_false_2 (_ = _)) by discriminate
    | rewrite andb_false_r | rewrite andb_true_r ].

Section config_lemmas.
Implicit Types (p : PipelineDefinition) (config pc : anymap).

Lemma buildSource_Ok spec tw :
  (exists m, buildSource spec tw = Ok m) <-> spec ≠ zero_SourceSpec.
Proof.
  destruct spec as [[?|] [?|] [?|] [?|] [?|]]; simpl; split; (naive_solver || eauto);
    by intros [? ?].
Qed.

Lemma buildSink_of_view v : exists a, buildSink (of_SinkView v) = Ok a.
Proof. destruct v; simpl; eauto. Qed.

Lemma map_res_ok_iff {A B} (f : A -> result B) l :
  (forall a, a ∈ l -> exists b, f a = Ok b) <-> exists bs, map_res f l = Ok bs.
Proof.
  split.
  - apply map_res_total.
  - intros [bs Hbs] a Ha. apply map_res_Ok in Hbs.
    apply list_elem_of_lookup in Ha as [i Hi].
    destruct (Forall2_lookup_l _ _ _ _ _ Hbs Hi) as (b & _ & Hb). eauto.
Qed.

(** The entry of a pipeline, once its parts are known. *)
Lemma pipelineEntry_Ok p tw pc :
  pipelineEntry p tw = Ok pc ->
  exists source sinks procs,
    buildSource (PD_Source p) tw = Ok source /\ buildSinks (PD_Sink p) = Ok sinks /\
    buildProcessors (PD_Processors p) = Ok procs /\
    pc !! "source" = Some (VMap source) /\ pc !! "sink" = Some (VList sinks) /\
    pc !! "processor" = (if decide (procs = []) then None else Some (VList procs)) /\
    pc !! "workers" = VInt <$> pipelineWorkers p tw /\
    pc !! "delay" = (if 0 <? PD_Delay p then Some (VInt (PD_Delay p)) else None) /\
    pc !! "buffer" = VMap <$> (PD_Buffer p ≫= buildBuffer) /\
    pc !! "route" = (if bool_decide (PD_Routes p ≠ [])
                     then Some (VStrMap (mergeRoutes (PD_Routes p))) else None).
Proof.
  unfold pipelineEntry. destruct (buildSource (PD_Source p) tw) as [source|]; simpl; [|done].
  assert (Hprocs : forall procs, buildProcessors (PD_Processors p) = Ok procs ->
                     procs = [] <-> PD_Processors p = []).
  { intros procs Hb%map_res_Ok%Forall2_length. rewrite <-!length_zero_iff_nil. lia. }
  destruct (buildSinks (PD_Sink p)) as [sinks|]; simpl.
  2:{ case_bool_decide; simpl; [destruct (buildProcessors _); simpl|]; by intros. }
  intros H. destruct (bool_decide (PD_Processors p ≠ [])) eqn:Hne.
  - apply bool_decide_eq_true in Hne. destruct (buildProcessors (PD_Processors p)) as [procs|] eqn:Eb; simpl in H; [|done].
    exists source, sinks, procs. do 3 (split; [done|]).
    rewrite (decide_False (P := procs = [])) by (by rewrite Hprocs).
    revert H. destruct (pipelineWorkers p tw), (PD_Buffer p ≫= buildBuffer), (0 <? PD_Delay p);
      intros [= <-]; repeat split; lookup_keys; by rewrite ?lookup_empty.
  - apply bool_decide_eq_false, dec_stable in Hne. exists source, sinks, []. rewrite Hne. do 3 (split; [done|]).
    revert H. destruct (pipelineWorkers p tw), (PD_Buffer p ≫= buildBuffer), (0 <? PD_Delay p);
      intros [= <-]; repeat split; lookup_keys; by rewrite ?lookup_empty.
Qed.

Lemma pipelineEntry_total p tw :
  (exists pc, pipelineEntry p tw = Ok pc) <->
  PD_Source p ≠ zero_SourceSpec /\
  (forall j, j ∈ PD_Processors p -> json (JSON_Raw j)) /\
  (forall s, s ∈ PD_Sink p -> exists a, buildSink s = Ok a).
Proof.
  rewrite <-(buildSource_Ok _ tw), (map_res_ok_iff buildSink). unfold pipelineEntry, buildSinks.
  setoid_rewrite <-Unmarshal_total.
  assert ((forall j, j ∈ PD_Processors p -> exists v, Unmarshal (JSON_Raw j) = Ok v) <->
          exists vs, buildProcessors (PD_Processors p) = Ok vs) as ->.
  { unfold buildProcessors. rewrite <-map_res_ok_iff. unfold buildProcessor.
    by setoid_rewrite wrap_err_Ok. }
  destruct (buildSource (PD_Source p) tw) as [source|]; simpl;
    [|split; [by intros [? ?]|by intros [[? ?] _]]].
  destruct (buildProcessors (PD_Processors p)) as [procs|] eqn:Hp; simpl.
  - assert (forall pc0 : anymap, exists pc1 : anymap,
      (if bool_decide (PD_Processors p ≠ []) then Ok (<["processor" := VList procs]> pc0)
       else Ok pc0) = Ok pc1) as Hpc by (intros; case_bool_decide; eauto).
    edestruct Hpc as [pc1 ->]. simpl.
    destruct (map_res buildSink (PD_Sink p)) as [sinks|]; simpl; split; eauto 10;
      [by intros [? ?]|by intros (_ & _ & [? ?])].
  - destruct (decide (PD_Processors p = [])) as [Hnil|Hne]; [by rewrite Hnil in Hp|].
    rewrite (bool_decide_eq_true_2 (PD_Processors p ≠ [])) by done. simpl.
    split; [by intros [? ?]|by intros (_ & [? ?] & _)].
Qed.

Lemma GeneratePipelineConfig_acc ps tw config0 config :
  fold_res (addPipeline tw) config0 ps = Ok config ->
  NoDup (PD_Name <$> ps) ->
  (forall p, p ∈ ps -> exists pc, pipelineEntry p tw = Ok pc /\
                                 config !! PD_Name p = Some (VMap pc)) /\
  (forall n, n ∉ PD_Name <$> ps -> config !! n = config0 !! n).
Proof.
  revert config0. induction ps as [|p ps IH]; intros config0; csimpl.
  { intros [= <-] _. split; [set_solver|done]. }
  destruct (addPipeline tw config0 p) as [c|] eqn:Ha; simpl; [|done].
  unfold addPipeline in Ha. destruct (pipelineEntry p tw) as [pc|] eqn:Hpc;
    simplify_eq/=. intros H [Hn Hnd]%NoDup_cons. destruct (IH _ H Hnd) as [Hin Hout]. split.
  - intros q [->|Hq]%elem_of_cons; [|by apply Hin].
    exists pc. split; [done|]. rewrite Hout by done. apply lookup_insert_eq.
  - intros n Hnn. rewrite Hout by set_solver. apply lookup_insert_ne. set_solver.
Qed.

Lemma GeneratePipelineConfig_total ps tw :
  (exists config, GeneratePipelineConfig ps tw = Ok config) <->
  forall p, p ∈ ps -> exists pc, pipelineEntry p tw = Ok pc.
Proof.
  unfold GeneratePipelineConfig. generalize (∅ : anymap) as config0.
  induction ps as [|p ps IH]; intros config0; simpl; [set_solver|].
  setoid_rewrite elem_of_cons.
  destruct (addPipeline tw config0 p) as [c|e] eqn:Ha; simpl;
    unfold addPipeline in Ha; destruct (pipelineEntry p tw) as [pc|] eqn:Hpc;
    simplify_eq/=.
  - rewrite IH. split; [|by eauto]. intros H q [->|Hq]; eauto.
  - split; [by intros [? ?]|]. intros H. destruct (H p); [by left|congruence].
Qed.
End config_lemmas.

(** ** Properties of the generated documents *)

Definition decodable (p : PipelineDefinition) : Prop :=
  forall j, j ∈ PD_Processors p -> json (JSON_Raw j).

Lemma of_SourceView_nonzero v : of_SourceView v ≠ zero_SourceSpec.
Proof. by destruct v. Qed.

Lemma GeneratePipelineConfig_wf ps tw :
  Forall wf_definition ps ->
  ((exists config, GeneratePipelineConfig ps tw = Ok config) <->
   Forall decodable ps).
Proof.
  intros Hwf. rewrite GeneratePipelineConfig_total, Forall_forall. rewrite Forall_forall in Hwf.
  split; intros H p Hp; specialize (H p Hp); specialize (Hwf p Hp) as [_ [v Hv] _ _ Hs].
  - by apply pipelineEntry_total in H as (_ & H & _).
  - apply pipelineEntry_total. split; [rewrite Hv; apply of_SourceView_nonzero|].
    split; [done|]. intros s [w ->]%Hs. apply buildSink_of_view.
Qed.

(** Configuration generation never fails on what the webhook admits: for a
    list of well-formed definitions, [GeneratePipelineConfig] returns a document
    if and only if every processor is a JSON document of RFC 8259, nested at most
    10000 deep and with numbers in the range of [float64] (the only thing the
    webhook does not check). *)
Theorem GeneratePipelineConfig_succeeds ps tw :
  Forall wf_definition ps ->
  ((exists config, GeneratePipelineConfig ps tw = Ok config) <->
   Forall decodable ps).
Proof. apply GeneratePipelineConfig_wf. Qed.

Lemma GeneratePipelineConfig_succeeds_witness :
  exists config,
    GeneratePipelineConfig (Spec_Pipelines (P_Spec example_pipeline)) 0 = Ok config.
Proof.
  apply (GeneratePipelineConfig_succeeds
           (Spec_Pipelines (P_Spec example_pipeline)) 0).
  - apply (adm_definitions None example_pipeline), validatePipeline_Ok. reflexivity.
  - repeat constructor; intros j Hj; by apply elem_of_nil in Hj.
Defined.

(** C28: raw JSON is decoded as RFC 8259 defines it.  [buildProcessors] returns
    exactly the values that the texts of the processors denote in the grammar,
    whatever their white space and escapes, with the last of equal keys winning
    and numbers rounded to [float64]; [jsonToMap] returns exactly the objects, and
    the empty map for [null]; a text denotes at most one value.  Anything that is
    not a document of the grammar, or is nested deeper than 10000, is refused. *)
Theorem raw_json_decoded_exactly :
  (forall processors vs, buildProcessors processors = Ok vs <->
     Forall2 (fun j v => denotes (JSON_Raw j) v) processors vs) /\
  (forall j m, jsonToMap j = Ok m <->
     denotes (JSON_Raw j) (VMap m) \/ (denotes (JSON_Raw j) VNil /\ m = ∅)) /\
  (forall data v1 v2, denotes data v1 -> denotes data v2 -> v1 = v2).
Proof.
  split_and!.
  - intros processors vs. unfold buildProcessors. rewrite map_res_Ok.
    by split; intros H; (eapply Forall2_impl; [exact H|]); intros j v; unfold buildProcessor;
      rewrite wrap_err_Ok, Unmarshal_exact.
  - intros j m. unfold jsonToMap. by rewrite wrap_err_Ok, unmarshal_map_exact.
  - intros data v1 v2 H1%Unmarshal_exact H2%Unmarshal_exact. congruence.
Qed.

(** Later maps of routes override earlier ones. *)
Lemma mergeRoutes_lookup routes k : mergeRoutes routes !! k = last (omap (fun m => m !! k) routes).
Proof.
  unfold mergeRoutes. induction routes as [|m routes IH] using rev_ind; [apply lookup_empty|].
  rewrite foldl_app, omap_app. simpl. rewrite lookup_maps_Copy, IH.
  destruct (m !! k) as [v|]; simpl; [by rewrite last_snoc|by rewrite app_nil_r].
Qed.

(** [pc] is the entry for the definition [p]. *)
Record entry_of (tw : Z) (p : PipelineDefinition) (pc : anymap)
    : Prop := {
  entry_source : exists source,
    buildSource (PD_Source p) tw = Ok source /\ pc !! "source" = Some (VMap source);
  entry_sink : exists sinks, Forall2 (fun s v => buildSink s = Ok v) (PD_Sink p) sinks /\
    pc !! "sink" = Some (VList sinks);
  entry_processor : exists procs,
    Forall2 (fun j v => denotes (JSON_Raw j) v) (PD_Processors p) procs /\
    pc !! "processor" = (if decide (procs = []) then None else Some (VList procs));
  (** Explicit workers win, then those of the Kafka topic. *)
  entry_workers_own : 0 < PD_Workers p -> pc !! "workers" = Some (VInt (PD_Workers p));
  entry_workers_topic : PD_Workers p <= 0 -> is_Some (Src_Kafka (PD_Source p)) -> 0 < tw ->
    pc !! "workers" = Some (VInt tw);
  entry_workers_none : PD_Workers p <= 0 -> Src_Kafka (PD_Source p) = None \/ tw <= 0 ->
    pc !! "workers" = None;
  (** A bounded blocking buffer is written with its positive sizes, whether or
      not a size is given; no buffer is written otherwise. *)
  entry_buffer_none : PD_Buffer p ≫= Buf_BoundedBlocking = None -> pc !! "buffer" = None;
  entry_buffer : forall bb, PD_Buffer p ≫= Buf_BoundedBlocking = Some bb -> exists cfg,
    pc !! "buffer" = Some (VMap {["bounded_blocking" := VMap cfg]}) /\
    cfg !! "buffer_size" = (if decide (0 < BB_BufferSize bb) then Some (VInt (BB_BufferSize bb)) else None) /\
    cfg !! "batch_size" = (if decide (0 < BB_BatchSize bb) then Some (VInt (BB_BatchSize bb)) else None) /\
    dom cfg ⊆ {["buffer_size"; "batch_size"]};
  entry_delay : pc !! "delay" = (if decide (0 < PD_Delay p) then Some (VInt (PD_Delay p)) else None);
  (** The last definition of a route wins. *)
  entry_route : exists routes, (forall k, routes !! k = last (omap (fun m => m !! k) (PD_Routes p))) /\
    pc !! "route" = (if decide (PD_Routes p = []) then None else Some (VStrMap routes)) }.

Lemma pipelineWorkers_spec p tw :
  (0 < PD_Workers p -> pipelineWorkers p tw = Some (PD_Workers p)) /\
  (PD_Workers p <= 0 -> is_Some (Src_Kafka (PD_Source p)) -> 0 < tw -> pipelineWorkers p tw = Some tw) /\
  (PD_Workers p <= 0 -> Src_Kafka (PD_Source p) = None \/ tw <= 0 -> pipelineWorkers p tw = None).
Proof.
  unfold pipelineWorkers. split_and!.
  - intros H. by rewrite (proj2 (Z.ltb_lt _ _) H).
  - intros H1 [k ->] H3. rewrite (proj2 (Z.ltb_ge _ _)) by lia. by rewrite (proj2 (Z.ltb_lt _ _) H3).
  - intros H1 H2. rewrite (proj2 (Z.ltb_ge _ _)) by lia. destruct H2 as [->|H2]; [done|].
    rewrite (proj2 (Z.ltb_ge _ _)) by lia. by rewrite andb_false_r.
Qed.

(** Without a bounded blocking section there is no buffer to write. *)
Lemma buildBuffer_none b : b ≫= Buf_BoundedBlocking = None -> b ≫= buildBuffer = None.
Proof. destruct b as [[[bb|]]|]; naive_solver. Qed.

Lemma buildBuffer_some b bb : b ≫= Buf_BoundedBlocking = Some bb -> exists cfg,
  b ≫= buildBuffer = Some {["bounded_blocking" := VMap cfg]} /\
  cfg !! "buffer_size" = (if decide (0 < BB_BufferSize bb) then Some (VInt (BB_BufferSize bb)) else None) /\
  cfg !! "batch_size" = (if decide (0 < BB_BatchSize bb) then Some (VInt (BB_BatchSize bb)) else None) /\
  dom cfg ⊆ {["buffer_size"; "batch_size"]}.
Proof.
  destruct b as [[[bb'|]]|]; simpl; intros [= ->]. eexists. split; [reflexivity|].
  destruct (Z.ltb_spec 0 (BB_BufferSize bb)), (Z.ltb_spec 0 (BB_BatchSize bb));
    repeat case_decide; try lia; split_and!; unfold set_if; simplify_map_eq; set_solver.
Qed.

Lemma pipelineEntry_entry tw p pc :
  pipelineEntry p tw = Ok pc -> entry_of tw p pc.
Proof.
  intros (source & sinks & procs & Hs & Hk & Hp & Es & Ek & Ep & Ew & Ed & Eb & Er)%pipelineEntry_Ok.
  destruct (pipelineWorkers_spec p tw) as (W1 & W2 & W3).
  constructor.
  - by exists source.
  - exists sinks. split; [by apply map_res_Ok|done].
  - exists procs. split; [|done]. eapply Forall2_impl; [by apply map_res_Ok|].
    intros j v. unfold buildProcessor. by rewrite wrap_err_Ok, Unmarshal_exact.
  - intros H. by rewrite Ew, W1.
  - intros H1 H2 H3. by rewrite Ew, W2.
  - intros H1 H2. by rewrite Ew, W3.
  - intros H. by rewrite Eb, buildBuffer_none.
  - intros bb (cfg & E & H)%buildBuffer_some. exists cfg. by rewrite Eb, E.
  - rewrite Ed. destruct (decide (0 < PD_Delay p)) as [H|H].
    + by rewrite (proj2 (Z.ltb_lt _ _) H).
    + by rewrite (proj2 (Z.ltb_ge _ _)) by lia.
  - exists (mergeRoutes (PD_Routes p)). split; [apply mergeRoutes_lookup|].
    rewrite Er. destruct (decide (PD_Routes p = [])) as [->|H]; [done|].
    by rewrite bool_decide_eq_true_2.
Qed.

(** C10: the document has exactly one entry per pipeline definition, and the
    entry carries all parts of the definition: its source, each of its sinks and
    processors in order, its own [workers] if positive, otherwise the Kafka
    topic's workers for a Kafka source (so that no more consumer threads than
    pipeline workers run), otherwise none; its bounded blocking buffer with the
    positive sizes it gives and no other key, and no buffer when it has none;
    its delay when positive, and its routes, of which the last definition
    wins. *)
Theorem GeneratePipelineConfig_content ps tw config :
  NoDup (PD_Name <$> ps) -> GeneratePipelineConfig ps tw = Ok config ->
  dom config = list_to_set (PD_Name <$> ps) /\
  forall p, p ∈ ps -> exists pc, config !! PD_Name p = Some (VMap pc) /\ entry_of tw p pc.
Proof.
  intros Hnd H. destruct (GeneratePipelineConfig_acc _ _ _ _ H Hnd) as [Hin Hout].
  split.
  - apply set_eq. intros n. rewrite elem_of_dom, elem_of_list_to_set.
    destruct (decide (n ∈ PD_Name <$> ps)) as [Hn|Hn].
    + apply list_elem_of_fmap in Hn as Hn'. destruct Hn' as (p & -> & Hp).
      destruct (Hin p Hp) as (pc & _ & ->). split; eauto.
    + rewrite Hout, lookup_empty by done. split; [by intros [? ?]|done].
  - intros p Hp. destruct (Hin p Hp) as (pc & Hpc & Hl). exists pc.
    split; [done|]. by apply pipelineEntry_entry.
Qed.

Lemma GeneratePipelineConfig_content_witness :
  exists config,
    GeneratePipelineConfig (Spec_Pipelines (P_Spec example_pipeline)) 0 = Ok config /\
    dom config = {["entry"; "out"]}.
Proof.
  eexists. split; [reflexivity|].
  destruct (GeneratePipelineConfig_content
              (Spec_Pipelines (P_Spec example_pipeline)) 0
              (match GeneratePipelineConfig
                       (Spec_Pipelines (P_Spec example_pipeline)) 0 with
               | Ok c => c | Err _ => ∅ end)) as [Hdom _].
  - apply (bool_decide_unpack _). reflexivity.
  - reflexivity.
  - etransitivity; [exact Hdom|]. reflexivity.
Defined.

(** The pipelines a generated entry refers to: in its source, in its sinks. *)
Definition pipeline_ref (n : string) : any := VMap {["name" := VStr n]}.

Definition source_refers (pc : anymap) (n : string) : Prop :=
  exists m, pc !! "source" = Some (VMap m) /\ m !! "pipeline" = Some (pipeline_ref n).

Definition sink_refers (pc : anymap) (n : string) : Prop :=
  exists l m, pc !! "sink" = Some (VList l) /\ VMap m ∈ l /\ m !! "pipeline" = Some (pipeline_ref n).

Lemma pipeline_ref_inj n n' : pipeline_ref n = pipeline_ref n' -> n = n'.
Proof.
  intros H. apply (f_equal (fun v => match v with VMap m => m !! "name" | _ => None end)) in H.
  unfold pipeline_ref in H. rewrite !lookup_singleton_eq in H. congruence.
Qed.

Lemma otelSourceName_not_pipeline l : otelSourceName l ≠ "pipeline".
Proof. destruct l; simpl; [done|]. by repeat case_bool_decide. Qed.

Lemma buildSource_refers spec tw m n :
  buildSource spec tw = Ok m -> m !! "pipeline" = Some (pipeline_ref n) ->
  Src_Pipeline spec = Some (mkPipelineConnectorSourceSpec n).
Proof.
  intros Hb. destruct spec as [[k|] [h|] [o|] [s|] [p|]]; simplify_eq/=;
    unfold buildKafkaSource, buildHTTPSource, buildOTelSource, buildS3Source;
    rewrite ?lookup_singleton_ne by (done || apply otelSourceName_not_pipeline); try done.
  rewrite lookup_singleton_eq. intros H%(inj Some). destruct p as [pn].
  change (pipeline_ref pn = pipeline_ref n) in H. by apply pipeline_ref_inj in H as ->.
Qed.

Lemma buildSink_refers s m n :
  buildSink s = Ok (VMap m) -> m !! "pipeline" = Some (pipeline_ref n) ->
  Sink_Pipeline s = Some (mkPipelineConnectorSinkSpec n).
Proof.
  intros Hb. destruct s as [[o|] [p|] [s|] [k|] [t|]]; simplify_eq/=;
    unfold buildOpenSearchSink, buildS3Sink, buildKafkaSink;
    rewrite ?lookup_singleton_ne by done; try done;
    rewrite lookup_singleton_eq; intros H%(inj Some); destruct p as [pn];
    change (pipeline_ref pn = pipeline_ref n) in H; by apply pipeline_ref_inj in H as ->.
Qed.

(** C33: the generated document is closed under references: in the document made
    from a valid graph, every pipeline named by a sink entry has an entry of its
    own, and so has every pipeline named by a source entry unless that name is
    empty (the validator treats an empty source name as no reference). *)
Theorem GeneratePipelineConfig_closed ps tw config name pc n :
  valid_graph (graphDefs ps) -> GeneratePipelineConfig ps tw = Ok config ->
  config !! name = Some (VMap pc) ->
  (sink_refers pc n \/ source_refers pc n /\ n ≠ "") ->
  is_Some (config !! n).
Proof.
  intros [Hnd Hrefs _] H Hpc Href. rewrite graphDefs_names in Hnd.
  destruct (GeneratePipelineConfig_acc _ _ _ _ H Hnd) as [Hin Hout].
  assert (exists p, p ∈ ps /\ PD_Name p = name) as (p & Hp & <-).
  { destruct (decide (name ∈ PD_Name <$> ps)) as [Hn|Hn].
    - apply list_elem_of_fmap in Hn as (p & -> & Hp). eauto.
    - rewrite Hout, lookup_empty in Hpc by done. done. }
  destruct (Hin p Hp) as (pc' & Hentry & Hpc'). assert (pc' = pc) as -> by congruence.
  destruct (pipelineEntry_Ok _ _ _ Hentry) as (source & sinks & procs & Hs & Hk & _ & Hsrc & Hsink & _).
  assert (graphDef p ∈ graphDefs ps) as Hg by (by apply list_elem_of_fmap_2).
  destruct (Hrefs _ Hg) as [Hsrc_ok Hsink_ok]. rewrite graphDefs_names in *.
  assert (n ∈ PD_Name <$> ps) as Hn.
  { destruct Href as [(l & m & Hl & Hm & Hr)|[(m & Hm & Hr) Hne]].
    - rewrite Hsink in Hl. injection Hl as ->.
      apply map_res_Ok in Hk. apply list_elem_of_lookup in Hm as [i Hi].
      destruct (Forall2_lookup_r _ _ _ _ _ Hk Hi) as (s & Hs' & Hb).
      eapply buildSink_refers in Hb; [|done]. apply Hsink_ok. simpl.
      apply list_elem_of_omap. exists s. split; [by eapply list_elem_of_lookup_2|]. by rewrite Hb.
    - rewrite Hsrc in Hm. injection Hm as ->.
      eapply buildSource_refers in Hs; [|done]. simpl in Hsrc_ok. rewrite Hs in Hsrc_ok.
      simpl in Hsrc_ok. naive_solver. }
  apply list_elem_of_fmap in Hn as (q & -> & Hq).
  destruct (Hin q Hq) as (? & _ & ->). eauto.
Qed.

Lemma GeneratePipelineConfig_closed_witness :
  exists config pc,
    GeneratePipelineConfig (Spec_Pipelines (P_Spec example_pipeline)) 0 = Ok config /\
    config !! "entry" = Some (VMap pc) /\ sink_refers pc "out" /\ is_Some (config !! "out").
Proof.
  do 2 eexists. split; [reflexivity|]. split; [reflexivity|]. refine (let Hs := _ in conj Hs _).
  - eapply (GeneratePipelineConfig_closed
              (Spec_Pipelines (P_Spec example_pipeline)) 0 _ "entry" _ "out").
    + apply (adm_graph None example_pipeline), validatePipeline_Ok. reflexivity.
    + reflexivity.
    + reflexivity.
    + left. exact Hs.
  Unshelve. unfold sink_refers. do 2 eexists. split; [reflexivity|]. split; [by left|reflexivity].
Defined.

(** Forget which secret a credential refers to. *)
Definition scrub (o : option SecretReference) : option SecretReference :=
  (fun _ => mkSecretReference "" "") <$> o.

Definition scrub_source (s : SourceSpec) : SourceSpec :=
  mkSourceSpec
    ((fun k => mkKafkaSourceSpec (KSrc_BootstrapServers k) (KSrc_Topic k) (KSrc_GroupID k)
       (scrub (KSrc_CredentialsSecretRef k)) (KSrc_ConsumerConfig k) (KSrc_EncryptionType k))
     <$> Src_Kafka s)
    (Src_HTTP s) (Src_OTel s)
    ((fun s3 => mkS3SourceSpec (S3Src_Bucket s3) (S3Src_Prefix s3) (S3Src_Region s3)
       (S3Src_SQSQueueURL s3) (scrub (S3Src_CredentialsSecretRef s3)) (S3Src_Codec s3)
       (S3Src_Compression s3)) <$> Src_S3 s)
    (Src_Pipeline s).

Definition scrub_sink (s : SinkSpec) : SinkSpec :=
  mkSinkSpec
    ((fun o => mkOpenSearchSinkSpec (OS_Hosts o) (OS_Index o) (OS_IndexType o)
       (scrub (OS_CredentialsSecretRef o)) (scrub (OS_DLQSecretRef o)) (OS_Routes o))
     <$> Sink_OpenSearch s)
    (Sink_Pipeline s)
    ((fun s3 => mkS3SinkSpec (S3Sink_Bucket s3) (S3Sink_Region s3) (S3Sink_KeyPathPrefix s3)
       (S3Sink_Codec s3) (S3Sink_Compression s3) (scrub (S3Sink_CredentialsSecretRef s3)))
     <$> Sink_S3 s)
    ((fun k => mkKafkaSinkSpec (KSink_BootstrapServers k) (KSink_Topic k) (KSink_SerdeFormat k)
       (scrub (KSink_CredentialsSecretRef k))) <$> Sink_Kafka s)
    (Sink_Stdout s).

Definition scrub_definition (p : PipelineDefinition) : PipelineDefinition :=
  mkPipelineDefinition (PD_Name p) (PD_Workers p) (PD_Delay p) (scrub_source (PD_Source p))
    (PD_Buffer p) (PD_Processors p) (PD_Routes p) (scrub_sink <$> PD_Sink p).

Lemma is_some_scrub o : is_some (scrub o) = is_some o.
Proof. by destruct o. Qed.

Lemma buildSource_scrub s tw : buildSource (scrub_source s) tw = buildSource s tw.
Proof.
  destruct s as [[k|] [h|] [o|] [s|] [p|]]; simpl; try done;
    unfold buildKafkaSource; simpl; by rewrite is_some_scrub.
Qed.

Lemma buildSink_scrub s : buildSink (scrub_sink s) = buildSink s.
Proof.
  destruct s as [[o|] [p|] [s|] [k|] [t|]]; simpl; try done;
    unfold buildOpenSearchSink, buildKafkaSink; simpl; by rewrite is_some_scrub.
Qed.

Lemma map_res_fmap_ext {A A' B} (f : A -> result B) (f' : A' -> result B) (g : A -> A') l :
  (forall a, f' (g a) = f a) -> map_res f' (g <$> l) = map_res f l.
Proof. intros H. induction l as [|a l IH]; csimpl; [done|]. by rewrite H, IH. Qed.

(** C34: credentials do not leak into the configuration: the generated document
    depends on whether a credential is set, never on which secret (or which key)
    it names. *)
Theorem GeneratePipelineConfig_secret_free ps tw :
  GeneratePipelineConfig (scrub_definition <$> ps) tw =
  GeneratePipelineConfig ps tw.
Proof.
  assert (forall p, pipelineEntry (scrub_definition p) tw = pipelineEntry p tw) as He.
  { intros p. unfold pipelineEntry, pipelineWorkers, scrub_definition, buildSinks.
    cbn [PD_Name PD_Workers PD_Delay PD_Source PD_Buffer PD_Processors PD_Routes PD_Sink].
    rewrite buildSource_scrub, (map_res_fmap_ext buildSink buildSink _ _ buildSink_scrub).
    by destruct (PD_Source p) as [[k|] ? ? ? ?]. }
  unfold GeneratePipelineConfig. generalize (∅ : anymap) as config0.
  induction ps as [|p ps IH]; intros config0; csimpl; [done|].
  replace (addPipeline tw config0 (scrub_definition p))
    with (addPipeline tw config0 p) by (unfold addPipeline; by rewrite He).
  destruct (addPipeline tw config0 p); simpl; [apply IH|done].
Qed.

(** ** The layers of [data-prepper-config.yaml] *)

Definition headless_domain (name namespace : string) : string :=
  name +:+ "-headless." +:+ namespace +:+ ".svc.cluster.local".

Definition peer_forwarder_block (name namespace : string) : any :=
  VMap {["discovery_mode" := VStr "dns"; "domain_name" := VStr (headless_domain name namespace);
         "port" := VInt 4994]}.

(** What a key of the final document holds, from the top layer down. *)
Definition dp_lookup (pf : bool) (base raw : anymap) (name namespace k : string) : option any :=
  if pf && bool_decide (k = "peer_forwarder") then Some (peer_forwarder_block name namespace)
  else match raw !! k with Some v => Some v | None => base !! k end.

Lemma dp_lookup_layers (pf : bool) (base raw : anymap) name namespace k :
  (if pf then maps_Copy (maps_Copy base raw) (GenerateConfig name namespace)
   else maps_Copy base raw) !! k = dp_lookup pf base raw name namespace k.
Proof.
  unfold dp_lookup. destruct pf; simpl; rewrite !lookup_maps_Copy; [|done].
  unfold GenerateConfig. rewrite lookup_singleton.
  case_decide; case_bool_decide; (congruence || done).
Qed.

Lemma maps_Copy_empty (base : anymap) : maps_Copy base ∅ = base.
Proof. apply map_eq. intros. by rewrite lookup_maps_Copy, lookup_empty. Qed.

(** The raw layer the spec asks for: the decoded document, or nothing. *)
Definition raw_layer (spec : DataPrepperPipelineSpec) : result anymap :=
  match Spec_DataPrepperConfig spec ≫= DPC_Raw with
  | Some j => unmarshal_map (JSON_Raw j)
  | None => Ok ∅
  end.

(** The operator's own layer: TLS off, and the heap circuit breaker if given. *)
Definition base_layer (spec : DataPrepperPipelineSpec) : anymap :=
  match Spec_DataPrepperConfig spec ≫= (fun dpc => DPC_CircuitBreakers dpc ≫= CB_Heap) with
  | Some heap => {["ssl" := VBool false;
      "circuit_breakers" := VMap {["heap" := VMap {["usage" := VStr (Heap_Usage heap)]}]}]}
  | None => {["ssl" := VBool false]}
  end.

Lemma GenerateDPConfig_shape spec pf name namespace config :
  GenerateDPConfig spec pf name namespace = Ok config <->
  exists raw, raw_layer spec = Ok raw /\
    config = if pf then maps_Copy (maps_Copy (base_layer spec) raw) (GenerateConfig name namespace)
             else maps_Copy (base_layer spec) raw.
Proof.
  unfold GenerateDPConfig, raw_layer, base_layer.
  assert (forall h, <["circuit_breakers" := VMap {["heap" := VMap {["usage" := VStr h]}]}]>
            ({["ssl" := VBool false]} : anymap) =
          {["ssl" := VBool false;
            "circuit_breakers" := VMap {["heap" := VMap {["usage" := VStr h]}]}]}) as Hcomm
    by (intros; by apply insert_insert_ne).
  destruct (Spec_DataPrepperConfig spec) as [dpc|]; simpl.
  - destruct (DPC_Raw dpc) as [j|]; simpl; destruct (DPC_CircuitBreakers dpc ≫= CB_Heap);
      rewrite ?Hcomm;
      try (destruct (unmarshal_map (JSON_Raw j)) as [raw|]; simpl;
           [|split; [done|by intros (? & ? & ?)]]);
      (split; [intros [= <-]; eexists; split; [done|]; by rewrite ?maps_Copy_empty
              |intros (? & [= <-] & ->); by rewrite ?maps_Copy_empty]).
  - split; [intros [= <-]; eexists; split; [done|]; by rewrite ?maps_Copy_empty
           |intros (? & [= <-] & ->); by rewrite ?maps_Copy_empty].
Qed.

(** [data-prepper-config.yaml] is built in layers, and generation fails only
    if the raw configuration is not a JSON object: a key holds the peer forwarder
    block when it is [peer_forwarder] and forwarding is needed (even if the raw
    configuration defines that key), else what the raw configuration says, else
    the operator's own setting (TLS off, heap circuit breaker). *)
Theorem GenerateDPConfig_layers spec pf name namespace :
  match raw_layer spec with
  | Err _ => exists e, GenerateDPConfig spec pf name namespace = Err e
  | Ok raw => exists config, GenerateDPConfig spec pf name namespace = Ok config /\
      forall k, config !! k = dp_lookup pf (base_layer spec) raw name namespace k
  end.
Proof.
  destruct (raw_layer spec) as [raw|e] eqn:Hr.
  - eexists. split; [apply GenerateDPConfig_shape; eauto|]. intros k. apply dp_lookup_layers.
  - destruct (GenerateDPConfig spec pf name namespace) as [c|e'] eqn:Hg; [|eauto].
    apply GenerateDPConfig_shape in Hg as (? & ? & _). congruence.
Qed.
