(* ===== verification/Merger.v ===== *)
(** * Merging namespace defaults into a pipeline: [internal/defaults/merger.go]

    [MergeSpec] works on a deep copy of the pipeline spec; slices and pointers
    it takes from the defaults are read-only afterwards, so that values are
    enough here. *)

From S2P Require Import Prelude Go Api Graph Webhook.

(** [if x == nil && d != nil { x = d.DeepCopy() }]. *)
Definition or_default {A} (x d : option A) : option A :=
  match x with Some _ => x | None => d end.

(** [if len(x) == 0 && len(d) > 0 { x = d }]. *)
Definition or_default_list {A} (x d : list A) : list A :=
  match x with [] => d | _ => x end.

(** [if x == "" && d != "" { x = d }]. *)
Definition or_default_string (x d : string) : string := if nonempty x then x else d.

Definition mergeKafkaSource (d : DefaultKafkaSpec) (k : KafkaSourceSpec) : KafkaSourceSpec :=
  mkKafkaSourceSpec
    (or_default_list (KSrc_BootstrapServers k) (DefKafka_BootstrapServers d))
    (KSrc_Topic k) (KSrc_GroupID k)
    (or_default (KSrc_CredentialsSecretRef k) (DefKafka_CredentialsSecretRef d))
    (KSrc_ConsumerConfig k) (KSrc_EncryptionType k).

Definition mergeOpenSearchSink (d o : OpenSearchSinkSpec) : OpenSearchSinkSpec :=
  mkOpenSearchSinkSpec
    (or_default_list (OS_Hosts o) (OS_Hosts d))
    (OS_Index o) (OS_IndexType o)
    (or_default (OS_CredentialsSecretRef o) (OS_CredentialsSecretRef d))
    (OS_DLQSecretRef o) (OS_Routes o).

Definition with_source (p : PipelineDefinition) (s : SourceSpec) : PipelineDefinition :=
  mkPipelineDefinition (PD_Name p) (PD_Workers p) (PD_Delay p) s
    (PD_Buffer p) (PD_Processors p) (PD_Routes p) (PD_Sink p).

Definition with_sinks (p : PipelineDefinition) (l : list SinkSpec) : PipelineDefinition :=
  mkPipelineDefinition (PD_Name p) (PD_Workers p) (PD_Delay p) (PD_Source p)
    (PD_Buffer p) (PD_Processors p) (PD_Routes p) l.

(** The loop that injects the Kafka defaults. *)
Definition injectKafka (d : DefaultKafkaSpec) (p : PipelineDefinition) : PipelineDefinition :=
  let s := PD_Source p in
  with_source p (mkSourceSpec (mergeKafkaSource d <$> Src_Kafka s) (Src_HTTP s) (Src_OTel s)
                   (Src_S3 s) (Src_Pipeline s)).

(** The nested loops that inject the OpenSearch defaults. *)
Definition injectOpenSearchSink (d : OpenSearchSinkSpec) (s : SinkSpec) : SinkSpec :=
  mkSinkSpec (mergeOpenSearchSink d <$> Sink_OpenSearch s) (Sink_Pipeline s) (Sink_S3 s)
    (Sink_Kafka s) (Sink_Stdout s).

Definition injectOpenSearch (d : OpenSearchSinkSpec) (p : PipelineDefinition) : PipelineDefinition :=
  with_sinks p (injectOpenSearchSink d <$> PD_Sink p).

Definition injectDefaults (d : DataPrepperDefaultsSpec) (ps : list PipelineDefinition)
    : list PipelineDefinition :=
  let ps := match Def_Kafka d with Some dk => injectKafka dk <$> ps | None => ps end in
  match Def_Sink d ≫= DefSink_OpenSearch with
  | Some dos => injectOpenSearch dos <$> ps
  | None => ps
  end.

Definition MergeSpec (defaults : option DataPrepperDefaultsSpec)
    (pipeline : DataPrepperPipelineSpec) : DataPrepperPipelineSpec :=
  match defaults with
  | None => pipeline
  | Some d =>
    mkDataPrepperPipelineSpec
      (or_default_string (Spec_Image pipeline) (Def_Image d))
      (Spec_ImagePullPolicy pipeline)
      (injectDefaults d (Spec_Pipelines pipeline))
      (Spec_Scaling pipeline)
      (or_default (Spec_Resources pipeline) (Def_Resources d))
      (or_default (Spec_DataPrepperConfig pipeline) (Def_DataPrepperConfig d))
      (or_default (Spec_ServiceMonitor pipeline) (Def_ServiceMonitor d))
      (Spec_PodAnnotations pipeline) (Spec_PodLabels pipeline) (Spec_NodeSelector pipeline)
      (Spec_Tolerations pipeline) (Spec_Affinity pipeline) (Spec_PodSecurityContext pipeline)
      (Spec_SecurityContext pipeline) (Spec_ServiceAccountName pipeline)
  end.

(** ** Lemmas *)

Lemma or_default_idem {A} (x d : option A) : or_default (or_default x d) d = or_default x d.
Proof. by destruct x, d. Qed.
Lemma or_default_list_idem {A} (x d : list A) :
  or_default_list (or_default_list x d) d = or_default_list x d.
Proof. by destruct x, d. Qed.
Lemma or_default_string_idem x d : or_default_string (or_default_string x d) d = or_default_string x d.
Proof. unfold or_default_string. destruct (nonempty x) eqn:H; [by rewrite H|]. by destruct (nonempty d). Qed.

Lemma mergeKafkaSource_idem d k : mergeKafkaSource d (mergeKafkaSource d k) = mergeKafkaSource d k.
Proof. unfold mergeKafkaSource. simpl. by rewrite or_default_list_idem, or_default_idem. Qed.
Lemma mergeOpenSearchSink_idem d o :
  mergeOpenSearchSink d (mergeOpenSearchSink d o) = mergeOpenSearchSink d o.
Proof. unfold mergeOpenSearchSink. simpl. by rewrite or_default_list_idem, or_default_idem. Qed.

Lemma injectKafka_idem d p : injectKafka d (injectKafka d p) = injectKafka d p.
Proof.
  unfold injectKafka, with_source. simpl. do 2 f_equal.
  destruct (Src_Kafka (PD_Source p)); simpl; [|done]. by rewrite mergeKafkaSource_idem.
Qed.

Lemma injectOpenSearch_idem d p : injectOpenSearch d (injectOpenSearch d p) = injectOpenSearch d p.
Proof.
  unfold injectOpenSearch, with_sinks. simpl. f_equal. rewrite <-list_fmap_compose.
  apply list_fmap_ext. intros i s _. unfold compose, injectOpenSearchSink. simpl. f_equal.
  destruct (Sink_OpenSearch s); simpl; [|done]. by rewrite mergeOpenSearchSink_idem.
Qed.

Lemma inject_commute dk dos p :
  injectKafka dk (injectOpenSearch dos p) = injectOpenSearch dos (injectKafka dk p).
Proof. done. Qed.

(** The two loops, seen from one definition. *)
Definition injectDefinition (d : DataPrepperDefaultsSpec) (p : PipelineDefinition)
    : PipelineDefinition :=
  let p := match Def_Kafka d with Some dk => injectKafka dk p | None => p end in
  match Def_Sink d ≫= DefSink_OpenSearch with Some dos => injectOpenSearch dos p | None => p end.

Lemma injectDefaults_fmap d ps : injectDefaults d ps = injectDefinition d <$> ps.
Proof.
  unfold injectDefaults, injectDefinition.
  destruct (Def_Kafka d), (Def_Sink d ≫= DefSink_OpenSearch); rewrite <-?list_fmap_compose; try done;
    by rewrite list_fmap_id.
Qed.

Lemma injectDefinition_idem d p : injectDefinition d (injectDefinition d p) = injectDefinition d p.
Proof.
  unfold injectDefinition. destruct (Def_Kafka d), (Def_Sink d ≫= DefSink_OpenSearch);
    rewrite ?inject_commute, ?injectKafka_idem, ?injectOpenSearch_idem; done.
Qed.

Lemma graphDef_injectKafka d p : graphDef (injectKafka d p) = graphDef p.
Proof. done. Qed.

Lemma graphDef_injectOpenSearch d p : graphDef (injectOpenSearch d p) = graphDef p.
Proof.
  unfold graphDef, injectOpenSearch. simpl. f_equal.
  induction (PD_Sink p) as [|s l IH]; csimpl; [done|]. rewrite IH.
  by destruct (Sink_Pipeline s).
Qed.

Lemma graphDef_injectDefinition d p : graphDef (injectDefinition d p) = graphDef p.
Proof.
  unfold injectDefinition. destruct (Def_Kafka d), (Def_Sink d ≫= DefSink_OpenSearch);
    by rewrite ?graphDef_injectOpenSearch, ?graphDef_injectKafka.
Qed.

Lemma wf_injectKafka d p : wf_definition p -> wf_definition (injectKafka d p).
Proof.
  intros [H1 [v H2] H3 H4 H5]. constructor; [done| |done|done|done].
  simpl. rewrite H2. destruct v as [k|h|o|s|q]; simpl;
    [exists (VKafka (mergeKafkaSource d k))|exists (VHTTP h)|exists (VOTel o)|exists (VS3 s)
    |exists (VPipeline q)]; done.
Qed.

Lemma wf_injectOpenSearch d p : wf_definition p -> wf_definition (injectOpenSearch d p).
Proof.
  intros [H1 H2 H3 H4 H5]. constructor; [done|done| |done|].
  - simpl. by destruct (PD_Sink p).
  - simpl. intros s (s0 & -> & [v ->]%H5)%list_elem_of_fmap. destruct v as [o|q|s|k|t]; simpl;
      [exists (VOpenSearch (mergeOpenSearchSink d o))|exists (VPipelineSink q)|exists (VS3Sink s)
      |exists (VKafkaSink k)|exists (VStdout t)]; done.
Qed.

Lemma wf_injectDefinition d p : wf_definition p -> wf_definition (injectDefinition d p).
Proof.
  intros Hp. unfold injectDefinition.
  destruct (Def_Kafka d), (Def_Sink d ≫= DefSink_OpenSearch);
    auto using wf_injectKafka, wf_injectOpenSearch.
Qed.

(** ** Properties of the merge *)

(** The value [y] a field with own value [x] and default [dflt] must get. *)
Definition filled {A} (empty x dflt y : A) : Prop :=
  (x ≠ empty -> y = x) /\ (x = empty -> y = dflt).

Definition default_servers (d : DataPrepperDefaultsSpec) : list string :=
  match Def_Kafka d with Some dk => DefKafka_BootstrapServers dk | None => [] end.
Definition default_kafka_credentials (d : DataPrepperDefaultsSpec) : option SecretReference :=
  Def_Kafka d ≫= DefKafka_CredentialsSecretRef.
Definition default_hosts (d : DataPrepperDefaultsSpec) : list string :=
  match Def_Sink d ≫= DefSink_OpenSearch with Some o => OS_Hosts o | None => [] end.
Definition default_os_credentials (d : DataPrepperDefaultsSpec) : option SecretReference :=
  (Def_Sink d ≫= DefSink_OpenSearch) ≫= OS_CredentialsSecretRef.

Record merged_kafka (d : DataPrepperDefaultsSpec) (k k' : KafkaSourceSpec) : Prop := {
  mk_servers : filled [] (KSrc_BootstrapServers k) (default_servers d) (KSrc_BootstrapServers k');
  mk_credentials : filled None (KSrc_CredentialsSecretRef k) (default_kafka_credentials d)
                     (KSrc_CredentialsSecretRef k');
  mk_rest : KSrc_Topic k' = KSrc_Topic k /\ KSrc_GroupID k' = KSrc_GroupID k /\
    KSrc_ConsumerConfig k' = KSrc_ConsumerConfig k /\ KSrc_EncryptionType k' = KSrc_EncryptionType k }.

Record merged_opensearch (d : DataPrepperDefaultsSpec) (o o' : OpenSearchSinkSpec) : Prop := {
  mo_hosts : filled [] (OS_Hosts o) (default_hosts d) (OS_Hosts o');
  mo_credentials : filled None (OS_CredentialsSecretRef o) (default_os_credentials d)
                     (OS_CredentialsSecretRef o');
  mo_rest : OS_Index o' = OS_Index o /\ OS_IndexType o' = OS_IndexType o /\
    OS_DLQSecretRef o' = OS_DLQSecretRef o /\ OS_Routes o' = OS_Routes o }.

Record merged_sink (d : DataPrepperDefaultsSpec) (s s' : SinkSpec) : Prop := {
  ms_opensearch : option_Forall2 (merged_opensearch d) (Sink_OpenSearch s) (Sink_OpenSearch s');
  ms_rest : Sink_Pipeline s' = Sink_Pipeline s /\ Sink_S3 s' = Sink_S3 s /\
    Sink_Kafka s' = Sink_Kafka s /\ Sink_Stdout s' = Sink_Stdout s }.

Record merged_definition (d : DataPrepperDefaultsSpec) (p p' : PipelineDefinition) : Prop := {
  md_kafka : option_Forall2 (merged_kafka d) (Src_Kafka (PD_Source p)) (Src_Kafka (PD_Source p'));
  md_source_rest : Src_HTTP (PD_Source p') = Src_HTTP (PD_Source p) /\
    Src_OTel (PD_Source p') = Src_OTel (PD_Source p) /\ Src_S3 (PD_Source p') = Src_S3 (PD_Source p) /\
    Src_Pipeline (PD_Source p') = Src_Pipeline (PD_Source p);
  md_sinks : Forall2 (merged_sink d) (PD_Sink p) (PD_Sink p');
  md_rest : PD_Name p' = PD_Name p /\ PD_Workers p' = PD_Workers p /\ PD_Delay p' = PD_Delay p /\
    PD_Buffer p' = PD_Buffer p /\ PD_Processors p' = PD_Processors p /\ PD_Routes p' = PD_Routes p }.

Record merged_spec (d : DataPrepperDefaultsSpec) (s m : DataPrepperPipelineSpec) : Prop := {
  msp_image : filled "" (Spec_Image s) (Def_Image d) (Spec_Image m);
  msp_resources : filled None (Spec_Resources s) (Def_Resources d) (Spec_Resources m);
  msp_config : filled None (Spec_DataPrepperConfig s) (Def_DataPrepperConfig d)
                 (Spec_DataPrepperConfig m);
  msp_monitor : filled None (Spec_ServiceMonitor s) (Def_ServiceMonitor d) (Spec_ServiceMonitor m);
  msp_pipelines : Forall2 (merged_definition d) (Spec_Pipelines s) (Spec_Pipelines m);
  msp_rest : Spec_ImagePullPolicy m = Spec_ImagePullPolicy s /\ Spec_Scaling m = Spec_Scaling s /\
    Spec_PodAnnotations m = Spec_PodAnnotations s /\ Spec_PodLabels m = Spec_PodLabels s /\
    Spec_NodeSelector m = Spec_NodeSelector s /\ Spec_Tolerations m = Spec_Tolerations s /\
    Spec_Affinity m = Spec_Affinity s /\ Spec_PodSecurityContext m = Spec_PodSecurityContext s /\
    Spec_SecurityContext m = Spec_SecurityContext s /\
    Spec_ServiceAccountName m = Spec_ServiceAccountName s }.

Lemma filled_or_default {A} (x d : option A) : filled None x d (or_default x d).
Proof. by destruct x. Qed.
Lemma filled_or_default_list {A} (x d : list A) : filled [] x d (or_default_list x d).
Proof. by destruct x. Qed.
Lemma filled_or_default_string x d : filled "" x d (or_default_string x d).
Proof.
  unfold filled, or_default_string. destruct (nonempty x) eqn:H;
    [apply nonempty_true in H|apply nonempty_false in H]; done.
Qed.
Lemma filled_id {A} (empty x : A) : filled empty x empty x.
Proof. by split. Qed.

Create HintDb merge.
#[export] Hint Resolve filled_or_default filled_or_default_list filled_or_default_string filled_id : merge.

Lemma merged_definition_inject d p : merged_definition d p (injectDefinition d p).
Proof.
  unfold injectDefinition. constructor.
  - assert (forall q, Src_Kafka (PD_Source
        (match Def_Sink d ≫= DefSink_OpenSearch with Some dos => injectOpenSearch dos q | None => q end))
      = Src_Kafka (PD_Source q)) as -> by (intros; by destruct (Def_Sink d ≫= DefSink_OpenSearch)).
    unfold default_servers, default_kafka_credentials.
    destruct (Def_Kafka d) as [dk|] eqn:Hd; simpl; destruct (Src_Kafka (PD_Source p)) as [k|];
      simpl; constructor; constructor; unfold default_servers, default_kafka_credentials;
      rewrite ?Hd; simpl; auto with merge.
  - by destruct (Def_Kafka d), (Def_Sink d ≫= DefSink_OpenSearch).
  - assert (PD_Sink (match Def_Kafka d with Some dk => injectKafka dk p | None => p end) = PD_Sink p)
      as Hs by (by destruct (Def_Kafka d)).
    destruct (Def_Sink d ≫= DefSink_OpenSearch) as [dos|] eqn:Hd; simpl; rewrite Hs.
    + apply Forall2_fmap_r, Forall_Forall2_diag, Forall_forall. intros s _. constructor; [|done].
      simpl. destruct (Sink_OpenSearch s); constructor; constructor;
        unfold default_hosts, default_os_credentials; rewrite ?Hd; simpl; auto with merge.
    + apply Forall_Forall2_diag, Forall_forall. intros s _. constructor; [|done].
      destruct (Sink_OpenSearch s); constructor; constructor;
        unfold default_hosts, default_os_credentials; rewrite ?Hd; simpl; auto with merge.
  - by destruct (Def_Kafka d), (Def_Sink d ≫= DefSink_OpenSearch).
Qed.

(** C9: a field the pipeline sets wins over the default, and a field it leaves
    empty takes the default: the image, the resources, the Data Prepper
    configuration and the service monitor at the top level, and, definition by
    definition, the Kafka source's servers and credentials and every OpenSearch
    sink's hosts and credentials (each filled independently).  All other fields
    are the pipeline's own, and no definition or sink is added or dropped. *)
Theorem MergeSpec_precedence d s : merged_spec d s (MergeSpec (Some d) s).
Proof.
  constructor; simpl; auto with merge; [|done].
  rewrite injectDefaults_fmap. apply Forall2_fmap_r, Forall_Forall2_diag, Forall_forall.
  intros p _. apply merged_definition_inject.
Qed.

Lemma MergeSpec_merged d s : MergeSpec d (MergeSpec d s) = MergeSpec d s.
Proof.
  destruct d as [d|]; [|done]. unfold MergeSpec. simpl. rewrite !injectDefaults_fmap.
  rewrite or_default_string_idem, !or_default_idem. f_equal.
  rewrite <-list_fmap_compose. apply list_fmap_ext. intros. apply injectDefinition_idem.
Qed.

(** merging is idempotent: merging the same defaults into an already merged
    spec changes nothing, so reconciling a spec again cannot drift. *)
Theorem MergeSpec_idempotent d s : MergeSpec d (MergeSpec d s) = MergeSpec d s.
Proof. apply MergeSpec_merged. Qed.

Lemma MergeSpec_graphDefs d s :
  graphDefs (Spec_Pipelines (MergeSpec d s)) = graphDefs (Spec_Pipelines s).
Proof.
  destruct d as [d|]; [|done]. simpl. rewrite injectDefaults_fmap. unfold graphDefs.
  rewrite <-list_fmap_compose. apply list_fmap_ext. intros. apply graphDef_injectDefinition.
Qed.

Lemma MergeSpec_wf d s :
  Forall wf_definition (Spec_Pipelines s) -> Forall wf_definition (Spec_Pipelines (MergeSpec d s)).
Proof.
  destruct d as [d|]; [|done]. simpl. rewrite injectDefaults_fmap, !Forall_forall.
  intros H p (q & -> & Hq)%list_elem_of_fmap. by apply wf_injectDefinition, H.
Qed.
