(* ===== verification/Resources.v ===== *)
(** * Generated Kubernetes resources

    [internal/generator/helpers.go], [deployment.go], [service.go], [hpa.go] and
    [pdb.go].  A Kubernetes object is a record of the fields the generators set;
    [apps/v1], [core/v1], [autoscaling/v2], [policy/v1] and [monitoring/v1] types
    are external data types, represented field by field. *)

From S2P Require Import Prelude Go Sha256 Api.
#[local] Open Scope Z_scope.

(** ** Labels ([helpers.go]) *)

Definition ManagedByLabel : string := "app.kubernetes.io/managed-by".
Definition ManagedByValue : string := "dataprepper-operator".
Definition NameLabel : string := "app.kubernetes.io/name".
Definition InstanceLabel : string := "app.kubernetes.io/instance".
Definition ConfigHashAnnotation : string := "dataprepper.kaasops.io/config-hash".

Definition CommonLabels (name : string) : gmap string string :=
  {[ManagedByLabel := ManagedByValue; NameLabel := "data-prepper"; InstanceLabel := name]}.

Definition SelectorLabels (name : string) : gmap string string :=
  {[NameLabel := "data-prepper"; InstanceLabel := name]}.

(** ** Services and ports ([helpers.go]) *)

Definition NeedsService (pipelines : list PipelineDefinition)
    (serviceMonitor : option ServiceMonitorSpec) : bool :=
  match serviceMonitor with Some sm => SM_Enabled sm | None => false end ||
  existsb (fun p => bool_decide (is_Some (Src_HTTP (PD_Source p))) ||
                    bool_decide (is_Some (Src_OTel (PD_Source p)))) pipelines.

(** The port of one definition, truncated to [int32]; 0 when it has none. *)
Definition sourcePort (p : PipelineDefinition) : Z :=
  match Src_HTTP (PD_Source p), Src_OTel (PD_Source p) with
  | Some h, _ => int32 (HTTP_Port h)
  | None, Some o => int32 (OTel_Port o)
  | None, None => 0
  end.

(** One round of the loop; the state is [(seen, ports)]. *)
Definition addPort (st : gset Z * list Z) (p : PipelineDefinition) : gset Z * list Z :=
  let '(seen, ports) := st in
  let port := sourcePort p in
  if negb (port =? 0) && bool_decide (port ∉ seen)
  then ({[port]} ∪ seen, ports ++ [port]) else st.

Definition SourcePorts (pipelines : list PipelineDefinition) : list Z :=
  sort_ints (snd (foldl addPort (∅, []) pipelines)).

(** ** Content hashes ([helpers.go]) *)

(** [s[:16]]. *)
Definition first16 (s : string) : string := of_bytes (take 16 (bytes s)).

(** The bytes written to the hash, for the keys in the given order. *)
Definition hash_writes (data : gmap string string) (keys : list string) : string :=
  foldr (fun k acc => k +:+ map_get data k +:+ acc) "" keys.

(** [order] is the order in which the [range] loop over the map yields its
    keys, which Go does not specify. *)
Definition HashOfData_order (order : list string) (data : gmap string string) : string :=
  first16 (sha256_hex (hash_writes data (sort_strings order))).

Definition HashOfData (data : gmap string string) : string :=
  HashOfData_order (map_to_list data).*1 data.

(** ** The Deployment ([deployment.go]) *)

Record ContainerPort := mkContainerPort { Port_Name : string; Port_ContainerPort : Z }.

Record Volume := mkVolume { Vol_Name : string; Vol_ConfigMap : string }.

Record VolumeMount := mkVolumeMount {
  VM_Name : string; VM_MountPath : string; VM_SubPath : string; VM_ReadOnly : bool }.

(** An environment variable read from a key of a secret. *)
Record EnvVar := mkEnvVar { Env_Name : string; Env_SecretName : string; Env_SecretKey : string }.

(** A TCP probe. *)
Record Probe := mkProbe { Probe_Port : Z; Probe_PeriodSeconds : Z; Probe_FailureThreshold : Z }.

Record Container := mkContainer {
  C_Name : string;
  C_Image : string;
  C_ImagePullPolicy : string;
  C_Ports : list ContainerPort;
  C_VolumeMounts : list VolumeMount;
  C_Env : list EnvVar;
  C_StartupProbe : Probe;
  C_ReadinessProbe : Probe;
  C_LivenessProbe : Probe;
  C_Resources : ResourceRequirements;
  C_SecurityContext : option string }.

Record PodTemplate := mkPodTemplate {
  Pod_Labels : gmap string string;
  Pod_Annotations : gmap string string;
  Pod_TerminationGracePeriodSeconds : Z;
  Pod_SecurityContext : option string;
  Pod_ServiceAccountName : string;
  Pod_Containers : list Container;
  Pod_Volumes : list Volume;
  Pod_NodeSelector : gmap string string;
  Pod_Tolerations : list string;
  Pod_Affinity : option string }.

Record DeploymentSpec := mkDeploymentSpec {
  DS_Replicas : Z;
  DS_Selector : gmap string string;
  DS_Template : PodTemplate }.

(** The observed state, written by the Deployment controller. *)
Record DeploymentStatus := mkDeploymentStatus { DepStatus_Replicas : Z; DepStatus_ReadyReplicas : Z }.

Record Deployment := mkDeployment {
  Dep_Meta : ObjectMeta; Dep_Spec : DeploymentSpec; Dep_Status : DeploymentStatus }.

(** [metav1.ObjectMeta{Name: ..., Namespace: ..., Labels: ...}]. *)
Definition named_meta (name namespace : string) (labels : gmap string string) : ObjectMeta :=
  mkObjectMeta name namespace "" 0 None (Some labels) None [] [].

Definition secretEnvVar (envName secretName key : string) : EnvVar :=
  mkEnvVar envName secretName key.

Definition kafkaEnv (secretName : string) : list EnvVar :=
  [secretEnvVar "KAFKA_USERNAME" secretName "username";
   secretEnvVar "KAFKA_PASSWORD" secretName "password"].
Definition s3Env (secretName : string) : list EnvVar :=
  [secretEnvVar "AWS_ACCESS_KEY_ID" secretName "aws_access_key_id";
   secretEnvVar "AWS_SECRET_ACCESS_KEY" secretName "aws_secret_access_key"].
Definition openSearchEnv (secretName : string) : list EnvVar :=
  [secretEnvVar "OPENSEARCH_USERNAME" secretName "username";
   secretEnvVar "OPENSEARCH_PASSWORD" secretName "password"].

(** The local variables of [credentialEnvVars]. *)
Record EnvState := mkEnvState {
  ES_envs : list EnvVar; ES_kafkaFound : bool; ES_osFound : bool; ES_s3Found : bool }.

(** [if !kafkaFound && ref != nil { envs = append(...); kafkaFound = true }] and
    its two siblings. *)
Definition addKafka (ref : option SecretReference) (st : EnvState) : EnvState :=
  match ref with
  | Some r => if ES_kafkaFound st then st
              else mkEnvState (ES_envs st ++ kafkaEnv (Secret_Name r)) true (ES_osFound st) (ES_s3Found st)
  | None => st
  end.
Definition addS3 (ref : option SecretReference) (st : EnvState) : EnvState :=
  match ref with
  | Some r => if ES_s3Found st then st
              else mkEnvState (ES_envs st ++ s3Env (Secret_Name r)) (ES_kafkaFound st) (ES_osFound st) true
  | None => st
  end.
Definition addOpenSearch (ref : option SecretReference) (st : EnvState) : EnvState :=
  match ref with
  | Some r => if ES_osFound st then st
              else mkEnvState (ES_envs st ++ openSearchEnv (Secret_Name r)) (ES_kafkaFound st) true (ES_s3Found st)
  | None => st
  end.

Definition kafkaSourceRef (p : PipelineDefinition) : option SecretReference :=
  Src_Kafka (PD_Source p) ≫= KSrc_CredentialsSecretRef.
Definition s3SourceRef (p : PipelineDefinition) : option SecretReference :=
  Src_S3 (PD_Source p) ≫= S3Src_CredentialsSecretRef.
Definition kafkaSinkRef (s : SinkSpec) : option SecretReference :=
  Sink_Kafka s ≫= KSink_CredentialsSecretRef.
Definition openSearchSinkRef (s : SinkSpec) : option SecretReference :=
  Sink_OpenSearch s ≫= OS_CredentialsSecretRef.
Definition s3SinkRef (s : SinkSpec) : option SecretReference :=
  Sink_S3 s ≫= S3Sink_CredentialsSecretRef.

Definition allFound (st : EnvState) : bool :=
  ES_kafkaFound st && ES_osFound st && ES_s3Found st.

(** The inner loop, with its early [break]. *)
Fixpoint envOfSinks (st : EnvState) (sinks : list SinkSpec) : EnvState :=
  match sinks with
  | [] => st
  | s :: rest =>
    let st := addKafka (kafkaSinkRef s) st in
    let st := addOpenSearch (openSearchSinkRef s) st in
    let st := addS3 (s3SinkRef s) st in
    if allFound st then st else envOfSinks st rest
  end.

(** The outer loop, with its early [break]. *)
Fixpoint envOfPipelines (st : EnvState) (pipelines : list PipelineDefinition) : EnvState :=
  match pipelines with
  | [] => st
  | p :: rest =>
    let st := addKafka (kafkaSourceRef p) st in
    let st := addS3 (s3SourceRef p) st in
    let st := envOfSinks st (PD_Sink p) in
    if allFound st then st else envOfPipelines st rest
  end.

Definition credentialEnvVars (pipelines : list PipelineDefinition) : list EnvVar :=
  ES_envs (envOfPipelines (mkEnvState [] false false false) pipelines).

Definition containerPorts (pipelines : list PipelineDefinition) (needsPeerForwarder : bool)
    : list ContainerPort :=
  [mkContainerPort "health" 4900] ++
  (if needsPeerForwarder then [mkContainerPort "peer-fwd" 4994] else []) ++
  ((fun p => mkContainerPort ("source-" +:+ Itoa p) p) <$> SourcePorts pipelines).

Definition GenerateDeployment (pipeline : DataPrepperPipeline)
    (mergedSpec : DataPrepperPipelineSpec) (replicas : Z) (needsPeerForwarder : bool)
    (configHash : string) : Deployment :=
  let name := Meta_Name (P_Meta pipeline) in
  let podAnnotations :=
    maps_Copy {[ConfigHashAnnotation := configHash]} (Spec_PodAnnotations mergedSpec) in
  let podLabels := maps_Copy (maps_Copy ∅ (SelectorLabels name)) (Spec_PodLabels mergedSpec) in
  let volumes := [mkVolume "pipelines-config" (name +:+ "-pipelines");
                  mkVolume "dp-config" (name +:+ "-config")] in
  let volumeMounts :=
    [mkVolumeMount "pipelines-config" "/usr/share/data-prepper/pipelines/" "" true;
     mkVolumeMount "dp-config" "/usr/share/data-prepper/config/data-prepper-config.yaml"
       "data-prepper-config.yaml" true] in
  let resources :=
    match Spec_Resources mergedSpec with
    | Some r => mkResourceRequirements (Res_Requests (PerReplica r)) (Res_Limits (PerReplica r))
    | None => mkResourceRequirements ∅ ∅
    end in
  let pullPolicy :=
    if nonempty (Spec_ImagePullPolicy mergedSpec) then Spec_ImagePullPolicy mergedSpec
    else "IfNotPresent" in
  mkDeployment (named_meta name (Meta_Namespace (P_Meta pipeline)) (CommonLabels name))
    (mkDeploymentSpec replicas (SelectorLabels name)
       (mkPodTemplate podLabels podAnnotations 60
          (Spec_PodSecurityContext mergedSpec) (Spec_ServiceAccountName mergedSpec)
          [mkContainer "data-prepper" (Spec_Image mergedSpec) pullPolicy
             (containerPorts (Spec_Pipelines mergedSpec) needsPeerForwarder)
             volumeMounts (credentialEnvVars (Spec_Pipelines mergedSpec))
             (mkProbe 4900 10 30) (mkProbe 4900 10 3) (mkProbe 4900 20 3)
             resources (Spec_SecurityContext mergedSpec)]
          volumes (Spec_NodeSelector mergedSpec) (Spec_Tolerations mergedSpec)
          (Spec_Affinity mergedSpec)))
    (mkDeploymentStatus 0 0).

(** ** Services and the ServiceMonitor ([service.go]) *)

Record ServicePort := mkServicePort {
  SP_Name : string; SP_Port : Z; SP_TargetPort : Z }.

Record ServiceSpec := mkServiceSpec {
  Svc_Type : string;
  Svc_ClusterIP : string;
  Svc_Selector : gmap string string;
  Svc_Ports : list ServicePort }.

Record Service := mkService { Svc_Meta : ObjectMeta; Svc_Spec : ServiceSpec }.

Definition servicePorts (spec : DataPrepperPipelineSpec) : list ServicePort :=
  mkServicePort "metrics" 4900 4900 ::
  ((fun p => mkServicePort ("source-" +:+ Itoa p) p p) <$> SourcePorts (Spec_Pipelines spec)).

Definition GenerateService (pipeline : DataPrepperPipeline) (spec : DataPrepperPipelineSpec)
    : Service :=
  let name := Meta_Name (P_Meta pipeline) in
  mkService (named_meta name (Meta_Namespace (P_Meta pipeline)) (CommonLabels name))
    (mkServiceSpec "ClusterIP" "" (SelectorLabels name) (servicePorts spec)).

Record Endpoint := mkEndpoint { EP_Port : string; EP_Path : string; EP_Interval : string }.

Record ServiceMonitorObjSpec := mkServiceMonitorObjSpec {
  SMO_Selector : gmap string string; SMO_Endpoints : list Endpoint }.

Record ServiceMonitor := mkServiceMonitor {
  SMO_Meta : ObjectMeta; SMO_Spec : ServiceMonitorObjSpec }.

Definition GenerateServiceMonitor (pipeline : DataPrepperPipeline)
    (spec : DataPrepperPipelineSpec) : ServiceMonitor :=
  let name := Meta_Name (P_Meta pipeline) in
  let interval :=
    match Spec_ServiceMonitor spec with
    | Some sm => if nonempty (SM_Interval sm) then SM_Interval sm else "30s"
    | None => "30s"
    end in
  mkServiceMonitor (named_meta name (Meta_Namespace (P_Meta pipeline)) (CommonLabels name))
    (mkServiceMonitorObjSpec (SelectorLabels name)
       [mkEndpoint "metrics" "/metrics/prometheus" interval]).

Definition GenerateHeadlessService (pipeline : DataPrepperPipeline) : Service :=
  let name := Meta_Name (P_Meta pipeline) in
  mkService
    (named_meta (name +:+ "-headless") (Meta_Namespace (P_Meta pipeline)) (CommonLabels name))
    (mkServiceSpec "ClusterIP" "None" (SelectorLabels name)
       [mkServicePort "peer-fwd" 4994 4994]).

(** ** Autoscaler and disruption budget ([hpa.go], [pdb.go]) *)

Record HPASpec := mkHPASpec {
  HPA_TargetKind : string;
  HPA_TargetName : string;
  HPA_MinReplicas : Z;
  HPA_MaxReplicas : Z;
  HPA_TargetCPU : Z }.

Record HPA := mkHPA { HPA_Meta : ObjectMeta; HPA_Spec : HPASpec }.

Definition GenerateHPA (pipeline : DataPrepperPipeline) (minReplicas maxReplicas targetCPU : Z)
    : HPA :=
  let name := Meta_Name (P_Meta pipeline) in
  mkHPA (named_meta name (Meta_Namespace (P_Meta pipeline)) (CommonLabels name))
    (mkHPASpec "Deployment" name minReplicas maxReplicas targetCPU).

Record PDBSpec := mkPDBSpec { PDB_MinAvailable : Z; PDB_Selector : gmap string string }.

Record PDB := mkPDB { PDB_Meta : ObjectMeta; PDB_Spec : PDBSpec }.

Definition GeneratePDB (pipeline : DataPrepperPipeline) (replicas : Z) : PDB :=
  let name := Meta_Name (P_Meta pipeline) in
  let minAvailable := Z.max 1 (int32 (replicas - 1)) in
  mkPDB (named_meta name (Meta_Namespace (P_Meta pipeline)) (CommonLabels name))
    (mkPDBSpec minAvailable (SelectorLabels name)).

(** * Properties *)

(** ** Ports *)

Lemma addPort_inv ps seen ports :
  NoDup ports -> (forall x, x ∈ seen <-> x ∈ ports) ->
  let st := foldl addPort (seen, ports) ps in
  NoDup (snd st) /\
  (forall x, x ∈ snd st <-> x ∈ ports \/ x ≠ 0 /\ exists p, p ∈ ps /\ sourcePort p = x).
Proof.
  revert seen ports. induction ps as [|p ps IH]; intros seen ports Hnd Hseen; simpl.
  { split; [done|]. intros x. set_solver. }
  destruct (negb (sourcePort p =? 0) && bool_decide (sourcePort p ∉ seen)) eqn:E.
  - apply andb_true_iff in E as [E1%negb_true_iff%Z.eqb_neq E2%bool_decide_eq_true].
    rewrite Hseen in E2.
    destruct (IH ({[sourcePort p]} ∪ seen) (ports ++ [sourcePort p])) as [H1 H2].
    { apply NoDup_app. split_and!; [done|set_solver|apply NoDup_singleton]. }
    { intros x. rewrite elem_of_union, elem_of_singleton, elem_of_app, list_elem_of_singleton, Hseen. tauto. }
    split; [done|]. intros x. rewrite H2. set_solver.
  - destruct (IH seen ports Hnd Hseen) as [H1 H2]. split; [done|]. intros x. rewrite H2.
    apply andb_false_iff in E as [E%negb_false_iff%Z.eqb_eq|E%bool_decide_eq_false];
      [set_solver|].
    apply dec_stable in E. rewrite Hseen in E. set_solver.
Qed.

Lemma elem_of_SourcePorts ps x :
  x ∈ SourcePorts ps <-> x ≠ 0 /\ exists p, p ∈ ps /\ sourcePort p = x.
Proof.
  unfold SourcePorts. rewrite sort_ints_perm.
  destruct (addPort_inv ps ∅ []) as [_ H]; [constructor|set_solver|].
  rewrite H. set_solver.
Qed.

Lemma NoDup_SourcePorts ps : NoDup (SourcePorts ps).
Proof.
  unfold SourcePorts. rewrite sort_ints_perm.
  apply (addPort_inv ps ∅ []); [constructor|set_solver].
Qed.

(** The source ports of a spec are exactly the non-zero ports of its HTTP
    and OTel sources, each of them once, in increasing order. *)
Theorem SourcePorts_exact ps :
  StronglySorted Z.lt (SourcePorts ps) /\
  forall x, x ∈ SourcePorts ps <-> x ≠ 0 /\ exists p, p ∈ ps /\ sourcePort p = x.
Proof.
  split; [|apply elem_of_SourcePorts].
  pose proof (NoDup_SourcePorts ps) as Hnd.
  assert (Hs : StronglySorted Z.le (SourcePorts ps)) by apply sort_ints_sorted.
  revert Hnd. induction Hs as [|x l Hl IH Hx]; [constructor|].
  intros [Hnotin Hnd]%NoDup_cons. constructor; [by apply IH|].
  rewrite Forall_forall in Hx |- *. intros y Hy.
  assert (x ≠ y) by (intros ->; done). specialize (Hx y Hy). lia.
Qed.

(** The ports of the generated Service are pairwise different (which the
    API server requires) exactly when no HTTP or OTel source of the spec listens
    on 4900, the port of the metrics endpoint. *)
Theorem GenerateService_ports_distinct pipeline spec :
  NoDup (SP_Port <$> Svc_Ports (Svc_Spec (GenerateService pipeline spec))) <->
  forall p, p ∈ Spec_Pipelines spec -> sourcePort p ≠ 4900.
Proof.
  unfold GenerateService, servicePorts; simpl.
  rewrite <-list_fmap_compose, (list_fmap_ext _ id) by done.
  rewrite list_fmap_id, NoDup_cons, elem_of_SourcePorts.
  pose proof (NoDup_SourcePorts (Spec_Pipelines spec)). split; [|by naive_solver].
  intros [Hn _] p Hp He. apply Hn. split; [lia|]. eauto.
Qed.

(** ** Labels and annotations *)

Lemma maps_Copy_onto_empty (m : gmap string string) : maps_Copy ∅ m = m.
Proof. apply (right_id_L ∅ (∪)). Qed.

Lemma subseteq_maps_Copy (dst src : gmap string string) :
  dst ⊆ maps_Copy dst src <->
  forall k v w, dst !! k = Some v -> src !! k = Some w -> w = v.
Proof.
  rewrite map_subseteq_spec. split.
  - intros H k v w Hv Hw. specialize (H k v Hv). rewrite lookup_maps_Copy, Hw in H. congruence.
  - intros H k v Hv. rewrite lookup_maps_Copy. destruct (src !! k) eqn:E; [|done].
    f_equal. eauto.
Qed.

(** What the selectors ask for is part of what every generated object carries. *)
Lemma SelectorLabels_common name : SelectorLabels name ⊆ CommonLabels name.
Proof. apply insert_subseteq. by rewrite lookup_insert_ne, lookup_singleton_ne. Qed.

(** C40: every pod of the generated Deployment carries the labels that the
    Deployment, both Services and the PodDisruptionBudget select on, exactly when
    the user's [podLabels] do not give one of the two selector keys another
    value. The ServiceMonitor selects the pipeline's Service in its namespace, by
    the labels that Service carries, and scrapes a port of it by name: the
    metrics port, which the headless Service (which carries the same labels) does
    not have, so that each pod is scraped once. *)
Theorem selector_matches_pods pipeline spec replicas pf hash :
  let name := Meta_Name (P_Meta pipeline) in
  let d := Dep_Spec (GenerateDeployment pipeline spec replicas pf hash) in
  (DS_Selector d ⊆ Pod_Labels (DS_Template d) <->
   (forall v, Spec_PodLabels spec !! NameLabel = Some v -> v = "data-prepper") /\
   (forall v, Spec_PodLabels spec !! InstanceLabel = Some v -> v = name)) /\
  DS_Selector d = Svc_Selector (Svc_Spec (GenerateService pipeline spec)) /\
  DS_Selector d = Svc_Selector (Svc_Spec (GenerateHeadlessService pipeline)) /\
  DS_Selector d = PDB_Selector (PDB_Spec (GeneratePDB pipeline replicas)) /\
  let service := GenerateService pipeline spec in
  let headless := GenerateHeadlessService pipeline in
  let monitor := GenerateServiceMonitor pipeline spec in
  Meta_Namespace (SMO_Meta monitor) = Meta_Namespace (Svc_Meta service) /\
  (exists labels, Meta_Labels (Svc_Meta service) = Some labels /\
     SMO_Selector (SMO_Spec monitor) ⊆ labels) /\
  exists port interval,
    SMO_Endpoints (SMO_Spec monitor) = [mkEndpoint port "/metrics/prometheus" interval] /\
    mkServicePort port 4900 4900 ∈ Svc_Ports (Svc_Spec service) /\
    port ∉ SP_Name <$> Svc_Ports (Svc_Spec headless).
Proof.
  intros name d. split; [|do 3 (split; [done|]); intros service headless monitor;
    split; [done|]; split; [by eexists; split; [done|apply SelectorLabels_common]|];
    eexists _, _; split; [done|]; set_solver].
  subst d. simpl. fold name.
  rewrite maps_Copy_onto_empty, subseteq_maps_Copy. unfold SelectorLabels. split.
  - intros H. split; intros v Hv.
    + by apply (H NameLabel "data-prepper" v).
    + by apply (H InstanceLabel name v).
  - intros [H1 H2] k v w. rewrite lookup_insert, lookup_singleton.
    repeat case_decide; subst; intros [= <-]; eauto.
Qed.

(** The pod template carries the configuration hash, so that a change of the
    hash rolls the pods, exactly when the user's [podAnnotations] do not set the
    operator's annotation themselves. *)
Theorem config_hash_rolls_pods pipeline spec replicas pf hash1 hash2 :
  hash1 ≠ hash2 ->
  Dep_Spec (GenerateDeployment pipeline spec replicas pf hash1) ≠
  Dep_Spec (GenerateDeployment pipeline spec replicas pf hash2) <->
  Spec_PodAnnotations spec !! ConfigHashAnnotation = None.
Proof.
  intros Hne. split.
  - intros Hd. destruct (Spec_PodAnnotations spec !! ConfigHashAnnotation) as [v|] eqn:E; [|done].
    exfalso. apply Hd. unfold GenerateDeployment.
    enough (maps_Copy {[ConfigHashAnnotation := hash1]} (Spec_PodAnnotations spec) =
            maps_Copy {[ConfigHashAnnotation := hash2]} (Spec_PodAnnotations spec)) as -> by done.
    apply map_eq. intros k. rewrite !lookup_maps_Copy.
    destruct (Spec_PodAnnotations spec !! k) eqn:Ek; simpl; [done|].
    rewrite !lookup_singleton_ne by (intros <-; congruence). done.
  - intros E Heq.
    apply (f_equal (fun d => Pod_Annotations (DS_Template d) !! ConfigHashAnnotation)) in Heq.
    simpl in Heq. rewrite !lookup_maps_Copy, E in Heq. simpl in Heq.
    rewrite !lookup_singleton_eq in Heq. congruence.
Qed.

Lemma config_hash_rolls_pods_witness :
  Spec_PodAnnotations zero_PipelineSpec !! ConfigHashAnnotation = None /\
  Dep_Spec (GenerateDeployment (mkDataPrepperPipeline zero_ObjectMeta zero_PipelineSpec zero_PipelineStatus)
              zero_PipelineSpec 1 false "a") ≠
  Dep_Spec (GenerateDeployment (mkDataPrepperPipeline zero_ObjectMeta zero_PipelineSpec zero_PipelineStatus)
              zero_PipelineSpec 1 false "b").
Proof.
  split; [done|].
  apply (config_hash_rolls_pods
           (mkDataPrepperPipeline zero_ObjectMeta zero_PipelineSpec zero_PipelineStatus)
           zero_PipelineSpec 1 false "a" "b"); done.
Defined.

(** ** Credentials

    The loops of [credentialEnvVars] visit the credential references of a spec in
    one order; the early exits do not change the result.  [credentials] lists
    the references in that order. *)

Inductive CredKind := CredKafka | CredOpenSearch | CredS3.

#[export] Instance CredKind_eq_dec : EqDecision CredKind.
Proof. solve_decision. Defined.

Definition cred (k : CredKind) (ref : option SecretReference) : list (CredKind * string) :=
  match ref with Some r => [(k, Secret_Name r)] | None => [] end.

Definition sinkCredentials (s : SinkSpec) : list (CredKind * string) :=
  cred CredKafka (kafkaSinkRef s) ++ cred CredOpenSearch (openSearchSinkRef s) ++
  cred CredS3 (s3SinkRef s).

Definition credentials (pipelines : list PipelineDefinition) : list (CredKind * string) :=
  pipelines ≫= (fun p => cred CredKafka (kafkaSourceRef p) ++ cred CredS3 (s3SourceRef p) ++
                         (PD_Sink p ≫= sinkCredentials)).

Definition credEnv (k : CredKind) : string -> list EnvVar :=
  match k with CredKafka => kafkaEnv | CredOpenSearch => openSearchEnv | CredS3 => s3Env end.

(** The secret of the first reference of a kind. *)
Definition firstOf (k : CredKind) (l : list (CredKind * string)) : option string :=
  head (omap (fun c => if decide (c.1 = k) then Some c.2 else None) l).

Definition addCred (st : EnvState) (c : CredKind * string) : EnvState :=
  let ref := Some (mkSecretReference c.2 "") in
  match c.1 with
  | CredKafka => addKafka ref st
  | CredOpenSearch => addOpenSearch ref st
  | CredS3 => addS3 ref st
  end.

Lemma foldl_cred k ref st :
  foldl addCred st (cred k ref) =
  match k with CredKafka => addKafka | CredOpenSearch => addOpenSearch | CredS3 => addS3 end ref st.
Proof. by destruct k, ref. Qed.

Lemma addCred_allFound l st : allFound st = true -> foldl addCred st l = st.
Proof.
  intros H. induction l as [|[k n] l IH]; simpl; [done|].
  destruct st as [envs a b c]; unfold allFound in H; simpl in H.
  destruct k, a, b, c; simpl in *; done.
Qed.

Lemma envOfSinks_foldl sinks st :
  envOfSinks st sinks = foldl addCred st (sinks ≫= sinkCredentials).
Proof.
  revert st. induction sinks as [|s sinks IH]; intros st; simpl; [done|].
  unfold sinkCredentials at 1. rewrite !foldl_app, !foldl_cred, <-IH.
  destruct (allFound _) eqn:E; [|done]. by rewrite IH, addCred_allFound.
Qed.

Lemma envOfPipelines_foldl ps st :
  envOfPipelines st ps = foldl addCred st (credentials ps).
Proof.
  revert st. induction ps as [|p ps IH]; intros st; simpl; [done|].
  rewrite !foldl_app, !foldl_cred, <-envOfSinks_foldl. fold (credentials ps). rewrite <-IH.
  destruct (allFound _) eqn:E; [|done]. by rewrite IH, addCred_allFound.
Qed.

Definition found (k : CredKind) (st : EnvState) : bool :=
  match k with
  | CredKafka => ES_kafkaFound st | CredOpenSearch => ES_osFound st | CredS3 => ES_s3Found st
  end.

Lemma firstOf_snoc k l c :
  firstOf k (l ++ [c]) =
  match firstOf k l with
  | Some n => Some n
  | None => if decide (c.1 = k) then Some c.2 else None
  end.
Proof.
  unfold firstOf. rewrite omap_app. simpl.
  destruct (omap _ l); simpl; [by case_decide|done].
Qed.

Lemma addCred_eq st k n :
  addCred st (k, n) =
  if found k st then st
  else let st' := mkEnvState (ES_envs st ++ credEnv k n) in
       match k with
       | CredKafka => st' true (ES_osFound st) (ES_s3Found st)
       | CredOpenSearch => st' (ES_kafkaFound st) true (ES_s3Found st)
       | CredS3 => st' (ES_kafkaFound st) (ES_osFound st) true
       end.
Proof. by destruct k. Qed.

Lemma credEnv_names k1 k2 n1 n2 e1 e2 :
  e1 ∈ credEnv k1 n1 -> e2 ∈ credEnv k2 n2 -> Env_Name e1 = Env_Name e2 -> k1 = k2.
Proof.
  destruct k1, k2; simpl; try done;
    (intros [->|[->|[]%elem_of_nil]%elem_of_cons]%elem_of_cons
            [->|[->|[]%elem_of_nil]%elem_of_cons]%elem_of_cons; done).
Qed.

Lemma foldl_addCred_spec l :
  let st := foldl addCred (mkEnvState [] false false false) l in
  (forall k, found k st = true <-> is_Some (firstOf k l)) /\
  (forall e, e ∈ ES_envs st <-> exists k n, firstOf k l = Some n /\ e ∈ credEnv k n) /\
  NoDup (Env_Name <$> ES_envs st).
Proof.
  induction l as [|[k n] l IH] using rev_ind; simpl.
  { split; [by intros [] ; (split; [|intros []])|split; [|constructor]]. intros e.
    split; [by intros ?%elem_of_nil|by intros (? & ? & ? & _)]. }
  rewrite foldl_snoc, addCred_eq.
  destruct (foldl addCred _ l) as [envs a b c] eqn:Est. simpl in IH.
  destruct IH as (Hf & Hin & Hnd). setoid_rewrite firstOf_snoc. simpl.
  destruct (found k _) eqn:Hk.
  { apply Hf in Hk. assert (Heq : forall k', match firstOf k' l with Some n' => Some n'
      | None => if decide (k = k') then Some n else None end = firstOf k' l).
    { intros k'. destruct (firstOf k' l) eqn:E; [done|]. case_decide; [|done]. subst.
      rewrite E in Hk. by destruct Hk. }
    simpl. setoid_rewrite Heq. done. }
  apply not_true_iff_false in Hk. rewrite Hf, <-eq_None_not_Some in Hk.
  split; [|split].
  - intros k'. specialize (Hf k').
    destruct (decide (k = k')) as [->|Hne].
    + rewrite Hk. by destruct k'.
    + transitivity (is_Some (firstOf k' l)); [|by destruct (firstOf k' l)].
      rewrite <-Hf. by destruct k, k'.
  - intros e. transitivity (e ∈ envs ++ credEnv k n); [by destruct k|].
    rewrite elem_of_app, Hin. split.
    + intros [(k' & n' & Hk' & He)|He]; [exists k', n'; by rewrite Hk'|].
      exists k, n. rewrite Hk, decide_True by done. done.
    + intros (k' & n' & Hk' & He). destruct (firstOf k' l) eqn:E; [left; naive_solver|].
      case_decide; [|done]. right. naive_solver.
  - enough (NoDup (Env_Name <$> (envs ++ credEnv k n))) as H by (by destruct k).
    rewrite fmap_app, NoDup_app. split_and!; [done| |].
    + intros x (e & -> & He)%list_elem_of_fmap (e' & Hx & He')%list_elem_of_fmap.
      apply Hin in He as (k' & n' & Hk' & He).
      pose proof (credEnv_names _ _ _ _ _ _ He He' Hx) as ->. congruence.
    + destruct k; simpl; apply NoDup_cons; (split; [set_solver|apply NoDup_singleton]).
Qed.

Lemma credentialEnvVars_eq ps :
  credentialEnvVars ps = ES_envs (foldl addCred (mkEnvState [] false false false) (credentials ps)).
Proof. unfold credentialEnvVars. by rewrite envOfPipelines_foldl. Qed.

Lemma firstOf_elem k l n : firstOf k l = Some n -> (k, n) ∈ l.
Proof.
  unfold firstOf. intros Hh. destruct (omap _ l) as [|m ms] eqn:E; [done|]. injection Hh as ->.
  assert (Hn : n ∈ n :: ms) by left. rewrite <-E in Hn.
  apply list_elem_of_omap in Hn as ([k' n'] & Hin & Hd). simpl in Hd.
  case_decide; [|done]. simplify_eq. done.
Qed.

(** Every variable reads a secret the spec refers to. *)
Lemma credentialEnvVars_in ps e :
  e ∈ credentialEnvVars ps ->
  exists k n, (k, n) ∈ credentials ps /\ Env_SecretName e = n.
Proof.
  rewrite credentialEnvVars_eq. destruct (foldl_addCred_spec (credentials ps)) as (_ & H1 & _).
  rewrite H1. intros (k & n & Hf%firstOf_elem & He). exists k, n. split; [done|].
  destruct k; simpl in He; set_solver.
Qed.

(** the environment of the container holds, for each kind of credential
    (Kafka, OpenSearch, S3) that some source or sink of the spec refers to, the
    two variables of that kind read from the secret of the first reference, and
    nothing else; no variable is defined twice. *)
Theorem credentialEnvVars_exact ps :
  NoDup (Env_Name <$> credentialEnvVars ps) /\
  forall e, e ∈ credentialEnvVars ps <->
    exists k n, firstOf k (credentials ps) = Some n /\ e ∈ credEnv k n.
Proof.
  rewrite credentialEnvVars_eq. destruct (foldl_addCred_spec (credentials ps)) as (_ & H1 & H2).
  done.
Qed.

(** ** Hashes *)

(** The hash of a ConfigMap does not depend on the order in which Go's map
    iteration yields its keys. *)
Theorem HashOfData_deterministic data order :
  order ≡ₚ (map_to_list data).*1 ->
  HashOfData_order order data = HashOfData data.
Proof.
  intros Hp. unfold HashOfData, HashOfData_order. by rewrite (sort_strings_unique _ _ Hp).
Qed.

Lemma HashOfData_deterministic_witness :
  HashOfData_order ["b"; "a"] {["a" := "1"; "b" := "2"]} =
  HashOfData {["a" := "1"; "b" := "2"]}.
Proof.
  apply (HashOfData_deterministic {["a" := "1"; "b" := "2"]} ["b"; "a"]).
  vm_compute. apply perm_swap || done.
Defined.

(** Two different ConfigMaps whose hash inputs coincide: neither the keys nor
    the values are delimited. *)
Lemma hash_input_ambiguous :
  HashOfData {["a" := "bc"]} = HashOfData {["ab" := "c"]}.
Proof. vm_compute. reflexivity. Qed.

(** The input is unambiguous for the ConfigMaps the operator builds, which have
    one fixed key. *)
Lemma hash_input_one_key k v1 v2 :
  hash_writes {[k := v1]} [k] = hash_writes {[k := v2]} [k] -> v1 = v2.
Proof.
  unfold hash_writes, map_get; simpl. rewrite !lookup_singleton_eq. simpl.
  intros H. apply (f_equal bytes) in H. rewrite !bytes_app in H.
  apply app_inv_head, app_inv_tail in H. by apply bytes_inj.
Qed.

(** ** Disruption budget *)

(** With more than one replica (the only case in which the controller keeps
    the budget) the PodDisruptionBudget lets exactly one pod be disrupted, and it
    never asks for fewer than one available pod. *)
Theorem GeneratePDB_one_disruption pipeline replicas :
  in_int32 replicas ->
  let m := PDB_MinAvailable (PDB_Spec (GeneratePDB pipeline replicas)) in
  1 <= m /\ (1 < replicas -> replicas - m = 1).
Proof.
  intros H m. subst m. simpl. split; [lia|]. intros Hr.
  rewrite int32_id by (unfold in_int32 in *; lia). lia.
Qed.

Lemma GeneratePDB_one_disruption_witness :
  let p := mkDataPrepperPipeline zero_ObjectMeta zero_PipelineSpec zero_PipelineStatus in
  in_int32 4 /\ 4 - PDB_MinAvailable (PDB_Spec (GeneratePDB p 4)) = 1.
Proof.
  split; [unfold in_int32; lia|].
  apply (GeneratePDB_one_disruption
           (mkDataPrepperPipeline zero_ObjectMeta zero_PipelineSpec zero_PipelineStatus) 4);
    unfold in_int32; lia.
Defined.
