(* ===== verification/Clients.v ===== *)
(** * The Kafka and S3 clients: [internal/kafka/client.go], [internal/s3/client.go]

    The interfaces the operator programs against ([AdminClient], [S3Client]) and
    the logic of their implementations on top of the franz-go admin client and
    the AWS paginator, which are parameters. *)

From S2P Require Import Prelude Go Api.
#[local] Open Scope Z_scope.

(** ** Kafka *)

Module Kafka.

Record TopicInfo := mkTopicInfo { TI_Name : string; TI_Partitions : Z }.

(** The interface [AdminClient], without [Close]. *)
Record AdminClient := mkAdminClient {
  ListTopics : result (gmap string TopicInfo);
  GetPartitionCount : string -> result Z }.

Record Config := mkConfig {
  BootstrapServers : list string; Username : string; Password : string }.

Definition ClientFactory : Type := Config -> result AdminClient.

(** A topic as franz-go's [kadm.TopicDetail] describes it: [Partitions] is the
    number of entries of its partition map. *)
Record TopicDetail := mkTopicDetail {
  TD_Topic : string; TD_IsInternal : bool; TD_Partitions : Z }.

(** The operations of [kadm.Client] and [kadm.TopicDetails] that are used. *)
Record Kadm := mkKadm {
  kadm_ListTopics : list string -> result (gmap string TopicDetail);
  FilterInternal : gmap string TopicDetail -> gmap string TopicDetail;
  Sorted : gmap string TopicDetail -> list TopicDetail }.

(** Their documented behaviour: topics are keyed by their names, [FilterInternal]
    drops the internal ones, [Sorted] returns all of them. *)
Record KadmLaws (c : Kadm) : Prop := mkKadmLaws {
  kadm_keys topics m name td :
    kadm_ListTopics c topics = Ok m -> m !! name = Some td -> TD_Topic td = name;
  FilterInternal_spec m : FilterInternal c m = filter (fun '(_, td) => TD_IsInternal td = false) m;
  Sorted_perm m : Sorted c m ≡ₚ (map_to_list m).*2 }.

Definition topicInfo (td : TopicDetail) : TopicInfo :=
  mkTopicInfo (TD_Topic td) (int32 (TD_Partitions td)).

(** [func (c *adminClient) ListTopics]. *)
Definition adminClient_ListTopics (c : Kadm) : result (gmap string TopicInfo) :=
  topics ← wrap_err "list topics: %w" [] (kadm_ListTopics c []);
  let topics := FilterInternal c topics in
  Ok (foldl (fun result td => <[TD_Topic td := topicInfo td]> result) ∅ (Sorted c topics)).

(** [func (c *adminClient) GetPartitionCount]. *)
Definition adminClient_GetPartitionCount (c : Kadm) (topic : string) : result Z :=
  topics ← wrap_err "describe topic %q: %w" [AStr topic] (kadm_ListTopics c [topic]);
  match topics !! topic with
  | Some td => Ok (int32 (TD_Partitions td))
  | None => Err (Msg "topic %q not found" [AStr topic])
  end.

(** The [adminClient] behind the interface. *)
Definition adminClient (c : Kadm) : AdminClient :=
  mkAdminClient (adminClient_ListTopics c) (adminClient_GetPartitionCount c).

(** The options of [kgo.NewClient] that are used; durations in nanoseconds. *)
Inductive Opt :=
| SeedBrokers (brokers : list string)
| DialTimeout (d : Z)
| RequestTimeoutOverhead (d : Z)
| SASLPlain (user pass : string).

Definition adminOpts (cfg : Config) : list Opt :=
  [SeedBrokers (BootstrapServers cfg); DialTimeout (5 * 10 ^ 9); RequestTimeoutOverhead (10 * 10 ^ 9)] ++
  (if nonempty (Username cfg) then [SASLPlain (Username cfg) (Password cfg)] else []).

(** [NewAdminClient], over [kgo.NewClient] followed by [kadm.NewClient]. *)
Definition NewAdminClient (NewClient : list Opt -> result Kadm) : ClientFactory := fun cfg =>
  client ← wrap_err "create kafka client: %w" [] (NewClient (adminOpts cfg));
  Ok (adminClient client).

Lemma foldl_insert_lookup (l : list TopicDetail) (acc : gmap string TopicInfo) name :
  NoDup (TD_Topic <$> l) -> (forall td, td ∈ l -> acc !! TD_Topic td = None) ->
  forall i, foldl (fun result td => <[TD_Topic td := topicInfo td]> result) acc l !! name = Some i <->
    acc !! name = Some i \/ exists td, td ∈ l /\ TD_Topic td = name /\ topicInfo td = i.
Proof.
  revert acc. induction l as [|td l IH]; intros acc Hnd Hacc i; simpl; [set_solver|].
  simpl in Hnd. apply NoDup_cons in Hnd as [Hnotin Hnd].
  rewrite IH; [| done |].
  - rewrite lookup_insert. case_decide as Hd; [subst|set_solver].
    rewrite (Hacc td) by (by left). set_solver.
  - intros td' Hin. rewrite lookup_insert_ne; [by apply Hacc; right|].
    intros Heq. apply Hnotin. rewrite Heq. by apply list_elem_of_fmap_2.
Qed.

(** The topic listing of the Kafka client holds exactly the topics of the
    cluster that are not internal, each under its name with its partition count
    (as an [int32]); it fails exactly when the admin call fails. *)
Theorem ListTopics_exact c :
  KadmLaws c ->
  match kadm_ListTopics c [], adminClient_ListTopics c with
  | Err e, r => r = Err (Msg "list topics: %w" [AErr e])
  | Ok m, Ok topics =>
    forall name i, topics !! name = Some i <->
      exists td, m !! name = Some td /\ TD_IsInternal td = false /\ i = topicInfo td
  | Ok _, Err _ => False
  end.
Proof.
  intros [Hkeys Hfilter Hsorted]. unfold adminClient_ListTopics.
  destruct (kadm_ListTopics c []) as [m|e] eqn:E; simpl; [|done].
  rewrite Hfilter. set (f := filter _ m).
  assert (Hf : forall td, td ∈ Sorted c f <-> exists name, f !! name = Some td).
  { intros td. rewrite Hsorted, list_elem_of_fmap. split.
    - intros ([name td'] & -> & Hin%elem_of_map_to_list). by exists name.
    - intros [name Hn]. exists (name, td). by rewrite elem_of_map_to_list. }
  assert (Hname : forall name td, f !! name = Some td -> TD_Topic td = name).
  { intros name td [Hn _]%map_lookup_filter_Some. eauto. }
  intros name i. rewrite foldl_insert_lookup.
  - setoid_rewrite Hf. rewrite lookup_empty. split.
    + intros [?|(td & (name' & Hn) & Ht & Hi)]; [done|].
      pose proof (Hname _ _ Hn). subst. exists td.
      apply map_lookup_filter_Some in Hn as [Hn Hint]. done.
    + intros (td & Hn & Hint & ->). right. exists td. split_and!; [|by eauto|done].
      exists name. by apply map_lookup_filter_Some.
  - rewrite Hsorted. rewrite <-list_fmap_compose.
    rewrite (list_fmap_ext _ fst); [apply NoDup_fst_map_to_list|].
    intros j [name' td] Hj%list_elem_of_lookup_2%elem_of_map_to_list. simpl. eauto.
  - intros td _. apply lookup_empty.
Qed.

(** A cluster with an internal topic and two ordinary ones. *)
Definition example_kadm : Kadm := mkKadm
  (fun _ => Ok {["logs" := mkTopicDetail "logs" false 12;
                 "metrics" := mkTopicDetail "metrics" false 3;
                 "__consumer_offsets" := mkTopicDetail "__consumer_offsets" true 50]})
  (filter (fun '(_, td) => TD_IsInternal td = false))
  (fun m => (map_to_list m).*2).

Lemma example_kadm_laws : KadmLaws example_kadm.
Proof.
  split; [|done..]. intros topics m name td [= <-]. rewrite !lookup_insert, lookup_singleton.
  repeat case_decide; naive_solver.
Qed.

Lemma ListTopics_exact_witness :
  exists topics, adminClient_ListTopics example_kadm = Ok topics /\
    topics !! "logs" = Some (mkTopicInfo "logs" 12).
Proof.
  pose proof (ListTopics_exact example_kadm example_kadm_laws) as H.
  eexists. split; [reflexivity|]. simpl in H. apply H.
  exists (mkTopicDetail "logs" false 12). split; [reflexivity|]. split; reflexivity.
Defined.

End Kafka.

(** ** S3 *)

Module S3.

(** The interface [S3Client], without [Close]: bucket, prefix, delimiter. *)
Record S3Client := mkS3Client {
  ListPrefixes : string -> string -> string -> result (list string) }.

Record Config := mkConfig {
  Region : string; Endpoint : string; ForcePathStyle : bool;
  AccessKeyID : string; SecretAccessKey : string }.

Definition ClientFactory : Type := Config -> result S3Client.

(** The pages of [s3.NewListObjectsV2Paginator] for a request, in the order
    [NextPage] returns them: the [CommonPrefixes] of each page, whose [Prefix]
    may be nil. *)
Definition Paginator : Type := string -> string -> string -> list (result (list (option string))).

(** The loop over the pages. *)
Fixpoint collectPrefixes (prefixes : list string) (pages : list (result (list (option string))))
    : result (list string) :=
  match pages with
  | [] => Ok prefixes
  | page :: pages =>
    page ← wrap_err "list objects v2: %w" [] page;
    collectPrefixes (prefixes ++ omap id page) pages
  end.

(** [func (c *s3Client) ListPrefixes]. *)
Definition s3Client_ListPrefixes (paginator : Paginator) (bucket prefix delimiter : string)
    : result (list string) :=
  collectPrefixes [] (paginator bucket prefix delimiter).

(** The [s3Client] behind the interface. *)
Definition s3Client (paginator : Paginator) : S3Client := mkS3Client (s3Client_ListPrefixes paginator).

(** The options of [awsconfig.LoadDefaultConfig] that are used, and the fields of
    [s3.Options] that are set. *)
Inductive LoadOption :=
| WithRegion (region : string)
| WithStaticCredentials (key secret session : string).

Record Options := mkOptions { BaseEndpoint : option string; UsePathStyle : bool }.

Definition loadOptions (cfg : Config) : list LoadOption :=
  (if nonempty (Region cfg) then [WithRegion (Region cfg)] else []) ++
  (if nonempty (AccessKeyID cfg)
   then [WithStaticCredentials (AccessKeyID cfg) (SecretAccessKey cfg) ""] else []).

Definition s3Options (cfg : Config) : list (Options -> Options) :=
  if nonempty (Endpoint cfg)
  then [fun _ => mkOptions (Some (Endpoint cfg)) (ForcePathStyle cfg)] else [].

(** [NewS3Client], over [awsconfig.LoadDefaultConfig] and [s3.NewFromConfig]. *)
Definition NewS3Client {AwsConfig : Type} (LoadDefaultConfig : list LoadOption -> result AwsConfig)
    (NewFromConfig : AwsConfig -> list (Options -> Options) -> Paginator) : ClientFactory := fun cfg =>
  awsCfg ← wrap_err "load aws config: %w" [] (LoadDefaultConfig (loadOptions cfg));
  Ok (s3Client (NewFromConfig awsCfg (s3Options cfg))).

(** Path-style addressing is ignored unless an endpoint is given. *)
Example path_style_needs_endpoint region key secret :
  s3Options (mkConfig region "" true key secret) = [].
Proof. reflexivity. Qed.

Lemma collectPrefixes_Ok pages prefixes l :
  collectPrefixes prefixes pages = Ok l <->
  exists ps, Forall2 (fun page p => page = Ok p) pages ps /\ l = prefixes ++ (ps ≫= omap id).
Proof.
  revert prefixes. induction pages as [|[page|e] pages IH]; intros prefixes; simpl.
  - split; [intros [= <-]; exists []; by rewrite app_nil_r|].
    intros (ps & ->%Forall2_nil_inv_l & ->). by rewrite app_nil_r.
  - rewrite IH. split.
    + intros (ps & H & ->). exists (page :: ps). split; [by constructor|].
      simpl. by rewrite app_assoc.
    + intros (ps & (p & ps' & [= <-] & H & ->)%Forall2_cons_inv_l & ->).
      exists ps'. split; [done|]. simpl. by rewrite app_assoc.
  - split; [done|]. by intros (ps & (p & ps' & ? & _)%Forall2_cons_inv_l & _).
Qed.

(** Listing prefixes succeeds exactly when every page can be read, and then
    returns the non-nil prefixes of all pages, in order and none dropped. *)
Theorem ListPrefixes_all_pages paginator bucket prefix delimiter l :
  s3Client_ListPrefixes paginator bucket prefix delimiter = Ok l <->
  exists pages, Forall2 (fun page p => page = Ok p) (paginator bucket prefix delimiter) pages /\
    l = pages ≫= omap id.
Proof. unfold s3Client_ListPrefixes. by rewrite collectPrefixes_Ok. Qed.

End S3.
