(* ===== verification/Discovery.v ===== *)
(** * Source discovery: [internal/discovery/kafka.go], [internal/discovery/s3.go]

    A discoverer lists the sources of an external system (topics of a Kafka
    cluster, prefixes of an S3 bucket), filters them and returns them sorted by
    name. *)

From S2P Require Import Prelude Go Glob Api Clients.
#[local] Open Scope Z_scope.

Record DiscoveredSource := mkDiscoveredSource {
  DS_Name : string; DS_Metadata : gmap string any }.

(** [slices.SortFunc(sources, ...)] by name.  The Go function is not stable, so
    that sources with equal names may come in any order: it is any function that
    returns a sorted permutation. *)
Record SortByName (sort : list DiscoveredSource -> list DiscoveredSource) : Prop := mkSortByName {
  sort_perm l : sort l ≡ₚ l;
  sort_sorted l : StronglySorted String.le (DS_Name <$> sort l) }.

(** [filepath.Match(pattern, name)] for any of the patterns; a malformed pattern
    is skipped. *)
Definition isExcluded (patterns : list string) (name : string) : bool :=
  existsb (fun pattern => match Match pattern name with Ok matched => matched | Err _ => false end)
    patterns.

(** ** Kafka *)

Record KafkaDiscoverer := mkKafkaDiscoverer {
  KD_Client : option Kafka.AdminClient;
  KD_Prefix : string;
  KD_ExcludePatterns : list string }.

Section discover.
Variable sort : list DiscoveredSource -> list DiscoveredSource.

(** The body of the loop over the topics. *)
Definition topicSource (d : KafkaDiscoverer) (entry : string * Kafka.TopicInfo)
    : option DiscoveredSource :=
  let '(name, info) := entry in
  if negb (HasPrefix name (KD_Prefix d)) then None
  else if isExcluded (KD_ExcludePatterns d) name then None
  else Some (mkDiscoveredSource name {["partitions" := VInt (Kafka.TI_Partitions info)]}).

(** [order] is the order in which the [range] loop over the map of topics
    yields its entries. *)
Definition topicSources (d : KafkaDiscoverer) (order : list (string * Kafka.TopicInfo))
    : list DiscoveredSource := sort (omap (topicSource d) order).

Definition KafkaDiscover (d : KafkaDiscoverer) : result (list DiscoveredSource) :=
  match KD_Client d with
  | None => Err (Msg "kafka admin client is nil" [])
  | Some client =>
    topics ← wrap_err "list kafka topics: %w" [] (Kafka.ListTopics client);
    Ok (topicSources d (map_to_list topics))
  end.

(** ** S3 *)

Record SQSQueueMapping := mkSQSQueueMapping {
  SQM_QueueURLTemplate : string; SQM_Overrides : gmap string string }.

Record S3Discoverer := mkS3Discoverer {
  SD_Client : option S3.S3Client;
  SD_Bucket : string;
  SD_Region : string;
  SD_Prefix : string;
  SD_Depth : Z;
  SD_ExcludePatterns : list string;
  SD_SQSMapping : option SQSQueueMapping }.

(** ["logs/service-a/" -> "logs-service-a"]. *)
Definition prefixToName (prefix : string) : string :=
  ReplaceAll (TrimSuffix prefix "/") "/" "-".

Definition resolveSQSQueue (d : S3Discoverer) (prefix : string) : string :=
  match SD_SQSMapping d with
  | None => ""
  | Some m =>
    match SQM_Overrides m !! prefix with
    | Some url => url
    | None =>
      if nonempty (SQM_QueueURLTemplate m)
      then ReplaceAll (SQM_QueueURLTemplate m) "{{prefix}}" (prefixToName prefix)
      else ""
    end
  end.

(** [ctxErr depth prefix] is [ctx.Err()] at the call for that prefix. *)
Fixpoint listAtDepth (ctxErr : nat -> string -> option error) (client : S3.S3Client)
    (bucket : string) (depth : nat) (prefix : string) : result (list string) :=
  match ctxErr depth prefix with
  | Some e => Err e
  | None =>
    prefixes ← S3.ListPrefixes client bucket prefix "/";
    match depth with
    | S (S _ as depth') =>
      sub ← map_res (listAtDepth ctxErr client bucket depth') prefixes;
      Ok (concat sub)
    | _ => Ok prefixes
    end
  end.

Definition prefixSource (d : S3Discoverer) (prefix : string) : option DiscoveredSource :=
  let name := prefixToName prefix in
  if isExcluded (SD_ExcludePatterns d) name then None
  else
    let metadata := {["bucket" := VStr (SD_Bucket d); "prefix" := VStr prefix;
                      "region" := VStr (SD_Region d)]} in
    Some (mkDiscoveredSource name
            (match SD_SQSMapping d with
             | Some _ => <["sqsQueueUrl" := VStr (resolveSQSQueue d prefix)]> metadata
             | None => metadata
             end)).

Definition S3Discover (ctxErr : nat -> string -> option error) (d : S3Discoverer)
    : result (list DiscoveredSource) :=
  match SD_Client d with
  | None => Err (Msg "s3 client is nil" [])
  | Some client =>
    let depth := Z.max (SD_Depth d) 1 in
    prefixes ← wrap_err "list s3 prefixes: %w" []
      (listAtDepth ctxErr client (SD_Bucket d) (Z.to_nat depth) (SD_Prefix d));
    Ok (sort (omap (prefixSource d) prefixes))
  end.
End discover.

(** * Properties *)

Lemma isExcluded_true patterns name :
  isExcluded patterns name = true <-> exists p, p ∈ patterns /\ Match p name = Ok true.
Proof.
  unfold isExcluded. rewrite existsb_exists. setoid_rewrite <-list_elem_of_In.
  split; intros (p & Hp & Hm); exists p; (split; [done|]); [|by rewrite Hm].
  by destruct (Match p name) as [[]|].
Qed.

Section kafka.
Context (sort : list DiscoveredSource -> list DiscoveredSource) (Hsort : SortByName sort).

Lemma elem_of_topicSources d order s :
  s ∈ topicSources sort d order <->
  exists name info, (name, info) ∈ order /\ HasPrefix name (KD_Prefix d) = true /\
    isExcluded (KD_ExcludePatterns d) name = false /\
    s = mkDiscoveredSource name {["partitions" := VInt (Kafka.TI_Partitions info)]}.
Proof.
  unfold topicSources. rewrite (sort_perm _ Hsort), list_elem_of_omap. split.
  - intros ([name info] & Hin & Hs). exists name, info. unfold topicSource in Hs.
    destruct (HasPrefix _ _); [|done]. simpl in Hs.
    destruct (isExcluded _ _); [done|]. by injection Hs as <-.
  - intros (name & info & Hin & Hp & Hx & ->). exists (name, info). split; [done|].
    simpl. by rewrite Hp, Hx.
Qed.

Lemma names_NoDup d order :
  NoDup order.*1 -> NoDup (DS_Name <$> omap (topicSource d) order).
Proof.
  induction order as [|[name info] order IH]; simpl; [constructor|].
  intros [Hnotin Hnd]%NoDup_cons. specialize (IH Hnd).
  destruct (negb _); [done|]. destruct (isExcluded _ _); [done|]. simpl. apply NoDup_cons.
  split; [|done]. intros (s & -> & Hs)%list_elem_of_fmap. apply Hnotin.
  apply list_elem_of_omap in Hs as ([n i] & Hin & Hsome). simpl in Hsome.
  destruct (negb _); [done|]. destruct (isExcluded _ _); [done|]. injection Hsome as <-.
  simpl. by apply (list_elem_of_fmap_2 fst) in Hin.
Qed.

Lemma sorted_sources_unique (l1 l2 : list DiscoveredSource) :
  l1 ≡ₚ l2 -> NoDup (DS_Name <$> l1) ->
  StronglySorted String.le (DS_Name <$> l1) -> StronglySorted String.le (DS_Name <$> l2) -> l1 = l2.
Proof.
  intros Hp Hnd H1 H2.
  assert (Hsf : forall l, StronglySorted String.le (DS_Name <$> l) ->
    StronglySorted (fun a b => String.le (DS_Name a) (DS_Name b)) l).
  { induction l as [|x l IH]; simpl; [constructor|].
    intros [Hs Hf]%StronglySorted_inv. constructor; [by apply IH|]. apply (Forall_fmap DS_Name) in Hf. exact Hf. }
  eapply StronglySorted_unique_strong; [|by apply Hsf|by apply Hsf|done].
  intros x1 x2 Hx1 Hx2 Hle1 Hle2. rewrite <-Hp in Hx2.
  assert (Hn : DS_Name x1 = DS_Name x2) by (by apply (anti_symm String.le)).
  apply list_elem_of_lookup in Hx1 as [i Hi], Hx2 as [j Hj].
  assert (i = j) as ->; [|congruence].
  eapply (NoDup_lookup (DS_Name <$> l1)); [done|..]; rewrite list_lookup_fmap.
  - by rewrite Hi.
  - rewrite Hj. simpl. by rewrite Hn.
Qed.

(** C25: Kafka discovery returns exactly the topics that have the prefix and match
    no exclude pattern, each with its partition count, sorted by name without
    repetition; the result depends neither on the order in which Go iterates
    over the topics nor on the sorting algorithm. *)
Theorem KafkaDiscover_exact d client topics :
  KD_Client d = Some client -> Kafka.ListTopics client = Ok topics ->
  exists sources, KafkaDiscover sort d = Ok sources /\
    StronglySorted String.le (DS_Name <$> sources) /\ NoDup (DS_Name <$> sources) /\
    (forall s, s ∈ sources <->
       exists name info, topics !! name = Some info /\ HasPrefix name (KD_Prefix d) = true /\
         (forall p, p ∈ KD_ExcludePatterns d -> Match p name ≠ Ok true) /\
         s = mkDiscoveredSource name {["partitions" := VInt (Kafka.TI_Partitions info)]}) /\
    (forall sort' order, SortByName sort' -> order ≡ₚ map_to_list topics ->
       topicSources sort' d order = sources).
Proof.
  intros Hc Ht. unfold KafkaDiscover. rewrite Hc, Ht. simpl.
  eexists. split; [done|].
  assert (Hnd : forall order, order ≡ₚ map_to_list topics ->
    NoDup (DS_Name <$> omap (topicSource d) order)).
  { intros order Ho. apply names_NoDup. rewrite Ho. apply NoDup_fst_map_to_list. }
  split_and!.
  - apply (sort_sorted _ Hsort).
  - unfold topicSources. rewrite (sort_perm _ Hsort). by apply Hnd.
  - intros s. rewrite elem_of_topicSources. setoid_rewrite elem_of_map_to_list.
    assert (Hx : forall name, isExcluded (KD_ExcludePatterns d) name = false <->
      forall p, p ∈ KD_ExcludePatterns d -> Match p name ≠ Ok true).
    { intros name. rewrite <-not_true_iff_false, isExcluded_true. naive_solver. }
    by setoid_rewrite Hx.
  - intros sort' order Hsort' Ho. apply sorted_sources_unique; unfold topicSources.
    + by rewrite (sort_perm _ Hsort'), (sort_perm _ Hsort), Ho.
    + rewrite (sort_perm _ Hsort'). by apply Hnd.
    + apply (sort_sorted _ Hsort').
    + apply (sort_sorted _ Hsort).
Qed.
End kafka.

(** Sorting by name with the standard merge sort is such a sort. *)
Definition merge_by_name : list DiscoveredSource -> list DiscoveredSource :=
  merge_sort (fun a b => String.le (DS_Name a) (DS_Name b)).

Lemma merge_by_name_sorts : SortByName merge_by_name.
Proof.
  split; intros l; [apply merge_sort_Permutation|].
  assert (Hs : StronglySorted (fun a b => String.le (DS_Name a) (DS_Name b)) (merge_by_name l)).
  { apply StronglySorted_merge_sort; [intros a b c; apply (transitivity (R := String.le))|].
    intros a b. apply (total String.le). }
  induction Hs as [|x xs Hs IH Hx]; simpl; [constructor|]. constructor; [done|]. apply (Forall_fmap DS_Name). exact Hx.
Qed.

Lemma KafkaDiscover_exact_witness :
  exists sources,
    KafkaDiscover merge_by_name (mkKafkaDiscoverer (Some (Kafka.adminClient Kafka.example_kadm)) "" ["met*"])
      = Ok sources /\ DS_Name <$> sources = ["logs"].
Proof.
  destruct (KafkaDiscover_exact merge_by_name merge_by_name_sorts
    (mkKafkaDiscoverer (Some (Kafka.adminClient Kafka.example_kadm)) "" ["met*"])
    (Kafka.adminClient Kafka.example_kadm)
    {["logs" := Kafka.mkTopicInfo "logs" 12; "metrics" := Kafka.mkTopicInfo "metrics" 3]})
    as (sources & H & _).
  - reflexivity.
  - vm_compute. reflexivity.
  - exists sources. split; [exact H|]. vm_compute in H. injection H as <-. reflexivity.
Defined.

(** ** Prefixes at a depth *)

Section s3.
Context (sort : list DiscoveredSource -> list DiscoveredSource) (Hsort : SortByName sort).
Context (client : S3.S3Client) (bucket : string).

(** [at_depth n p q]: [q] is reached from [p] by [n] listings with the delimiter
    ["/"]. *)
Inductive at_depth : nat -> string -> string -> Prop :=
| at_depth_one p l q : S3.ListPrefixes client bucket p "/" = Ok l -> q ∈ l -> at_depth 1 p q
| at_depth_more n p l r q :
    S3.ListPrefixes client bucket p "/" = Ok l -> r ∈ l -> at_depth n r q -> at_depth (S n) p q.

Lemma listAtDepth_step ctxErr n p :
  listAtDepth ctxErr client bucket (S (S n)) p =
  match ctxErr (S (S n)) p with
  | Some e => Err e
  | None =>
    prefixes ← S3.ListPrefixes client bucket p "/";
    sub ← map_res (listAtDepth ctxErr client bucket (S n)) prefixes;
    Ok (concat sub)
  end.
Proof. done. Qed.

Lemma at_depth_pos n p q : at_depth n p q -> (1 <= n)%nat.
Proof. induction 1; lia. Qed.

Lemma listAtDepth_Ok ctxErr n p l :
  listAtDepth ctxErr client bucket (S n) p = Ok l -> forall q, q ∈ l <-> at_depth (S n) p q.
Proof.
  revert p l. induction n as [|n IH]; intros p l.
  - simpl. destruct (ctxErr 1%nat p); [done|].
    destruct (S3.ListPrefixes client bucket p "/") as [ps|] eqn:E; [|done]. intros [= <-] q.
    split; [by apply at_depth_one|]. inversion 1 as [? ? ? E'|n ? ? r ? E' _ Hd]; subst.
    + congruence.
    + apply at_depth_pos in Hd. lia.
  - rewrite listAtDepth_step. destruct (ctxErr _ p); [done|].
    destruct (S3.ListPrefixes client bucket p "/") as [ps|] eqn:E; [|done]. simpl.
    destruct (map_res _ ps) as [subs|] eqn:Es; [|done]. intros [= <-] q.
    apply map_res_Ok in Es. rewrite list_elem_of_In, in_concat. split.
    + intros (sub & Hsub%list_elem_of_In & Hq%list_elem_of_In).
      apply list_elem_of_lookup in Hsub as [i Hi].
      destruct (Forall2_lookup_r _ _ _ _ _ Es Hi) as (r & Hr & Hl).
      apply at_depth_more with (l := ps) (r := r); [done|by eapply list_elem_of_lookup_2|].
      by apply (IH r sub).
    + inversion 1 as [|m ? l' r ? E' Hr Hd]; subst. assert (l' = ps) as -> by congruence.
      apply list_elem_of_lookup in Hr as [i Hi].
      destruct (Forall2_lookup_l _ _ _ _ _ Es Hi) as (sub & Hsub & Hl).
      exists sub. split; [by apply list_elem_of_In; eapply list_elem_of_lookup_2|].
      apply list_elem_of_In. by apply (IH r sub).
Qed.

Lemma listAtDepth_total ctxErr n p :
  (forall q, exists l, S3.ListPrefixes client bucket q "/" = Ok l) ->
  (forall d q, ctxErr d q = None) ->
  exists l, listAtDepth ctxErr client bucket (S n) p = Ok l.
Proof.
  intros Hl Hc. revert p. induction n as [|n IH]; intros p.
  - simpl. rewrite Hc. destruct (Hl p) as [l ->]. by eexists.
  - rewrite listAtDepth_step, Hc. destruct (Hl p) as [l ->]. unfold mbind, result_bind.
    destruct (map_res_total (listAtDepth ctxErr client bucket (S n)) l) as [subs ->];
      [intros; apply IH|]. by eexists.
Qed.

(** What a source found under the prefix [q] must say, in terms of the
    configuration alone: the templates of pipelines read these metadata. *)
Record source_of_prefix (d : S3Discoverer) (q : string) (s : DiscoveredSource) : Prop := {
  (** The prefix without its final slash, the other slashes as hyphens. *)
  sop_name : DS_Name s = ReplaceAll (TrimSuffix q "/") "/" "-";
  sop_bucket : DS_Metadata s !! "bucket" = Some (VStr (SD_Bucket d));
  sop_prefix : DS_Metadata s !! "prefix" = Some (VStr q);
  sop_region : DS_Metadata s !! "region" = Some (VStr (SD_Region d));
  (** The queue: none without a mapping, the override of this prefix first, then
      the template with its placeholder replaced by the source's name. *)
  sop_no_queue : SD_SQSMapping d = None -> DS_Metadata s !! "sqsQueueUrl" = None;
  sop_queue_override m url : SD_SQSMapping d = Some m -> SQM_Overrides m !! q = Some url ->
    DS_Metadata s !! "sqsQueueUrl" = Some (VStr url);
  sop_queue_template m : SD_SQSMapping d = Some m -> SQM_Overrides m !! q = None ->
    SQM_QueueURLTemplate m ≠ "" ->
    DS_Metadata s !! "sqsQueueUrl" =
      Some (VStr (ReplaceAll (SQM_QueueURLTemplate m) "{{prefix}}" (DS_Name s)));
  sop_queue_empty m : SD_SQSMapping d = Some m -> SQM_Overrides m !! q = None ->
    SQM_QueueURLTemplate m = "" -> DS_Metadata s !! "sqsQueueUrl" = Some (VStr "");
  sop_only : dom (DS_Metadata s) ⊆ {["bucket"; "prefix"; "region"; "sqsQueueUrl"]} }.

Lemma prefixSource_spec d q s : prefixSource d q = Some s -> source_of_prefix d q s.
Proof.
  unfold prefixSource. destruct (isExcluded _ _); [done|]. intros [= <-].
  constructor; simpl; unfold resolveSQSQueue; destruct (SD_SQSMapping d) as [m|]; try done;
    try (by simplify_map_eq); try set_solver.
  - intros m' url [= <-] ->. by simplify_map_eq.
  - intros m' [= <-] -> Hne. apply nonempty_true in Hne as ->. by simplify_map_eq.
  - intros m' [= <-] -> ->. by simplify_map_eq.
Qed.

(** A prefix is skipped exactly when its name matches an exclude pattern. *)
Lemma prefixSource_kept d q s : prefixSource d q = Some s ->
  forall pattern, pattern ∈ SD_ExcludePatterns d -> Match pattern (prefixToName q) ≠ Ok true.
Proof.
  unfold prefixSource. destruct (isExcluded _ _) eqn:E; [done|]. intros _ pattern Hp Hm.
  apply not_true_iff_false in E. apply E, isExcluded_true. by exists pattern.
Qed.

Lemma prefixSource_total d q :
  (forall pattern, pattern ∈ SD_ExcludePatterns d -> Match pattern (prefixToName q) ≠ Ok true) ->
  exists s, prefixSource d q = Some s.
Proof.
  intros H. unfold prefixSource. destruct (isExcluded _ _) eqn:E; [|by eexists].
  apply isExcluded_true in E as (pattern & Hp & Hm). by destruct (H pattern Hp).
Qed.

(** The description leaves no freedom. *)
Lemma source_of_prefix_unique d q s s' : source_of_prefix d q s -> source_of_prefix d q s' -> s = s'.
Proof.
  intros H H'. enough (DS_Metadata s = DS_Metadata s').
  { pose proof (sop_name _ _ _ H). pose proof (sop_name _ _ _ H').
    destruct s, s'; simpl in *; congruence. }
  apply map_eq. intros k.
  destruct (decide (k ∈ (({["bucket"; "prefix"; "region"; "sqsQueueUrl"]}) : gset string))) as [Hk|Hk].
  - rewrite !elem_of_union, !elem_of_singleton in Hk. destruct Hk as [[[->| ->]| ->]| ->].
    + by rewrite (sop_bucket _ _ _ H), (sop_bucket _ _ _ H').
    + by rewrite (sop_prefix _ _ _ H), (sop_prefix _ _ _ H').
    + by rewrite (sop_region _ _ _ H), (sop_region _ _ _ H').
    + destruct (SD_SQSMapping d) as [m|] eqn:Em.
      2:{ by rewrite (sop_no_queue _ _ _ H Em), (sop_no_queue _ _ _ H' Em). }
      destruct (SQM_Overrides m !! q) as [url|] eqn:Eo.
      { by rewrite (sop_queue_override _ _ _ H m url Em Eo), (sop_queue_override _ _ _ H' m url Em Eo). }
      destruct (decide (SQM_QueueURLTemplate m = "")) as [Et|Et].
      { by rewrite (sop_queue_empty _ _ _ H m Em Eo Et), (sop_queue_empty _ _ _ H' m Em Eo Et). }
      by rewrite (sop_queue_template _ _ _ H m Em Eo Et), (sop_queue_template _ _ _ H' m Em Eo Et),
        (sop_name _ _ _ H), (sop_name _ _ _ H').
  - pose proof (sop_only _ _ _ H). pose proof (sop_only _ _ _ H').
    rewrite !(proj1 (not_elem_of_dom _ _)) by set_solver. done.
Qed.

End s3.

(** A bucket with two tenants. *)
Definition example_bucket : S3.S3Client := S3.mkS3Client (fun _ prefix _ => Ok
  (if bool_decide (prefix = "") then ["tenant-b/"; "tenant-a/"]
   else if bool_decide (prefix = "tenant-a/") then ["tenant-a/logs/"; "tenant-a/tmp/"]
   else if bool_decide (prefix = "tenant-b/") then ["tenant-b/logs/"] else [])).

Definition example_s3 : S3Discoverer :=
  mkS3Discoverer (Some example_bucket) "multi" "eu-west-1" "" 2 ["*-tmp"]
    (Some (mkSQSQueueMapping "https://sqs/{{prefix}}-q" ∅)).


(** Different prefixes may get the same name. *)
Example prefixToName_collision : prefixToName "a/b/" = prefixToName "a-b/".
Proof. reflexivity. Qed.
