(* ===== verification/Cluster.v ===== *)
(** * The Kubernetes client

    What the reconcilers use of [sigs.k8s.io/controller-runtime],
    [k8s.io/apimachinery] and [k8s.io/client-go].  None of that code is part of
    the repository, so it is an interface here: the class [Client] lists the
    operations the reconcilers call, over an abstract state [W] of the API
    server; the class [ClientLaws] states the documented behaviour they rely on;
    [ReliableClient] adds that calls on existing objects do not fail.  The last
    section gives an in-memory API server with instances of all three, which is
    what the examples run on.

    The laws describe a quiet cluster: during one reconcile nobody else writes
    the objects, and reads are up to date.  A call may fail at any time with any
    error. *)

From S2P Require Import Prelude Go Api Resources.
#[local] Open Scope Z_scope.

(** ** Objects *)

Record ConfigMap := mkConfigMap { CM_Meta : ObjectMeta; CM_Data : gmap string string }.
Record Secret := mkSecret { Sec_Meta : ObjectMeta; Sec_Data : gmap string string }.

Inductive Kind :=
| KPipeline | KDefaults | KDiscovery | KSecret | KConfigMap
| KDeployment | KService | KHPA | KPDB | KServiceMonitor.

#[export] Instance Kind_eq_dec : EqDecision Kind.
Proof. solve_decision. Defined.

Definition Object (k : Kind) : Type :=
  match k with
  | KPipeline => DataPrepperPipeline
  | KDefaults => DataPrepperDefaults
  | KDiscovery => DataPrepperSourceDiscovery
  | KSecret => Secret
  | KConfigMap => ConfigMap
  | KDeployment => Deployment
  | KService => Service
  | KHPA => HPA
  | KPDB => PDB
  | KServiceMonitor => ServiceMonitor
  end.

(** [types.NamespacedName], namespace first. *)
Definition Key : Type := string * string.

Definition obj_meta {k} : Object k -> ObjectMeta :=
  match k return Object k -> ObjectMeta with
  | KPipeline => P_Meta
  | KDefaults => Defaults_Meta
  | KDiscovery => D_Meta
  | KSecret => Sec_Meta
  | KConfigMap => CM_Meta
  | KDeployment => Dep_Meta
  | KService => Svc_Meta
  | KHPA => HPA_Meta
  | KPDB => PDB_Meta
  | KServiceMonitor => SMO_Meta
  end.

(** [client.ObjectKeyFromObject]. *)
Definition key_of {k} (o : Object k) : Key :=
  (Meta_Namespace (obj_meta o), Meta_Name (obj_meta o)).

(** What the client decides about an object besides its metadata: the [spec],
    or the [data] of a ConfigMap or Secret. *)
Definition Content (k : Kind) : Type :=
  match k with
  | KPipeline => DataPrepperPipelineSpec
  | KDefaults => DataPrepperDefaultsSpec
  | KDiscovery => DataPrepperSourceDiscoverySpec
  | KSecret | KConfigMap => gmap string string
  | KDeployment => DeploymentSpec
  | KService => ServiceSpec
  | KHPA => HPASpec
  | KPDB => PDBSpec
  | KServiceMonitor => ServiceMonitorObjSpec
  end.

Definition content {k} : Object k -> Content k :=
  match k return Object k -> Content k with
  | KPipeline => P_Spec
  | KDefaults => Defaults_Spec
  | KDiscovery => D_Spec
  | KSecret => Sec_Data
  | KConfigMap => CM_Data
  | KDeployment => Dep_Spec
  | KService => Svc_Spec
  | KHPA => HPA_Spec
  | KPDB => PDB_Spec
  | KServiceMonitor => SMO_Spec
  end.

(** The status subresource, for the kinds that have one here. *)
Definition Status (k : Kind) : Type :=
  match k with
  | KPipeline => DataPrepperPipelineStatus
  | KDiscovery => DataPrepperSourceDiscoveryStatus
  | KDeployment => DeploymentStatus
  | _ => unit
  end.

Definition status_of {k} : Object k -> Status k :=
  match k return Object k -> Status k with
  | KPipeline => P_Status
  | KDiscovery => D_Status
  | KDeployment => Dep_Status
  | _ => fun _ => tt
  end.

(** Build an object of a kind from its three parts. *)
Definition build (k : Kind) : ObjectMeta -> Content k -> Status k -> Object k :=
  match k return ObjectMeta -> Content k -> Status k -> Object k with
  | KPipeline => mkDataPrepperPipeline
  | KDefaults => fun m c _ => mkDataPrepperDefaults m c
  | KDiscovery => mkDataPrepperSourceDiscovery
  | KSecret => fun m c _ => mkSecret m c
  | KConfigMap => fun m c _ => mkConfigMap m c
  | KDeployment => mkDeployment
  | KService => fun m c _ => mkService m c
  | KHPA => fun m c _ => mkHPA m c
  | KPDB => fun m c _ => mkPDB m c
  | KServiceMonitor => fun m c _ => mkServiceMonitor m c
  end.

Lemma build_eta k (o : Object k) : build k (obj_meta o) (content o) (status_of o) = o.
Proof. by destruct k, o. Qed.
Lemma meta_build k m c s : obj_meta (build k m c s) = m.
Proof. by destruct k. Qed.
Lemma content_build k m c s : content (build k m c s) = c.
Proof. by destruct k. Qed.
Lemma status_build k m c s : status_of (build k m c s) = s.
Proof. destruct k; simpl; try done; by destruct s. Qed.

Lemma key_build k m c s : key_of (build k m c s) = (Meta_Namespace m, Meta_Name m).
Proof. unfold key_of. by rewrite meta_build. Qed.

(** The metadata a client sends; the server owns the generation, the UID and
    the deletion timestamp. *)
Definition sent_meta (m : ObjectMeta) : ObjectMeta :=
  mkObjectMeta (Meta_Name m) (Meta_Namespace m) "" 0 None (Meta_Labels m) (Meta_Annotations m)
    (Meta_Finalizers m) (Meta_OwnerReferences m).

(** The server stored what the client sent. *)
Definition persisted {k} (sent stored : Object k) : Prop :=
  sent_meta (obj_meta stored) = sent_meta (obj_meta sent) /\ content stored = content sent.

(** An object under deletion disappears when its last finalizer is removed. *)
Definition gone (m : ObjectMeta) : bool :=
  bool_decide (is_Some (Meta_DeletionTimestamp m)) && bool_decide (Meta_Finalizers m = []).

(** [&T{ObjectMeta: metav1.ObjectMeta{Name: name, Namespace: namespace}}]. *)
Definition bare_meta (key : Key) : ObjectMeta :=
  mkObjectMeta key.2 key.1 "" 0 None None None [] [].

(** ** The interface *)

Class Client (W : Type) := {
  (** The object the server holds under a key. *)
  stored : forall k, Key -> W -> option (Object k);
  (** [client.Get], [client.List] with [InNamespace] and [MatchingLabels], and
      [client.List] with [InNamespace] and [MatchingFields] on the secret index. *)
  Get : forall k, Key -> W -> result (Object k);
  ListPipelines : string -> gmap string string -> W -> result (list DataPrepperPipeline);
  ListBySecret : string -> string -> W -> result (list DataPrepperPipeline);
  (** [client.Update] and [client.Status().Update] return the server's version of
      the object, which Go writes back into the argument. *)
  Update : forall k, Object k -> W -> result (Object k) * W;
  UpdateStatus : forall k, Object k -> W -> result (Object k) * W;
  Delete : forall k, Object k -> W -> result unit * W;
  (** [controllerutil.CreateOrUpdate(ctx, c, obj, mutate)]. *)
  CreateOrUpdate : forall k, Object k -> (Object k -> result (Object k)) -> W -> result unit * W;
  (** [retry.RetryOnConflict(retry.DefaultRetry, body)]; [S] is the state that
      the closure [body] changes. *)
  RetryOnConflict : forall S : Type, (S -> result unit * S) -> S -> result unit * S;
  (** [apierrors.IsNotFound] and [apierrors.IsConflict]. *)
  IsNotFound : error -> bool;
  IsConflict : error -> bool;
  (** [controllerutil.SetControllerReference(owner, obj, scheme)], on metadata. *)
  SetControllerReference : ObjectMeta -> ObjectMeta -> result ObjectMeta;
  (** [controllerutil.AddFinalizer] and [controllerutil.RemoveFinalizer], on the
      list of finalizers. *)
  AddFinalizer : list string -> string -> list string;
  RemoveFinalizer : list string -> string -> list string;
  (** [meta.SetStatusCondition] and [meta.FindStatusCondition]. *)
  SetStatusCondition : list Condition -> Condition -> list Condition;
  FindStatusCondition : list Condition -> string -> option Condition }.

(** [retries S conflict body s r]: running [body] from [s], again after each
    conflict, can end with [r].  A conflict may also be the last result, when the
    retries are used up. *)
Inductive retries {S : Type} (conflict : error -> bool) (body : S -> result unit * S)
  : S -> result unit * S -> Prop :=
| retries_last s : retries conflict body s (body s)
| retries_again s s' e r :
    body s = (Err e, s') -> conflict e = true ->
    retries conflict body s' r -> retries conflict body s r.

Lemma retries_Ok {S} conflict body (s s' : S) r :
  body s = (Ok tt, s') -> retries conflict body s r -> r = (Ok tt, s').
Proof. intros Hb Hr. destruct Hr as [|s s1 e r Hb' _ _]; congruence. Qed.

(** What every run of the body keeps, the retries keep. *)
Lemma retries_inv {S} conflict body (inv : S -> Prop) s r :
  (forall s, inv s -> inv (body s).2) -> retries conflict body s r -> inv s -> inv r.2.
Proof.
  intros Hb. induction 1 as [s|s s' e r E _ _ IH]; intros Hi; [by apply Hb|].
  apply IH. specialize (Hb s Hi). by rewrite E in Hb.
Qed.

(** Everything but one object is untouched. *)
Definition untouched {W} `{Client W} (k : Kind) (key : Key) (w w' : W) : Prop :=
  forall k' key', k' ≠ k \/ key' ≠ key -> stored k' key' w' = stored k' key' w.

Class ClientLaws (W : Type) `{Client W} : Prop := {
  stored_key k key w (o : Object k) : stored k key w = Some o -> key_of o = key;
  Get_Ok k key w (o : Object k) : Get k key w = Ok o -> stored k key w = Some o;
  Get_NotFound k key w e :
    Get k key w = Err e -> IsNotFound e = true -> stored k key w = None;
  List_Ok ns labels w l :
    ListPipelines ns labels w = Ok l ->
    NoDup (Meta_Name ∘ P_Meta <$> l) /\
    forall p, p ∈ l <->
      stored KPipeline (ns, Meta_Name (P_Meta p)) w = Some p /\
      labels ⊆ default ∅ (Meta_Labels (P_Meta p));
  Update_Ok k (o o' : Object k) w w' :
    Update k o w = (Ok o', w') ->
    persisted o o' /\
    stored k (key_of o) w' = (if gone (obj_meta o') then None else Some o') /\
    exists old, stored k (key_of o) w = Some old /\
      Meta_UID (obj_meta o') = Meta_UID (obj_meta old) /\
      Meta_DeletionTimestamp (obj_meta o') = Meta_DeletionTimestamp (obj_meta old) /\
      status_of o' = status_of old;
  Update_frame k (o : Object k) w : untouched k (key_of o) w (snd (Update k o w));
  Update_Conflict k (o : Object k) w w' e :
    Update k o w = (Err e, w') -> IsConflict e = true ->
    stored k (key_of o) w' = stored k (key_of o) w;
  UpdateStatus_Ok k (o o' : Object k) w w' :
    UpdateStatus k o w = (Ok o', w') ->
    status_of o' = status_of o /\ stored k (key_of o) w' = Some o' /\
    exists old, stored k (key_of o) w = Some old /\
      obj_meta o' = obj_meta old /\ content o' = content old;
  UpdateStatus_frame k (o : Object k) w : untouched k (key_of o) w (snd (UpdateStatus k o w));
  Delete_Ok k (o : Object k) w w' :
    Delete k o w = (Ok tt, w') ->
    forall o', stored k (key_of o) w' = Some o' ->
      is_Some (Meta_DeletionTimestamp (obj_meta o')) /\ Meta_Finalizers (obj_meta o') ≠ [];
  Delete_frame k (o : Object k) w : untouched k (key_of o) w (snd (Delete k o w));
  CreateOrUpdate_Ok k (o : Object k) f w w' :
    (forall o0 o1, f o0 = Ok o1 -> Meta_Finalizers (obj_meta o1) = Meta_Finalizers (obj_meta o0)) ->
    CreateOrUpdate k o f w = (Ok tt, w') ->
    exists o1 o2, f (default o (stored k (key_of o) w)) = Ok o1 /\
      persisted o1 o2 /\ stored k (key_of o) w' = Some o2;
  CreateOrUpdate_frame k (o : Object k) f w :
    untouched k (key_of o) w (snd (CreateOrUpdate k o f w));
  RetryOnConflict_retries S body (s : S) :
    retries IsConflict body s (RetryOnConflict S body s);
  SetControllerReference_Ok owner m m' :
    SetControllerReference owner m = Ok m' ->
    (exists r, r ∈ Meta_OwnerReferences m' /\ Owner_UID r = Meta_UID owner) /\
    mkObjectMeta (Meta_Name m') (Meta_Namespace m') (Meta_UID m') (Meta_Generation m')
      (Meta_DeletionTimestamp m') (Meta_Labels m') (Meta_Annotations m') (Meta_Finalizers m')
      (Meta_OwnerReferences m) = m;
  elem_of_AddFinalizer l f g : g ∈ AddFinalizer l f <-> g = f \/ g ∈ l;
  elem_of_RemoveFinalizer l f g : g ∈ RemoveFinalizer l f <-> g ≠ f /\ g ∈ l;
  Find_Set_eq l c :
    FindStatusCondition (SetStatusCondition l c) (Cond_Type c) = Some c;
  Find_Set_ne l c t :
    t ≠ Cond_Type c ->
    FindStatusCondition (SetStatusCondition l c) t = FindStatusCondition l t }.

(** The two laws of conditions, for a condition given by its fields. *)
Lemma Find_Set_same {W} `{ClientLaws W} l t s g r m :
  FindStatusCondition (SetStatusCondition l (mkCondition t s g r m)) t = Some (mkCondition t s g r m).
Proof. apply (Find_Set_eq l (mkCondition t s g r m)). Qed.
Lemma Find_Set_other {W} `{ClientLaws W} l t u s g r m :
  t ≠ u ->
  FindStatusCondition (SetStatusCondition l (mkCondition u s g r m)) t = FindStatusCondition l t.
Proof. intros Hne. by apply Find_Set_ne. Qed.

(** A server that does not fail on its own: reads find what is stored, writes to
    existing objects and creations succeed. *)
Class ReliableClient (W : Type) `{Client W} : Prop := {
  Get_stored k key w (o : Object k) : stored k key w = Some o -> Get k key w = Ok o;
  Get_absent k key w :
    stored k key w = None -> exists e, Get k key w = Err e /\ IsNotFound e = true;
  List_total ns labels w : exists l, ListPipelines ns labels w = Ok l;
  Update_total k (o : Object k) w :
    is_Some (stored k (key_of o) w) -> exists o' w', Update k o w = (Ok o', w');
  UpdateStatus_total k (o : Object k) w :
    is_Some (stored k (key_of o) w) -> exists o' w', UpdateStatus k o w = (Ok o', w');
  Delete_total k (o : Object k) w :
    is_Some (stored k (key_of o) w) -> exists w', Delete k o w = (Ok tt, w');
  CreateOrUpdate_total k (o : Object k) f w o1 :
    f (default o (stored k (key_of o) w)) = Ok o1 -> key_of o1 = key_of o ->
    exists w', CreateOrUpdate k o f w = (Ok tt, w');
  SetControllerReference_total owner m :
    (forall r, r ∈ Meta_OwnerReferences m -> Owner_UID r = Meta_UID owner) ->
    exists m', SetControllerReference owner m = Ok m' }.

(** ** An in-memory API server *)

Module Mem.

Definition World : Type := forall k, gmap Key (Object k).

Definition empty : World := fun _ => ∅.

Definition put (k : Kind) (key : Key) (v : option (Object k)) (w : World) : World := fun k' =>
  match decide (k = k') with
  | left e => eq_rect k (fun k => gmap Key (Object k)) (partial_alter (fun _ => v) key (w k)) k' e
  | right _ => w k'
  end.

Lemma put_eq k key v w : put k key v w k !! key = v.
Proof.
  unfold put. destruct (decide (k = k)) as [e|]; [|done].
  rewrite (proof_irrel e eq_refl). simpl. apply lookup_partial_alter_eq.
Qed.

Lemma put_ne k key v w k' key' :
  k' ≠ k \/ key' ≠ key -> put k key v w k' !! key' = w k' !! key'.
Proof.
  unfold put. destruct (decide (k = k')) as [e|]; [|done]. subst. simpl.
  intros [?|?]; [done|]. by rewrite lookup_partial_alter_ne.
Qed.

Definition not_found : error := Msg "not found" [].
Definition conflict : error := Msg "conflict" [].
Definition has_format (f : string) (e : error) : bool :=
  match e with Msg g _ => bool_decide (g = f) end.

(** The object under a key; an entry stored under another key than its own is
    not visible. *)
Definition lookup (k : Kind) (key : Key) (w : World) : option (Object k) :=
  o ← w k !! key; if decide (key_of o = key) then Some o else None.

Definition get (k : Kind) (key : Key) (w : World) : result (Object k) :=
  match lookup k key w with Some o => Ok o | None => Err not_found end.

Definition zero_status (k : Kind) : Status k :=
  match k return Status k with
  | KPipeline => zero_PipelineStatus
  | KDiscovery => mkDataPrepperSourceDiscoveryStatus DiscoveryPhaseUnset 0 0 0 0 0 None [] []
  | KDeployment => mkDeploymentStatus 0 0
  | _ => tt
  end.

(** What is stored for an object a client sends: its metadata and content, with
    the server-owned fields and the status of the old version. *)
Definition accept {k} (old : option (Object k)) (o : Object k) : Object k :=
  let m := obj_meta o in
  let '(uid, gen, del, st) :=
    match old with
    | Some o0 => let m0 := obj_meta o0 in
                 (Meta_UID m0, Meta_Generation m0, Meta_DeletionTimestamp m0, status_of o0)
    | None => (Meta_Namespace m +:+ "/" +:+ Meta_Name m, 1, None, zero_status k)
    end in
  build k (mkObjectMeta (Meta_Name m) (Meta_Namespace m) uid gen del (Meta_Labels m)
             (Meta_Annotations m) (Meta_Finalizers m) (Meta_OwnerReferences m))
    (content o) st.

Definition update k (o : Object k) (w : World) : result (Object k) * World :=
  match lookup k (key_of o) w with
  | None => (Err not_found, w)
  | Some old =>
    let o' := accept (Some old) o in
    (Ok o', put k (key_of o) (if gone (obj_meta o') then None else Some o') w)
  end.

Definition update_status k (o : Object k) (w : World) : result (Object k) * World :=
  match lookup k (key_of o) w with
  | None => (Err not_found, w)
  | Some old =>
    let o' := build k (obj_meta old) (content old) (status_of o) in
    (Ok o', put k (key_of o) (Some o') w)
  end.

Definition delete k (o : Object k) (w : World) : result unit * World :=
  match lookup k (key_of o) w with
  | None => (Err not_found, w)
  | Some old =>
    let m := obj_meta old in
    let m' := mkObjectMeta (Meta_Name m) (Meta_Namespace m) (Meta_UID m) (Meta_Generation m)
                (Some (default 0 (Meta_DeletionTimestamp m))) (Meta_Labels m) (Meta_Annotations m)
                (Meta_Finalizers m) (Meta_OwnerReferences m) in
    (Ok tt, put k (key_of o)
              (if decide (Meta_Finalizers m = []) then None
               else Some (build k m' (content old) (status_of old))) w)
  end.

Definition create_or_update k (o : Object k) (f : Object k -> result (Object k)) (w : World)
    : result unit * World :=
  let old := lookup k (key_of o) w in
  match f (default o old) with
  | Err e => (Err e, w)
  | Ok o1 =>
    if decide (key_of o1 = key_of o)
    then (Ok tt, put k (key_of o) (Some (accept old o1)) w)
    else (Err (Msg "MutateFn cannot mutate object name and/or object namespace" []), w)
  end.

Definition list_pipelines (ns : string) (labels : gmap string string) (w : World)
    : result (list DataPrepperPipeline) :=
  Ok (omap (fun kv : Key * DataPrepperPipeline =>
        if decide (kv.1.1 = ns /\ @key_of KPipeline kv.2 = kv.1 /\
                   labels ⊆ default ∅ (Meta_Labels (P_Meta kv.2)))
        then Some kv.2 else None)
     (map_to_list (w KPipeline))).

(** [retry.DefaultRetry] allows five attempts. *)
Fixpoint retry {S : Type} (fuel : nat) (body : S -> result unit * S) (s : S) : result unit * S :=
  match fuel with
  | O => body s
  | Datatypes.S n =>
    match body s with
    | (Err e, s') => if has_format "conflict" e then retry n body s' else (Err e, s')
    | r => r
    end
  end.

Definition set_controller_reference (owner m : ObjectMeta) : result ObjectMeta :=
  if forallb (fun r => bool_decide (Owner_UID r = Meta_UID owner)) (Meta_OwnerReferences m)
  then Ok (mkObjectMeta (Meta_Name m) (Meta_Namespace m) (Meta_UID m) (Meta_Generation m)
             (Meta_DeletionTimestamp m) (Meta_Labels m) (Meta_Annotations m) (Meta_Finalizers m)
             [mkOwnerReference (Meta_UID owner) (Meta_Name owner)])
  else Err (Msg "Object %s/%s is already owned by another controller" []).

Fixpoint set_condition (l : list Condition) (c : Condition) : list Condition :=
  match l with
  | [] => [c]
  | d :: l => if decide (Cond_Type d = Cond_Type c) then c :: l else d :: set_condition l c
  end.

Fixpoint find_condition (l : list Condition) (t : string) : option Condition :=
  match l with
  | [] => None
  | c :: l => if decide (Cond_Type c = t) then Some c else find_condition l t
  end.

#[global] Instance mem_client : Client World := {|
  stored := lookup;
  Get := get;
  ListPipelines := list_pipelines;
  ListBySecret := fun _ _ _ => Err (Msg "no index" []);
  Update := update;
  UpdateStatus := update_status;
  Delete := delete;
  CreateOrUpdate := create_or_update;
  RetryOnConflict := fun S => @retry S 4;
  IsNotFound := has_format "not found";
  IsConflict := has_format "conflict";
  SetControllerReference := set_controller_reference;
  AddFinalizer := fun l f => if decide (f ∈ l) then l else l ++ [f];
  RemoveFinalizer := fun l f => filter (fun g => g ≠ f) l;
  SetStatusCondition := set_condition;
  FindStatusCondition := find_condition |}.

Lemma lookup_Some k key w o : lookup k key w = Some o <-> w k !! key = Some o /\ key_of o = key.
Proof.
  unfold lookup. destruct (w k !! key) as [o'|]; simpl; [|naive_solver].
  case_decide; naive_solver.
Qed.

Lemma lookup_put_eq k key v w :
  (forall o, v = Some o -> key_of o = key) -> lookup k key (put k key v w) = v.
Proof.
  intros Hv. unfold lookup. rewrite put_eq. destruct v as [o|]; simpl; [|done].
  rewrite decide_True by eauto. done.
Qed.

Lemma lookup_put_ne k key v w k' key' :
  k' ≠ k \/ key' ≠ key -> lookup k' key' (put k key v w) = lookup k' key' w.
Proof. intros H. unfold lookup. by rewrite put_ne. Qed.

Lemma accept_key {k} old (o : Object k) : key_of (accept old o) = key_of o.
Proof. unfold key_of, accept. destruct old; by rewrite meta_build. Qed.

Lemma accept_persisted {k} old (o : Object k) : persisted o (accept old o).
Proof. unfold persisted, accept. destruct old; by rewrite meta_build, content_build. Qed.

Lemma retry_retries {S} n body (s : S) : retries (has_format "conflict") body s (retry n body s).
Proof.
  revert s. induction n as [|n IH]; intros s; simpl; [constructor|].
  destruct (body s) as [[[]|e] s'] eqn:E; [rewrite <-E; constructor|].
  destruct (has_format "conflict" e) eqn:Ec; [by eapply retries_again|].
  rewrite <-E. constructor.
Qed.

Lemma find_set l c t :
  find_condition (set_condition l c) t =
  if decide (t = Cond_Type c) then Some c else find_condition l t.
Proof.
  induction l as [|d l IH]; simpl; [|destruct (decide (Cond_Type d = Cond_Type c)); simpl];
    repeat case_decide; congruence.
Qed.

Lemma list_pipelines_spec ns labels (w : World) l :
  list_pipelines ns labels w = Ok l ->
  NoDup (Meta_Name ∘ P_Meta <$> l) /\
  forall p, p ∈ l <->
    lookup KPipeline (ns, Meta_Name (P_Meta p)) w = Some p /\
    labels ⊆ default ∅ (Meta_Labels (P_Meta p)).
Proof.
  intros [= <-]. pose proof (NoDup_fst_map_to_list (w KPipeline)) as Hnd.
  assert (Hin : forall kv, kv ∈ map_to_list (w KPipeline) <-> w KPipeline !! kv.1 = Some kv.2).
  { intros [key p]. apply elem_of_map_to_list. }
  split.
  - clear Hin. induction (map_to_list _) as [|[[ns' n'] p] kvs IH]; [constructor|].
    simpl in *. apply NoDup_cons in Hnd as [Hnotin Hnd]. specialize (IH Hnd).
    case_decide as Hd; [|done]. simpl. apply NoDup_cons. split; [|done].
    intros (p' & Hname & Hp')%list_elem_of_fmap. apply Hnotin.
    apply list_elem_of_omap in Hp' as ([[ns2 n2] p2] & Hin & Hsel).
    simpl in Hsel. case_decide as Hd2; [|done]. injection Hsel as ->.
    apply list_elem_of_fmap. exists (ns2, n2, p'). split; [|done]. simpl in *.
    unfold key_of in *; simpl in *. destruct Hd as (-> & [= <- <-] & _), Hd2 as (Hns & [= <- <-] & _).
    f_equal; [by rewrite Hns|by rewrite Hname].
  - intros p. rewrite list_elem_of_omap, lookup_Some. split.
    + intros ([[ns' n'] p'] & Hkv & Hsel). rewrite Hin in Hkv. simpl in *.
      case_decide as Hd; [|done]. injection Hsel as ->. destruct Hd as (-> & Hkey & Hl).
      rewrite <-Hkey in Hkv. unfold key_of in *. simpl in *. simplify_eq. done.
    + intros ([Hp Hkey] & Hl). exists (ns, Meta_Name (P_Meta p), p). rewrite Hin. simpl.
      split; [done|]. by rewrite decide_True.
Qed.

Lemma update_status_ok k (o o' : Object k) w w' :
  update_status k o w = (Ok o', w') ->
  status_of o' = status_of o /\ lookup k (key_of o) w' = Some o' /\
  exists old, lookup k (key_of o) w = Some old /\ obj_meta o' = obj_meta old /\ content o' = content old.
Proof.
  unfold update_status.
  destruct (lookup k (key_of o) w) as [old|] eqn:E; [|done]. intros [= <- <-].
  pose proof E as [_ Hk]%lookup_Some.
  split_and!; [by rewrite status_build| |].
  - apply lookup_put_eq. intros ? [= <-]. rewrite key_build. exact Hk.
  - exists old. by rewrite meta_build, content_build.
Qed.

Lemma delete_ok k (o : Object k) w w' :
  delete k o w = (Ok tt, w') ->
  forall o', lookup k (key_of o) w' = Some o' ->
    is_Some (Meta_DeletionTimestamp (obj_meta o')) /\ Meta_Finalizers (obj_meta o') ≠ [].
Proof.
  unfold delete. destruct (lookup k (key_of o) w) as [old|] eqn:E; [|done]. intros [= <-] o'.
  pose proof E as [_ Hk]%lookup_Some. rewrite lookup_put_eq.
  - case_decide; [done|]. intros [= <-]. rewrite meta_build. simpl. split; [by eexists|done].
  - intros o2. case_decide; [done|]. intros [= <-]. rewrite key_build. exact Hk.
Qed.

#[global] Instance mem_laws : ClientLaws World.
Proof.
  split; simpl.
  - by intros k key w o [_ ?]%lookup_Some.
  - intros k key w o. unfold get. by destruct (lookup k key w) as [|]; intros [= ->].
  - intros k key w e. unfold get. by destruct (lookup k key w).
  - apply list_pipelines_spec.
  - intros k o o' w w'. unfold update.
    destruct (lookup k (key_of o) w) as [old|] eqn:E; [|done]. intros [= <- <-].
    split_and!; [apply accept_persisted..| |].
    + apply lookup_put_eq. intros o2. destruct (gone _); [done|]. intros [= <-]. apply accept_key.
    + exists old. unfold accept. by rewrite !meta_build, status_build.
  - intros k o w k' key' Hne. unfold update. destruct (lookup k (key_of o) w); [|done].
    by apply lookup_put_ne.
  - intros k o w w' e. unfold update. destruct (lookup k (key_of o) w); [done|]. by intros [= <- <-].
  - apply update_status_ok.
  - intros k o w k' key' Hne. unfold update_status. destruct (lookup k (key_of o) w); [|done].
    by apply lookup_put_ne.
  - apply delete_ok.
  - intros k o w k' key' Hne. unfold delete. destruct (lookup k (key_of o) w); [|done].
    by apply lookup_put_ne.
  - intros k o f w w' _. unfold create_or_update.
    destruct (f _) as [o1|] eqn:Ef; [|done]. case_decide as Hk; [|done]. intros [= <-].
    eexists o1, _. split; [done|]. split; [apply accept_persisted|].
    apply lookup_put_eq. intros ? [= <-]. by rewrite accept_key.
  - intros k o f w k' key' Hne. unfold create_or_update. destruct (f _); [|done].
    case_decide; [|done]. by apply lookup_put_ne.
  - intros S body s. apply (retry_retries 4).
  - intros owner m m'. unfold set_controller_reference. destruct (forallb _ _); [|done].
    intros [= <-]. simpl. split; [|by destruct m]. eexists. split; [by left|done].
  - intros l f g. case_decide; [set_solver|]. rewrite elem_of_app, list_elem_of_singleton. tauto.
  - intros l f g. by rewrite list_elem_of_filter.
  - intros l c. by rewrite find_set, decide_True.
  - intros l c t Hne. by rewrite find_set, decide_False.
Qed.

#[global] Instance mem_reliable : ReliableClient World.
Proof.
  split; simpl.
  - intros k key w o H. unfold get. by rewrite H.
  - intros k key w H. exists not_found. unfold get. by rewrite H.
  - intros ns labels w. by eexists.
  - intros k o w [old H]. unfold update. rewrite H. by eexists _, _.
  - intros k o w [old H]. unfold update_status. rewrite H. by eexists _, _.
  - intros k o w [old H]. unfold delete. rewrite H. by eexists.
  - intros k o f w o1 Hf Hk. unfold create_or_update. rewrite Hf, decide_True by done. by eexists.
  - intros owner m Hr. unfold set_controller_reference.
    assert (forallb (fun r => bool_decide (Owner_UID r = Meta_UID owner))
              (Meta_OwnerReferences m) = true) as ->; [|by eexists].
    apply forallb_forall. intros r Hin%list_elem_of_In. apply bool_decide_eq_true. by apply Hr.
Qed.

End Mem.
