(* ===== verification/Scheme.v ===== *)
(** * The scheme: registration of the API types

    [api/v1alpha1/groupversion_info.go], the [init] functions of the files that
    declare the custom resources, and the [init] function of [cmd/main.go], which
    collects the types a client of the operator can read and write.  A scheme is the
    set of the group, version and kind of its types; the functions that register the
    types of Kubernetes and of the Prometheus operator are third-party code. *)

From S2P Require Import Prelude Go Api Resources Cluster.

(** Group, version, kind. *)
Definition GVK : Type := string * string * string.
Definition Scheme : Type := gset GVK.

Definition GroupVersion : string * string := ("dataprepper.kaasops.io", "v1alpha1").

(** [SchemeBuilder.Register] of the three files, which Go initialises in the order
    of their names. *)
Definition init_defaults (builder : list string) : list string :=
  builder ++ ["DataPrepperDefaults"; "DataPrepperDefaultsList"].
Definition init_pipeline (builder : list string) : list string :=
  builder ++ ["DataPrepperPipeline"; "DataPrepperPipelineList"].
Definition init_discovery (builder : list string) : list string :=
  builder ++ ["DataPrepperSourceDiscovery"; "DataPrepperSourceDiscoveryList"].
Definition SchemeBuilder : list string := init_discovery (init_pipeline (init_defaults [])).

Definition in_group (kind : string) : GVK := (GroupVersion.1, GroupVersion.2, kind).

Definition AddToScheme (s : Scheme) : result Scheme := Ok (s ∪ list_to_set (in_group <$> SchemeBuilder)).

(** The [AddToScheme] functions of client-go and of the Prometheus operator. *)
Section main.
Variables (clientgo monitoring : Scheme -> result Scheme).

(** [init] of [cmd/main.go]; [utilruntime.Must] panics on an error. *)
Definition main_init : result Scheme :=
  s ← clientgo ∅;
  s ← AddToScheme s;
  monitoring s.

(** The type of the objects of a kind, as the controllers import it. *)
Definition gvk_of (k : Kind) : GVK :=
  match k with
  | KPipeline => in_group "DataPrepperPipeline"
  | KDefaults => in_group "DataPrepperDefaults"
  | KDiscovery => in_group "DataPrepperSourceDiscovery"
  | KSecret => ("", "v1", "Secret")
  | KConfigMap => ("", "v1", "ConfigMap")
  | KDeployment => ("apps", "v1", "Deployment")
  | KService => ("", "v1", "Service")
  | KHPA => ("autoscaling", "v2", "HorizontalPodAutoscaler")
  | KPDB => ("policy", "v1", "PodDisruptionBudget")
  | KServiceMonitor => ("monitoring.coreos.com", "v1", "ServiceMonitor")
  end.

(** What the third-party functions promise: they add to the scheme, client-go the
    built-in types and the Prometheus operator the service monitors. *)
Record Registers (add : Scheme -> result Scheme) (kinds : list Kind) : Prop := {
  registers_keeps s s' : add s = Ok s' -> s ⊆ s';
  registers_adds s s' k : add s = Ok s' -> k ∈ kinds -> gvk_of k ∈ s' }.

(** A client of the operator knows the type of every object it reads or writes,
    and the list types of the custom resources. *)
Lemma kinds_registered s :
  Registers clientgo [KSecret; KConfigMap; KDeployment; KService; KHPA; KPDB] ->
  Registers monitoring [KServiceMonitor] ->
  main_init = Ok s ->
  (forall k, gvk_of k ∈ s) /\
  Forall (fun kind => in_group kind ∈ s)
    ["DataPrepperPipelineList"; "DataPrepperDefaultsList"; "DataPrepperSourceDiscoveryList"].
Proof.
  intros Hc Hm (s1 & E1 & (s2 & E & E2)%bind_Ok)%bind_Ok.
  assert (s2 = s1 ∪ list_to_set (in_group <$> SchemeBuilder)) as -> by by inversion E.
  pose proof (registers_keeps _ _ Hm _ _ E2) as Hs.
  assert (forall kind, kind ∈ SchemeBuilder -> in_group kind ∈ s) as Hown.
  { intros kind Hk. apply Hs, elem_of_union. right. apply elem_of_list_to_set, list_elem_of_fmap. by exists kind. }
  assert (forall k, k ∈ [KSecret; KConfigMap; KDeployment; KService; KHPA; KPDB] -> gvk_of k ∈ s) as Hbuiltin.
  { intros k Hk. apply Hs, elem_of_union. left. by apply (registers_adds _ _ Hc _ _ k E1). }
  split; [|repeat constructor; apply Hown; by apply (bool_decide_unpack _)].
  intros k. destruct (decide (k ∈ [KSecret; KConfigMap; KDeployment; KService; KHPA; KPDB])) as [Hk|Hk]; [auto|].
  destruct k; [apply (Hown "DataPrepperPipeline")|apply (Hown "DataPrepperDefaults")
    |apply (Hown "DataPrepperSourceDiscovery")|destruct Hk..|apply (registers_adds _ _ Hm _ _ KServiceMonitor E2)];
    by apply (bool_decide_unpack _).
Qed.
End main.
