(* ===== verification/Metrics.v ===== *)
(** * The operator's metrics: [internal/metrics/metrics.go]

    The Prometheus collectors with their kind, name and label names, and the
    list that [init] registers.  The client library (registration, label
    lookup, values) is third-party code; what the operator owes to it is that
    no two registered collectors share a name and that every update gives as
    many label values as the collector has labels, because [MustRegister] and
    [WithLabelValues] panic otherwise. *)

From S2P Require Import Prelude.

(** The constructor used: [NewCounterVec], [NewGauge(Vec)], [NewHistogramVec]. *)
Inductive CollectorKind := KCounter | KGauge | KHistogram.

#[export] Instance CollectorKind_eq_dec : EqDecision CollectorKind.
Proof. solve_decision. Defined.

Record Collector := mkCollector {
  Col_Kind : CollectorKind;
  Col_Name : string;
  Col_Labels : list string }.

#[export] Instance Collector_eq_dec : EqDecision Collector.
Proof. solve_decision. Defined.

Definition ReconcileTotal : Collector :=
  mkCollector KCounter "dp_operator_reconcile_total" ["controller"; "result"].
Definition ReconcileDuration : Collector :=
  mkCollector KHistogram "dp_operator_reconcile_duration_seconds" ["controller"].
Definition ManagedPipelines : Collector :=
  mkCollector KGauge "dp_operator_managed_pipelines" ["namespace"].
Definition DiscoveredSources : Collector :=
  mkCollector KGauge "dp_operator_discovered_sources" ["discovery_name"; "namespace"].
Definition OrphanedPipelines : Collector :=
  mkCollector KGauge "dp_operator_orphaned_pipelines" [].
Definition ScalingEvents : Collector :=
  mkCollector KCounter "dp_operator_scaling_events_total" ["namespace"; "direction"].
Definition WebhookValidationTotal : Collector :=
  mkCollector KCounter "dp_operator_webhook_validation_total" ["result"].

(** The arguments of [metrics.Registry.MustRegister] in [init]. *)
Definition registered : list Collector :=
  [ReconcileTotal; ReconcileDuration; ManagedPipelines; DiscoveredSources; OrphanedPipelines;
   ScalingEvents; WebhookValidationTotal].

(** No two registered collectors have the same name. *)
Lemma registered_distinct : NoDup (Col_Name <$> registered).
Proof. apply (bool_decide_unpack _). reflexivity. Qed.
