(* ===== verification/Flags.v ===== *)
(** * The operator's flags: [cmd/main.go]

    The command-line flags and what [main] derives from them: the options of
    the webhook server, of the metrics server and of the cache, and the limits
    of the API client.  Parsing of the command line ([flag], and the logging
    flags of [zap]) is left to those packages; a [Flags] value is their result. *)

From S2P Require Import Prelude Go Duration.
From Stdlib Require Import Ascii SpecFloat.
#[local] Open Scope Z_scope.

(** ** [strings.SplitSeq] and [strings.TrimSpace] *)

(** The pieces between the separators. *)
Fixpoint split_on (c : ascii) (l : list ascii) : list (list ascii) :=
  match l with
  | [] => [[]]
  | x :: l =>
    if bool_decide (x = c) then [] :: split_on c l
    else match split_on c l with
         | piece :: pieces => (x :: piece) :: pieces
         | [] => [[x]]
         end
  end.

(** The UTF-8 encodings of the code points that [unicode.IsSpace] accepts. *)
Definition byte (n : Z) : ascii := ascii_of_N (Z.to_N n).
Definition spaces : list (list ascii) :=
  ((fun n => [byte n]) <$> [9; 10; 11; 12; 13; 32]) ++
  ((fun n => [byte 194; byte n]) <$> [133; 160]) ++
  [[byte 225; byte 154; byte 128]] ++
  ((fun n => [byte 226; byte 128; byte n]) <$>
     [128; 129; 130; 131; 132; 133; 134; 135; 136; 137; 138; 168; 169; 175]) ++
  [[byte 226; byte 129; byte 159]; [byte 227; byte 128; byte 128]].

(** Drop the given sequences from the front, as long as one is there; each of
    them is at least a byte long, so the length is enough fuel. *)
Fixpoint strip (fuel : nat) (seps : list (list ascii)) (l : list ascii) : list ascii :=
  match fuel with
  | O => l
  | S fuel =>
    match list_find (fun e => e `prefix_of` l) seps with
    | Some (_, e) => strip fuel seps (drop (length e) l)
    | None => l
    end
  end.

Definition strip_front (seps : list (list ascii)) (l : list ascii) : list ascii :=
  strip (length l) seps l.

(** A string starts (ends) with a space rune iff it starts (ends) with its
    encoding. *)
Definition TrimSpace (l : list ascii) : list ascii :=
  reverse (strip_front (reverse <$> spaces) (reverse (strip_front spaces l))).

(** ** Flags *)

Record Flags := mkFlags {
  watchNamespaces : string;
  maxConcurrentReconciles : Z;
  kubeAPIQPS : spec_float;
  kubeAPIBurst : Z;
  metricsAddr : string;
  probeAddr : string;
  enableLeaderElection : bool;
  enableWebhook : bool;
  secureMetrics : bool;
  webhookCertPath : string; webhookCertName : string; webhookCertKey : string;
  metricsCertPath : string; metricsCertName : string; metricsCertKey : string;
  enableHTTP2 : bool }.

(** The values without any argument. *)
Definition default_flags : Flags :=
  mkFlags "" 1 (S754_zero false) 0 "0" ":8081" false false true "" "tls.crt" "tls.key"
    "" "tls.crt" "tls.key" false.

(** ** Server options *)

(** The field of [tls.Config] the operator sets. *)
Record TLSConfig := mkTLSConfig { NextProtos : list string }.

Definition disableHTTP2 (c : TLSConfig) : TLSConfig := mkTLSConfig ["http/1.1"].

Definition tlsOpts (f : Flags) : list (TLSConfig -> TLSConfig) :=
  if negb (enableHTTP2 f) then [disableHTTP2] else [].

(** [webhook.Options]. *)
Record WebhookOptions := mkWebhookOptions {
  WO_TLSOpts : list (TLSConfig -> TLSConfig);
  WO_CertDir : string; WO_CertName : string; WO_KeyName : string }.

Definition webhookServerOptions (f : Flags) : WebhookOptions :=
  if 0 <? len (webhookCertPath f)
  then mkWebhookOptions (tlsOpts f) (webhookCertPath f) (webhookCertName f) (webhookCertKey f)
  else mkWebhookOptions (tlsOpts f) "" "" "".

(** [metricsserver.Options]; the only filter is
    [filters.WithAuthenticationAndAuthorization]. *)
Inductive Filter := WithAuthenticationAndAuthorization.

Record MetricsOptions := mkMetricsOptions {
  MO_BindAddress : string;
  MO_SecureServing : bool;
  MO_TLSOpts : list (TLSConfig -> TLSConfig);
  MO_FilterProvider : option Filter;
  MO_CertDir : string; MO_CertName : string; MO_KeyName : string }.

Definition metricsServerOptions (f : Flags) : MetricsOptions :=
  let filter := if secureMetrics f then Some WithAuthenticationAndAuthorization else None in
  let base := mkMetricsOptions (metricsAddr f) (secureMetrics f) (tlsOpts f) filter in
  if 0 <? len (metricsCertPath f)
  then base (metricsCertPath f) (metricsCertName f) (metricsCertKey f)
  else base "" "" "".

(** ** The cache *)

(** The loop over the comma-separated names. *)
Definition addNamespace (m : gset string) (piece : list ascii) : gset string :=
  let ns := TrimSpace piece in
  if bool_decide (ns = []) then m else {[of_bytes ns]} ∪ m.

(** [cacheOpts.DefaultNamespaces]: [None] is the nil map; the values are all
    [cache.Config{}]. *)
Definition DefaultNamespaces (f : Flags) : option (gset string) :=
  if nonempty (watchNamespaces f)
  then Some (foldl addNamespace ∅ (split_on ","%char (bytes (watchNamespaces f))))
  else None.

(** ** The API client *)

(** [float32(x)] of a [float64]: rounding to 24 bits, ties to even. *)
Definition float32 (x : spec_float) : spec_float :=
  match x with
  | S754_finite s m e => binary_normalize 24 128 (cond_Zopp s (Zpos m)) e s
  | _ => x
  end.

(** The two fields of [rest.Config] the operator sets. *)
Record RestConfig := mkRestConfig { QPS : spec_float; Burst : Z }.

Definition limits (f : Flags) (c : RestConfig) : RestConfig :=
  mkRestConfig
    (if SFltb (S754_zero false) (kubeAPIQPS f) then float32 (kubeAPIQPS f) else QPS c)
    (if 0 <? kubeAPIBurst f then kubeAPIBurst f else Burst c).

(** [ctrl.Options]. *)
Record ManagerOptions := mkManagerOptions {
  Opt_DefaultNamespaces : option (gset string);
  Opt_Metrics : MetricsOptions;
  Opt_WebhookServer : WebhookOptions;
  Opt_HealthProbeBindAddress : string;
  Opt_LeaderElection : bool;
  Opt_LeaderElectionID : string }.

Definition managerOptions (f : Flags) : ManagerOptions :=
  mkManagerOptions (DefaultNamespaces f) (metricsServerOptions f) (webhookServerOptions f)
    (probeAddr f) (enableLeaderElection f) "1a4183ee.kaasops.io".

(** ** Examples *)

Example namespaces_example :
  DefaultNamespaces (mkFlags " team-a ,team-b,, team-a" 1 (S754_zero false) 0 "0" ":8081" false false
    true "" "tls.crt" "tls.key" "" "tls.crt" "tls.key" false) = Some {["team-a"; "team-b"]}.
Proof. vm_compute. reflexivity. Qed.

Example float32_example : float32 (float64_of (2 ^ 24 + 1)) = S754_finite false 8388608 1.
Proof. vm_compute. reflexivity. Qed.

(** ** Splitting and trimming *)

(** Pieces joined by a separator. *)
Fixpoint join_with (c : ascii) (pieces : list (list ascii)) : list ascii :=
  match pieces with
  | [] => []
  | [p] => p
  | p :: pieces => p ++ c :: join_with c pieces
  end.

Lemma split_on_none c l : c ∉ l -> split_on c l = [l].
Proof.
  induction l as [|x l IH]; [done|]. intros [Hx Hl]%not_elem_of_cons. simpl.
  rewrite bool_decide_eq_false_2 by done. by rewrite IH.
Qed.

Lemma split_on_cons c p l : c ∉ p -> split_on c (p ++ c :: l) = p :: split_on c l.
Proof.
  induction p as [|x p IH]; simpl; [by rewrite bool_decide_eq_true_2|].
  intros [Hx Hp]%not_elem_of_cons. rewrite bool_decide_eq_false_2 by done. by rewrite IH.
Qed.

Lemma split_on_join c pieces :
  pieces ≠ [] -> Forall (fun p => c ∉ p) pieces -> split_on c (join_with c pieces) = pieces.
Proof.
  induction pieces as [|p pieces IH]; [done|]. intros _ [Hp Hps]%Forall_cons.
  destruct pieces as [|q pieces]; [by apply split_on_none|].
  change (join_with c (p :: q :: pieces)) with (p ++ c :: join_with c (q :: pieces)).
  rewrite split_on_cons by done. by rewrite IH.
Qed.

Section strip.
Context (seps : list (list ascii)).
(** The sequences are a prefix code, which UTF-8 is in both directions. *)
Context (Hcode : forall e1 e2, e1 ∈ seps -> e2 ∈ seps -> e1 `prefix_of` e2 -> e1 = e2).

Lemma strip_stop fuel l : (forall e, e ∈ seps -> ~ e `prefix_of` l) -> strip fuel seps l = l.
Proof.
  intros Hn. destruct fuel as [|fuel]; simpl; [done|].
  destruct (list_find _ seps) as [[i e]|] eqn:E; [|done].
  apply list_find_Some in E as (Hi%list_elem_of_lookup_2 & Hp & _). by destruct (Hn e).
Qed.

Lemma strip_pad fuel pad rest :
  Forall (fun e => e ∈ seps) pad -> (forall e, e ∈ seps -> ~ e `prefix_of` rest) ->
  (length pad <= fuel)%nat -> strip fuel seps (concat pad ++ rest) = rest.
Proof.
  intros Hpad Hrest. revert fuel. induction Hpad as [|e pad He _ IH]; intros fuel Hf; simpl in *.
  { by apply strip_stop. }
  destruct fuel as [|fuel]; [lia|]. simpl. rewrite <-app_assoc.
  destruct (list_find _ seps) as [[i e']|] eqn:E.
  - apply list_find_Some in E as (Hi%list_elem_of_lookup_2 & Hp & _).
    assert (e' = e) as ->.
    { destruct (prefix_weak_total e' e (e ++ concat pad ++ rest)) as [?|?]; [done|by eexists|auto|].
      symmetry. auto. }
    rewrite drop_app_length. apply IH. lia.
  - eapply list_find_None in E. rewrite Forall_forall in E. destruct (E e He). by eexists.
Qed.

Lemma strip_front_pad pad rest :
  Forall (fun e => e ∈ seps) pad -> Forall (fun e => e ≠ []) pad ->
  (forall e, e ∈ seps -> ~ e `prefix_of` rest) -> strip_front seps (concat pad ++ rest) = rest.
Proof.
  intros Hpad Hne Hrest. apply strip_pad; [done..|]. clear Hpad.
  induction Hne as [|e pad He _ IH]; simpl; [lia|]. rewrite !length_app in *.
  destruct e; [done|]. simpl. lia.
Qed.
End strip.

(** The bytes of the encodings of spaces are not printable ASCII. *)
Definition printable (c : ascii) : Prop := 32 < byte_val c < 127.
#[export] Instance printable_dec c : Decision (printable c).
Proof. unfold printable. apply _. Defined.

Definition is_code (seps : list (list ascii)) : Prop :=
  Forall (fun e => e ≠ [] /\ Forall (fun c => ~ printable c) e /\
                   Forall (fun e' => e `prefix_of` e' -> e = e') seps) seps.

Lemma spaces_code : is_code spaces.
Proof. apply (bool_decide_unpack _). vm_compute. done. Qed.
Lemma reversed_spaces_code : is_code (reverse <$> spaces).
Proof. apply (bool_decide_unpack _). vm_compute. done. Qed.

(** What starts with a printable character keeps its front, after the padding. *)
Lemma strip_code seps pad c rest :
  is_code seps -> Forall (fun e => e ∈ seps) pad -> printable c ->
  strip_front seps (concat pad ++ c :: rest) = c :: rest.
Proof.
  intros Hc Hpad Hpr. unfold is_code in Hc. rewrite Forall_forall in Hc. apply strip_front_pad.
  - intros e1 e2 H1 H2. apply Hc in H1 as (_ & _ & H1). rewrite Forall_forall in H1. by apply H1.
  - done.
  - eapply Forall_impl; [exact Hpad|]. intros e He. by apply Hc in He as [? _].
  - intros e He [k Hk]. apply Hc in He as (Hne & Hnp & _).
    destruct e as [|x e]; [done|]. injection Hk as -> _. apply Forall_cons in Hnp as [? _]. done.
Qed.

Lemma reverse_concat {A} (ls : list (list A)) : reverse (concat ls) = concat (reverse (reverse <$> ls)).
Proof.
  induction ls as [|l ls IH]; [done|]. simpl. rewrite reverse_app, IH, reverse_cons, concat_app.
  simpl. by rewrite app_nil_r.
Qed.

(** A namespace as it is written: printable characters without a comma. *)
Definition proper_name (name : string) : Prop :=
  bytes name ≠ [] /\ Forall (fun c => printable c /\ c ≠ ","%char) (bytes name).
#[export] Instance proper_name_dec name : Decision (proper_name name).
Proof. unfold proper_name. apply _. Defined.

Lemma TrimSpace_pad left name right :
  Forall (fun e => e ∈ spaces) left -> Forall (fun e => e ∈ spaces) right -> proper_name name ->
  TrimSpace (concat left ++ bytes name ++ concat right) = bytes name.
Proof.
  intros Hl Hr [Hne Hpr]. unfold TrimSpace.
  assert (Hfirst : exists c l, bytes name = c :: l /\ printable c).
  { destruct (bytes name) as [|c l]; [done|]. apply Forall_cons in Hpr as [[? _] _]. eauto. }
  assert (Hlast : exists c l, reverse (bytes name) = c :: l /\ printable c).
  { apply Forall_reverse in Hpr. destruct (reverse (bytes name)) as [|c l] eqn:E.
    - apply (f_equal reverse) in E. by rewrite reverse_involutive in E.
    - apply Forall_cons in Hpr as [[? _] _]. eauto. }
  destruct Hfirst as (c1 & l1 & E1 & Hc1), Hlast as (c2 & l2 & E2 & Hc2).
  rewrite E1 at 1. rewrite <-app_comm_cons, (strip_code spaces) by (done || apply spaces_code).
  rewrite app_comm_cons, <-E1.
  rewrite reverse_app, reverse_concat, E2, (strip_code (reverse <$> spaces)).
  - by rewrite <-E2, reverse_involutive.
  - apply reversed_spaces_code.
  - apply Forall_reverse, Forall_fmap. eapply Forall_impl; [exact Hr|]. intros e He.
    by apply list_elem_of_fmap_2.
  - done.
Qed.

Lemma elem_of_namespaces pieces m x :
  x ∈ foldl addNamespace m pieces <->
  x ∈ m \/ exists p, p ∈ pieces /\ TrimSpace p = bytes x /\ x ≠ "".
Proof.
  revert m. induction pieces as [|p pieces IH]; intros m; simpl; [set_solver|].
  rewrite IH. unfold addNamespace. case_bool_decide as He.
  - split; [intros [?|(q & ? & ?)]; [by left|right; exists q; set_solver]|].
    intros [?|(q & [->|Hq]%elem_of_cons & Hb & Hx)]; [by left| |right; by eauto].
    rewrite He in Hb. destruct Hx. by rewrite <-(of_bytes_bytes x), <-Hb.
  - rewrite elem_of_union, elem_of_singleton. split.
    + intros [[->|?]|(q & ? & ?)]; [right; exists p|by left|right; exists q; set_solver].
      rewrite bytes_of_bytes. split_and!; [by left|done|]. intros E. apply He.
      by rewrite <-(bytes_of_bytes (TrimSpace p)), E.
    + intros [?|(q & [->|Hq]%elem_of_cons & Hb & Hx)]; [by left; right| |right; by eauto].
      left. left. by rewrite Hb, of_bytes_bytes.
Qed.

(** One entry of the flag: a name with padding around it. *)
Record entry := mkEntry { en_left : list (list ascii); en_name : string; en_right : list (list ascii) }.
Definition entry_bytes (e : entry) : list ascii :=
  concat (en_left e) ++ bytes (en_name e) ++ concat (en_right e).
Definition proper_entry (e : entry) : Prop :=
  Forall (fun s => s ∈ spaces) (en_left e) /\ Forall (fun s => s ∈ spaces) (en_right e) /\
  proper_name (en_name e).
#[export] Instance proper_entry_dec e : Decision (proper_entry e).
Proof. unfold proper_entry. apply _. Defined.

Lemma entry_no_comma e : proper_entry e -> ","%char ∉ entry_bytes e.
Proof.
  intros (Hl & Hr & _ & Hn). unfold entry_bytes.
  assert (Hpad : forall pad, Forall (fun s => s ∈ spaces) pad -> ","%char ∉ concat pad).
  { intros pad Hp. induction Hp as [|s pad Hs _ IH]; simpl; [by intros ?%elem_of_nil|].
    rewrite elem_of_app. intros [Hc|?]; [|done]. pose proof spaces_code as Hcode.
    unfold is_code in Hcode. rewrite Forall_forall in Hcode. apply Hcode in Hs as (_ & Hs & _).
    rewrite Forall_forall in Hs. by apply (Hs _ Hc). }
  rewrite !elem_of_app. intros [?|[Hc|?]]; [by apply (Hpad (en_left e))| |by apply (Hpad (en_right e))].
  rewrite Forall_forall in Hn. by apply Hn in Hc as [_ ?].
Qed.

(** C37: the watched namespaces are exactly the ones listed: for any non-empty
    list of namespaces, each written with printable characters and padded on
    either side by white space of any kind (Unicode included), joined by commas,
    the cache is restricted to exactly these namespaces, whatever their order and
    repetitions; without the flag it is not restricted at all. *)
Theorem watched_namespaces_exact (entries : list entry) f :
  entries ≠ [] -> Forall proper_entry entries ->
  bytes (watchNamespaces f) = join_with ","%char (entry_bytes <$> entries) ->
  DefaultNamespaces f = Some (list_to_set (en_name <$> entries)) /\
  DefaultNamespaces default_flags = None.
Proof.
  intros Hne Hp Hb. split; [|done]. unfold DefaultNamespaces.
  assert (Hw : nonempty (watchNamespaces f) = true).
  { apply nonempty_true. intros E. rewrite E in Hb. destruct entries as [|e entries]; [done|].
    apply Forall_cons in Hp as [(_ & _ & Hn & _) _]. apply Hn.
    destruct entries; simpl in Hb; unfold entry_bytes in Hb;
      symmetry in Hb; repeat (apply app_eq_nil in Hb as [? Hb]); by apply app_eq_nil in Hb || done. }
  rewrite Hw, Hb, split_on_join; [|by intros ?%fmap_nil_inv|].
  - f_equal. apply leibniz_equiv. intros x. rewrite elem_of_namespaces, elem_of_list_to_set.
    rewrite Forall_forall in Hp. split.
    + intros [?%elem_of_empty|(p & (e & -> & He)%list_elem_of_fmap & Ht & _)]; [done|].
      destruct (Hp e He) as (Hl & Hr & Hn). unfold entry_bytes in Ht. rewrite TrimSpace_pad in Ht by done.
      apply list_elem_of_fmap. exists e. split; [|done].
      by rewrite <-(of_bytes_bytes x), <-Ht, of_bytes_bytes.
    + intros (e & -> & He)%list_elem_of_fmap. right. exists (entry_bytes e).
      destruct (Hp e He) as (Hl & Hr & Hn). split_and!; [by apply list_elem_of_fmap_2| |].
      * by apply TrimSpace_pad.
      * intros E. destruct Hn as [Hn _]. by rewrite E in Hn.
  - apply Forall_fmap. eapply Forall_impl; [exact Hp|]. apply entry_no_comma.
Qed.

Lemma watched_namespaces_exact_witness :
  exists f, watchNamespaces f = "team-a, team-b " /\
    DefaultNamespaces f = Some {["team-a"; "team-b"]}.
Proof.
  exists (mkFlags "team-a, team-b " 1 (S754_zero false) 0 "0" ":8081" false false true
            "" "tls.crt" "tls.key" "" "tls.crt" "tls.key" false).
  split; [reflexivity|].
  refine (proj1 (watched_namespaces_exact
    [mkEntry [] "team-a" []; mkEntry [[byte 32]] "team-b" [[byte 32]]] _ _ _ _)).
  - discriminate.
  - apply (bool_decide_unpack _). vm_compute. exact I.
  - reflexivity.
Defined.
