(* ===== verification/Reconciler.v ===== *)
(** * The reconcilers' common ground: [internal/controller/helpers.go]

    The state and error monad in which the reconcilers are written, and the
    shared helpers.  A reconciler runs over the state of the API server and a
    trace of the events and metrics it emitted; it returns a value or an error.
    Structured logging is left out. *)

From S2P Require Import Prelude Go Api Resources Clients Cluster Metrics.
#[local] Open Scope Z_scope.

(** What a reconciler emits: a Kubernetes event on an object, an increment of a
    counter, a new value of a gauge, or an observation of a histogram, each with
    the values of the collector's labels.  The observed durations are wall-clock
    times, which the model does not have. *)
Inductive Effect :=
| Event (key : Key) (etype reason : string) (msg : message)
| CounterInc (c : Collector) (labels : list string)
| GaugeSet (c : Collector) (labels : list string) (value : Z)
| HistogramObserve (c : Collector) (labels : list string).

Record St (W : Type) := mkSt { world : W; effects : list Effect }.
Arguments mkSt {W}.
Arguments world {W}.
Arguments effects {W}.

Definition M (W A : Type) : Type := St W -> result A * St W.

#[export] Instance M_ret {W} : MRet (M W) := fun _ a st => (Ok a, st).
#[export] Instance M_bind {W} : MBind (M W) := fun _ _ f m st =>
  match m st with
  | (Ok a, st') => f a st'
  | (Err e, st') => (Err e, st')
  end.

Section monad.
Context {W : Type}.

Definition throw {A} (e : error) : M W A := fun st => (Err e, st).
Definition lift {A} (r : result A) : M W A := fun st => (r, st).
(** A call that only reads the cluster. *)
Definition reads {A} (f : W -> result A) : M W A := fun st => (f (world st), st).
(** A call that may write it. *)
Definition writes {A} (f : W -> result A * W) : M W A := fun st =>
  let '(r, w) := f (world st) in (r, mkSt w (effects st)).
Definition emit (e : Effect) : M W unit := fun st =>
  (Ok tt, mkSt (world st) (effects st ++ [e])).
(** Keep the error of a call as a value. *)
Definition try {A} (m : M W A) : M W (result A) := fun st =>
  let '(r, st') := m st in (Ok r, st').
(** [fmt.Errorf("<format>: %w", err)] around a call. *)
Definition wrap {A} (format : string) (args : list fmtarg) (m : M W A) : M W A := fun st =>
  let '(r, st') := m st in (wrap_err format args r, st').
End monad.

Definition when {W} (b : bool) (m : M W unit) : M W unit := if b then m else mret tt.

(** [ctrl.Result]; the delay is in nanoseconds. *)
Record ctrl_Result := mkResult { RequeueAfter : Z }.
Definition no_requeue : ctrl_Result := mkResult 0.
Definition Second : Z := 1000000000.
Definition Minute : Z := 60 * Second.

Definition resultSuccess : string := "success".
Definition resultError : string := "error".

(** The deferred function of every [Reconcile]: the duration, and one more
    reconcile with the outcome as a label. *)
Definition counted {W A} (controller : string) (m : M W A) : M W A := fun st =>
  let '(r, st') := m st in
  let resultLabel := if is_ok r then resultSuccess else resultError in
  (r, mkSt (world st')
        (effects st' ++ [HistogramObserve ReconcileDuration [controller];
                         CounterInc ReconcileTotal [controller; resultLabel]])).

(** [client.IgnoreNotFound(err)]. *)
Definition IgnoreNotFound {W} `{Client W} {A} (a : A) (e : error) : M W A :=
  if IsNotFound e then mret a else throw e.

(** ** Changing the metadata of an object *)

Definition set_labels (l : option (gmap string string)) (m : ObjectMeta) : ObjectMeta :=
  mkObjectMeta (Meta_Name m) (Meta_Namespace m) (Meta_UID m) (Meta_Generation m)
    (Meta_DeletionTimestamp m) l (Meta_Annotations m) (Meta_Finalizers m) (Meta_OwnerReferences m).
Definition set_annotations (a : option (gmap string string)) (m : ObjectMeta) : ObjectMeta :=
  mkObjectMeta (Meta_Name m) (Meta_Namespace m) (Meta_UID m) (Meta_Generation m)
    (Meta_DeletionTimestamp m) (Meta_Labels m) a (Meta_Finalizers m) (Meta_OwnerReferences m).
Definition set_finalizers (f : list string) (m : ObjectMeta) : ObjectMeta :=
  mkObjectMeta (Meta_Name m) (Meta_Namespace m) (Meta_UID m) (Meta_Generation m)
    (Meta_DeletionTimestamp m) (Meta_Labels m) (Meta_Annotations m) f (Meta_OwnerReferences m).
Definition set_owners (o : list OwnerReference) (m : ObjectMeta) : ObjectMeta :=
  mkObjectMeta (Meta_Name m) (Meta_Namespace m) (Meta_UID m) (Meta_Generation m)
    (Meta_DeletionTimestamp m) (Meta_Labels m) (Meta_Annotations m) (Meta_Finalizers m) o.

(** ** [helpers.go] *)

Section helpers.
Context {W : Type} `{Client W}.

Definition reconcileOrDelete (k : Kind) (obj : Object k) (needed : bool)
    (mutate : Object k -> result (Object k)) : M W unit :=
  if negb needed then
    r ← try (reads (Get k (key_of obj)));
    match r with
    | Err e => if IsNotFound e then mret tt else throw e
    | Ok obj => writes (Delete k obj)
    end
  else writes (CreateOrUpdate k obj mutate).

Definition kafkaConfigFromSecret (namespace : string) (bootstrapServers : list string)
    (secretRef : option SecretReference) (w : W) : result Kafka.Config :=
  match secretRef with
  | Some ref =>
    secret ← wrap_err "read kafka credentials secret: %w" []
               (Get KSecret (namespace, Secret_Name ref) w);
    Ok (Kafka.mkConfig bootstrapServers (map_get (Sec_Data secret) "username")
          (map_get (Sec_Data secret) "password"))
  | None => Ok (Kafka.mkConfig bootstrapServers "" "")
  end.

Definition s3ConfigFromSecret (namespace : string) (spec : S3DiscoverySpec) (w : W)
    : result S3.Config :=
  let cfg := S3.mkConfig (S3Disc_Region spec) (S3Disc_Endpoint spec) (S3Disc_ForcePathStyle spec) in
  match S3Disc_CredentialsSecretRef spec with
  | Some ref =>
    secret ← wrap_err "read s3 credentials secret: %w" []
               (Get KSecret (namespace, Secret_Name ref) w);
    Ok (cfg (map_get (Sec_Data secret) "aws_access_key_id")
          (map_get (Sec_Data secret) "aws_secret_access_key"))
  | None => Ok (cfg "" "")
  end.
End helpers.

Definition scalingBounds (scaling : option ScalingSpec) : Z * Z :=
  match scaling with
  | Some s => (default 1 (Scaling_MinReplicas s), default 10 (Scaling_MaxReplicas s))
  | None => (1, 10)
  end.

(** * Reasoning about reconcilers *)

(** ** Runs that return a value *)

Section runs.
Context {W : Type}.

Lemma M_bind_Ok {A B} (m : M W A) (f : A -> M W B) st b st' :
  (m ≫= f) st = (Ok b, st') <-> exists a st1, m st = (Ok a, st1) /\ f a st1 = (Ok b, st').
Proof.
  unfold mbind, M_bind. destruct (m st) as [[a|e] st1]; [|naive_solver].
  split; [eauto|]. by intros (? & ? & [= <- <-] & ?).
Qed.

(** A run that continues after [m]. *)
Lemma M_bind_run {A B} (m : M W A) (f : A -> M W B) st a st1 :
  m st = (Ok a, st1) -> (exists b st', f a st1 = (Ok b, st')) ->
  exists b st', (m ≫= f) st = (Ok b, st').
Proof. intros E (b & st' & Ef). exists b, st'. apply M_bind_Ok. eauto. Qed.

Lemma wrap_Ok {A} f args (m : M W A) st a st' :
  wrap f args m st = (Ok a, st') <-> m st = (Ok a, st').
Proof. unfold wrap. destruct (m st) as [[]]; simpl; naive_solver. Qed.

Lemma writes_Ok {A} (f : W -> result A * W) st a st' :
  writes f st = (Ok a, st') <->
  f (world st) = (Ok a, world st') /\ effects st' = effects st.
Proof.
  unfold writes. destruct (f (world st)) as [r w], st'; simpl. naive_solver.
Qed.

Lemma try_Ok {A} (m : M W A) st a st' : m st = (Ok a, st') -> try m st = (Ok (Ok a), st').
Proof. unfold try. by intros ->. Qed.

Lemma counted_Ok {A} c (m : M W A) st a st' :
  counted c m st = (Ok a, st') -> exists st1, m st = (Ok a, st1) /\ world st1 = world st'.
Proof. unfold counted. destruct (m st) as [r st1]. intros [= -> <-]. by exists st1. Qed.
End runs.

(** ** Footprints

    [footprint S m]: the run of [m] changes no object outside [S], whatever it
    returns. *)

Section footprint.
Context {W : Type} `{Client W}.

Definition footprint {A} (S : Kind -> Key -> Prop) (m : M W A) : Prop :=
  forall st k key, ~ S k key ->
    stored k key (world (snd (m st))) = stored k key (world st).

Definition nothing : Kind -> Key -> Prop := fun _ _ => False.

Lemma footprint_mono {A} (S T : Kind -> Key -> Prop) (m : M W A) :
  footprint S m -> (forall k key, S k key -> T k key) -> footprint T m.
Proof. intros Hm Hle st k key Hn. apply Hm. eauto. Qed.

Lemma footprint_ret {A} S (a : A) : footprint S (mret a).
Proof. done. Qed.
Lemma footprint_throw {A} S e : footprint S (@throw W A e).
Proof. done. Qed.
Lemma footprint_lift {A} S (r : result A) : footprint S (lift r).
Proof. done. Qed.
Lemma footprint_reads {A} S (f : W -> result A) : footprint S (reads f).
Proof. done. Qed.
Lemma footprint_emit S e : footprint S (emit e).
Proof. done. Qed.
Lemma footprint_when S b (m : M W unit) : footprint S m -> footprint S (when b m).
Proof. by destruct b. Qed.
Lemma footprint_try {A} S (m : M W A) : footprint S m -> footprint S (try m).
Proof. intros Hm st k key Hn. unfold try. specialize (Hm st k key Hn). by destruct (m st). Qed.
Lemma footprint_wrap {A} S f args (m : M W A) : footprint S m -> footprint S (wrap f args m).
Proof. intros Hm st k key Hn. unfold wrap. specialize (Hm st k key Hn). by destruct (m st). Qed.
Lemma footprint_counted {A} S c (m : M W A) : footprint S m -> footprint S (counted c m).
Proof. intros Hm st k key Hn. unfold counted. specialize (Hm st k key Hn). by destruct (m st). Qed.

Lemma footprint_bind {A B} S (m : M W A) (f : A -> M W B) :
  footprint S m -> (forall a, footprint S (f a)) -> footprint S (m ≫= f).
Proof.
  intros Hm Hf st k key Hn. specialize (Hm st k key Hn). unfold mbind, M_bind.
  destruct (m st) as [[a|e] st1]; simpl in *; [|done]. rewrite <-Hm. by apply Hf.
Qed.

Lemma footprint_bind_post {A B} S (P : A -> Prop) (m : M W A) (f : A -> M W B) :
  footprint S m -> (forall st a st', m st = (Ok a, st') -> P a) ->
  (forall a, P a -> footprint S (f a)) -> footprint S (m ≫= f).
Proof.
  intros Hm HP Hf st k key Hn. specialize (Hm st k key Hn). unfold mbind, M_bind.
  destruct (m st) as [[a|e] st1] eqn:E; simpl in *; [|done]. rewrite <-Hm.
  apply Hf; [by eapply HP|done].
Qed.

Lemma footprint_writes {A} (S : Kind -> Key -> Prop) k key (f : W -> result A * W) :
  (forall w, untouched k key w (snd (f w))) -> S k key -> footprint S (writes f).
Proof.
  intros Hf HS st k' key' Hn. unfold writes. specialize (Hf (world st) k' key').
  destruct (f (world st)) as [r w]; simpl in *. apply Hf.
  destruct (decide (k' = k)); [right|by left]. intros ->. by subst.
Qed.

(** An object outside the footprint keeps its state. *)
Lemma footprint_stored {A} S (m : M W A) st r st' k key :
  footprint S m -> m st = (r, st') -> ~ S k key ->
  stored k key (world st') = stored k key (world st).
Proof. intros Hm E Hn. specialize (Hm st k key Hn). by rewrite E in Hm. Qed.
Definition only (k : Kind) (key : Key) : Kind -> Key -> Prop := fun k' key' => k' = k /\ key' = key.

(** A step that writes one object keeps all others. *)
Lemma step_keeps {A} k key (m : M W A) st r st' :
  footprint (only k key) m -> m st = (r, st') ->
  forall k' key', k' ≠ k \/ key' ≠ key -> stored k' key' (world st') = stored k' key' (world st).
Proof. intros Hf E k' key' Hne. eapply footprint_stored; [done..|]. unfold only. naive_solver. Qed.
End footprint.

Create HintDb footprint.
#[export] Hint Resolve footprint_ret footprint_throw footprint_lift footprint_reads footprint_emit
  footprint_when footprint_try footprint_wrap footprint_counted footprint_bind : footprint.

(** ** Child objects *)

Section children.
Context {W : Type} `{ClientLaws W}.

Lemma SetControllerReference_fields owner m m' :
  SetControllerReference owner m = Ok m' ->
  Meta_Name m' = Meta_Name m /\ Meta_Namespace m' = Meta_Namespace m /\
  Meta_Labels m' = Meta_Labels m /\ Meta_Annotations m' = Meta_Annotations m /\
  Meta_Finalizers m' = Meta_Finalizers m /\
  exists r, r ∈ Meta_OwnerReferences m' /\ Owner_UID r = Meta_UID owner.
Proof. intros [Hr <-]%SetControllerReference_Ok. done. Qed.

Lemma footprint_reconcileOrDelete (S : Kind -> Key -> Prop) k (obj : Object k) needed f :
  S k (key_of obj) -> footprint S (reconcileOrDelete k obj needed f).
Proof.
  intros HS. unfold reconcileOrDelete. destruct needed; simpl.
  - eapply footprint_writes; [|done]. intros w. apply CreateOrUpdate_frame.
  - intros st k' key' Hn. unfold mbind, M_bind, try, reads; simpl.
    destruct (Get k (key_of obj) (world st)) as [o|e] eqn:E; [|by destruct (IsNotFound e)].
    apply Get_Ok, stored_key in E. rewrite <-E in HS.
    by apply (footprint_writes S k (key_of o)); [intros w; apply Delete_frame| |].
Qed.

(** The object exists, carries the labels, is owned by the object with UID [uid]
    and its content satisfies [P]. *)
Definition realised (k : Kind) (key : Key) (uid : string) (labels : gmap string string)
    (P : Content k -> Prop) (w : W) : Prop :=
  exists o : Object k, stored k key w = Some o /\
    Meta_Labels (obj_meta o) = Some labels /\
    (exists r, r ∈ Meta_OwnerReferences (obj_meta o) /\ Owner_UID r = uid) /\
    P (content o).

(** The object is gone, or on its way out. *)
Definition absent (k : Kind) (key : Key) (w : W) : Prop :=
  forall o : Object k, stored k key w = Some o -> is_Some (Meta_DeletionTimestamp (obj_meta o)).

(** The object under a key, if any, has no other owner than [uid]. *)
Definition adoptable (uid : string) (k : Kind) (key : Key) (w : W) : Prop :=
  forall o : Object k, stored k key w = Some o ->
  forall r, r ∈ Meta_OwnerReferences (obj_meta o) -> Owner_UID r = uid.

Lemma reconcileOrDelete_absent k (obj : Object k) f st st' :
  reconcileOrDelete k obj false f st = (Ok tt, st') -> absent k (key_of obj) (world st').
Proof.
  unfold reconcileOrDelete; simpl. unfold mbind, M_bind, try, reads; simpl.
  destruct (Get k (key_of obj) (world st)) as [o|e] eqn:E.
  - intros [Hd _]%writes_Ok o' Ho'. apply Get_Ok, stored_key in E. rewrite <-E in Ho'.
    by apply (Delete_Ok _ _ _ _ Hd).
  - destruct (IsNotFound e) eqn:En; [|done]. intros [= <-] o'.
    by rewrite (Get_NotFound _ _ _ _ E En).
Qed.

(** ** Listed pipelines *)

Lemma key_of_listed ns labels w l p :
  ListPipelines ns labels w = Ok l -> p ∈ l -> @key_of KPipeline p = (ns, Meta_Name (P_Meta p)).
Proof. intros [_ Hin]%List_Ok Hp. apply Hin in Hp as [Hst _]. by apply (stored_key KPipeline) in Hst. Qed.

Lemma listed_NoDup ns labels w l :
  ListPipelines ns labels w = Ok l -> NoDup ((fun p => @key_of KPipeline p) <$> l).
Proof.
  intros Hl. pose proof Hl as [Hnd _]%List_Ok.
  rewrite (list_fmap_ext _ (pair ns ∘ (Meta_Name ∘ P_Meta))).
  - rewrite list_fmap_compose. by apply (NoDup_fmap_2 _).
  - intros i p Hp%list_elem_of_lookup_2. by eapply key_of_listed.
Qed.

Lemma listed_stored ns labels w l p :
  ListPipelines ns labels w = Ok l -> p ∈ l -> stored KPipeline (@key_of KPipeline p) w = Some p.
Proof.
  intros Hl Hp. rewrite (key_of_listed _ _ _ _ _ Hl Hp). apply List_Ok in Hl as [_ Hin].
  by apply Hin in Hp as [? _].
Qed.
End children.
