(* ===== verification/PipelineController.v ===== *)
(** * The pipeline reconciler: [internal/controller/dataprepperpipeline_controller.go]

    [Reconcile] reads a [DataPrepperPipeline], merges the namespace defaults,
    validates the pipeline graph, computes the scaling plan, generates the two
    configuration documents and brings the child objects (ConfigMaps, Deployment,
    Services, autoscaler, disruption budget, service monitor) to the generated
    state, then writes the status. *)

From S2P Require Import Prelude Go Sha256 Api Graph Webhook Scaler PeerForwarder PipelineConfig Merger.
From S2P Require Import Resources Clients Cluster Metrics Reconciler.
#[local] Open Scope Z_scope.

Definition defaultTargetCPU : Z := 70.
Definition pipelineFinalizerName : string := "dataprepper.kaasops.io/pipeline-finalizer".
Definition secretRefIndexField : string := ".spec.secretRefs".

(** ** Field updates of the local [pipeline] variable *)

Definition set_meta (m : ObjectMeta) (p : DataPrepperPipeline) : DataPrepperPipeline :=
  mkDataPrepperPipeline m (P_Spec p) (P_Status p).
Definition set_status (s : DataPrepperPipelineStatus) (p : DataPrepperPipeline)
    : DataPrepperPipeline := mkDataPrepperPipeline (P_Meta p) (P_Spec p) s.
Definition set_conditions (c : list Condition) (p : DataPrepperPipeline) : DataPrepperPipeline :=
  let s := P_Status p in
  set_status (mkDataPrepperPipelineStatus (PStatus_Phase s) (PStatus_Replicas s)
                (PStatus_ReadyReplicas s) (PStatus_ObservedGeneration s) c (PStatus_Kafka s)) p.
Definition set_kafka (k : option KafkaStatus) (p : DataPrepperPipeline) : DataPrepperPipeline :=
  let s := P_Status p in
  set_status (mkDataPrepperPipelineStatus (PStatus_Phase s) (PStatus_Replicas s)
                (PStatus_ReadyReplicas s) (PStatus_ObservedGeneration s) (PStatus_Conditions s) k) p.

(** ** Referenced secrets *)

(** [if !seen[name] { seen[name] = true; refs = append(refs, name) }], guarded by
    the presence of the reference. *)
Definition addRef (ref : option SecretReference) (st : gset string * list string)
    : gset string * list string :=
  match ref with
  | Some r =>
    let '(seen, refs) := st in
    if bool_decide (Secret_Name r ∈ seen) then st
    else ({[Secret_Name r]} ∪ seen, refs ++ [Secret_Name r])
  | None => st
  end.

Definition addSinkRefs (st : gset string * list string) (s : SinkSpec) : gset string * list string :=
  addRef (kafkaSinkRef s) (addRef (s3SinkRef s) (addRef (openSearchSinkRef s) st)).

Definition addPipelineRefs (st : gset string * list string) (p : PipelineDefinition)
    : gset string * list string :=
  foldl addSinkRefs (addRef (s3SourceRef p) (addRef (kafkaSourceRef p) st)) (PD_Sink p).

Definition referencedSecrets (spec : DataPrepperPipelineSpec) : list string :=
  snd (foldl addPipelineRefs (∅, []) (Spec_Pipelines spec)).

(** ** Phases *)

(** The [switch] that derives the phase from the replica counts. *)
Definition phase_of (errorPhase : PipelinePhase) (replicas readyReplicas : Z) : PipelinePhase :=
  if bool_decide (errorPhase = PipelinePhaseError) then PipelinePhaseError
  else if replicas =? 0 then PipelinePhasePending
  else if readyReplicas =? 0 then PipelinePhasePending
  else if readyReplicas <? replicas then PipelinePhaseDegraded
  else PipelinePhaseRunning.

(** The Ready condition for a phase. *)
Definition ready_condition (phase : PipelinePhase) (generation replicas readyReplicas : Z)
    (msg : message) : Condition :=
  match phase with
  | PipelinePhaseError => mkCondition "Ready" ConditionFalse generation "ValidationFailed" msg
  | PipelinePhasePending =>
    mkCondition "Ready" ConditionFalse generation "DeploymentNotReady"
      (Msg "Waiting for deployment to become ready" [])
  | PipelinePhaseDegraded =>
    mkCondition "Ready" ConditionFalse generation "PartiallyReady"
      (Msg "%d/%d replicas ready" [AInt readyReplicas; AInt replicas])
  | _ =>
    mkCondition "Ready" ConditionTrue generation "Reconciled"
      (Msg "Pipeline reconciled successfully" [])
  end.

(** The four values [calculateScaling] returns. *)
Record ScalingPlan := mkScalingPlan {
  SP_replicas : Z; SP_topicWorkers : Z; SP_useHPA : bool; SP_err : option error }.

(** The mutate closure of the child objects: set the labels, update the content,
    set the owner. *)
Definition mutateChild {W} `{Client W} (k : Kind) (owner : DataPrepperPipeline)
    (labels : gmap string string) (f : Content k -> Content k) (o : Object k)
    : result (Object k) :=
  m ← SetControllerReference (P_Meta owner) (set_labels (Some labels) (obj_meta o));
  Ok (build k m (f (content o)) (status_of o)).

Section controller.
Context {W : Type} `{Client W}.
(** [yaml.Marshal] of [sigs.k8s.io/yaml]
    and the value of Go's [int32] conversion of an infinity. *)
Variable Marshal : gmap string any -> result string.
Variable int32_of_inf : Z.
(** The fields of [DataPrepperPipelineReconciler] besides the client. *)
Variable AdminClientFactory : option Kafka.ClientFactory.
Variable ServiceMonitorAvailable : bool.

(** ** Scaling *)

Definition calculateKafkaScaling (pipeline : DataPrepperPipeline) (ks : KafkaSourceSpec)
    (minReplicas maxReplicas : Z) (w : W) : ScalingPlan * DataPrepperPipeline :=
  let failed e := (mkScalingPlan minReplicas 0 false (Some e), pipeline) in
  match AdminClientFactory with
  | None => (mkScalingPlan minReplicas 0 false None, pipeline)
  | Some factory =>
    match kafkaConfigFromSecret (Meta_Namespace (P_Meta pipeline)) (KSrc_BootstrapServers ks)
            (KSrc_CredentialsSecretRef ks) w with
    | Err e => failed e
    | Ok cfg =>
      match wrap_err "create kafka admin client: %w" [] (factory cfg) with
      | Err e => failed e
      | Ok adminClient =>
        match wrap_err "get partition count: %w" []
                (Kafka.GetPartitionCount adminClient (KSrc_Topic ks)) with
        | Err e => failed e
        | Ok partitions =>
          match CalculateKafka int32_of_inf partitions maxReplicas minReplicas with
          | Err e => failed e
          | Ok r =>
            (mkScalingPlan (Replicas r) (TopicWorkers r) false None,
             set_kafka (Some (mkKafkaStatus partitions (TopicWorkers r)
                                (int32 (Replicas r * TopicWorkers r)))) pipeline)
          end
        end
      end
    end
  end.

(** The first pipeline definition with a Kafka source, if any. *)
Definition first_kafka (ps : list PipelineDefinition) : option KafkaSourceSpec :=
  head (omap (fun p => Src_Kafka (PD_Source p)) ps).
Definition has_s3 (ps : list PipelineDefinition) : bool :=
  existsb (fun p => bool_decide (is_Some (Src_S3 (PD_Source p)))) ps.

(** The condition of the first [if] of [calculateScaling]. *)
Definition manual (scaling : option ScalingSpec) : bool :=
  match scaling with
  | None => true
  | Some s => negb (nonempty (Scaling_Mode s)) || bool_decide (Scaling_Mode s = ScalingModeManual)
  end.

Definition calculateScaling (pipeline : DataPrepperPipeline) (spec : DataPrepperPipelineSpec)
    (w : W) : ScalingPlan * DataPrepperPipeline :=
  let scaling := Spec_Scaling spec in
  if manual scaling then
    let r := CalculateStatic (default 1 (scaling ≫= Scaling_FixedReplicas)) in
    (mkScalingPlan (Replicas r) (TopicWorkers r) false None, pipeline)
  else
    let '(minReplicas, maxReplicas) := scalingBounds scaling in
    match first_kafka (Spec_Pipelines spec) with
    | Some ks => calculateKafkaScaling pipeline ks minReplicas maxReplicas w
    | None =>
      if has_s3 (Spec_Pipelines spec) then
        let r := CalculateStatic minReplicas in
        (mkScalingPlan (Replicas r) (TopicWorkers r) false None, pipeline)
      else (mkScalingPlan minReplicas 0 true None, pipeline)
    end.

(** ** The hash of the referenced secrets *)

Fixpoint secretWrites (pipeline : DataPrepperPipeline) (refs : list string) (written : string)
    : M W string :=
  match refs with
  | [] => mret written
  | ref :: refs =>
    r ← try (reads (Get KSecret (Meta_Namespace (P_Meta pipeline), ref)));
    match r with
    | Err _ =>
      emit (Event (@key_of KPipeline pipeline) "Warning" "SecretNotFound"
              (Msg "Referenced secret %q not found, pipeline may fail at runtime" [AStr ref])) ;;
      secretWrites pipeline refs written
    | Ok secret =>
      let data := Sec_Data secret in
      secretWrites pipeline refs
        (written +:+ hash_writes data (sort_strings (map_to_list data).*1))
    end
  end.

Definition secretHash (pipeline : DataPrepperPipeline) (spec : DataPrepperPipelineSpec)
    : M W string :=
  match referencedSecrets spec with
  | [] => mret ""
  | refs => written ← secretWrites pipeline refs ""; mret (first16 (sha256_hex written))
  end.

(** ** Child objects *)

Definition zero_DeploymentSpec : DeploymentSpec :=
  mkDeploymentSpec 0 ∅ (mkPodTemplate ∅ ∅ 0 None "" [] [] ∅ [] None).
Definition zero_ServiceSpec : ServiceSpec := mkServiceSpec "" "" ∅ [].

Definition reconcileConfigMap (owner : DataPrepperPipeline) (name : string)
    (data : gmap string string) : M W unit :=
  writes (CreateOrUpdate KConfigMap
            (mkConfigMap (bare_meta (Meta_Namespace (P_Meta owner), name)) ∅)
            (mutateChild KConfigMap owner (CommonLabels (Meta_Name (P_Meta owner)))
               (fun _ => data))).

Definition reconcileDeployment (owner : DataPrepperPipeline) (desired : Deployment) : M W unit :=
  let m := Dep_Meta desired in
  writes (CreateOrUpdate KDeployment
            (mkDeployment (bare_meta (Meta_Namespace m, Meta_Name m)) zero_DeploymentSpec
               (mkDeploymentStatus 0 0))
            (mutateChild KDeployment owner (default ∅ (Meta_Labels m))
               (fun _ => Dep_Spec desired))).

(** The Service keeps the [ClusterIP] the server gave it. *)
Definition reconcileService (owner : DataPrepperPipeline) (needed : bool)
    (spec : DataPrepperPipelineSpec) : M W unit :=
  let desired := GenerateService owner spec in
  reconcileOrDelete KService
    (mkService (bare_meta (@key_of KPipeline owner)) zero_ServiceSpec) needed
    (mutateChild KService owner (default ∅ (Meta_Labels (Svc_Meta desired)))
       (fun s => mkServiceSpec (Svc_Type (Svc_Spec desired)) (Svc_ClusterIP s)
                   (Svc_Selector (Svc_Spec desired)) (Svc_Ports (Svc_Spec desired)))).

Definition reconcileHeadlessService (owner : DataPrepperPipeline) (needed : bool) : M W unit :=
  let desired := GenerateHeadlessService owner in
  reconcileOrDelete KService
    (mkService (bare_meta (Meta_Namespace (P_Meta owner), Meta_Name (P_Meta owner) +:+ "-headless"))
       zero_ServiceSpec) needed
    (mutateChild KService owner (default ∅ (Meta_Labels (Svc_Meta desired)))
       (fun s => mkServiceSpec (Svc_Type (Svc_Spec desired)) (Svc_ClusterIP (Svc_Spec desired))
                   (Svc_Selector (Svc_Spec desired)) (Svc_Ports (Svc_Spec desired)))).

Definition reconcileHPA (owner : DataPrepperPipeline) (spec : DataPrepperPipelineSpec)
    (needed : bool) : M W unit :=
  let '(minReplicas, maxReplicas) := scalingBounds (Spec_Scaling spec) in
  let desired := GenerateHPA owner minReplicas maxReplicas defaultTargetCPU in
  reconcileOrDelete KHPA
    (mkHPA (bare_meta (@key_of KPipeline owner)) (mkHPASpec "" "" 0 0 0)) needed
    (mutateChild KHPA owner (default ∅ (Meta_Labels (HPA_Meta desired)))
       (fun _ => HPA_Spec desired)).

Definition reconcileServiceMonitor (owner : DataPrepperPipeline)
    (spec : DataPrepperPipelineSpec) (needed : bool) : M W unit :=
  let desired := GenerateServiceMonitor owner spec in
  reconcileOrDelete KServiceMonitor
    (mkServiceMonitor (bare_meta (@key_of KPipeline owner)) (mkServiceMonitorObjSpec ∅ [])) needed
    (mutateChild KServiceMonitor owner (default ∅ (Meta_Labels (SMO_Meta desired)))
       (fun _ => SMO_Spec desired)).

Definition reconcilePDB (owner : DataPrepperPipeline) (replicas : Z) : M W unit :=
  let needed := 1 <? replicas in
  let desired := GeneratePDB owner replicas in
  reconcileOrDelete KPDB
    (mkPDB (bare_meta (@key_of KPipeline owner)) (mkPDBSpec 0 ∅)) needed
    (mutateChild KPDB owner (default ∅ (Meta_Labels (PDB_Meta desired)))
       (fun _ => PDB_Spec desired)).

(** ** Status *)

(** The body of the retry loop of [updateStatus]; the closure's variable
    [pipeline] is part of the state. *)
Definition writeStatus (desiredStatus : DataPrepperPipelineStatus)
    (s : DataPrepperPipeline * W) : result unit * (DataPrepperPipeline * W) :=
  let '(pipeline, w) := s in
  match Get KPipeline (@key_of KPipeline pipeline) w with
  | Err e => (Err e, (pipeline, w))
  | Ok pipeline =>
    let pipeline :=
      set_status (mkDataPrepperPipelineStatus (PStatus_Phase desiredStatus)
                    (PStatus_Replicas desiredStatus) (PStatus_ReadyReplicas desiredStatus)
                    (PStatus_ObservedGeneration desiredStatus)
                    (PStatus_Conditions desiredStatus) (PStatus_Kafka desiredStatus)) pipeline in
    match UpdateStatus KPipeline pipeline w with
    | (Ok pipeline, w) => (Ok tt, (pipeline, w))
    | (Err e, w) => (Err e, (pipeline, w))
    end
  end.

(** The status that [updateStatus] computes before it writes it. *)
Definition desiredStatus (pipeline : DataPrepperPipeline) (errorPhase : PipelinePhase)
    (msg : message) (deploy : result Deployment) : DataPrepperPipelineStatus :=
  let s := P_Status pipeline in
  let generation := Meta_Generation (P_Meta pipeline) in
  let '(replicas, ready) :=
    match deploy with
    | Ok d => (DepStatus_Replicas (Dep_Status d), DepStatus_ReadyReplicas (Dep_Status d))
    | Err _ => (PStatus_Replicas s, PStatus_ReadyReplicas s)
    end in
  let phase := phase_of errorPhase replicas ready in
  mkDataPrepperPipelineStatus phase replicas ready generation
    (SetStatusCondition (PStatus_Conditions s) (ready_condition phase generation replicas ready msg))
    (PStatus_Kafka s).

Definition updateStatus (pipeline : DataPrepperPipeline) (errorPhase : PipelinePhase)
    (msg : message) : M W ctrl_Result := fun st =>
  let deploy := Get KDeployment (@key_of KPipeline pipeline) (world st) in
  let status := desiredStatus pipeline errorPhase msg deploy in
  match RetryOnConflict _ (writeStatus status) (set_status status pipeline, world st) with
  | (Err e, (_, w)) => (Err (Msg "update status: %w" [AErr e]), mkSt w (effects st))
  | (Ok _, (pipeline, w)) =>
    let phase := PStatus_Phase (P_Status pipeline) in
    (Ok (if bool_decide (phase = PipelinePhasePending) || bool_decide (phase = PipelinePhaseDegraded)
         then mkResult (30 * Second) else no_requeue),
     mkSt w (effects st))
  end.

(** ** Reconcile *)

(** [meta.SetStatusCondition(&pipeline.Status.Conditions, metav1.Condition{...})]. *)
Definition setCondition (type : string) (status : ConditionStatus) (reason : string)
    (msg : message) (pipeline : DataPrepperPipeline) : DataPrepperPipeline :=
  set_conditions
    (SetStatusCondition (PStatus_Conditions (P_Status pipeline))
       (mkCondition type status (Meta_Generation (P_Meta pipeline)) reason msg)) pipeline.

Definition event (pipeline : DataPrepperPipeline) (etype reason : string) (msg : message)
    : M W unit := emit (Event (@key_of KPipeline pipeline) etype reason msg).

(** Step 6: the scaling plan, with the fallback to one replica on failure.
    Returns the replicas, the topic workers, whether an autoscaler is used, and
    the pipeline with its conditions. *)
Definition applyScaling (mergedSpec : DataPrepperPipelineSpec) (pipeline : DataPrepperPipeline)
    : M W (Z * Z * bool * DataPrepperPipeline) := fun st =>
  let '(plan, pipeline) := calculateScaling pipeline mergedSpec (world st) in
  (match SP_err plan with
   | Some e =>
     event pipeline "Warning" "ScalingFailed"
       (Msg "Scaling calculation failed: %v, falling back to 1 replica" [AErr e]) ;;
     mret (1, 0, SP_useHPA plan,
           setCondition "ScalingReady" ConditionFalse "ScalingFailed"
             (Msg "Scaling calculation failed: %v, using 1 replica" [AErr e]) pipeline)
   | None =>
     mret (SP_replicas plan, SP_topicWorkers plan, SP_useHPA plan,
           setCondition "ScalingReady" ConditionTrue "Calculated"
             (Msg "Scaling: %d replicas" [AInt (SP_replicas plan)]) pipeline)
   end) st.

(** The PeerForwarderConfigured condition, with an event on a transition. *)
Definition applyPeerForwarder (needsPeerForwarder : bool) (pipeline : DataPrepperPipeline)
    : M W DataPrepperPipeline :=
  let msg := Msg "Peer forwarder auto-configured for stateful processors" [] in
  if needsPeerForwarder then
    let prevPF := FindStatusCondition (PStatus_Conditions (P_Status pipeline))
                    "PeerForwarderConfigured" in
    when (match prevPF with
          | Some c => negb (bool_decide (Cond_Status c = ConditionTrue))
          | None => true
          end) (event pipeline "Normal" "PeerForwarderConfigured" msg) ;;
    mret (setCondition "PeerForwarderConfigured" ConditionTrue "Configured" msg pipeline)
  else
    mret (setCondition "PeerForwarderConfigured" ConditionFalse "NotNeeded"
            (Msg "No stateful processors detected or single replica" []) pipeline).

(** Steps 7 and 8: the data of the two ConfigMaps. *)
Definition generateConfigs (mergedSpec : DataPrepperPipelineSpec) (topicWorkers : Z)
    (needsPeerForwarder : bool) (pipeline : DataPrepperPipeline)
    : result (gmap string string * gmap string string) :=
  pipelineConfigData ← wrap_err "generate pipeline config: %w" []
    (GeneratePipelineConfig (Spec_Pipelines mergedSpec) topicWorkers);
  pipelineYAML ← wrap_err "marshal pipeline config: %w" [] (Marshal pipelineConfigData);
  dpConfigData ← wrap_err "generate dp config: %w" []
    (GenerateDPConfig mergedSpec needsPeerForwarder (Meta_Name (P_Meta pipeline))
       (Meta_Namespace (P_Meta pipeline)));
  dpConfigYAML ← wrap_err "marshal dp config: %w" [] (Marshal dpConfigData);
  Ok ({["pipelines.yaml" := pipelineYAML]}, {["data-prepper-config.yaml" := dpConfigYAML]}).

(** The configuration hash and steps 9 to 12.6: the child objects. *)
Definition reconcileChildren (mergedSpec : DataPrepperPipelineSpec) (replicas : Z)
    (useHPA needsPeerForwarder : bool) (pipelinesData dpData : gmap string string)
    (pipeline : DataPrepperPipeline) : M W unit :=
  let name := Meta_Name (P_Meta pipeline) in
  let configHash := HashOfData pipelinesData +:+ HashOfData dpData in
  secretHash ← secretHash pipeline mergedSpec;
  let configHash := configHash +:+ secretHash in
  wrap "reconcile pipelines configmap: %w" []
    (reconcileConfigMap pipeline (name +:+ "-pipelines") pipelinesData) ;;
  wrap "reconcile dp-config configmap: %w" []
    (reconcileConfigMap pipeline (name +:+ "-config") dpData) ;;
  wrap "reconcile deployment: %w" []
    (reconcileDeployment pipeline
       (GenerateDeployment pipeline mergedSpec replicas needsPeerForwarder configHash)) ;;
  wrap "reconcile service: %w" []
    (reconcileService pipeline
       (NeedsService (Spec_Pipelines mergedSpec) (Spec_ServiceMonitor mergedSpec)) mergedSpec) ;;
  wrap "reconcile headless service: %w" []
    (reconcileHeadlessService pipeline needsPeerForwarder) ;;
  wrap "reconcile hpa: %w" [] (reconcileHPA pipeline mergedSpec useHPA) ;;
  wrap "reconcile pdb: %w" [] (reconcilePDB pipeline replicas) ;;
  when ServiceMonitorAvailable
    (r ← try (reconcileServiceMonitor pipeline mergedSpec
                (match Spec_ServiceMonitor mergedSpec with
                 | Some sm => SM_Enabled sm | None => false end));
     match r with
     | Ok _ => mret tt
     | Err e => event pipeline "Warning" "ServiceMonitorFailed"
                  (Msg "Failed to reconcile ServiceMonitor: %v" [AErr e])
     end).

(** The scaling event and the gauge of managed pipelines. *)
Definition recordScaling (previousReplicas replicas : Z) (pipeline : DataPrepperPipeline)
    : M W unit :=
  when (negb (previousReplicas =? 0) && negb (replicas =? previousReplicas))
    (let direction := if replicas <? previousReplicas then "down" else "up" in
     emit (CounterInc ScalingEvents
             [Meta_Namespace (P_Meta pipeline); direction]) ;;
     event pipeline "Normal" "Scaled"
       (Msg "Scaled %s from %d to %d replicas"
          [AStr direction; AInt previousReplicas; AInt replicas])).

Definition recordManaged (namespace : string) : M W unit :=
  r ← try (reads (ListPipelines namespace ∅));
  match r with
  | Ok items => emit (GaugeSet ManagedPipelines [namespace] (Z.of_nat (length items)))
  | Err _ => mret tt
  end.

(** Steps 5 to 14, for a valid graph. *)
Definition reconcileValid (req : Key) (mergedSpec : DataPrepperPipelineSpec)
    (previousReplicas : Z) (pipeline : DataPrepperPipeline) : M W ctrl_Result :=
  processorMaps ← wrap "extract processors: %w" []
    (lift (ExtractProcessorMaps (Spec_Pipelines mergedSpec)));
  scaled ← applyScaling mergedSpec pipeline;
  let '(replicas, topicWorkers, useHPA, pipeline) := scaled in
  let needsPeerForwarder := NeedsForwarding processorMaps && (1 <? replicas) in
  pipeline ← applyPeerForwarder needsPeerForwarder pipeline;
  configs ← lift (generateConfigs mergedSpec topicWorkers needsPeerForwarder pipeline);
  let '(pipelinesData, dpData) := configs in
  reconcileChildren mergedSpec replicas useHPA needsPeerForwarder pipelinesData dpData pipeline ;;
  recordScaling previousReplicas replicas pipeline ;;
  recordManaged req.1 ;;
  updateStatus pipeline PipelinePhaseUnset (Msg "" []).

(** Steps 2 to 4: defaults, merge, graph validation. *)
Definition reconcileLive (req : Key) (pipeline : DataPrepperPipeline) : M W ctrl_Result :=
  let previousReplicas := PStatus_Replicas (P_Status pipeline) in
  r ← try (reads (Get KDefaults (req.1, "default")));
  let defaultsSpec :=
    match r with Ok dpDefaults => Some (Defaults_Spec dpDefaults) | Err _ => None end in
  let mergedSpec := MergeSpec defaultsSpec (P_Spec pipeline) in
  match ValidateGraph (graphDefs (Spec_Pipelines mergedSpec)) with
  | Err e =>
    event pipeline "Warning" "ValidationFailed"
      (Msg "Pipeline graph validation failed: %v" [AErr e]) ;;
    updateStatus (setCondition "ConfigValid" ConditionFalse "ValidationFailed" e pipeline)
      PipelinePhaseError e
  | Ok _ =>
    reconcileValid req mergedSpec previousReplicas
      (setCondition "ConfigValid" ConditionTrue "Valid"
         (Msg "Pipeline configuration is valid" []) pipeline)
  end.

Definition ContainsFinalizer (m : ObjectMeta) (f : string) : bool :=
  bool_decide (f ∈ Meta_Finalizers m).

(** The deletion branch. *)
Definition finalizePipeline (pipeline : DataPrepperPipeline) : M W ctrl_Result :=
  let m := P_Meta pipeline in
  when (ContainsFinalizer m pipelineFinalizerName)
    (event pipeline "Normal" "Deleting" (Msg "Pipeline is being deleted" []) ;;
     wrap "remove finalizer: %w" []
       (writes (Update KPipeline
          (set_meta (set_finalizers (RemoveFinalizer (Meta_Finalizers m) pipelineFinalizerName) m)
             pipeline))) ;;
     mret tt) ;;
  mret no_requeue.

Definition ensureFinalizer (pipeline : DataPrepperPipeline) : M W DataPrepperPipeline :=
  let m := P_Meta pipeline in
  if ContainsFinalizer m pipelineFinalizerName then mret pipeline
  else wrap "add finalizer: %w" []
         (writes (Update KPipeline
            (set_meta (set_finalizers (AddFinalizer (Meta_Finalizers m) pipelineFinalizerName) m)
               pipeline))).

Definition Reconcile (req : Key) : M W ctrl_Result :=
  counted "pipeline"
    (r ← try (reads (Get KPipeline req));
     match r with
     | Err e => IgnoreNotFound no_requeue e
     | Ok pipeline =>
       if bool_decide (is_Some (Meta_DeletionTimestamp (P_Meta pipeline)))
       then finalizePipeline pipeline
       else pipeline ← ensureFinalizer pipeline; reconcileLive req pipeline
     end).

(** ** Watching secrets *)

Definition requests (items : list DataPrepperPipeline) : list Key :=
  (fun p => @key_of KPipeline p) <$> items.

Definition findPipelinesForSecretUnindexed (namespace name : string) (w : W) : list Key :=
  match ListPipelines namespace ∅ w with
  | Err _ => []
  | Ok items => requests (filter (fun p => name ∈ referencedSecrets (P_Spec p)) items)
  end.

Definition findPipelinesForSecret (namespace name : string) (w : W) : list Key :=
  match ListBySecret namespace name w with
  | Err _ => findPipelinesForSecretUnindexed namespace name w
  | Ok items => requests items
  end.
End controller.
