(* ===== verification/PipelineProofs.v ===== *)
(** * Theorems about the pipeline reconciler

    What a reconcile of [PipelineController] touches, the state it establishes
    when it returns without error (a refinement of the pure plan [plan_of]), what
    it does for an invalid graph and for a pipeline under deletion, and that it
    succeeds on a reliable server for what the webhook admits. *)

From S2P Require Import Prelude Go Json Sha256 Api Graph Webhook Scaler PeerForwarder PipelineConfig Merger.
From S2P Require Import Resources Clients Cluster Metrics Reconciler PipelineController.
#[local] Open Scope Z_scope.

(** ** Secrets *)

(** The secrets a spec refers to, in the order the loops visit them. *)
Definition refNames (ref : option SecretReference) : list string :=
  match ref with Some r => [Secret_Name r] | None => [] end.
Definition allRefs (spec : DataPrepperPipelineSpec) : list string :=
  Spec_Pipelines spec ≫= (fun p =>
    refNames (kafkaSourceRef p) ++ refNames (s3SourceRef p) ++
    (PD_Sink p ≫= (fun s => refNames (openSearchSinkRef s) ++ refNames (s3SinkRef s) ++
                            refNames (kafkaSinkRef s)))).

(** The state of the loops after the references [l]. *)
Definition collected (l : list string) (st : gset string * list string) : Prop :=
  NoDup st.2 /\ (forall n, n ∈ st.1 <-> n ∈ st.2) /\ (forall n, n ∈ st.2 <-> n ∈ l).

Lemma collected_addRef l ref st : collected l st -> collected (l ++ refNames ref) (addRef ref st).
Proof.
  destruct st as [seen refs], ref as [r|]; simpl; [|by rewrite app_nil_r].
  intros (Hnd & Hs & Hl). simpl in *. case_bool_decide as Hin.
  - split_and!; [done|done|]. intros n. rewrite elem_of_app, list_elem_of_singleton.
    rewrite <-Hl. rewrite Hs in Hin. simpl. naive_solver.
  - split; [|split]; simpl.
    + apply NoDup_app. split_and!; [done| |apply NoDup_singleton].
      intros n Hn ->%list_elem_of_singleton. by rewrite Hs in Hin.
    + intros n. rewrite elem_of_union, elem_of_singleton, elem_of_app, list_elem_of_singleton, Hs.
      tauto.
    + intros n. by rewrite !elem_of_app, Hl.
Qed.

Lemma collected_foldl {A} (g : A -> list string) f (xs : list A) l st :
  (forall l st x, collected l st -> collected (l ++ g x) (f st x)) ->
  collected l st -> collected (l ++ (xs ≫= g)) (foldl f st xs).
Proof.
  intros Hf. revert l st. induction xs as [|x xs IH]; intros l st Hst; simpl.
  { by rewrite app_nil_r. }
  rewrite app_assoc. apply IH, Hf, Hst.
Qed.

Lemma referencedSecrets_collected spec :
  NoDup (referencedSecrets spec) /\ forall n, n ∈ referencedSecrets spec <-> n ∈ allRefs spec.
Proof.
  enough (collected ([] ++ allRefs spec) (foldl addPipelineRefs (∅, []) (Spec_Pipelines spec)))
    as (H1 & _ & H2) by done.
  apply collected_foldl; [|split_and!; simpl; [constructor|set_solver|done]].
  intros l st p Hst. rewrite !app_assoc. apply collected_foldl; [|by do 2 apply collected_addRef].
  intros l' st' s Hst'. rewrite !app_assoc. by do 3 apply collected_addRef.
Qed.

(** The secrets whose change restarts a pipeline are those that back its
    pods: every secret the container's environment reads is among
    [referencedSecrets], which lists each secret of the spec's sources and sinks
    once. *)
Theorem referencedSecrets_cover_env spec :
  NoDup (referencedSecrets spec) /\
  forall e, e ∈ credentialEnvVars (Spec_Pipelines spec) -> Env_SecretName e ∈ referencedSecrets spec.
Proof.
  destruct (referencedSecrets_collected spec) as [Hnd Hin]. split; [done|]. intros e He.
  rewrite Hin. apply credentialEnvVars_in in He as (k & n & Hc & ->).
  unfold credentials, allRefs in *.
  apply list_elem_of_bind in Hc as (p & Hc & Hp). apply list_elem_of_bind. exists p. split; [|done].
  rewrite !elem_of_app in Hc. rewrite !elem_of_app. destruct Hc as [Hc|[Hc|Hc]].
  - left. by destruct (kafkaSourceRef p); simpl in *; set_solver.
  - right; left. by destruct (s3SourceRef p); simpl in *; set_solver.
  - right; right. apply list_elem_of_bind in Hc as (s & Hc & Hs). apply list_elem_of_bind.
    exists s. split; [|done]. unfold sinkCredentials in Hc. rewrite !elem_of_app in Hc. rewrite !elem_of_app.
    destruct (kafkaSinkRef s), (openSearchSinkRef s), (s3SinkRef s); simpl in *; set_solver.
Qed.

(** ** What a reconcile touches *)

Section footprints.
Context {W : Type} `{ClientLaws W}.

(** The objects that belong to the pipeline [req] by their names. *)
Definition own_objects (req : Key) (k : Kind) (key : Key) : Prop :=
  match k with
  | KPipeline | KDeployment | KHPA | KPDB | KServiceMonitor => key = req
  | KService => key = req \/ key = (req.1, req.2 +:+ "-headless")
  | KConfigMap => key = (req.1, req.2 +:+ "-pipelines") \/ key = (req.1, req.2 +:+ "-config")
  | KDefaults | KDiscovery | KSecret => False
  end.

(** Those a reconcile writes: service monitors only where their API is available. *)
Definition written_objects (sma : bool) (req : Key) (k : Kind) (key : Key) : Prop :=
  own_objects req k key /\ (k = KServiceMonitor -> sma = true).

Lemma footprint_secretWrites S pipeline refs acc : footprint S (secretWrites pipeline refs acc).
Proof.
  revert acc. induction refs as [|ref refs IH]; intros acc; simpl; [auto with footprint|].
  apply footprint_bind; [auto with footprint|]. intros [s|e]; [apply IH|].
  apply footprint_bind; auto with footprint.
Qed.

Lemma footprint_secretHash S pipeline spec : footprint S (secretHash pipeline spec).
Proof.
  unfold secretHash. destruct (referencedSecrets spec); [auto with footprint|].
  apply footprint_bind; [apply footprint_secretWrites|auto with footprint].
Qed.

Lemma footprint_CreateOrUpdate (S : Kind -> Key -> Prop) k (o : Object k) f :
  S k (key_of o) -> footprint S (writes (CreateOrUpdate k o f)).
Proof. intros HS. eapply footprint_writes; [|done]. intros w. apply CreateOrUpdate_frame. Qed.

Lemma footprint_updateStatus (S : Kind -> Key -> Prop) pipeline errorPhase msg :
  S KPipeline (@key_of KPipeline pipeline) -> footprint S (updateStatus pipeline errorPhase msg).
Proof.
  intros HS st k key Hn. unfold updateStatus.
  set (status := desiredStatus _ _ _ _).
  set (inv := fun s : DataPrepperPipeline * W =>
    @key_of KPipeline s.1 = @key_of KPipeline pipeline /\
    stored k key s.2 = stored k key (world st)).
  assert (Hbody : forall s, inv s -> inv (writeStatus status s).2).
  { intros [p w] [Hk Hs]. unfold writeStatus. simpl in *.
    destruct (Get KPipeline (@key_of KPipeline p) w) as [p'|e] eqn:E; [|done].
    apply Get_Ok, stored_key in E. set (p'' := set_status _ p').
    assert (Hk'' : @key_of KPipeline p'' = @key_of KPipeline pipeline) by (rewrite <-Hk, <-E; done).
    pose proof (UpdateStatus_frame KPipeline p'' w k key) as Hf.
    destruct (UpdateStatus KPipeline p'' w) as [[p3|e] w'] eqn:Eu; simpl in *.
    - apply (UpdateStatus_Ok KPipeline) in Eu as (_ & Hst & _). apply stored_key in Hst.
      split; [simpl; congruence|]. simpl. rewrite Hf; [done|].
      destruct (decide (k = KPipeline)); [right|by left]. intros ->. subst. congruence.
    - split; [done|]. simpl. rewrite Hf; [done|].
      destruct (decide (k = KPipeline)); [right|by left]. intros ->. subst. congruence. }
  pose proof (retries_inv _ _ inv _ _ Hbody (RetryOnConflict_retries _ (writeStatus status)
    (set_status status pipeline, world st)) ltac:(done)) as Hret.
  destruct (RetryOnConflict _ _ _) as [[[]|e] [p w]]; apply Hret.
Qed.

Lemma key_setCondition t s r m p :
  @key_of KPipeline (setCondition t s r m p) = @key_of KPipeline p.
Proof. done. Qed.

Lemma key_calculateScaling inf factory p spec (w : W) :
  @key_of KPipeline (calculateScaling inf factory p spec w).2 = @key_of KPipeline p.
Proof.
  unfold calculateScaling. destruct (manual _); [done|]. destruct (scalingBounds _) as [mn mx].
  destruct (first_kafka _) as [ks|]; [|by destruct (has_s3 _)].
  unfold calculateKafkaScaling. repeat (case_match; try done).
Qed.

Lemma footprint_reconcileChildren (S : Kind -> Key -> Prop) sma spec replicas hpa pf d1 d2 p :
  (forall k key, k ≠ KPipeline -> written_objects sma (@key_of KPipeline p) k key -> S k key) ->
  footprint S (reconcileChildren sma spec replicas hpa pf d1 d2 p).
Proof.
  intros HS. unfold reconcileChildren.
  apply footprint_bind; [apply footprint_secretHash|intros h].
  repeat (apply footprint_bind; [apply footprint_wrap|intros _]);
    unfold reconcileConfigMap, reconcileDeployment, reconcileService, reconcileHeadlessService,
      reconcileHPA, reconcilePDB;
    try (destruct (scalingBounds _));
    try (apply footprint_CreateOrUpdate || apply footprint_reconcileOrDelete);
    try (apply HS; [done|split; [unfold own_objects, key_of; simpl; by eauto|done]]).
  destruct sma; [|apply footprint_ret]. apply footprint_bind.
  - apply footprint_try. unfold reconcileServiceMonitor. apply footprint_reconcileOrDelete.
    apply HS; [done|]. by split.
  - intros []; auto with footprint. apply footprint_emit.
Qed.

Definition condition_of (p : DataPrepperPipeline) (t : string) : option Condition :=
  FindStatusCondition (PStatus_Conditions (P_Status p)) t.

(** The replica counts that the status reports. *)
Definition counts_of (s : DataPrepperPipelineStatus) : Z * Z :=
  (PStatus_Replicas s, PStatus_ReadyReplicas s).

Lemma applyScaling_run inf factory spec p (st : St W) :
  exists replicas tw hpa p' effs,
    applyScaling inf factory spec p st = (Ok (replicas, tw, hpa, p'), mkSt (world st) effs) /\
    P_Meta p' = P_Meta p /\ P_Spec p' = P_Spec p /\
    (forall t, t ≠ "ScalingReady" -> condition_of p' t = condition_of p t) /\
    counts_of (P_Status p') = counts_of (P_Status p) /\
    let plan := (calculateScaling inf factory p spec (world st)).1 in
    hpa = SP_useHPA plan /\
    match SP_err plan with
    | Some _ => replicas = 1 /\ tw = 0
    | None => replicas = SP_replicas plan /\ tw = SP_topicWorkers plan
    end.
Proof.
  unfold applyScaling.
  assert (P_Meta (calculateScaling inf factory p spec (world st)).2 = P_Meta p /\
          P_Spec (calculateScaling inf factory p spec (world st)).2 = P_Spec p /\
          PStatus_Conditions (P_Status (calculateScaling inf factory p spec (world st)).2) =
          PStatus_Conditions (P_Status p) /\
          counts_of (P_Status (calculateScaling inf factory p spec (world st)).2) =
          counts_of (P_Status p)) as (Hm & Hs & Hc & Hn).
  { unfold calculateScaling. destruct (manual _); [done|]. destruct (scalingBounds _) as [mn mx].
    destruct (first_kafka _) as [ks|]; [|by destruct (has_s3 _)].
    unfold calculateKafkaScaling. repeat (case_match; try done). }
  destruct (calculateScaling inf factory p spec (world st)) as [plan p1]. simpl in *.
  destruct st as [w effs].
  destruct (SP_err plan) as [e|]; do 5 eexists; (split; [reflexivity|]);
    rewrite <-Hm, <-Hs, <-Hn; unfold condition_of; rewrite <-Hc;
    (split_and!; [done|done|intros t Ht; by apply Find_Set_ne|done..]).
Qed.

Lemma applyPeerForwarder_run pf p (st : St W) :
  exists p' effs, applyPeerForwarder pf p st = (Ok p', mkSt (world st) effs) /\
    P_Meta p' = P_Meta p /\ P_Spec p' = P_Spec p /\
    (forall t, t ≠ "PeerForwarderConfigured" -> condition_of p' t = condition_of p t) /\
    counts_of (P_Status p') = counts_of (P_Status p).
Proof.
  unfold applyPeerForwarder, when. destruct st as [w effs].
  repeat case_match; do 2 eexists; (split; [reflexivity|split_and!; [done|done| |done]]);
    intros t Ht; by apply Find_Set_ne.
Qed.

Section reconcile.
Context (Marshal : gmap string any -> result string) (int32_of_inf : Z)
  (factory : option Kafka.ClientFactory) (sma : bool).

Lemma footprint_reconcileValid (S : Kind -> Key -> Prop) req spec prev p :
  (forall k key, written_objects sma (@key_of KPipeline p) k key -> S k key) ->
  footprint S (reconcileValid Marshal int32_of_inf factory sma req spec prev p).
Proof.
  intros HS. unfold reconcileValid.
  apply footprint_bind; [auto with footprint|intros maps].
  apply footprint_bind_post with (P := fun r => P_Meta r.2 = P_Meta p).
  { intros st k key _. destruct (applyScaling_run int32_of_inf factory spec p st)
      as (? & ? & ? & ? & ? & -> & _). done. }
  { intros st a st' E. destruct (applyScaling_run int32_of_inf factory spec p st)
      as (? & ? & ? & ? & ? & E' & Hm & _). rewrite E' in E. injection E as <- _. done. }
  intros [[[replicas tw] hpa] p1] Hp1. simpl in Hp1.
  apply footprint_bind_post with (P := fun p2 => P_Meta p2 = P_Meta p).
  { intros st k key _. destruct (applyPeerForwarder_run
      (NeedsForwarding maps && (1 <? replicas)) p1 st) as (? & ? & -> & _). done. }
  { intros st a st' E. destruct (applyPeerForwarder_run
      (NeedsForwarding maps && (1 <? replicas)) p1 st) as (? & ? & E' & Hm & _).
    rewrite E' in E. injection E as <- _. congruence. }
  intros p2 Hp2. assert (Hk : @key_of KPipeline p2 = @key_of KPipeline p)
    by (unfold key_of; simpl; by rewrite Hp2).
  apply footprint_bind; [auto with footprint|intros [d1 d2]].
  apply footprint_bind; [apply footprint_reconcileChildren; rewrite Hk; auto|intros _].
  apply footprint_bind; [|intros _].
  { unfold recordScaling. apply footprint_when, footprint_bind; intros; apply footprint_emit. }
  apply footprint_bind; [|intros _].
  { unfold recordManaged. apply footprint_bind; [auto with footprint|].
    intros []; auto with footprint. }
  apply footprint_updateStatus. rewrite Hk. by apply HS.
Qed.

Lemma footprint_reconcileLive (S : Kind -> Key -> Prop) req p :
  (forall k key, written_objects sma (@key_of KPipeline p) k key -> S k key) ->
  footprint S (reconcileLive Marshal int32_of_inf factory sma req p).
Proof.
  intros HS. unfold reconcileLive. apply footprint_bind; [auto with footprint|intros r].
  destruct (ValidateGraph _) as [[]|e].
  - by apply footprint_reconcileValid.
  - apply footprint_bind; [apply footprint_emit|intros _]. apply footprint_updateStatus.
    rewrite key_setCondition. by apply HS.
Qed.

Lemma ensureFinalizer_Ok p (st st' : St W) p' :
  ensureFinalizer p st = (Ok p', st') -> @key_of KPipeline p' = @key_of KPipeline p.
Proof.
  unfold ensureFinalizer. destruct (ContainsFinalizer _ _); [by intros [= <- <-]|].
  rewrite wrap_Ok, writes_Ok. intros [Hu _].
  apply (Update_Ok KPipeline) in Hu as ([Hm _] & _). unfold key_of.
  apply (f_equal (fun m => (Meta_Namespace m, Meta_Name m))) in Hm. exact Hm.
Qed.

Lemma footprint_Reconcile req :
  footprint (written_objects sma req)
    (Reconcile Marshal int32_of_inf factory sma req).
Proof.
  unfold Reconcile. apply footprint_counted.
  apply footprint_bind_post with
    (P := fun r => forall p, r = Ok p -> @key_of KPipeline p = req).
  { auto with footprint. }
  { intros st r st'. unfold try, reads. intros [= <- <-] p E.
    by apply (Get_Ok KPipeline), stored_key in E. }
  intros [p|e] Hp; [|unfold IgnoreNotFound; by destruct (IsNotFound e)].
  specialize (Hp p eq_refl).
  assert (HS : written_objects sma req KPipeline (@key_of KPipeline p)) by done.
  assert (Hupd : forall q, @key_of KPipeline q = req ->
            footprint (written_objects sma req) (writes (Update KPipeline q))).
  { intros q Hq. apply footprint_writes with (k := KPipeline) (key := @key_of KPipeline q);
      [|by split]. intros w. apply (Update_frame KPipeline). }
  case_bool_decide.
  - unfold finalizePipeline. apply footprint_bind; [|auto with footprint].
    apply footprint_when, footprint_bind; [apply footprint_emit|intros _].
    apply footprint_bind; [by apply footprint_wrap, Hupd|auto with footprint].
  - apply footprint_bind_post with (P := fun p' => @key_of KPipeline p' = req).
    + unfold ensureFinalizer. destruct (ContainsFinalizer _ _); [auto with footprint|].
      by apply footprint_wrap, Hupd.
    + intros st a st' ->%ensureFinalizer_Ok. done.
    + intros p' Hp'. apply footprint_reconcileLive. by rewrite Hp'.
Qed.

(** C8: a reconcile of a pipeline, whatever it returns, changes no object of the
    cluster except the pipeline itself and the objects with the names
    derived from it: its Deployment, autoscaler, disruption budget and
    service monitor, its two ConfigMaps and its two Services.  In
    particular it never writes a secret, the defaults or another pipeline, and
    it writes service monitors only where their API is available. *)
Theorem Reconcile_touches_only_its_own req (st : St W) k key :
  ~ written_objects sma req k key ->
  stored k key (world (snd (Reconcile Marshal int32_of_inf factory sma req st)))
  = stored k key (world st).
Proof. apply footprint_Reconcile. Qed.
End reconcile.
End footprints.

(** ** The desired state

    The pure part of a reconcile: what it computes from the pipeline and from
    what it reads, independently of the writes. *)

Record Plan := mkPlan {
  plan_spec : DataPrepperPipelineSpec;
  plan_replicas : Z;
  plan_useHPA : bool;
  plan_peerForwarder : bool;
  plan_pipelinesData : gmap string string;
  plan_dpData : gmap string string;
  plan_hash : string }.

Section desired.
Context {W : Type} `{ClientLaws W}.
Context (Marshal : gmap string any -> result string) (int32_of_inf : Z)
  (factory : option Kafka.ClientFactory) (sma : bool).

(** The bytes of the referenced secrets, those that can be read. *)
Fixpoint secret_bytes (ns : string) (refs : list string) (w : W) : string :=
  match refs with
  | [] => ""
  | ref :: refs =>
    match Get KSecret (ns, ref) w with
    | Ok s => hash_writes (Sec_Data s) (sort_strings (map_to_list (Sec_Data s)).*1)
    | Err _ => ""
    end +:+ secret_bytes ns refs w
  end.

Definition secret_hash (ns : string) (spec : DataPrepperPipelineSpec) (w : W) : string :=
  match referencedSecrets spec with
  | [] => ""
  | refs => first16 (sha256_hex (secret_bytes ns refs w))
  end.

Definition defaults_in (ns : string) (w : W) : option DataPrepperDefaultsSpec :=
  match Get KDefaults (ns, "default") w with Ok d => Some (Defaults_Spec d) | Err _ => None end.

Definition plan_of (spec : DataPrepperPipelineSpec) (p : DataPrepperPipeline) (w : W)
    : result Plan :=
  maps ← wrap_err "extract processors: %w" [] (ExtractProcessorMaps (Spec_Pipelines spec));
  let scaling := (calculateScaling int32_of_inf factory p spec w).1 in
  let '(replicas, workers) :=
    match SP_err scaling with
    | Some _ => (1, 0)
    | None => (SP_replicas scaling, SP_topicWorkers scaling)
    end in
  let pf := NeedsForwarding maps && (1 <? replicas) in
  configs ← generateConfigs Marshal spec workers pf p;
  Ok (mkPlan spec replicas (SP_useHPA scaling) pf configs.1 configs.2
        (HashOfData configs.1 +:+ HashOfData configs.2 +:+
         secret_hash (Meta_Namespace (P_Meta p)) spec w)).

(** The service monitor that a spec asks for, or none. *)
Definition monitored (spec : DataPrepperPipelineSpec) : bool :=
  match Spec_ServiceMonitor spec with Some sm => SM_Enabled sm | None => false end.

Definition monitor_state (p : DataPrepperPipeline) (spec : DataPrepperPipelineSpec) (w : W) : Prop :=
  if monitored spec
  then realised KServiceMonitor (@key_of KPipeline p) (Meta_UID (P_Meta p))
         (CommonLabels (Meta_Name (P_Meta p))) (fun s => s = SMO_Spec (GenerateServiceMonitor p spec)) w
  else absent KServiceMonitor (@key_of KPipeline p) w.

(** The warning that it could not be brought about. *)
Definition monitor_warning (p : DataPrepperPipeline) (e : error) : Effect :=
  Event (@key_of KPipeline p) "Warning" "ServiceMonitorFailed"
    (Msg "Failed to reconcile ServiceMonitor: %v" [AErr e]).

(** The state of the child objects that a plan asks for: what must exist, with
    which content, and what must not.  [w0] is the state before and [effs] what
    was emitted: a service monitor that could not be written is no error but a
    warning, and without the API of service monitors none is touched. *)
Record children_realised (p : DataPrepperPipeline) (pl : Plan) (w0 : W) (effs : list Effect) (w : W)
    : Prop := {
  cr_pipelines : realised KConfigMap (Meta_Namespace (P_Meta p), Meta_Name (P_Meta p) +:+ "-pipelines")
    (Meta_UID (P_Meta p)) (CommonLabels (Meta_Name (P_Meta p))) (fun d => d = plan_pipelinesData pl) w;
  cr_config : realised KConfigMap (Meta_Namespace (P_Meta p), Meta_Name (P_Meta p) +:+ "-config")
    (Meta_UID (P_Meta p)) (CommonLabels (Meta_Name (P_Meta p))) (fun d => d = plan_dpData pl) w;
  cr_deployment : realised KDeployment (@key_of KPipeline p)
    (Meta_UID (P_Meta p)) (CommonLabels (Meta_Name (P_Meta p)))
    (fun d => d = Dep_Spec (GenerateDeployment p (plan_spec pl) (plan_replicas pl)
                              (plan_peerForwarder pl) (plan_hash pl))) w;
  cr_service :
    if NeedsService (Spec_Pipelines (plan_spec pl)) (Spec_ServiceMonitor (plan_spec pl))
    then realised KService (@key_of KPipeline p) (Meta_UID (P_Meta p)) (CommonLabels (Meta_Name (P_Meta p)))
           (fun s => Svc_Type s = "ClusterIP" /\ Svc_Selector s = SelectorLabels (Meta_Name (P_Meta p)) /\
                     Svc_Ports s = servicePorts (plan_spec pl)) w
    else absent KService (@key_of KPipeline p) w;
  cr_headless :
    if plan_peerForwarder pl
    then realised KService (Meta_Namespace (P_Meta p), Meta_Name (P_Meta p) +:+ "-headless")
           (Meta_UID (P_Meta p)) (CommonLabels (Meta_Name (P_Meta p)))
           (fun s => s = Svc_Spec (GenerateHeadlessService p)) w
    else absent KService (Meta_Namespace (P_Meta p), Meta_Name (P_Meta p) +:+ "-headless") w;
  cr_hpa :
    if plan_useHPA pl
    then realised KHPA (@key_of KPipeline p) (Meta_UID (P_Meta p)) (CommonLabels (Meta_Name (P_Meta p)))
           (fun s => s = HPA_Spec (GenerateHPA p (scalingBounds (Spec_Scaling (plan_spec pl))).1
                                     (scalingBounds (Spec_Scaling (plan_spec pl))).2
                                     defaultTargetCPU)) w
    else absent KHPA (@key_of KPipeline p) w;
  cr_pdb :
    if 1 <? plan_replicas pl
    then realised KPDB (@key_of KPipeline p) (Meta_UID (P_Meta p)) (CommonLabels (Meta_Name (P_Meta p)))
           (fun s => s = PDB_Spec (GeneratePDB p (plan_replicas pl))) w
    else absent KPDB (@key_of KPipeline p) w;
  cr_monitor :
    if sma then monitor_state p (plan_spec pl) w \/ exists e, monitor_warning p e ∈ effs
    else forall key, stored KServiceMonitor key w = stored KServiceMonitor key w0 }.

(** A child in state [Q] keeps it when its key is not in the footprint of what
    follows. *)
Lemma realised_frame k key owner labels P (w w' : W) :
  stored k key w' = stored k key w -> realised k key owner labels P w ->
  realised k key owner labels P w'.
Proof. intros Hs (o & Ho & ?). exists o. by rewrite Hs. Qed.
Lemma absent_frame k key (w w' : W) :
  stored k key w' = stored k key w -> absent k key w -> absent k key w'.
Proof. intros Hs Ha o. rewrite Hs. apply Ha. Qed.

Lemma mutateChild_realised k (obj : Object k) owner labels f (P : Content k -> Prop) w w' :
  (forall c, P (f c)) ->
  CreateOrUpdate k obj (mutateChild k owner labels f) w = (Ok tt, w') ->
  realised k (key_of obj) (Meta_UID (P_Meta owner)) labels P w'.
Proof.
  intros HP Hc. apply CreateOrUpdate_Ok in Hc as (o1 & o2 & Hf & [Hm Hcont] & Hst).
  - unfold mutateChild in Hf. rewrite bind_Ok in Hf. destruct Hf as (m & Hm' & [= <-]).
    rewrite meta_build in Hm. rewrite content_build in Hcont.
    apply SetControllerReference_fields in Hm' as (_ & _ & Hl & _ & _ & Hr). simpl in Hl.
    exists o2. split; [done|]. split_and!.
    + apply (f_equal Meta_Labels) in Hm. simpl in Hm. congruence.
    + apply (f_equal Meta_OwnerReferences) in Hm. simpl in Hm. by rewrite Hm.
    + rewrite Hcont. apply HP.
  - intros o0 o1. unfold mutateChild. rewrite bind_Ok. intros (m & Hm & [= <-]).
    rewrite meta_build. by apply SetControllerReference_fields in Hm as (_ & _ & _ & _ & ? & _).
Qed.

Lemma suffix_inj name a b : name +:+ a = name +:+ b -> a = b.
Proof.
  intros E. apply (f_equal bytes) in E. rewrite !bytes_app in E.
  apply app_inv_head in E. by apply bytes_inj.
Qed.
Lemma suffix_ne name a : a ≠ "" -> name +:+ a ≠ name.
Proof.
  intros Ha E. apply Ha, (suffix_inj name). by rewrite E, sapp_nil_r.
Qed.

Lemma reconcileOrDelete_state k (obj : Object k) needed owner labels f (P : Content k -> Prop) st st' :
  (forall c, P (f c)) ->
  reconcileOrDelete k obj needed (mutateChild k owner labels f) st = (Ok tt, st') ->
  if needed then realised k (key_of obj) (Meta_UID (P_Meta owner)) labels P (world st')
  else absent k (key_of obj) (world st').
Proof.
  intros HP E. destruct needed; [|by eapply reconcileOrDelete_absent].
  unfold reconcileOrDelete in E; simpl in E. apply writes_Ok in E as [E _].
  by eapply mutateChild_realised.
Qed.

Lemma secretWrites_run p refs acc (st : St W) :
  exists effs, secretWrites p refs acc st =
    (Ok (acc +:+ secret_bytes (Meta_Namespace (P_Meta p)) refs (world st)), mkSt (world st) effs).
Proof.
  revert acc st. induction refs as [|ref refs IH]; intros acc [w effs]; simpl.
  { exists effs. by rewrite sapp_nil_r. }
  unfold mbind, M_bind, try, reads; simpl.
  destruct (Get KSecret (Meta_Namespace (P_Meta p), ref) w) as [s|e]; simpl.
  - destruct (IH (acc +:+ hash_writes (Sec_Data s) (sort_strings (map_to_list (Sec_Data s)).*1))
                (mkSt w effs)) as [effs' ->]. exists effs'. simpl.
    by rewrite sapp_assoc.
  - destruct (IH acc (mkSt w (effs ++
      [Event (@key_of KPipeline p) "Warning" "SecretNotFound"
         (Msg "Referenced secret %q not found, pipeline may fail at runtime" [AStr ref])])))
      as [effs' ->]. by exists effs'.
Qed.

Lemma secretHash_run p spec (st : St W) :
  exists effs, secretHash p spec st =
    (Ok (secret_hash (Meta_Namespace (P_Meta p)) spec (world st)), mkSt (world st) effs).
Proof.
  unfold secretHash, secret_hash. destruct (referencedSecrets spec) as [|ref refs].
  { exists (effects st). by destruct st. }
  destruct (secretWrites_run p (ref :: refs) "" st) as [effs E].
  unfold mbind, M_bind. rewrite E. by exists effs.
Qed.
End desired.

(** Two keys of the same namespace whose names differ by their suffixes. *)
Ltac keys_differ :=
  first [by left
        | right; intros [= Hk]; first [by apply suffix_inj in Hk | by apply suffix_ne in Hk
                                      | symmetry in Hk; by apply suffix_ne in Hk]].

(** Carry the state of a child object over a step that writes another one. *)
Ltac keep F :=
  first [eapply realised_frame | eapply absent_frame]; [apply F; keys_differ|].

(** Undo, in an equation about an object, the steps that wrote other ones. *)
Ltac unwritten :=
  repeat match goal with
  | F : forall k' key', _ -> stored k' key' (world ?s) = _ |- stored _ _ (world ?s) = _ =>
    etransitivity; [apply F; keys_differ|]
  end; done.

Section realise.
Context {W : Type} `{ClientLaws W}.
Context (Marshal : gmap string any -> result string) (int32_of_inf : Z)
  (factory : option Kafka.ClientFactory) (sma : bool).

Lemma reconcileConfigMap_Ok p name data (st st' : St W) :
  reconcileConfigMap p name data st = (Ok tt, st') ->
  realised KConfigMap (Meta_Namespace (P_Meta p), name) (Meta_UID (P_Meta p))
    (CommonLabels (Meta_Name (P_Meta p))) (fun d => d = data) (world st') /\
  (forall k key, k ≠ KConfigMap \/ key ≠ (Meta_Namespace (P_Meta p), name) ->
     stored k key (world st') = stored k key (world st)).
Proof.
  intros E. split.
  - apply writes_Ok in E as [E _]. by eapply (mutateChild_realised KConfigMap) in E.
  - eapply step_keeps; [|exact E]. by apply footprint_CreateOrUpdate.
Qed.

Lemma reconcileDeployment_Ok p spec replicas pf hash (st st' : St W) :
  reconcileDeployment p (GenerateDeployment p spec replicas pf hash) st = (Ok tt, st') ->
  realised KDeployment (@key_of KPipeline p) (Meta_UID (P_Meta p)) (CommonLabels (Meta_Name (P_Meta p)))
    (fun d => d = Dep_Spec (GenerateDeployment p spec replicas pf hash)) (world st') /\
  (forall k key, k ≠ KDeployment \/ key ≠ @key_of KPipeline p ->
     stored k key (world st') = stored k key (world st)).
Proof.
  intros E. split.
  - apply writes_Ok in E as [E _]. by eapply (mutateChild_realised KDeployment) in E.
  - eapply step_keeps; [|exact E]. by apply footprint_CreateOrUpdate.
Qed.

(** The shared shape of the optional children. *)
Lemma optional_child k (obj : Object k) key needed owner labels f (P : Content k -> Prop)
    (st st' : St W) :
  key_of obj = key -> (forall c, P (f c)) ->
  reconcileOrDelete k obj needed (mutateChild k owner labels f) st = (Ok tt, st') ->
  (if needed then realised k key (Meta_UID (P_Meta owner)) labels P (world st') else absent k key (world st')) /\
  (forall k' key', k' ≠ k \/ key' ≠ key -> stored k' key' (world st') = stored k' key' (world st)).
Proof.
  intros <- HP E. split; [by eapply reconcileOrDelete_state|].
  eapply step_keeps; [|exact E]. by apply footprint_reconcileOrDelete.
Qed.

Lemma monitor_Ok p spec (st : St W) st' :
  when sma (r ← try (reconcileServiceMonitor p spec (monitored spec));
     match r with
     | Ok _ => mret tt
     | Err e => event p "Warning" "ServiceMonitorFailed"
                  (Msg "Failed to reconcile ServiceMonitor: %v" [AErr e])
     end) st = (Ok tt, st') ->
  if sma then monitor_state p spec (world st') \/ exists e, monitor_warning p e ∈ effects st'
  else st' = st.
Proof.
  destruct sma; simpl; [|by intros [= <-]]. intros (r & s1 & E1 & E)%M_bind_Ok. unfold try in E1.
  destruct (reconcileServiceMonitor p spec (monitored spec) st) as [r' s1'] eqn:Em. injection E1 as <- <-.
  destruct r' as [[]|e].
  - injection E as <-. left. unfold monitor_state.
    eapply (optional_child KServiceMonitor _ (@key_of KPipeline p) _ _ _ _
      (fun s => s = SMO_Spec (GenerateServiceMonitor p spec))) in Em as [R _]; done.
  - injection E as <-. right. exists e. simpl. apply elem_of_app. right. by left.
Qed.

Lemma monitor_keeps p spec b (st : St W) r st' :
  when sma (r ← try (reconcileServiceMonitor p spec b);
     match r with
     | Ok _ => mret tt
     | Err e => event p "Warning" "ServiceMonitorFailed"
                  (Msg "Failed to reconcile ServiceMonitor: %v" [AErr e])
     end) st = (r, st') ->
  forall k key, k ≠ KServiceMonitor \/ key ≠ @key_of KPipeline p ->
    stored k key (world st') = stored k key (world st).
Proof.
  apply step_keeps. apply footprint_when, footprint_bind.
  - by apply footprint_try, footprint_reconcileOrDelete.
  - intros []; [apply footprint_ret|apply footprint_emit].
Qed.

Lemma reconcileChildren_Ok spec replicas hpa pf d1 d2 p (st st' : St W) :
  reconcileChildren sma spec replicas hpa pf d1 d2 p st = (Ok tt, st') ->
  children_realised sma p
    (mkPlan spec replicas hpa pf d1 d2
       (HashOfData d1 +:+ HashOfData d2 +:+
        secret_hash (Meta_Namespace (P_Meta p)) spec (world st))) (world st) (effects st') (world st').
Proof.
  unfold reconcileChildren.
  destruct (secretHash_run p spec st) as [effs Eh].
  intros (h & s0 & Eh' & E)%M_bind_Ok. rewrite Eh in Eh'. injection Eh' as <- <-.
  apply M_bind_Ok in E as ([] & s1 & E1%wrap_Ok & E).
  apply M_bind_Ok in E as ([] & s2 & E2%wrap_Ok & E).
  apply M_bind_Ok in E as ([] & s3 & E3%wrap_Ok & E).
  apply M_bind_Ok in E as ([] & s4 & E4%wrap_Ok & E).
  apply M_bind_Ok in E as ([] & s5 & E5%wrap_Ok & E).
  apply M_bind_Ok in E as ([] & s6 & E6%wrap_Ok & E).
  apply M_bind_Ok in E as ([] & s7 & E7%wrap_Ok & E).
  pose proof (monitor_keeps _ _ _ _ _ _ E) as F8.
  pose proof (monitor_Ok _ _ _ _ E) as R8.
  apply reconcileConfigMap_Ok in E1 as [R1 F1]. apply reconcileConfigMap_Ok in E2 as [R2 F2].
  rewrite sapp_assoc in E3. apply reconcileDeployment_Ok in E3 as [R3 F3].
  eapply (optional_child KService _ (@key_of KPipeline p) _ _ _ _
    (fun s => Svc_Type s = "ClusterIP" /\ Svc_Selector s = SelectorLabels (Meta_Name (P_Meta p)) /\
              Svc_Ports s = servicePorts spec)) in E4 as [R4 F4]; [|done..].
  eapply (optional_child KService _
    (Meta_Namespace (P_Meta p), Meta_Name (P_Meta p) +:+ "-headless") _ _ _ _
    (fun s => s = Svc_Spec (GenerateHeadlessService p))) in E5 as [R5 F5]; [|done..].
  unfold reconcileHPA in E6. destruct (scalingBounds (Spec_Scaling spec)) as [mn mx] eqn:Eb.
  eapply (optional_child KHPA _ (@key_of KPipeline p) _ _ _ _
    (fun s => s = HPA_Spec (GenerateHPA p mn mx defaultTargetCPU))) in E6 as [R6 F6]; [|done..].
  eapply (optional_child KPDB _ (@key_of KPipeline p) _ _ _ _
    (fun s => s = PDB_Spec (GeneratePDB p replicas))) in E7 as [R7 F7]; [|done..].
  constructor; simpl; rewrite ?Eb; simpl.
  - keep F8. keep F7. keep F6. keep F5. keep F4. keep F3. keep F2. exact R1.
  - keep F8. keep F7. keep F6. keep F5. keep F4. keep F3. exact R2.
  - keep F8. keep F7. keep F6. keep F5. keep F4. exact R3.
  - destruct (NeedsService _ _); keep F8; keep F7; keep F6; keep F5; exact R4.
  - destruct pf; keep F8; keep F7; keep F6; exact R5.
  - destruct hpa; keep F8; keep F7; exact R6.
  - destruct (1 <? replicas); keep F8; exact R7.
  - destruct sma; [exact R8|]. intros key. rewrite R8, F7, F6, F5, F4, F3, F2, F1 by (by left). done.
Qed.
End realise.

(** ** The status *)

Section status.
Context {W : Type} `{ClientLaws W}.

Lemma writeStatus_Ok desired p w p' w' :
  writeStatus desired (p, w) = (Ok tt, (p', w')) ->
  stored KPipeline (@key_of KPipeline p) w' = Some p' /\ P_Status p' = desired /\
  exists old, stored KPipeline (@key_of KPipeline p) w = Some old /\
    P_Meta p' = P_Meta old /\ P_Spec p' = P_Spec old.
Proof.
  unfold writeStatus. destruct (Get KPipeline (@key_of KPipeline p) w) as [p1|e] eqn:E; [|done].
  apply (Get_Ok KPipeline) in E. pose proof (stored_key KPipeline _ _ _ E) as Hk.
  set (p2 := set_status _ p1). assert (Hk2 : @key_of KPipeline p2 = @key_of KPipeline p) by done.
  destruct (UpdateStatus KPipeline p2 w) as [[p3|e] w3] eqn:Eu; [|done].
  intros [= <- <-]. apply (UpdateStatus_Ok KPipeline) in Eu as (Hs & Hst & old & Hold & Hm & Hc).
  rewrite Hk2 in Hst, Hold. split; [done|]. split; [|by eauto].
  transitivity (P_Status p2); [done|]. by destruct desired.
Qed.

Lemma writeStatus_Err desired p w e p' w' :
  writeStatus desired (p, w) = (Err e, (p', w')) ->
  @key_of KPipeline p' = @key_of KPipeline p.
Proof.
  unfold writeStatus. destruct (Get KPipeline (@key_of KPipeline p) w) as [p1|e1] eqn:E;
    [|by intros [= <- <- <-]].
  apply (Get_Ok KPipeline) in E. pose proof (stored_key KPipeline _ _ _ E) as Hk.
  destruct (UpdateStatus _ _ _) as [[?|?] ?]; [done|]. by intros [= _ <- _].
Qed.

Lemma updateStatus_Ok p errorPhase msg (st : St W) res st' :
  updateStatus p errorPhase msg st = (Ok res, st') ->
  exists p', stored KPipeline (@key_of KPipeline p) (world st') = Some p' /\
    P_Status p' = desiredStatus p errorPhase msg
                    (Get KDeployment (@key_of KPipeline p) (world st)) /\
    RequeueAfter res =
      (if decide (PStatus_Phase (P_Status p') = PipelinePhasePending \/
                  PStatus_Phase (P_Status p') = PipelinePhaseDegraded)
       then 30 * Second else 0).
Proof.
  unfold updateStatus. set (desired := desiredStatus _ _ _ _).
  pose proof (RetryOnConflict_retries _ (writeStatus desired) (set_status desired p, world st)) as Hr.
  destruct (RetryOnConflict _ _ _) as [[[]|e] [p' w']]; [|done]. intros [= <- <-]. simpl.
  exists p'. cut (stored KPipeline (@key_of KPipeline p) w' = Some p' /\ P_Status p' = desired).
  { intros [-> Hs]. split_and!; [done|done|]. rewrite Hs.
    destruct (PStatus_Phase desired); done. }
  enough (forall s r, retries IsConflict (writeStatus desired) s r ->
    @key_of KPipeline s.1 = @key_of KPipeline p -> r.1 = Ok tt ->
    stored KPipeline (@key_of KPipeline p) r.2.2 = Some r.2.1 /\ P_Status r.2.1 = desired) as Hall.
  { by apply (Hall _ _ Hr). }
  induction 1 as [[q w]|[q w] [q' w''] e r Hb _ _ IH]; intros Hk Hok.
  - destruct (writeStatus desired (q, w)) as [r [q' w'']] eqn:E. cbn [fst snd] in *. rewrite Hok in E.
    apply writeStatus_Ok in E as (Hst & Hs & _). by rewrite <-Hk.
  - apply IH; [|done]. apply writeStatus_Err in Hb. cbn [fst snd] in *. congruence.
Qed.

Lemma updateStatus_keeps p errorPhase msg (st : St W) r st' :
  updateStatus p errorPhase msg st = (r, st') ->
  forall k key, k ≠ KPipeline \/ key ≠ @key_of KPipeline p ->
    stored k key (world st') = stored k key (world st).
Proof. apply step_keeps. by apply footprint_updateStatus. Qed.
Lemma updateStatus_effects p errorPhase msg (st : St W) r st' :
  updateStatus p errorPhase msg st = (r, st') -> effects st' = effects st.
Proof.
  unfold updateStatus. destruct (RetryOnConflict _ _ _) as [[[]|e] [p' w']]; by intros [= _ <-].
Qed.

(** The records of the run are appended to the trace. *)
Lemma records_effects ns prev replicas p (s4 s5 s6 : St W) :
  recordScaling prev replicas p s4 = (Ok tt, s5) -> recordManaged ns s5 = (Ok tt, s6) ->
  forall e, e ∈ effects s4 -> e ∈ effects s6.
Proof.
  intros E5 E6 e He.
  assert (e ∈ effects s5) as He5.
  { revert E5. unfold recordScaling, when. case_match; intros [= <-]; [|done].
    simpl. rewrite !elem_of_app. auto. }
  revert E6. unfold recordManaged, mbind, M_bind, try, reads.
  destruct (ListPipelines ns ∅ (world s5)); intros [= <-]; [|done]. simpl. rewrite elem_of_app. auto.
Qed.
End status.

(** ** Convergence *)

Section convergence.
Context {W : Type} `{ClientLaws W}.
Context (Marshal : gmap string any -> result string) (int32_of_inf : Z)
  (factory : option Kafka.ClientFactory) (sma : bool).

Abbreviation plan_of' := (plan_of Marshal int32_of_inf factory).

(** Two versions of the same pipeline object. *)
Definition same_object (p q : DataPrepperPipeline) : Prop :=
  Meta_Name (P_Meta p) = Meta_Name (P_Meta q) /\
  Meta_Namespace (P_Meta p) = Meta_Namespace (P_Meta q) /\
  Meta_UID (P_Meta p) = Meta_UID (P_Meta q).

Lemma same_object_key p q : same_object p q -> @key_of KPipeline p = @key_of KPipeline q.
Proof. intros (Hn & Hns & _). unfold key_of; simpl. by rewrite Hn, Hns. Qed.

(** The plan and its realisation depend on the identity of the pipeline only. *)
Lemma plan_of_scaling spec p q (w : W) :
  same_object p q ->
  (calculateScaling int32_of_inf factory p spec w).1 =
  (calculateScaling int32_of_inf factory q spec w).1.
Proof.
  intros (Hn & Hns & _). unfold calculateScaling. destruct (manual _); [done|]. destruct (scalingBounds _) as [mn mx].
  destruct (first_kafka _) as [ks|]; [|by destruct (has_s3 _)].
  unfold calculateKafkaScaling. rewrite Hns. repeat (case_match; try done).
Qed.

Lemma plan_of_same spec p q w : same_object p q -> plan_of' spec p w = plan_of' spec q w.
Proof.
  intros Hsame. unfold plan_of, generateConfigs. rewrite (plan_of_scaling spec p q w Hsame).
  destruct Hsame as (-> & -> & _). done.
Qed.

Lemma children_realised_same p q pl (w0 : W) effs (w : W) :
  same_object p q -> children_realised sma p pl w0 effs w -> children_realised sma q pl w0 effs w.
Proof.
  intros (Hn & Hns & Hu) [H1 H2 H3 H4 H5 H6 H7 H8].
  unfold monitor_state, monitor_warning, key_of, GenerateDeployment, GenerateHeadlessService, GenerateHPA,
    GeneratePDB, GenerateServiceMonitor in *.
  simpl in *. rewrite Hn, Hns, Hu in *.
  constructor; done.
Qed.

(** Without warnings the service monitor is as it should be. *)
Lemma children_realised_strict p pl (w0 : W) effs (w : W) :
  (sma = true -> monitor_state p (plan_spec pl) w) ->
  children_realised sma p pl w0 effs w -> children_realised sma p pl w0 [] w.
Proof.
  intros Hm [H1 H2 H3 H4 H5 H6 H7 H8]. constructor; try done. destruct sma; [by left; apply Hm|done].
Qed.

Lemma children_realised_frame p pl (w0 w0' : W) effs effs' (w w' : W) :
  (forall k key, k ≠ KPipeline -> stored k key w' = stored k key w) ->
  (forall k key, k ≠ KPipeline -> stored k key w0' = stored k key w0) ->
  (forall e, e ∈ effs -> e ∈ effs') ->
  children_realised sma p pl w0 effs w -> children_realised sma p pl w0' effs' w'.
Proof.
  intros Hf Hf0 Heffs [H1 H2 H3 H4 H5 H6 H7 H8].
  assert (Hopt : forall (b : bool) k key uid labels P, k ≠ KPipeline ->
    (if b then realised k key uid labels P w else absent k key w) ->
    if b then realised k key uid labels P w' else absent k key w').
  { intros [] k key uid labels P Hk; [apply realised_frame|apply absent_frame]; by apply Hf. }
  constructor; try first [apply Hopt; done | eapply realised_frame; [by apply Hf|done]].
  destruct sma.
  - destruct H8 as [H8|(e & He)]; [left; by apply Hopt|right; exists e; auto].
  - intros key. by rewrite Hf, Hf0, H8.
Qed.

(** The replica counts in the status [s] are those of the Deployment under [key];
    if the server refused to read it, they are the previous ones. *)
Definition counts_accurate (p : DataPrepperPipeline) (key : Key) (w : W)
    (s : DataPrepperPipelineStatus) : Prop :=
  (exists d, stored KDeployment key w = Some d /\
     counts_of s = (DepStatus_Replicas (Dep_Status d), DepStatus_ReadyReplicas (Dep_Status d))) \/
  (counts_of s = counts_of (P_Status p) /\
   exists w0 e, (forall k key', k ≠ KPipeline -> stored k key' w0 = stored k key' w) /\
     Get KDeployment key w0 = Err e).

(** What the status of the reconciled pipeline [p] says: it is about the
    generation of [p], the replica counts are the Deployment's, the phase and the
    Ready condition follow from them, the configuration is marked valid. *)
Record status_accurate (p : DataPrepperPipeline) (key : Key) (w : W)
    (s : DataPrepperPipelineStatus) : Prop := {
  sa_generation : PStatus_ObservedGeneration s = Meta_Generation (P_Meta p);
  sa_counts : counts_accurate p key w s;
  sa_phase : PStatus_Phase s =
    phase_of PipelinePhaseUnset (PStatus_Replicas s) (PStatus_ReadyReplicas s);
  sa_ready : FindStatusCondition (PStatus_Conditions s) "Ready" =
    Some (ready_condition (PStatus_Phase s) (Meta_Generation (P_Meta p)) (PStatus_Replicas s)
            (PStatus_ReadyReplicas s) (Msg "" []));
  sa_valid : FindStatusCondition (PStatus_Conditions s) "ConfigValid" =
    Some (mkCondition "ConfigValid" ConditionTrue (Meta_Generation (P_Meta p)) "Valid"
            (Msg "Pipeline configuration is valid" [])) }.

Lemma ready_condition_type ph g r a m : Cond_Type (ready_condition ph g r a m) = "Ready".
Proof. by destruct ph. Qed.

Lemma desiredStatus_accurate p key (w0 w : W) :
  (forall k key', k ≠ KPipeline -> stored k key' w0 = stored k key' w) ->
  condition_of p "ConfigValid" =
    Some (mkCondition "ConfigValid" ConditionTrue (Meta_Generation (P_Meta p)) "Valid"
            (Msg "Pipeline configuration is valid" [])) ->
  status_accurate p key w
    (desiredStatus p PipelinePhaseUnset (Msg "" []) (Get KDeployment key w0)).
Proof.
  intros Hw Hv. constructor.
  2:{ destruct (Get KDeployment key w0) as [d|e] eqn:Eg; [left|right].
      - apply (Get_Ok KDeployment) in Eg. rewrite Hw in Eg by done. by exists d.
      - split; [done|]. by exists w0, e. }
  all: unfold desiredStatus; destruct (Get KDeployment key w0) as [d|e]; simpl; try done.
  all: try by (erewrite <-(ready_condition_type _ _ _ _ _) at 1; rewrite Find_Set_eq).
  all: rewrite Find_Set_ne; [done|]; by rewrite ready_condition_type.
Qed.

(** The status is accurate for every version of the pipeline with this
    generation and these counts. *)
Lemma status_accurate_same p q key (w : W) s :
  Meta_Generation (P_Meta p) = Meta_Generation (P_Meta q) ->
  counts_of (P_Status p) = counts_of (P_Status q) ->
  status_accurate p key w s -> status_accurate q key w s.
Proof.
  intros Hg Hc [H1 H2 H3 H4 H5]. unfold counts_accurate in H2. rewrite Hg in *. rewrite Hc in H2.
  by constructor.
Qed.

Lemma desiredStatus_error p msg deploy :
  let s := desiredStatus p PipelinePhaseError msg deploy in
  PStatus_Phase s = PipelinePhaseError /\
  PStatus_ObservedGeneration s = Meta_Generation (P_Meta p) /\
  FindStatusCondition (PStatus_Conditions s) "Ready" =
    Some (mkCondition "Ready" ConditionFalse (Meta_Generation (P_Meta p)) "ValidationFailed" msg) /\
  forall t, t ≠ "Ready" -> FindStatusCondition (PStatus_Conditions s) t = condition_of p t.
Proof.
  unfold desiredStatus. destruct (match deploy with Ok _ => _ | Err _ => _ end). simpl.
  split_and!; [done|done|apply (Find_Set_eq _ (mkCondition _ _ _ _ _))|].
  intros t Ht. by apply Find_Set_ne.
Qed.

Lemma reconcileValid_Ok req spec prev p (st : St W) res st' :
  condition_of p "ConfigValid" =
    Some (mkCondition "ConfigValid" ConditionTrue (Meta_Generation (P_Meta p)) "Valid"
            (Msg "Pipeline configuration is valid" [])) ->
  reconcileValid Marshal int32_of_inf factory sma req spec prev p st =
    (Ok res, st') ->
  exists pl p', plan_of' spec p (world st) = Ok pl /\
    children_realised sma p pl (world st) (effects st') (world st') /\
    stored KPipeline (@key_of KPipeline p) (world st') = Some p' /\
    status_accurate p (@key_of KPipeline p) (world st') (P_Status p').
Proof.
  intros Hv. unfold reconcileValid.
  intros (maps & s0 & E0%wrap_Ok & E)%M_bind_Ok. injection E0 as Emaps <-.
  apply M_bind_Ok in E as (scaled & s1 & E1 & E).
  destruct (applyScaling_run int32_of_inf factory spec p st)
    as (replicas & tw & hpa & p1 & effs & E1' & Hm1 & Hs1 & Hc1 & Hn1 & Hhpa & Hplan).
  rewrite E1' in E1. injection E1 as <- <-.
  apply M_bind_Ok in E as (p2 & s2 & E2 & E).
  destruct (applyPeerForwarder_run (NeedsForwarding maps && (1 <? replicas)) p1 (mkSt (world st) effs))
    as (p2' & effs2 & E2' & Hm2 & Hs2 & Hc2 & Hn2).
  rewrite E2' in E2. injection E2 as <- <-.
  apply M_bind_Ok in E as ([d1 d2] & s3 & E3 & E). injection E3 as Ecfg <-.
  apply M_bind_Ok in E as ([] & s4 & E4 & E).
  apply M_bind_Ok in E as ([] & s5 & E5 & E). apply M_bind_Ok in E as ([] & s6 & E6 & E).
  assert (Hsame : same_object p2' p) by (unfold same_object; by rewrite Hm2, Hm1).
  assert (Hquiet : forall k key, stored k key (world s6) = stored k key (world s4)).
  { intros k key. transitivity (stored k key (world s5)).
    - eapply (footprint_stored nothing); [|done|by intros []]. unfold recordManaged.
      apply footprint_bind; [auto with footprint|]. intros []; auto with footprint.
    - eapply (footprint_stored nothing); [|done|by intros []]. unfold recordScaling.
      apply footprint_when, footprint_bind; intros; apply footprint_emit. }
  apply reconcileChildren_Ok in E4. simpl in E4.
  pose proof (updateStatus_keeps _ _ _ _ _ _ E) as Hkeep.
  pose proof (updateStatus_effects _ _ _ _ _ _ E) as Heffs.
  pose proof (records_effects _ _ _ _ _ _ _ E5 E6) as Heffs6.
  assert (Hk6 : forall k key, k ≠ KPipeline -> stored k key (world s6) = stored k key (world st'))
    by (intros k key Hk; symmetry; apply Hkeep; by left).
  apply updateStatus_Ok in E as (p' & Hp' & Hst' & _).
  eexists (mkPlan spec replicas hpa _ d1 d2 _), p'. split; [|split; [|split]].
  - rewrite <-(plan_of_same _ p2' p) by done. unfold plan_of. rewrite Emaps. simpl.
    rewrite (plan_of_scaling _ p2' p) by done.
    set (plan := (calculateScaling int32_of_inf factory p spec (world st)).1) in *.
    assert (match SP_err plan with Some _ => (1, 0)
            | None => (SP_replicas plan, SP_topicWorkers plan) end = (replicas, tw)) as ->
      by (destruct (SP_err plan); destruct Hplan as [-> ->]; done).
    rewrite <-Hhpa, Ecfg. reflexivity.
  - apply (children_realised_same p2' p); [done|].
    apply (children_realised_frame _ _ (world st) (world st) (effects s4) _ (world s4)); [|done| |exact E4].
    + intros k key Hk. rewrite Hkeep by (by left). apply Hquiet.
    + intros e He. rewrite Heffs. by apply Heffs6.
  - by rewrite <-(same_object_key _ _ Hsame).
  - rewrite Hst', (same_object_key _ _ Hsame). apply (status_accurate_same p2').
    + by rewrite Hm2, Hm1.
    + by rewrite Hn2, Hn1.
    + apply desiredStatus_accurate; [done|]. rewrite Hc2, Hc1, Hm2, Hm1 by done. exact Hv.
Qed.

Abbreviation Reconcile' := (Reconcile Marshal int32_of_inf factory sma).

Lemma counted_effects {A} c (m : M W A) st r st2 r' st' :
  m st = (r, st2) -> counted c m st = (r', st') -> forall e, e ∈ effects st2 -> e ∈ effects st'.
Proof.
  intros E. unfold counted. rewrite E. intros [= _ <-] e He. simpl. rewrite elem_of_app. auto.
Qed.

Lemma Reconcile_fetched req p (st : St W) res st' :
  stored KPipeline req (world st) = Some p ->
  Reconcile' req st = (Ok res, st') ->
  exists st2, world st2 = world st' /\ (forall e, e ∈ effects st2 -> e ∈ effects st') /\
    (if bool_decide (is_Some (Meta_DeletionTimestamp (P_Meta p)))
     then finalizePipeline p
     else p' ← ensureFinalizer p;
          reconcileLive Marshal int32_of_inf factory sma req p') st
    = (Ok res, st2).
Proof.
  intros Hp HR. pose proof HR as (st2 & E & Hw)%counted_Ok. exists st2. split; [done|].
  split; [intros e He; by apply (counted_effects _ _ _ _ _ _ _ E HR)|].
  apply M_bind_Ok in E as (r & st1 & Er & E). injection Er as <- <-.
  destruct (Get KPipeline req (world st)) as [q|e] eqn:Eg.
  - apply (Get_Ok KPipeline) in Eg. simplify_eq. exact E.
  - unfold IgnoreNotFound in E. destruct (IsNotFound e) eqn:En; [|done].
    rewrite (Get_NotFound KPipeline _ _ _ Eg En) in Hp. done.
Qed.

Lemma reconcileLive_valid req p (st : St W) :
  valid_graph (graphDefs (Spec_Pipelines (P_Spec p))) ->
  reconcileLive Marshal int32_of_inf factory sma req p st =
  reconcileValid Marshal int32_of_inf factory sma req
    (MergeSpec (defaults_in req.1 (world st)) (P_Spec p)) (PStatus_Replicas (P_Status p))
    (setCondition "ConfigValid" ConditionTrue "Valid" (Msg "Pipeline configuration is valid" []) p) st.
Proof.
  intros Hg. unfold reconcileLive, defaults_in. unfold mbind at 1, M_bind, try, reads.
  by rewrite MergeSpec_graphDefs, (proj2 (ValidateGraph_Ok _) Hg).
Qed.

Lemma Reconcile_live req p (st st1 : St W) p1 res st2 :
  Get KPipeline req (world st) = Ok p -> Meta_DeletionTimestamp (P_Meta p) = None ->
  ensureFinalizer p st = (Ok p1, st1) ->
  reconcileLive Marshal int32_of_inf factory sma req p1 st1 = (Ok res, st2) ->
  exists st3, Reconcile' req st = (Ok res, st3) /\ world st3 = world st2.
Proof.
  intros Hg Hdel E1 E2. unfold Reconcile, counted, mbind, M_bind, try, reads.
  rewrite Hg, bool_decide_eq_false_2 by (rewrite Hdel; by intros []). rewrite E1, E2. by eexists.
Qed.

Lemma ensureFinalizer_state p (st st1 : St W) p1 :
  stored KPipeline (@key_of KPipeline p) (world st) = Some p ->
  Meta_DeletionTimestamp (P_Meta p) = None ->
  ensureFinalizer p st = (Ok p1, st1) ->
  same_object p1 p /\ P_Spec p1 = P_Spec p /\ P_Status p1 = P_Status p /\
  pipelineFinalizerName ∈ Meta_Finalizers (P_Meta p1) /\
  stored KPipeline (@key_of KPipeline p) (world st1) = Some p1 /\
  (pipelineFinalizerName ∈ Meta_Finalizers (P_Meta p) -> p1 = p) /\
  (forall k key, k ≠ KPipeline \/ key ≠ @key_of KPipeline p ->
     stored k key (world st1) = stored k key (world st)).
Proof.
  intros Hp Hdel. unfold ensureFinalizer, ContainsFinalizer. case_bool_decide as Hf.
  { by intros [= <- <-]. }
  rewrite wrap_Ok. intros E. set (q := set_meta _ _) in *.
  assert (Hkq : @key_of KPipeline q = @key_of KPipeline p) by done.
  pose proof (step_keeps KPipeline (@key_of KPipeline q) _ _ _ _
    (footprint_writes (only KPipeline (@key_of KPipeline q)) KPipeline _ _
       (fun w => Update_frame KPipeline q w) (conj eq_refl eq_refl)) E) as Hkeep.
  apply writes_Ok in E as [E _]. apply (Update_Ok KPipeline) in E as ([Hm Hc] & Hst & old & Ho & Hu & Hd & Hs).
  rewrite Hkq in *. rewrite Hp in Ho. injection Ho as <-. simpl in *.
  assert (Hfin : pipelineFinalizerName ∈ Meta_Finalizers (P_Meta p1)).
  { apply (f_equal Meta_Finalizers) in Hm. simpl in Hm. rewrite Hm. apply elem_of_AddFinalizer. by left. }
  rewrite Hdel in Hd. unfold gone in Hst. rewrite Hd in Hst.
  split_and!; try done.
  unfold same_object. pose proof (f_equal Meta_Name Hm). pose proof (f_equal Meta_Namespace Hm). done.
Qed.

(** The version of the pipeline that a reconcile works with: the stored one, with
    the finalizer added if it was not there. *)
Definition processed (p p1 : DataPrepperPipeline) : Prop :=
  same_object p1 p /\ P_Spec p1 = P_Spec p /\ P_Status p1 = P_Status p /\
  pipelineFinalizerName ∈ Meta_Finalizers (P_Meta p1) /\
  (pipelineFinalizerName ∈ Meta_Finalizers (P_Meta p) -> p1 = p).

Lemma Reconcile_Ok req p (st : St W) res st' :
  stored KPipeline req (world st) = Some p ->
  Meta_DeletionTimestamp (P_Meta p) = None ->
  valid_graph (graphDefs (Spec_Pipelines (P_Spec p))) ->
  Reconcile' req st = (Ok res, st') ->
  exists w1 p1 pl p',
    (forall k key, k ≠ KPipeline \/ key ≠ req -> stored k key w1 = stored k key (world st)) /\
    stored KPipeline req w1 = Some p1 /\ processed p p1 /\
    plan_of' (MergeSpec (defaults_in req.1 w1) (P_Spec p)) p w1 = Ok pl /\
    children_realised sma p pl (world st) (effects st') (world st') /\
    stored KPipeline req (world st') = Some p' /\
    status_accurate p1 req (world st') (P_Status p').
Proof.
  intros Hp Hdel Hvalid HR.
  pose proof (stored_key KPipeline _ _ _ Hp) as Hkey.
  apply (Reconcile_fetched req p) in HR as (st2 & Hw2 & Heffs2 & E); [|done].
  rewrite bool_decide_eq_false_2 in E by (rewrite Hdel; by intros []).
  apply M_bind_Ok in E as (p1 & st1 & E1 & E).
  apply ensureFinalizer_state in E1 as (Hsame & Hspec & Hstat & Hfin & Hst1 & Heq & Hkeep); [|by rewrite Hkey|done].
  rewrite Hkey in Hkeep, Hst1. unfold reconcileLive in E.
  apply M_bind_Ok in E as (r & st1' & Er & E). injection Er as <- <-.
  rewrite MergeSpec_graphDefs, Hspec, (proj2 (ValidateGraph_Ok _) Hvalid) in E.
  apply reconcileValid_Ok in E as (pl & p' & Hpl & Hch & Hp' & Hacc); [|apply Find_Set_eq].
  set (q := setCondition _ _ _ _ p1) in *.
  assert (Hsame' : same_object q p) by exact Hsame.
  rewrite (same_object_key q p Hsame'), Hkey in Hp', Hacc. rewrite Hw2 in Hch, Hp', Hacc.
  exists (world st1), p1, pl, p'. split_and!; [done|done| | | |done|].
  - by split_and!.
  - rewrite <-(plan_of_same _ q p) by done. exact Hpl.
  - apply (children_realised_same q p); [done|].
    apply (children_realised_frame _ _ (world st1) _ (effects st2) _ (world st')); [done| |done|exact Hch].
    intros k key Hk. symmetry. apply Hkeep. by left.
  - by apply (status_accurate_same q p1).
Qed.


(** What the status of a pipeline with an invalid graph says. *)
Record reports_invalid (e : error) (s : DataPrepperPipelineStatus) : Prop := {
  ri_phase : PStatus_Phase s = PipelinePhaseError;
  ri_valid : FindStatusCondition (PStatus_Conditions s) "ConfigValid" =
    Some (mkCondition "ConfigValid" ConditionFalse (PStatus_ObservedGeneration s) "ValidationFailed" e);
  ri_ready : FindStatusCondition (PStatus_Conditions s) "Ready" =
    Some (mkCondition "Ready" ConditionFalse (PStatus_ObservedGeneration s) "ValidationFailed" e) }.

(** The branch of an invalid graph, which is not requeued. *)
Lemma reconcileLive_invalid req p e (st : St W) res st' :
  ValidateGraph (graphDefs (Spec_Pipelines (P_Spec p))) = Err e -> @key_of KPipeline p = req ->
  reconcileLive Marshal int32_of_inf factory sma req p st = (Ok res, st') ->
  RequeueAfter res = 0 /\
  exists p', stored KPipeline req (world st') = Some p' /\ reports_invalid e (P_Status p') /\
    PStatus_ObservedGeneration (P_Status p') = Meta_Generation (P_Meta p).
Proof.
  intros Ev Hk. unfold reconcileLive.
  intros (r & st1 & Er & E)%M_bind_Ok. injection Er as <- <-. rewrite MergeSpec_graphDefs, Ev in E.
  apply M_bind_Ok in E as ([] & st3 & E3 & E). injection E3 as <-.
  apply updateStatus_Ok in E as (p' & Hp' & Hs & Hres). rewrite key_setCondition, Hk in Hp'.
  destruct (desiredStatus_error (setCondition "ConfigValid" ConditionFalse "ValidationFailed" e p) e
              (Get KDeployment (@key_of KPipeline p) (world st))) as (Hph & Hgen & Hready & Hother).
  rewrite key_setCondition in Hs. simpl in Hs. rewrite <-Hs in Hph, Hgen, Hready, Hother.
  split; [by rewrite Hres, Hph|]. exists p'. split; [done|]. split; [|done].
  constructor; [done| |]; rewrite Hgen; [|done]. rewrite Hother by done. apply Find_Set_eq.
Qed.

(** It writes the pipeline only, whatever happens. *)
Lemma footprint_reconcileLive_invalid req p :
  ~ valid_graph (graphDefs (Spec_Pipelines (P_Spec p))) -> @key_of KPipeline p = req ->
  footprint (only KPipeline req) (reconcileLive (W := W) Marshal int32_of_inf factory sma req p).
Proof.
  intros Hg Hk. unfold reconcileLive. apply footprint_bind; [auto with footprint|]. intros r.
  rewrite MergeSpec_graphDefs. destruct (ValidateGraph _) as [[]|e] eqn:Ev; [by apply ValidateGraph_Ok in Ev|].
  apply footprint_bind; [apply footprint_emit|]. intros _. apply footprint_updateStatus.
  by rewrite key_setCondition, Hk.
Qed.

Lemma footprint_Reconcile_invalid req p (st : St W) k key :
  stored KPipeline req (world st) = Some p -> Meta_DeletionTimestamp (P_Meta p) = None ->
  ~ valid_graph (graphDefs (Spec_Pipelines (P_Spec p))) ->
  k ≠ KPipeline \/ key ≠ req ->
  stored k key (world (snd (Reconcile' req st))) = stored k key (world st).
Proof.
  intros Hp Hdel Hg Hne. pose proof (stored_key KPipeline _ _ _ Hp) as Hkey.
  unfold Reconcile, counted, mbind, M_bind, try, reads.
  destruct (Get KPipeline req (world st)) as [q|e] eqn:Eg.
  2:{ unfold IgnoreNotFound. by destruct (IsNotFound e). }
  apply (Get_Ok KPipeline) in Eg. rewrite Hp in Eg. injection Eg as <-.
  rewrite bool_decide_eq_false_2 by (rewrite Hdel; by intros []).
  destruct (ensureFinalizer p st) as [[p1|e] st1] eqn:E1; simpl.
  - apply ensureFinalizer_state in E1 as (Hsame & Hspec & _ & _ & _ & _ & Hkeep); [|by rewrite Hkey|done].
    rewrite Hkey in Hkeep.
    pose proof (footprint_reconcileLive_invalid req p1) as Hf.
    rewrite Hspec, (same_object_key _ _ Hsame) in Hf. specialize (Hf Hg Hkey st1 k key).
    destruct (reconcileLive _ _ _ _ req p1 st1) as [r st2]. simpl in *. rewrite Hf, Hkeep; [done|done|].
    intros [-> ->]. by destruct Hne.
  - revert E1. unfold ensureFinalizer. case_match; [done|].
    intros E1. eapply (footprint_stored (only KPipeline req)); [|exact E1|].
    + set (q := set_meta _ p). apply footprint_wrap, (footprint_writes _ KPipeline (@key_of KPipeline q)).
      * intros w. apply (Update_frame KPipeline).
      * split; [done|]. exact Hkey.
    + intros [-> ->]. by destruct Hne.
Qed.

(** C29: a live pipeline whose graph is invalid is only reported: whatever the
    reconcile returns, no object but the pipeline changes, so the running
    Deployment and its configuration stay as they were; and when it returns
    without error the stored status has phase Error and carries the validation
    error in the ConfigValid and Ready conditions, all for the generation of the
    pipeline that was processed. *)
Theorem Reconcile_reports_invalid_graph req p (st : St W) :
  stored KPipeline req (world st) = Some p ->
  Meta_DeletionTimestamp (P_Meta p) = None ->
  ~ valid_graph (graphDefs (Spec_Pipelines (P_Spec p))) ->
  (forall k key, k ≠ KPipeline \/ key ≠ req ->
     stored k key (world (snd (Reconcile' req st))) = stored k key (world st)) /\
  forall res, fst (Reconcile' req st) = Ok res ->
    exists p1 p' e, processed p p1 /\
      stored KPipeline req (world (snd (Reconcile' req st))) = Some p' /\
      ValidateGraph (graphDefs (Spec_Pipelines (P_Spec p))) = Err e /\ reports_invalid e (P_Status p') /\
      PStatus_ObservedGeneration (P_Status p') = Meta_Generation (P_Meta p1).
Proof.
  intros Hp Hdel Hg. split; [intros k key; by apply (footprint_Reconcile_invalid req p)|].
  intros res Hres. destruct (Reconcile' req st) as [r st'] eqn:HR. simpl in *. subst r.
  pose proof (stored_key KPipeline _ _ _ Hp) as Hkey.
  apply (Reconcile_fetched req p) in HR as (st2 & Hw2 & _ & E); [|done].
  rewrite bool_decide_eq_false_2 in E by (rewrite Hdel; by intros []).
  apply M_bind_Ok in E as (p1 & st1 & E1 & E).
  apply ensureFinalizer_state in E1 as (Hsame & Hspec & Hstat & Hfin & _ & Heq & _); [|by rewrite Hkey|done].
  destruct (ValidateGraph (graphDefs (Spec_Pipelines (P_Spec p)))) as [[]|e] eqn:Ev;
    [by apply ValidateGraph_Ok in Ev|].
  eapply reconcileLive_invalid in E as (_ & p' & Hp' & Hrep & Hgen);
    [|by rewrite Hspec|by rewrite (same_object_key _ _ Hsame)].
  exists p1, p', e. rewrite <-Hw2. by split_and!.
Qed.

(** A pipeline under deletion is only released: the reconcile writes nothing
    but the removal of the operator's finalizer from the pipeline (its child
    objects are left to the garbage collector, through their owner
    references), and once it returns without error the finalizer is gone,
    with all other finalizers in place. *)
Theorem Reconcile_releases_deleted req p (st : St W) res st' :
  stored KPipeline req (world st) = Some p ->
  is_Some (Meta_DeletionTimestamp (P_Meta p)) ->
  Reconcile' req st = (Ok res, st') ->
  RequeueAfter res = 0 /\
  (forall k key, k ≠ KPipeline \/ key ≠ req -> stored k key (world st') = stored k key (world st)) /\
  forall p', stored KPipeline req (world st') = Some p' ->
    forall f, f ∈ Meta_Finalizers (P_Meta p') <->
              f ≠ pipelineFinalizerName /\ f ∈ Meta_Finalizers (P_Meta p).
Proof.
  intros Hp Hdel HR. pose proof (stored_key KPipeline _ _ _ Hp) as Hkey.
  apply (Reconcile_fetched req p) in HR as (st2 & Hw2 & Heffs2 & E); [|done].
  rewrite bool_decide_eq_true_2 in E by done. rewrite <-Hw2.
  unfold finalizePipeline, ContainsFinalizer in E.
  apply M_bind_Ok in E as ([] & st1 & E & Er). injection Er as <- <-. split; [done|].
  case_bool_decide as Hf; simpl in E.
  - apply M_bind_Ok in E as ([] & st3 & E3 & E). injection E3 as <-.
    apply M_bind_Ok in E as (p2 & st4 & E4%wrap_Ok & E). injection E as <-.
    set (q := set_meta _ _) in *.
    assert (Hkq : @key_of KPipeline q = req) by done.
    apply writes_Ok in E4 as [E4 _]. pose proof (Update_frame KPipeline q (world st)) as Hfr.
    simpl in E4. rewrite E4, Hkq in Hfr. split; [exact Hfr|].
    apply (Update_Ok KPipeline) in E4 as ([Hm _] & Hst & _). rewrite Hkq in Hst.
    intros p'. rewrite Hst. destruct (gone _); [done|]. intros [= <-] f.
    apply (f_equal Meta_Finalizers) in Hm. simpl in Hm. rewrite Hm. apply elem_of_RemoveFinalizer.
  - injection E as <-. split; [done|]. intros p'. rewrite Hp. intros [= <-] f.
    split; [|by intros [_ ?]]. intros Hin. split; [by intros ->|done].
Qed.
End convergence.

(** ** Progress

    On a server that does not fail by itself, the only errors of a reconcile
    come from the plan: JSON that does not decode, or a document that cannot be
    marshalled. *)

Section progress.
Context {W : Type} `{ClientLaws W, !ReliableClient W}.
Context (Marshal : gmap string any -> result string) (int32_of_inf : Z)
  (factory : option Kafka.ClientFactory) (sma : bool).

Lemma child_total k (obj : Object k) owner labels f (st : St W) :
  Meta_OwnerReferences (obj_meta obj) = [] ->
  adoptable (Meta_UID (P_Meta owner)) k (key_of obj) (world st) ->
  exists st', writes (CreateOrUpdate k obj (mutateChild k owner labels f)) st = (Ok tt, st').
Proof.
  intros Hno Had. set (o := default obj (stored k (key_of obj) (world st))).
  assert (Hk : key_of o = key_of obj).
  { subst o. destruct (stored _ _ _) eqn:E; simpl; [by apply stored_key in E|done]. }
  destruct (SetControllerReference_total (P_Meta owner) (set_labels (Some labels) (obj_meta o)))
    as [m Hm].
  { simpl. subst o. destruct (stored k (key_of obj) (world st)) as [o|] eqn:E; simpl.
    - intros r. by apply (Had o).
    - rewrite Hno. by intros r ?%elem_of_nil. }
  destruct (CreateOrUpdate_total k obj (mutateChild k owner labels f) (world st)
              (build k m (f (content o)) (status_of o))) as [w' Hw].
  - unfold mutateChild. fold o. by rewrite Hm.
  - apply SetControllerReference_fields in Hm as (Hn & Hns & _). simpl in *.
    rewrite key_build, Hn, Hns. exact Hk.
  - exists (mkSt w' (effects st)). by apply writes_Ok.
Qed.

Lemma optional_total k (obj : Object k) needed owner labels f (st : St W) :
  Meta_OwnerReferences (obj_meta obj) = [] ->
  adoptable (Meta_UID (P_Meta owner)) k (key_of obj) (world st) ->
  exists st', reconcileOrDelete k obj needed (mutateChild k owner labels f) st = (Ok tt, st').
Proof.
  intros Hno Had. destruct needed; [by apply child_total|].
  unfold reconcileOrDelete; simpl. unfold mbind, M_bind, try, reads; simpl.
  destruct (stored k (key_of obj) (world st)) as [o|] eqn:E.
  - rewrite (Get_stored _ _ _ _ E). apply stored_key in E as Hk.
    destruct (Delete_total k o (world st)) as [w' Hw]; [rewrite Hk, E; by eexists|].
    exists (mkSt w' (effects st)). by apply writes_Ok.
  - destruct (Get_absent _ _ _ E) as (e & -> & ->). by eexists.
Qed.

Lemma updateStatus_total p errorPhase msg (st : St W) :
  is_Some (stored KPipeline (@key_of KPipeline p) (world st)) ->
  exists res st', updateStatus p errorPhase msg st = (Ok res, st').
Proof.
  intros [p0 Hp0]. unfold updateStatus. set (desired := desiredStatus _ _ _ _).
  pose proof (RetryOnConflict_retries _ (writeStatus desired) (set_status desired p, world st)) as Hr.
  assert (Hbody : exists s, writeStatus desired (set_status desired p, world st) = (Ok tt, s)).
  { unfold writeStatus. rewrite (Get_stored KPipeline _ _ p0) by exact Hp0.
    set (q := set_status _ p0).
    assert (Hq : @key_of KPipeline q = @key_of KPipeline p).
    { pose proof (stored_key KPipeline _ _ _ Hp0). done. }
    destruct (UpdateStatus_total KPipeline q (world st)) as (q' & w' & ->); [by rewrite Hq|].
    by eexists. }
  destruct Hbody as [[p' w'] Hb].
  destruct (RetryOnConflict _ _ _) as [r [p1 w1]].
  apply (retries_Ok _ _ _ _ _ Hb) in Hr. injection Hr as -> -> ->. by eexists _, _.
Qed.

(** One step of [reconcileChildren], on an object no earlier step wrote. *)
Lemma child_step k p (st : St W) :
  (forall k key, k ≠ KPipeline -> own_objects (@key_of KPipeline p) k key ->
     adoptable (Meta_UID (P_Meta p)) k key (world st)) ->
  forall (obj : Object k) (s : St W) needed labels f,
  stored k (key_of obj) (world s) = stored k (key_of obj) (world st) ->
  k ≠ KPipeline -> own_objects (@key_of KPipeline p) k (key_of obj) ->
  Meta_OwnerReferences (obj_meta obj) = [] ->
  exists s', reconcileOrDelete k obj needed (mutateChild k p labels f) s = (Ok tt, s') /\
    forall k' key', k' ≠ k \/ key' ≠ key_of obj ->
      stored k' key' (world s') = stored k' key' (world s).
Proof.
  intros Had obj s needed labels f Hs Hk Hown Hno.
  destruct (optional_total k obj needed p labels f s) as [s' E]; [done| |].
  - intros o. rewrite Hs. by apply Had.
  - exists s'. split; [done|]. eapply step_keeps; [|exact E]. by apply footprint_reconcileOrDelete.
Qed.

Lemma reconcileChildren_total spec replicas hpa pf d1 d2 p (st : St W) :
  (forall k key, k ≠ KPipeline -> own_objects (@key_of KPipeline p) k key ->
     adoptable (Meta_UID (P_Meta p)) k key (world st)) ->
  exists st', reconcileChildren sma spec replicas hpa pf d1 d2 p st = (Ok tt, st') /\
    (sma = true -> monitor_state p spec (world st')).
Proof.
  intros Had. unfold reconcileChildren.
  destruct (secretHash_run p spec st) as [effs Eh].
  set (ns := Meta_Namespace (P_Meta p)). set (name := Meta_Name (P_Meta p)).
  set (s0 := mkSt (world st) effs).
  pose proof (fun k => child_step k p st Had) as Hstep.
  destruct (Hstep KConfigMap (mkConfigMap (bare_meta (ns, name +:+ "-pipelines")) ∅) s0 true
              (CommonLabels name) (fun _ => d1)) as (s1 & E1 & F1); [done..|by left|done|].
  destruct (Hstep KConfigMap (mkConfigMap (bare_meta (ns, name +:+ "-config")) ∅) s1 true
              (CommonLabels name) (fun _ => d2)) as (s2 & E2 & F2); [unwritten|done|by right|done|].
  edestruct (Hstep KDeployment (mkDeployment (bare_meta (ns, name)) zero_DeploymentSpec
    (mkDeploymentStatus 0 0)) s2 true) as (s3 & E3 & F3); [unwritten|done..|].
  edestruct (Hstep KService (mkService (bare_meta (ns, name)) zero_ServiceSpec) s3)
    as (s4 & E4 & F4); [unwritten|done|by left|done|].
  edestruct (Hstep KService (mkService (bare_meta (ns, name +:+ "-headless")) zero_ServiceSpec) s4)
    as (s5 & E5 & F5); [unwritten|done|by right|done|].
  destruct (scalingBounds (Spec_Scaling spec)) as [mn mx] eqn:Eb.
  edestruct (Hstep KHPA (mkHPA (bare_meta (ns, name)) (mkHPASpec "" "" 0 0 0)) s5)
    as (s6 & E6 & F6); [unwritten|done..|].
  edestruct (Hstep KPDB (mkPDB (bare_meta (ns, name)) (mkPDBSpec 0 ∅)) s6)
    as (s7 & E7 & F7); [unwritten|done..|].
  edestruct (Hstep KServiceMonitor
    (mkServiceMonitor (bare_meta (ns, name)) (mkServiceMonitorObjSpec ∅ [])) s7)
    as (s8 & E8 & _); [unwritten|done..|].
  exists (if sma then s8 else s7). split.
  - apply M_bind_Ok. eexists _, _. split; [exact Eh|]. fold s0.
    apply M_bind_Ok. eexists _, _. split; [apply wrap_Ok; exact E1|].
    apply M_bind_Ok. eexists _, _. split; [apply wrap_Ok; exact E2|].
    apply M_bind_Ok. eexists _, _. split; [apply wrap_Ok; exact E3|].
    apply M_bind_Ok. eexists _, _. split; [apply wrap_Ok; exact E4|].
    apply M_bind_Ok. eexists _, _. split; [apply wrap_Ok; exact E5|].
    apply M_bind_Ok. eexists _, _. split; [apply wrap_Ok; unfold reconcileHPA; rewrite Eb; exact E6|].
    apply M_bind_Ok. eexists _, _. split; [apply wrap_Ok; exact E7|].
    destruct sma; [|done]. simpl. apply M_bind_Ok. eexists _, _. split; [apply try_Ok; exact E8|done].
  - intros ->. eapply (optional_child KServiceMonitor _ (@key_of KPipeline p) (monitored spec) _ _ _
      (fun s => s = SMO_Spec (GenerateServiceMonitor p spec))) in E8 as [R _]; [exact R|done..].
Qed.

(** Every processor of the spec is a JSON object. *)
Definition object_processors (spec : DataPrepperPipelineSpec) : Prop :=
  forall p j, p ∈ Spec_Pipelines spec -> j ∈ PD_Processors p ->
    json_object (JSON_Raw j).

Lemma object_processors_merge d spec :
  object_processors spec -> object_processors (MergeSpec d spec).
Proof.
  intros Ho p j. destruct d as [d|]; [|apply Ho]. simpl. rewrite injectDefaults_fmap.
  intros (q & -> & Hq)%list_elem_of_fmap Hj.
  destruct (merged_definition_inject d q) as [_ _ _ (_ & _ & _ & _ & Hproc & _)].
  rewrite Hproc in Hj. by apply (Ho q).
Qed.

Lemma ExtractProcessorMaps_total spec :
  object_processors spec ->
  exists maps, ExtractProcessorMaps (Spec_Pipelines spec) = Ok maps.
Proof.
  intros Ho. unfold ExtractProcessorMaps. apply map_res_total. intros p Hp.
  apply map_res_total. intros j Hj. destruct (proj2 (unmarshal_map_total _) (Ho p j Hp Hj)) as [m Hm].
  exists m. apply wrap_err_Ok. unfold jsonToMap. by apply wrap_err_Ok.
Qed.

Lemma object_processors_decodable spec :
  object_processors spec -> Forall decodable (Spec_Pipelines spec).
Proof.
  intros Ho. apply Forall_forall. intros p Hp j Hj. apply json_object_json. by apply (Ho p j).
Qed.

(** The two documents that are generated from a spec can be marshalled. *)
Definition marshalled (spec : DataPrepperPipelineSpec) (ns name : string) : Prop :=
  (forall workers config, GeneratePipelineConfig (Spec_Pipelines spec) workers = Ok config ->
     exists y, Marshal config = Ok y) /\
  (forall pf config, GenerateDPConfig spec pf name ns = Ok config -> exists y, Marshal config = Ok y).

(** A plan exists for every well-formed spec whose JSON decodes. *)
Lemma plan_of_total spec p (w : W) :
  Forall wf_definition (Spec_Pipelines spec) -> object_processors spec ->
  (exists raw, raw_layer spec = Ok raw) ->
  marshalled spec (Meta_Namespace (P_Meta p)) (Meta_Name (P_Meta p)) ->
  exists pl, plan_of Marshal int32_of_inf factory spec p w = Ok pl.
Proof.
  intros Hwf Ho [raw Hraw] [Hmar1 Hmar2]. unfold plan_of.
  destruct (ExtractProcessorMaps_total spec Ho) as [maps ->]. simpl.
  destruct (match SP_err _ with Some _ => _ | None => _ end) as [replicas workers].
  unfold generateConfigs.
  destruct (proj2 (GeneratePipelineConfig_wf _ workers Hwf) (object_processors_decodable _ Ho))
    as [config Hcfg]. rewrite Hcfg. simpl. destruct (Hmar1 _ _ Hcfg) as [y ->]. simpl.
  destruct (GenerateDPConfig spec (NeedsForwarding maps && (1 <? replicas))
              (Meta_Name (P_Meta p)) (Meta_Namespace (P_Meta p))) as [dp|e] eqn:Ed; simpl.
  - destruct (Hmar2 _ _ Ed) as [y2 ->]. simpl. by eexists.
  - exfalso. assert (exists c, GenerateDPConfig spec (NeedsForwarding maps && (1 <? replicas))
      (Meta_Name (P_Meta p)) (Meta_Namespace (P_Meta p)) = Ok c) as [c Hc]; [|congruence].
    eexists. apply GenerateDPConfig_shape. by exists raw.
Qed.

Lemma records_total ns prev replicas p (st : St W) :
  exists s1 s2, recordScaling prev replicas p st = (Ok tt, s1) /\
    recordManaged ns s1 = (Ok tt, s2) /\ world s2 = world st.
Proof.
  assert (Hs : exists s1, recordScaling prev replicas p st = (Ok tt, s1) /\ world s1 = world st).
  { unfold recordScaling, when. case_match; by eexists. }
  destruct Hs as (s1 & E1 & Hw). destruct (List_total ns ∅ (world s1)) as [l Hl].
  exists s1, (mkSt (world s1) (effects s1 ++
    [GaugeSet ManagedPipelines [ns] (Z.of_nat (length l))])).
  split_and!; [done| |done]. unfold recordManaged, mbind, M_bind, try, reads. by rewrite Hl.
Qed.

(** When a plan exists, carrying it out succeeds. *)
Lemma reconcileValid_total req spec prev p (st : St W) pl :
  plan_of Marshal int32_of_inf factory spec p (world st) = Ok pl ->
  is_Some (stored KPipeline (@key_of KPipeline p) (world st)) ->
  (forall k key, k ≠ KPipeline -> own_objects (@key_of KPipeline p) k key ->
     adoptable (Meta_UID (P_Meta p)) k key (world st)) ->
  exists res st',
    reconcileValid Marshal int32_of_inf factory sma req spec prev p st
    = (Ok res, st') /\ (sma = true -> monitor_state p spec (world st')).
Proof.
  intros Hpl Hstored Had. unfold plan_of in Hpl.
  rewrite bind_Ok in Hpl. destruct Hpl as (maps & Emaps%wrap_err_Ok & Hpl).
  destruct (applyScaling_run int32_of_inf factory spec p st)
    as (replicas & tw & hpa & p1 & effs & E1 & Hm1 & Hs1 & _ & _ & Hhpa & Hplan).
  destruct (applyPeerForwarder_run (NeedsForwarding maps && (1 <? replicas)) p1
              (mkSt (world st) effs)) as (p2 & effs2 & E2 & Hm2 & Hs2 & _).
  set (plan := (calculateScaling int32_of_inf factory p spec (world st)).1) in *.
  assert (match SP_err plan with Some _ => (1, 0)
          | None => (SP_replicas plan, SP_topicWorkers plan) end = (replicas, tw)) as Hrt
    by (destruct (SP_err plan); destruct Hplan as [-> ->]; done).
  rewrite Hrt in Hpl. rewrite bind_Ok in Hpl. destruct Hpl as ([d1 d2] & Ecfg & _).
  assert (Hm : P_Meta p2 = P_Meta p) by congruence.
  assert (Hk : @key_of KPipeline p2 = @key_of KPipeline p) by (unfold key_of; simpl; by rewrite Hm).
  assert (Ecfg2 : generateConfigs Marshal spec tw
    (NeedsForwarding maps && (1 <? replicas)) p2 = Ok (d1, d2))
    by (unfold generateConfigs in *; by rewrite Hm).
  destruct (reconcileChildren_total spec replicas hpa (NeedsForwarding maps && (1 <? replicas))
              d1 d2 p2 (mkSt (world st) effs2)) as (s4 & E4 & Hmon); [by rewrite Hk, Hm|].
  destruct (records_total req.1 prev replicas p2 s4) as (s5 & s6 & E5 & E6 & Hw6).
  destruct (updateStatus_total p2 PipelinePhaseUnset (Msg "" []) s6) as (res & s7 & E7).
  { pose proof (footprint_reconcileChildren (fun k _ => k ≠ KPipeline) sma spec replicas
      hpa (NeedsForwarding maps && (1 <? replicas)) d1 d2 p2 ltac:(done)) as Hfp.
    rewrite Hk, Hw6, (footprint_stored _ _ _ _ _ KPipeline (@key_of KPipeline p) Hfp E4);
      [exact Hstored|by intros []]. }
  exists res, s7. split.
  2:{ intros Hsma. specialize (Hmon Hsma). unfold monitor_state, GenerateServiceMonitor in *.
      rewrite Hk, Hm in Hmon.
      pose proof (updateStatus_keeps _ _ _ _ _ _ E7 KServiceMonitor (@key_of KPipeline p)
        ltac:(by left)) as Hu. rewrite Hw6 in Hu.
      destruct (monitored spec); [by eapply realised_frame|by eapply absent_frame]. }
  unfold reconcileValid.
  apply M_bind_Ok. exists maps, st. split; [apply wrap_Ok; unfold lift; by rewrite Emaps|].
  apply M_bind_Ok. eexists _, _. split; [exact E1|].
  apply M_bind_Ok. eexists _, _. split; [exact E2|].
  apply M_bind_Ok. exists (d1, d2), (mkSt (world st) effs2).
  split; [unfold lift; by rewrite Ecfg2|].
  apply M_bind_Ok. exists tt, s4. split; [exact E4|].
  apply M_bind_Ok. exists tt, s5. split; [exact E5|].
  apply M_bind_Ok. exists tt, s6. split; [exact E6|exact E7].
Qed.

Lemma plan_of_spec spec p (w : W) pl :
  plan_of Marshal int32_of_inf factory spec p w = Ok pl -> plan_spec pl = spec.
Proof.
  unfold plan_of. rewrite bind_Ok. intros (maps & _ & Hpl).
  destruct (match SP_err _ with Some _ => _ | None => _ end) as [replicas workers].
  rewrite bind_Ok in Hpl. by destruct Hpl as (cfg & _ & [= <-]).
Qed.

Lemma defaults_in_stored ns (w : W) :
  defaults_in ns w = Defaults_Spec <$> stored KDefaults (ns, "default") w.
Proof.
  unfold defaults_in. destruct (stored KDefaults (ns, "default") w) as [d|] eqn:E.
  - by rewrite (Get_stored KDefaults _ _ _ E).
  - by destruct (Get_absent KDefaults _ _ E) as (e & -> & _).
Qed.

Lemma ensureFinalizer_total p (st : St W) :
  is_Some (stored KPipeline (@key_of KPipeline p) (world st)) ->
  exists p1 st1, ensureFinalizer p st = (Ok p1, st1).
Proof.
  intros Hp. unfold ensureFinalizer. destruct (ContainsFinalizer _ _); [by eexists _, _|].
  set (q := set_meta _ p).
  destruct (Update_total KPipeline q (world st)) as (q' & w' & Hu); [exact Hp|].
  exists q', (mkSt w' (effects st)). by apply wrap_Ok, writes_Ok.
Qed.

(** *** The plan depends on what is stored *)

(** Reading the same objects gives the same credentials, or fails in both cases. *)
Lemma Get_same k key (w w' : W) :
  stored k key w' = stored k key w ->
  Get k key w' = Get k key w \/ (exists e e', Get k key w = Err e /\ Get k key w' = Err e').
Proof.
  intros E. destruct (stored k key w) as [o|] eqn:Ho.
  - left. by rewrite (Get_stored _ _ _ _ E), (Get_stored _ _ _ _ Ho).
  - right. destruct (Get_absent _ _ _ Ho) as (e & -> & _), (Get_absent _ _ _ E) as (e' & -> & _). eauto.
Qed.

Lemma secret_bytes_same ns refs (w w' : W) :
  (forall key, stored KSecret key w' = stored KSecret key w) ->
  secret_bytes ns refs w' = secret_bytes ns refs w.
Proof.
  intros Hs. induction refs as [|ref refs IH]; simpl; [done|]. rewrite IH. f_equal.
  by destruct (Get_same KSecret (ns, ref) w w' (Hs _)) as [->|(e & e' & -> & ->)].
Qed.

(** What a plan takes from the scaling decision. *)
Definition scaling_used (plan : ScalingPlan) : Z * Z * bool :=
  (match SP_err plan with
   | Some _ => (1, 0)
   | None => (SP_replicas plan, SP_topicWorkers plan)
   end, SP_useHPA plan).

Lemma scaling_used_same spec p (w w' : W) :
  (forall key, stored KSecret key w' = stored KSecret key w) ->
  scaling_used (calculateScaling int32_of_inf factory p spec w').1
  = scaling_used (calculateScaling int32_of_inf factory p spec w).1.
Proof.
  intros Hs. unfold calculateScaling. destruct (manual _); [done|]. destruct (scalingBounds _) as [mn mx].
  destruct (first_kafka _) as [ks|]; [|by destruct (has_s3 _)].
  unfold calculateKafkaScaling, kafkaConfigFromSecret. destruct factory as [f|]; [|done].
  destruct (KSrc_CredentialsSecretRef ks) as [ref|]; [|done].
  by destruct (Get_same KSecret (Meta_Namespace (P_Meta p), Secret_Name ref) w w' (Hs _))
    as [->|(e & e' & -> & ->)].
Qed.

Lemma plan_of_stored spec p (w w' : W) :
  (forall key, stored KSecret key w' = stored KSecret key w) ->
  plan_of Marshal int32_of_inf factory spec p w' = plan_of Marshal int32_of_inf factory spec p w.
Proof.
  intros Hs. unfold plan_of. pose proof (scaling_used_same spec p w w' Hs) as Hu.
  assert (Hsec : secret_hash (Meta_Namespace (P_Meta p)) spec w'
                 = secret_hash (Meta_Namespace (P_Meta p)) spec w).
  { unfold secret_hash. destruct (referencedSecrets spec); [done|]. by rewrite (secret_bytes_same _ _ w w' Hs). }
  rewrite Hsec. unfold scaling_used in Hu.
  destruct (calculateScaling int32_of_inf factory p spec w').1 as [r1 t1 h1 e1],
    (calculateScaling int32_of_inf factory p spec w).1 as [r2 t2 h2 e2]. simpl in Hu |- *.
  by destruct e1, e2; simplify_eq.
Qed.

End progress.

(** ** Scaling decisions *)

Section scaling.
Context {W : Type} `{Client W}.
Context (int32_of_inf : Z) (factory : Kafka.ClientFactory).

(** The replicas and workers a reconcile uses: the plan, or the fallback. *)
Definition used_scaling (plan : ScalingPlan) : Z * Z :=
  match SP_err plan with
  | Some _ => (1, 0)
  | None => (SP_replicas plan, SP_topicWorkers plan)
  end.

(** The partition count of the topic of a Kafka source, as the operator asks
    for it. *)
Definition partitions_of (ns : string) (ks : KafkaSourceSpec) (w : W) : result Z :=
  cfg ← kafkaConfigFromSecret ns (KSrc_BootstrapServers ks) (KSrc_CredentialsSecretRef ks) w;
  client ← wrap_err "create kafka admin client: %w" [] (factory cfg);
  wrap_err "get partition count: %w" [] (Kafka.GetPartitionCount client (KSrc_Topic ks)).

Lemma calculateKafkaScaling_eq pipeline ks mn mx w :
  calculateKafkaScaling int32_of_inf (Some factory) pipeline ks mn mx w =
  match partitions_of (Meta_Namespace (P_Meta pipeline)) ks w with
  | Err e => (mkScalingPlan mn 0 false (Some e), pipeline)
  | Ok n =>
    match CalculateKafka int32_of_inf n mx mn with
    | Err e => (mkScalingPlan mn 0 false (Some e), pipeline)
    | Ok r => (mkScalingPlan (Replicas r) (TopicWorkers r) false None,
               set_kafka (Some (mkKafkaStatus n (TopicWorkers r)
                                  (int32 (Replicas r * TopicWorkers r)))) pipeline)
    end
  end.
Proof.
  unfold calculateKafkaScaling, partitions_of.
  destruct (kafkaConfigFromSecret _ _ _ _) as [cfg|e]; [|done]. simpl.
  destruct (factory cfg) as [client|e]; [|done]. simpl.
  by destruct (Kafka.GetPartitionCount client (KSrc_Topic ks)).
Qed.

End scaling.

(** ** Concrete clusters *)

Module Examples.

Definition encode (_ : gmap string any) : result string := Ok "yaml".
Definition req : Key := ("prod", "logs").

Definition run : Key -> M Mem.World ctrl_Result :=
  Reconcile encode 0 None true.

Definition start (p : DataPrepperPipeline) : St Mem.World :=
  mkSt (Mem.put KPipeline (@key_of KPipeline p) (Some p) Mem.empty) [].

Lemma stored_start p : stored KPipeline (@key_of KPipeline p) (world (start p)) = Some p.
Proof. apply (Mem.lookup_put_eq KPipeline). by intros ? [= <-]. Qed.

(** A run that returns [Ok], with its final state. *)
Lemma run_eq key st res : fst (run key st) = Ok res -> run key st = (Ok res, snd (run key st)).
Proof. destruct (run key st). by intros [= ->]. Qed.

Definition with_meta (m : ObjectMeta) (p : DataPrepperPipeline) : DataPrepperPipeline :=
  mkDataPrepperPipeline m (P_Spec p) (P_Status p).

(** The example pipeline with a sink that refers to a pipeline that is missing. *)
Definition broken_pipeline : DataPrepperPipeline :=
  mkDataPrepperPipeline (P_Meta example_pipeline)
    (mkDataPrepperPipelineSpec "data-prepper:2" ""
       [mkPipelineDefinition "entry" 0 0 (of_SourceView (VHTTP (mkHTTPSourceSpec 2021 "/log")))
          None [] [] [of_SinkView (VPipelineSink (mkPipelineConnectorSinkSpec "nowhere"))]]
       None None None None ∅ ∅ ∅ [] None None None "")
    zero_PipelineStatus.

(** The example pipeline under deletion. *)
Definition deleted_pipeline : DataPrepperPipeline :=
  mkDataPrepperPipeline
    (mkObjectMeta "logs" "prod" "uid-1" 1 (Some 1700000000) None None
       ["example.com/hold"; pipelineFinalizerName] [])
    (P_Spec example_pipeline) zero_PipelineStatus.

Lemma Reconcile_touches_only_its_own_witness :
  ~ written_objects true req KService ("prod", "other") /\
  stored KService ("prod", "other") (world (snd (run req (start example_pipeline)))) =
  stored KService ("prod", "other") (world (start example_pipeline)).
Proof.
  assert (~ written_objects true req KService ("prod", "other")) as Hn.
  { intros [[E|E] _]; discriminate E. }
  split; [exact Hn|].
  exact (Reconcile_touches_only_its_own encode 0 None true req (start example_pipeline)
           KService ("prod", "other") Hn).
Defined.


Lemma Reconcile_reports_invalid_graph_witness :
  exists p', stored KPipeline req (world (snd (run req (start broken_pipeline)))) = Some p' /\
    PStatus_Phase (P_Status p') = PipelinePhaseError.
Proof.
  assert (Hrun : fst (run req (start broken_pipeline)) = Ok no_requeue)
    by (vm_compute; reflexivity).
  destruct (Reconcile_reports_invalid_graph encode 0 None true req broken_pipeline
              (start broken_pipeline)) as [_ H].
  - apply stored_start.
  - reflexivity.
  - rewrite <-ValidateGraph_Ok. vm_compute. discriminate.
  - destruct (H no_requeue Hrun) as (p1 & p' & e & _ & Hp' & _ & Hrep & _).
    exists p'. split; [exact Hp'|exact (ri_phase _ _ Hrep)].
Defined.

Lemma Reconcile_releases_deleted_witness :
  exists p', stored KPipeline req (world (snd (run req (start deleted_pipeline)))) = Some p' /\
    pipelineFinalizerName ∉ Meta_Finalizers (P_Meta p') /\
    "example.com/hold" ∈ Meta_Finalizers (P_Meta p').
Proof.
  assert (Hrun : fst (run req (start deleted_pipeline)) = Ok no_requeue)
    by (vm_compute; reflexivity).
  destruct (Reconcile_releases_deleted encode 0 None true req deleted_pipeline
              (start deleted_pipeline) no_requeue (snd (run req (start deleted_pipeline))))
    as (_ & _ & Hfin).
  - apply stored_start.
  - eexists. reflexivity.
  - apply run_eq. exact Hrun.
  - assert (Hst : is_Some (stored KPipeline req (world (snd (run req (start deleted_pipeline))))))
      by (vm_compute; eexists; reflexivity).
    destruct Hst as [p' Hp']. exists p'. specialize (Hfin p' Hp'). split; [exact Hp'|]. split.
    + rewrite Hfin. intros [Hne _]. apply Hne. reflexivity.
    + apply Hfin. split; [discriminate|]. left.
Defined.


(** Names are not checked against owners when an object is not needed: reconciling
    the pipeline ["logs"], which needs no peer forwarder, deletes the Service of
    another pipeline called ["logs-headless"]. *)
Definition neighbour_service : Service :=
  mkService (mkObjectMeta "logs-headless" "prod" "uid-9" 1 None None None []
               [mkOwnerReference "uid-2" "logs-headless"])
    (mkServiceSpec "ClusterIP" "10.0.0.1" ∅ []).

Example reconcile_deletes_neighbour_service :
  let w := Mem.put KService ("prod", "logs-headless") (Some neighbour_service)
             (world (start example_pipeline)) in
  stored KService ("prod", "logs-headless") w = Some neighbour_service /\
  stored KService ("prod", "logs-headless") (world (snd (run req (mkSt w [])))) = None.
Proof. vm_compute. split; reflexivity. Qed.

(** A topic with twelve partitions, scaled to at most five replicas. *)
Definition kafka_factory : Kafka.ClientFactory := fun _ =>
  Ok (Kafka.mkAdminClient (Ok ∅) (fun _ => Ok 12)).
Definition kafka_source : KafkaSourceSpec := mkKafkaSourceSpec ["broker:9092"] "logs" "g" None ∅ "".
Definition kafka_spec : DataPrepperPipelineSpec :=
  mkDataPrepperPipelineSpec "data-prepper:2" ""
    [mkPipelineDefinition "in" 0 0 (of_SourceView (VKafka kafka_source)) None [] []
       [of_SinkView (VStdout mkStdoutSinkSpec)]]
    (Some (mkScalingSpec ScalingModeAuto (Some 5) None None))
    None None None ∅ ∅ ∅ [] None None None "".


End Examples.
