(* ===== verification/DefaultsController.v ===== *)
(** * The defaults reconciler: [internal/controller/dataprepperdefaults_controller.go]

    When the namespace defaults change, every pipeline of the namespace gets the
    generation of the defaults as an annotation, which triggers its
    reconciliation. *)

From S2P Require Import Prelude Go Api Resources Clients Cluster Metrics Reconciler PipelineController.
#[local] Open Scope Z_scope.

Definition defaultsRevisionKey : string := "dataprepper.kaasops.io/defaults-revision".

Section controller.
Context {W : Type} `{Client W}.

(** The body of the retry loop; the closure's variable [p] is part of the
    state. *)
Definition touch (revision : string) (s : DataPrepperPipeline * W)
    : result unit * (DataPrepperPipeline * W) :=
  let '(p, w) := s in
  match Get KPipeline (@key_of KPipeline p) w with
  | Err e => (Err e, (p, w))
  | Ok p =>
    let annotations := default ∅ (Meta_Annotations (P_Meta p)) in
    let p := set_meta (set_annotations (Some (<[defaultsRevisionKey := revision]> annotations))
                         (P_Meta p)) p in
    match Update KPipeline p w with
    | (Ok p, w) => (Ok tt, (p, w))
    | (Err e, w) => (Err e, (p, w))
    end
  end.

(** [p.Annotations != nil && p.Annotations[...] == revision]. *)
Definition touched_already (revision : string) (p : DataPrepperPipeline) : bool :=
  match Meta_Annotations (P_Meta p) with
  | Some a => bool_decide (map_get a defaultsRevisionKey = revision)
  | None => false
  end.

(** The loop over the pipelines; returns the number of touched ones. *)
Fixpoint touchAll (revision : string) (items : list DataPrepperPipeline) (touched : Z) : M W Z :=
  match items with
  | [] => mret touched
  | p :: items =>
    if touched_already revision p then touchAll revision items touched
    else fun st =>
      match RetryOnConflict _ (touch revision) (p, world st) with
      | (Err e, (p, w)) =>
        (Err (Msg "update pipeline %q annotation: %w" [AStr (Meta_Name (P_Meta p)); AErr e]),
         mkSt w (effects st))
      | (Ok _, (_, w)) => touchAll revision items (touched + 1) (mkSt w (effects st))
      end
  end.

Definition DefaultsReconcile (req : Key) : M W ctrl_Result :=
  counted "defaults"
    (r ← try (reads (Get KDefaults req));
     match r with
     | Err e => IgnoreNotFound no_requeue e
     | Ok dpDefaults =>
       items ← wrap "list pipelines: %w" [] (reads (ListPipelines req.1 ∅));
       let revision := Itoa (Meta_Generation (Defaults_Meta dpDefaults)) in
       touched ← touchAll revision items 0;
       when (0 <? touched)
         (emit (Event (@key_of KDefaults dpDefaults) "Normal" "DefaultsPropagated"
                  (Msg "Triggered re-reconciliation of %d pipelines" [AInt touched]))) ;;
       mret no_requeue
     end).
End controller.

(** * Properties *)

Section properties.
Context {W : Type} `{ClientLaws W}.

(** The pipeline under a key carries the revision, if it is still there. *)
Definition carries (revision : string) (key : Key) (w : W) : Prop :=
  forall p, stored KPipeline key w = Some p ->
    default ∅ (Meta_Annotations (P_Meta p)) !! defaultsRevisionKey = Some revision.

(** Two versions of a pipeline that differ in the operator's annotation at most
    (and in the generation, which belongs to the server). *)
Record same_but_annotation (p p' : DataPrepperPipeline) : Prop := {
  sba_spec : P_Spec p' = P_Spec p;
  sba_status : P_Status p' = P_Status p;
  sba_key : @key_of KPipeline p' = @key_of KPipeline p;
  sba_uid : Meta_UID (P_Meta p') = Meta_UID (P_Meta p);
  sba_deletion : Meta_DeletionTimestamp (P_Meta p') = Meta_DeletionTimestamp (P_Meta p);
  sba_labels : Meta_Labels (P_Meta p') = Meta_Labels (P_Meta p);
  sba_finalizers : Meta_Finalizers (P_Meta p') = Meta_Finalizers (P_Meta p);
  sba_owners : Meta_OwnerReferences (P_Meta p') = Meta_OwnerReferences (P_Meta p);
  sba_annotations k : k ≠ defaultsRevisionKey ->
    default ∅ (Meta_Annotations (P_Meta p')) !! k = default ∅ (Meta_Annotations (P_Meta p)) !! k }.

(** What may happen to the pipeline under a key: its annotation changes, nothing
    else about it.  None appears, and none disappears but an object under
    deletion without finalizers, which the server drops at any update. *)
Definition only_annotated (key : Key) (w w' : W) : Prop :=
  match stored KPipeline key w, stored KPipeline key w' with
  | Some p, Some p' => same_but_annotation p p'
  | Some p, None => gone (P_Meta p) = true
  | None, Some _ => False
  | None, None => True
  end.

#[local] Instance same_but_annotation_preorder : PreOrder same_but_annotation.
Proof.
  split; [by constructor|]. intros p1 p2 p3 H1 H2.
  constructor; try solve [etransitivity; [apply H2|apply H1]].
  intros k Hk. by rewrite (sba_annotations _ _ H2 k Hk), (sba_annotations _ _ H1 k Hk).
Qed.

Lemma gone_same p p' : same_but_annotation p p' -> gone (P_Meta p') = gone (P_Meta p).
Proof. intros H'. unfold gone. by rewrite (sba_deletion _ _ H'), (sba_finalizers _ _ H'). Qed.

Lemma only_annotated_same key w w' :
  stored KPipeline key w' = stored KPipeline key w -> only_annotated key w w'.
Proof. unfold only_annotated. intros ->. by destruct (stored KPipeline key w). Qed.

Lemma only_annotated_refl key w : only_annotated key w w.
Proof. by apply only_annotated_same. Qed.

Lemma only_annotated_trans key w1 w2 w3 :
  only_annotated key w1 w2 -> only_annotated key w2 w3 -> only_annotated key w1 w3.
Proof.
  unfold only_annotated.
  destruct (stored KPipeline key w1) as [p1|], (stored KPipeline key w2) as [p2|],
    (stored KPipeline key w3) as [p3|]; try done.
  - apply (transitivity (R := same_but_annotation)).
  - intros H12 Hg. by rewrite <-(gone_same _ _ H12).
Qed.

(** The pipelines stored afterwards were there before. *)
Lemma only_annotated_stored key w w' p' :
  only_annotated key w w' -> stored KPipeline key w' = Some p' ->
  exists p, stored KPipeline key w = Some p /\ same_but_annotation p p'.
Proof.
  unfold only_annotated. destruct (stored KPipeline key w) as [p|]; intros Ha Hp'; rewrite Hp' in Ha;
    [by exists p|done].
Qed.

(** An update that sends a pipeline back with another annotation. *)
Lemma annotated_update p q o' old w w' v :
  stored KPipeline (@key_of KPipeline p) w = Some p ->
  q = set_meta (set_annotations (Some (<[defaultsRevisionKey := v]>
        (default ∅ (Meta_Annotations (P_Meta p))))) (P_Meta p)) p ->
  @persisted KPipeline q o' -> stored KPipeline (@key_of KPipeline q) w = Some old ->
  Meta_UID (P_Meta o') = Meta_UID (P_Meta old) ->
  Meta_DeletionTimestamp (P_Meta o') = Meta_DeletionTimestamp (P_Meta old) ->
  P_Status o' = P_Status old ->
  stored KPipeline (@key_of KPipeline p) w' = (if gone (P_Meta o') then None else Some o') ->
  only_annotated (@key_of KPipeline p) w w'.
Proof.
  intros Hp -> [Hm Hc] Hold HU HD HS Hst. change (stored KPipeline (@key_of KPipeline p) w = Some old) in Hold.
  rewrite Hp in Hold. injection Hold as <-.
  assert (Hsba : same_but_annotation p o').
  { injection Hm as Hn Hns Hl Ha Hf Ho. simpl in Hc. constructor; try done.
    - unfold key_of. simpl. by rewrite Hn, Hns.
    - intros k Hk. rewrite Ha. simpl. by apply lookup_insert_ne. }
  unfold only_annotated. rewrite Hp, Hst, (gone_same _ _ Hsba).
  destruct (gone (P_Meta p)); done.
Qed.

Lemma touch_step revision p w r p' w' :
  touch revision (p, w) = (r, (p', w')) ->
  @key_of KPipeline p' = @key_of KPipeline p /\
  untouched KPipeline (@key_of KPipeline p) w w' /\
  (r = Ok tt -> carries revision (@key_of KPipeline p) w' /\
                only_annotated (@key_of KPipeline p) w w') /\
  (forall e, r = Err e -> IsConflict e = true ->
     stored KPipeline (@key_of KPipeline p) w' = stored KPipeline (@key_of KPipeline p) w).
Proof.
  unfold touch. destruct (Get KPipeline (@key_of KPipeline p) w) as [p1|e] eqn:E.
  2: { intros [= <- <- <-]. split_and!; [done|by intros k key|done|done]. }
  apply (Get_Ok KPipeline) in E. pose proof (stored_key KPipeline _ _ _ E) as Hk.
  set (q := set_meta _ p1). assert (Hkq : @key_of KPipeline q = @key_of KPipeline p) by exact Hk.
  pose proof (Update_frame KPipeline q w) as Hf. rewrite Hkq in Hf.
  destruct (Update KPipeline q w) as [[p2|e] w2] eqn:Eu; intros [= <- <- <-]; simpl in Hf.
  - pose proof Eu as (Hpers & Hst & old & Hold & HU & HD & HS)%(Update_Ok KPipeline).
    pose proof Hpers as [Hm Hc]. rewrite Hkq in Hst.
    pose proof (f_equal Meta_Annotations Hm) as Ha. simpl in Ha, Hc.
    split_and!; [|done| |done].
    + pose proof (f_equal Meta_Name Hm). pose proof (f_equal Meta_Namespace Hm).
      rewrite <-Hkq. unfold key_of. simpl in *. congruence.
    + intros _. split.
      * intros p3. rewrite Hst. destruct (gone _); [done|]. intros [= <-].
        rewrite Ha. simpl. apply lookup_insert_eq.
      * rewrite <-Hk. rewrite <-Hk in Hst, E.
        by apply (annotated_update p1 q p2 old w w2 revision).
  - split_and!; [done|done|done|]. intros e' [= <-] Hconf.
    rewrite <-Hkq. by eapply (Update_Conflict KPipeline).
Qed.

(** The retry loop around [touch]. *)
Lemma retry_touch revision p w r p' w' :
  retries IsConflict (touch revision) (p, w) (r, (p', w')) ->
  untouched KPipeline (@key_of KPipeline p) w w' /\
  (r = Ok tt -> carries revision (@key_of KPipeline p) w' /\
                only_annotated (@key_of KPipeline p) w w').
Proof.
  remember (p, w) as s eqn:Es. remember (r, (p', w')) as res eqn:Er.
  intros Hr. revert p w r p' w' Es Er.
  induction Hr as [s|s s' e res Hb Hc _ IH]; intros p w r p' w' -> Er.
  - apply touch_step in Er as (_ & Hf & Hok & _). done.
  - destruct s' as [p1 w1]. apply touch_step in Hb as (Hk & Hf & _ & Hconf).
    destruct (IH p1 w1 r p' w' eq_refl Er) as [Hf' Hok']. rewrite Hk in Hf', Hok'. split.
    + intros k key Hne. by rewrite Hf', Hf.
    + intros Hr. destruct (Hok' Hr) as [Hcar Hann]. split; [done|].
      eapply only_annotated_trans; [|exact Hann]. apply only_annotated_same. by eapply Hconf.
Qed.

Lemma carries_same revision key w w' :
  stored KPipeline key w' = stored KPipeline key w -> carries revision key w -> carries revision key w'.
Proof. intros E Hc p. rewrite E. apply Hc. Qed.

Lemma touched_already_true revision p :
  revision ≠ "" -> touched_already revision p = true ->
  default ∅ (Meta_Annotations (P_Meta p)) !! defaultsRevisionKey = Some revision.
Proof.
  intros Hne. unfold touched_already. destruct (Meta_Annotations (P_Meta p)) as [a|]; [|done].
  case_bool_decide as Hr; [|done]. intros _. simpl. unfold map_get in Hr.
  destruct (a !! defaultsRevisionKey); simpl in Hr; congruence.
Qed.

Lemma touchAll_Ok revision items n (st : St W) m st' :
  revision ≠ "" ->
  NoDup ((fun p => @key_of KPipeline p) <$> items) ->
  (forall p, p ∈ items -> stored KPipeline (@key_of KPipeline p) (world st) = Some p) ->
  touchAll revision items n st = (Ok m, st') ->
  (forall p, p ∈ items -> carries revision (@key_of KPipeline p) (world st')) /\
  (forall key, only_annotated key (world st) (world st')) /\
  (forall k key, k ≠ KPipeline \/ key ∉ ((fun p => @key_of KPipeline p) <$> items) ->
     stored k key (world st') = stored k key (world st)).
Proof.
  intros Hne. revert n st. induction items as [|p items IH]; intros n st Hnd Hin E; simpl in E.
  { injection E as <- <-. split_and!; [by intros p ?%elem_of_nil|intros; apply only_annotated_refl|done]. }
  simpl in Hnd. apply NoDup_cons in Hnd as [Hnotin Hnd].
  destruct (touched_already revision p) eqn:Et.
  - destruct (IH n st Hnd) as (H1 & H2 & H3); [by intros; apply Hin; right|done|].
    split; [|split; [done|]].
    + intros q [->|Hq]%elem_of_cons; [|by apply H1].
      apply (carries_same _ _ (world st)); [apply H3; by right|].
      intros p' Hp'. rewrite (Hin p) in Hp' by left. injection Hp' as <-.
      by apply touched_already_true.
    + intros k key Hk. apply H3. simpl in Hk. set_solver.
  - pose proof (RetryOnConflict_retries _ (touch revision) (p, world st)) as Hr.
    destruct (RetryOnConflict _ _ _) as [[[]|e] [p' w']]; [|done].
    apply retry_touch in Hr as [Hf Hok]. destruct (Hok eq_refl) as [Hc Ha].
    apply IH in E as (H1 & H2 & H3); [|done|].
    + simpl in *. split; [|split].
      * intros q [->|Hq]%elem_of_cons; [|by apply H1].
        apply (carries_same _ _ w'); [apply H3; by right|done].
      * intros key. eapply only_annotated_trans; [|apply H2].
        destruct (decide (key = @key_of KPipeline p)) as [->|Hk]; [done|].
        apply only_annotated_same, Hf. by right.
      * intros k key Hk. rewrite H3, Hf; [done| |]; set_solver.
    + intros q Hq. simpl. rewrite Hf; [by apply Hin; right|]. right. intros Heq. apply Hnotin.
      rewrite <-Heq. by apply (list_elem_of_fmap_2 (fun p => @key_of KPipeline p)).
Qed.

(** C11: when a reconcile of the namespace defaults returns without error, every
    pipeline of the namespace carries the generation of the defaults in its
    annotation (so that it is reconciled against them). Nothing else about any
    pipeline changes: not its spec, status, identity, labels, finalizers, owner
    references or other annotations; no pipeline appears or disappears (but one
    under deletion without finalizers, which the server drops at any update), and
    no other object and nothing outside the namespace changes. *)
Theorem defaults_propagate req d (st : St W) res st' :
  stored KDefaults req (world st) = Some d ->
  DefaultsReconcile req st = (Ok res, st') ->
  (forall name, carries (Itoa (Meta_Generation (Defaults_Meta d))) (req.1, name) (world st')) /\
  (forall key, only_annotated key (world st) (world st')) /\
  (forall k key, k ≠ KPipeline \/ key.1 ≠ req.1 ->
     stored k key (world st') = stored k key (world st)).
Proof.
  intros Hd (st1 & E & Hw)%counted_Ok. rewrite <-Hw.
  apply M_bind_Ok in E as (r & s0 & E0 & E). injection E0 as <- <-.
  destruct (Get KDefaults req (world st)) as [d'|e] eqn:Eg.
  2: { unfold IgnoreNotFound in E. destruct (IsNotFound e) eqn:En; [|done].
       rewrite (Get_NotFound KDefaults _ _ _ Eg En) in Hd. done. }
  apply (Get_Ok KDefaults) in Eg. rewrite Hd in Eg. injection Eg as <-.
  apply M_bind_Ok in E as (items & s1 & E1%wrap_Ok & E). injection E1 as El <-.
  apply M_bind_Ok in E as (touched & s2 & E2 & E).
  apply M_bind_Ok in E as ([] & s3 & E3 & E). injection E as _ <-.
  assert (world s3 = world s2) as -> by (unfold when in E3; destruct (0 <? touched); by injection E3 as <-).
  pose proof El as [_ Hin]%List_Ok.
  apply touchAll_Ok in E2 as (H1 & H2 & H3).
  - split_and!; [|done|].
    + intros name p' Hp'. destruct (only_annotated_stored _ _ _ p' (H2 (req.1, name)) Hp') as (p & Hp & _).
      assert (Hpi : p ∈ items).
      { apply Hin. pose proof (stored_key KPipeline _ _ _ Hp) as Hk. injection Hk as _ Hn.
        rewrite Hn. split; [done|]. apply map_empty_subseteq. }
      specialize (H1 p Hpi). rewrite (stored_key KPipeline _ _ _ Hp) in H1. by apply H1.
    + intros k key Hk. apply H3. destruct Hk as [?|Hne]; [by left|right].
      intros (p & -> & Hp)%list_elem_of_fmap. apply Hne. by erewrite key_of_listed.
  - apply Itoa_nonempty.
  - by eapply listed_NoDup.
  - intros p Hp. rewrite (key_of_listed _ _ _ _ _ El Hp). by apply Hin.
Qed.

(** C38: propagation settles: when every pipeline of the namespace carries the
    generation of the stored defaults, reconciling the defaults writes nothing
    and emits no event. *)
Theorem defaults_settle `{!ReliableClient W} req d (st : St W) :
  stored KDefaults req (world st) = Some d ->
  (forall name, carries (Itoa (Meta_Generation (Defaults_Meta d))) (req.1, name) (world st)) ->
  DefaultsReconcile req st =
    (Ok no_requeue,
     mkSt (world st) (effects st ++ [HistogramObserve ReconcileDuration ["defaults"]; CounterInc ReconcileTotal ["defaults"; "success"]])).
Proof.
  intros Hd Hc. destruct (List_total req.1 ∅ (world st)) as [items El].
  assert (Ht : forall revision l n s, (forall p, p ∈ l -> touched_already revision p = true) ->
    touchAll revision l n s = (Ok n, s)).
  { intros revision l n s. induction l as [|p l IH]; intros Hl; simpl; [done|].
    rewrite Hl by left. apply IH. intros q Hq. apply Hl. by right. }
  unfold DefaultsReconcile, counted, mbind, M_bind, try, reads, wrap.
  rewrite (Get_stored KDefaults _ _ _ Hd), El. simpl.
  rewrite Ht; [done|]. intros p Hp.
  pose proof El as [_ Hin]%List_Ok. apply Hin in Hp as [Hp _].
  specialize (Hc _ p Hp). unfold touched_already.
  destruct (Meta_Annotations (P_Meta p)) as [a|]; simpl in Hc; [|by rewrite lookup_empty in Hc].
  apply bool_decide_eq_true. unfold map_get. by rewrite Hc.
Qed.
End properties.

(** ** Concrete clusters *)

Module DefaultsExamples.

Definition defaults (image : string) : DataPrepperDefaults :=
  mkDataPrepperDefaults (mkObjectMeta "default" "prod" "uid-d" 1 None None None [] [])
    (mkDataPrepperDefaultsSpec image None None None None None).
Definition pipeline : DataPrepperPipeline :=
  mkDataPrepperPipeline (mkObjectMeta "logs" "prod" "uid-1" 1 None None None [] [])
    zero_PipelineSpec zero_PipelineStatus.
Definition key : Key := ("prod", "default").

(** A namespace with one pipeline and the given defaults. *)
Definition cluster (image : string) : Mem.World :=
  Mem.put KDefaults key (Some (defaults image))
    (Mem.put KPipeline ("prod", "logs") (Some pipeline) Mem.empty).

Definition after (w : Mem.World) : Mem.World := world (snd (DefaultsReconcile key (mkSt w []))).

Lemma defaults_propagate_witness :
  carries "1" ("prod", "logs") (after (cluster "dp:1")).
Proof.
  assert (Hrun : fst (DefaultsReconcile key (mkSt (cluster "dp:1") [])) = Ok no_requeue)
    by (vm_compute; reflexivity).
  destruct (defaults_propagate key (defaults "dp:1") (mkSt (cluster "dp:1") []) no_requeue
              (snd (DefaultsReconcile key (mkSt (cluster "dp:1") [])))) as [H _].
  - vm_compute. reflexivity.
  - destruct (DefaultsReconcile key (mkSt (cluster "dp:1") [])). simpl in *. rewrite Hrun. reflexivity.
  - exact (H "logs").
Defined.

(** The same namespace with the pipeline annotated. *)
Definition settled : Mem.World :=
  Mem.put KPipeline ("prod", "logs")
    (Some (set_meta (set_annotations (Some {[defaultsRevisionKey := "1"]}) (P_Meta pipeline)) pipeline))
    (Mem.put KDefaults key (Some (defaults "dp:1")) Mem.empty).

Lemma defaults_settle_witness :
  snd (DefaultsReconcile key (mkSt settled [])) =
  mkSt settled [HistogramObserve ReconcileDuration ["defaults"]; CounterInc ReconcileTotal ["defaults"; "success"]].
Proof.
  rewrite (defaults_settle key (defaults "dp:1") (mkSt settled [])).
  - reflexivity.
  - vm_compute. reflexivity.
  - intros name p Hp. destruct (decide (name = "logs")) as [->|Hne].
    + vm_compute in Hp. injection Hp as <-. vm_compute. reflexivity.
    + exfalso. unfold settled in Hp. simpl in Hp.
      rewrite (Mem.lookup_put_ne KPipeline) in Hp by (right; congruence).
      rewrite (Mem.lookup_put_ne KDefaults) in Hp by (left; discriminate). discriminate Hp.
Defined.

(** The generation is the revision: defaults that are deleted and created again
    with another content start at generation 1 again, and are not propagated to
    the pipelines that saw the first ones. *)
Example recreated_defaults_not_propagated :
  let w1 := after (cluster "dp:1") in
  let w2 := Mem.put KDefaults key (Some (defaults "dp:2")) w1 in
  snd (DefaultsReconcile key (mkSt w2 [])) =
  mkSt w2 [HistogramObserve ReconcileDuration ["defaults"]; CounterInc ReconcileTotal ["defaults"; "success"]].
Proof. reflexivity. Qed.

End DefaultsExamples.
