(* ===== verification/DiscoveryController.v ===== *)
(** * The discovery reconciler: [internal/controller/datapreppersourcediscovery_controller.go]

    [DiscoveryReconcile] discovers sources, renders one pipeline spec per source
    from the template of the [DataPrepperSourceDiscovery] (with
    [internal/template/renderer.go]), creates the missing child pipelines at a
    bounded rate, rolls changed specs out in batches while the updated pipelines
    stay healthy, and deletes or releases the children whose source is gone. *)

From S2P Require Import Prelude Go Duration Json Sha256 Glob Api Resources Clients Discovery Cluster Metrics Reconciler.
From S2P Require Import PipelineController.
From Stdlib Require Import Ascii.
#[local] Open Scope Z_scope.

Definition defaultMaxCreationsPerCycle : Z := 10.
Definition defaultPollInterval : Z := 30 * Second.
Definition stagedRolloutRequeue : Z := 30 * Second.
Definition maxDiscoveryBackoff : Z := 5 * Minute.
Definition discoveryLabelKey : string := "dataprepper.kaasops.io/discovery".
Definition orphanedLabelKey : string := "dataprepper.kaasops.io/orphaned".
Definition templateGenerationKey : string := "dataprepper.kaasops.io/template-generation".
Definition discoveryFinalizerName : string := "dataprepper.kaasops.io/discovery-finalizer".
Definition discoveryFailureCountKey : string := "dataprepper.kaasops.io/failure-count".

(** ** Names *)

(** The rune mapping of [sanitizeName]; its results are ASCII. *)
Definition sanitizeRune (r : Z) : ascii :=
  if in_range 97 122 r || in_range 48 57 r || (r =? 45) then ascii_of_N (Z.to_N r)
  else if in_range 65 90 r then ascii_of_N (Z.to_N (r + 32))
  else "-"%char.

Definition sanitizeName (name : string) : string :=
  let result := trim "-"%char (map_runes sanitizeRune (bytes name) 0) in
  let result := if (253 <? Z.of_nat (length result)) then trim_right "-"%char (take 253 result)
                else result in
  if bool_decide (result = []) then "unnamed" else of_bytes result.

(** [sanitizeName(disc.Name + "-" + s.Name)]. *)
Definition pipelineName (disc : DataPrepperSourceDiscovery) (source : string) : string :=
  sanitizeName (Meta_Name (D_Meta disc) +:+ "-" +:+ source).

Definition removeOwnerRef (refs : list OwnerReference) (uid : string) : list OwnerReference :=
  filter (fun ref => Owner_UID ref ≠ uid) refs.

(** ** Settings *)

Definition discoveryMaxCreationsPerCycle (disc : DataPrepperSourceDiscovery) : Z :=
  match DSpec_MaxCreationsPerCycle (D_Spec disc) with
  | Some n => if 0 <? n then n else defaultMaxCreationsPerCycle
  | None => defaultMaxCreationsPerCycle
  end.

Definition discoveryPollInterval (disc : DataPrepperSourceDiscovery) : string :=
  match DSpec_Kafka (D_Spec disc), DSpec_S3 (D_Spec disc) with
  | Some k, _ => KDisc_PollInterval k
  | None, Some s => S3Disc_PollInterval s
  | None, None => ""
  end.

Definition parsePollInterval (s : string) : Z :=
  if nonempty s then match ParseDuration s with Ok d => d | Err _ => defaultPollInterval end
  else defaultPollInterval.

Definition discoveryCleanupPolicy (disc : DataPrepperSourceDiscovery) : string :=
  let kafka := default "" (KDisc_CleanupPolicy <$> DSpec_Kafka (D_Spec disc)) in
  let s3 := default "" (S3Disc_CleanupPolicy <$> DSpec_S3 (D_Spec disc)) in
  if nonempty kafka then kafka else if nonempty s3 then s3 else "Delete".

(** ** Failure count and backoff *)

Definition set_dmeta (m : ObjectMeta) (d : DataPrepperSourceDiscovery) : DataPrepperSourceDiscovery :=
  mkDataPrepperSourceDiscovery m (D_Spec d) (D_Status d).
Definition set_dstatus (s : DataPrepperSourceDiscoveryStatus) (d : DataPrepperSourceDiscovery)
    : DataPrepperSourceDiscovery := mkDataPrepperSourceDiscovery (D_Meta d) (D_Spec d) s.

Definition incrementFailureCount (disc : DataPrepperSourceDiscovery)
    : Z * DataPrepperSourceDiscovery :=
  let annotations := default ∅ (Meta_Annotations (D_Meta disc)) in
  let count := int64 (Atoi (map_get annotations discoveryFailureCountKey) + 1) in
  (count, set_dmeta (set_annotations
            (Some (<[discoveryFailureCountKey := Itoa count]> annotations)) (D_Meta disc)) disc).

Definition resetFailureCount (disc : DataPrepperSourceDiscovery) : DataPrepperSourceDiscovery :=
  match Meta_Annotations (D_Meta disc) with
  | Some a => set_dmeta (set_annotations (Some (delete discoveryFailureCountKey a)) (D_Meta disc)) disc
  | None => disc
  end.

(** [float64(defaultPollInterval) * math.Pow(2, failures-1)] is exact (or [+Inf],
    above the cap), because the factor is a power of two. *)
Definition discoveryBackoff (failures : Z) : Z :=
  if failures <=? 1 then defaultPollInterval
  else
    let backoff := defaultPollInterval * 2 ^ (failures - 1) in
    if maxDiscoveryBackoff <? backoff then maxDiscoveryBackoff else backoff.

(** ** Rendering the pipeline of a source *)

(** [tmpl.Context]. *)
Record TemplateContext := mkTemplateContext {
  DiscoveredName : string; Metadata : gmap string any; Namespace : string; DiscoveryName : string }.

(** The fields an override sets. *)
Definition applyOverride (base override : DataPrepperPipelineSpec) : DataPrepperPipelineSpec :=
  let orelse {A} (o b : option A) := match o with Some x => Some x | None => b end in
  mkDataPrepperPipelineSpec
    (if nonempty (Spec_Image override) then Spec_Image override else Spec_Image base)
    (if nonempty (Spec_ImagePullPolicy override) then Spec_ImagePullPolicy override
     else Spec_ImagePullPolicy base)
    (match Spec_Pipelines override with [] => Spec_Pipelines base | ps => ps end)
    (orelse (Spec_Scaling override) (Spec_Scaling base))
    (orelse (Spec_Resources override) (Spec_Resources base))
    (orelse (Spec_DataPrepperConfig override) (Spec_DataPrepperConfig base))
    (orelse (Spec_ServiceMonitor override) (Spec_ServiceMonitor base))
    (maps_Copy (Spec_PodAnnotations base) (Spec_PodAnnotations override))
    (maps_Copy (Spec_PodLabels base) (Spec_PodLabels override))
    (maps_Copy (Spec_NodeSelector base) (Spec_NodeSelector override))
    (Spec_Tolerations base) (Spec_Affinity base) (Spec_PodSecurityContext base)
    (Spec_SecurityContext base) (Spec_ServiceAccountName base).

Definition inheritKafkaSource (disc : KafkaDiscoverySpec) (k : KafkaSourceSpec) : KafkaSourceSpec :=
  mkKafkaSourceSpec
    (match KSrc_BootstrapServers k with [] => KDisc_BootstrapServers disc | l => l end)
    (KSrc_Topic k) (KSrc_GroupID k)
    (match KSrc_CredentialsSecretRef k with Some r => Some r | None => KDisc_CredentialsSecretRef disc end)
    (KSrc_ConsumerConfig k)
    (if nonempty (KSrc_EncryptionType k) then KSrc_EncryptionType k else KDisc_EncryptionType disc).

Definition inheritDefinition (disc : KafkaDiscoverySpec) (p : PipelineDefinition) : PipelineDefinition :=
  let s := PD_Source p in
  mkPipelineDefinition (PD_Name p) (PD_Workers p) (PD_Delay p)
    (mkSourceSpec (inheritKafkaSource disc <$> Src_Kafka s) (Src_HTTP s) (Src_OTel s) (Src_S3 s)
       (Src_Pipeline s))
    (PD_Buffer p) (PD_Processors p) (PD_Routes p) (PD_Sink p).

Definition with_pipelines (ps : list PipelineDefinition) (s : DataPrepperPipelineSpec)
    : DataPrepperPipelineSpec :=
  mkDataPrepperPipelineSpec (Spec_Image s) (Spec_ImagePullPolicy s) ps (Spec_Scaling s)
    (Spec_Resources s) (Spec_DataPrepperConfig s) (Spec_ServiceMonitor s) (Spec_PodAnnotations s)
    (Spec_PodLabels s) (Spec_NodeSelector s) (Spec_Tolerations s) (Spec_Affinity s)
    (Spec_PodSecurityContext s) (Spec_SecurityContext s) (Spec_ServiceAccountName s).

Definition inheritKafkaDiscoveryConfig (disc : KafkaDiscoverySpec) (spec : DataPrepperPipelineSpec)
    : DataPrepperPipelineSpec :=
  with_pipelines (inheritDefinition disc <$> Spec_Pipelines spec) spec.

(** The overrides whose pattern matches the source name, in order; a malformed
    pattern is skipped. *)
Definition applyOverrides (name : string) (overrides : list DiscoveryOverrideSpec)
    (spec : DataPrepperPipelineSpec) : DataPrepperPipelineSpec :=
  foldl (fun spec o =>
    match Match (Override_Pattern o) name with
    | Ok true => applyOverride spec (Override_Spec o)
    | _ => spec
    end) spec overrides.

(** ** The controller *)

(** What [reconcilePipelines] reports. *)
Record reconcileResult := mkReconcileResult {
  RR_created : Z; RR_updated : Z; RR_pendingUpdates : Z; RR_healthCheckFail : bool }.

(** The desired pipelines: name to spec and hash. *)
Record desired := mkDesired { d_spec : DataPrepperPipelineSpec; d_hash : string }.

(** The orders in which the three [range] loops of [reconcilePipelines] visit
    their maps. *)
Record MapOrder := mkMapOrder {
  ord_create : gmap string desired -> list (string * desired);
  ord_stale : gmap string desired -> list (string * desired);
  ord_health : gmap string DataPrepperPipeline -> list (string * DataPrepperPipeline) }.

Record MapOrderLaws (o : MapOrder) : Prop := mkMapOrderLaws {
  ord_create_perm m : ord_create o m ≡ₚ map_to_list m;
  ord_stale_perm m : ord_stale o m ≡ₚ map_to_list m;
  ord_health_perm m : ord_health o m ≡ₚ map_to_list m }.

Section controller.
Context {W : Type} `{Client W}.
(** [encoding/json] on pipeline specs, [text/template], sorting, map iteration. *)
Variable MarshalSpec : DataPrepperPipelineSpec -> result string.
Variable UnmarshalSpec : string -> result DataPrepperPipelineSpec.
Variable Template : Type.
Variable Parse : string -> result Template.
Variable Execute : Template -> TemplateContext -> result string.
Variable sort : list DiscoveredSource -> list DiscoveredSource.
Variable order : MapOrder.
(** [ctx.Err()] during S3 listing, and [metav1.Now()]. *)
Variable ctxErr : nat -> string -> option error.
Variable now : Z.
(** The fields of [DataPrepperSourceDiscoveryReconciler] besides the client. *)
Variable AdminClientFactory : option Kafka.ClientFactory.
Variable S3ClientFactory : option S3.ClientFactory.

(** The first 8 bytes of the SHA-256, in hexadecimal. *)
Definition computeSpecHash (spec : DataPrepperPipelineSpec) : string :=
  match MarshalSpec spec with
  | Ok data => first16 (sha256_hex data)
  | Err _ => ""
  end.

(** [internal/template/renderer.go]. *)
Definition RenderJSON (templateJSON : string) (ctx : TemplateContext) : result string :=
  tmpl ← wrap_err "parsing template: %w" [] (Parse templateJSON);
  buf ← wrap_err "executing template: %w" [] (Execute tmpl ctx);
  _ ← wrap_err "invalid JSON after render: %w" [] (checkValid buf);
  Ok buf.

Definition renderPipelineSpec (disc : DataPrepperSourceDiscovery) (source : DiscoveredSource)
    : result DataPrepperPipelineSpec :=
  templateJSON ← wrap_err "marshal template: %w" []
    (MarshalSpec (Template_Spec (DSpec_PipelineTemplate (D_Spec disc))));
  rendered ← wrap_err "render template: %w" []
    (RenderJSON templateJSON
       (mkTemplateContext (DS_Name source) (DS_Metadata source)
          (Meta_Namespace (D_Meta disc)) (Meta_Name (D_Meta disc))));
  spec ← wrap_err "unmarshal rendered spec: %w" [] (UnmarshalSpec rendered);
  let spec := applyOverrides (DS_Name source) (DSpec_Overrides (D_Spec disc)) spec in
  Ok (match DSpec_Kafka (D_Spec disc) with
      | Some k => inheritKafkaDiscoveryConfig k spec
      | None => spec
      end).

(** *** Discovery *)

Definition discoverKafka (disc : DataPrepperSourceDiscovery) (k : KafkaDiscoverySpec) (w : W)
    : result (list DiscoveredSource) :=
  match AdminClientFactory with
  | None => Err (Msg "kafka admin client factory not configured" [])
  | Some factory =>
    cfg ← kafkaConfigFromSecret (Meta_Namespace (D_Meta disc)) (KDisc_BootstrapServers k)
            (KDisc_CredentialsSecretRef k) w;
    adminClient ← wrap_err "create kafka admin client: %w" [] (factory cfg);
    KafkaDiscover sort (mkKafkaDiscoverer (Some adminClient)
                          (Topic_Prefix (KDisc_TopicSelector k))
                          (Topic_ExcludePatterns (KDisc_TopicSelector k)))
  end.

Definition discoverS3 (disc : DataPrepperSourceDiscovery) (s : S3DiscoverySpec) (w : W)
    : result (list DiscoveredSource) :=
  match S3ClientFactory with
  | None => Err (Msg "s3 client factory not configured" [])
  | Some factory =>
    cfg ← s3ConfigFromSecret (Meta_Namespace (D_Meta disc)) s w;
    s3c ← wrap_err "create s3 client: %w" [] (factory cfg);
    let sqsMapping := (fun m => mkSQSQueueMapping (SQS_QueueURLTemplate m) (SQS_Overrides m))
                      <$> S3Disc_SQSQueueMapping s in
    S3Discover sort ctxErr
      (mkS3Discoverer (Some s3c) (S3Disc_Bucket s) (S3Disc_Region s)
         (Sel_Prefix (S3Disc_PrefixSelector s)) (Sel_Depth (S3Disc_PrefixSelector s))
         (Sel_ExcludePatterns (S3Disc_PrefixSelector s)) sqsMapping)
  end.

(** *** Child pipelines *)

Definition childLabels (disc : DataPrepperSourceDiscovery) : gmap string string :=
  {[discoveryLabelKey := Meta_Name (D_Meta disc)]}.

(** The loop that builds the desired state. *)
Definition addDesired (disc : DataPrepperSourceDiscovery) (m : gmap string desired)
    (source : DiscoveredSource) : result (gmap string desired) :=
  spec ← wrap_err "render pipeline for %q: %w" [AStr (DS_Name source)]
           (renderPipelineSpec disc source);
  Ok (<[pipelineName disc (DS_Name source) := mkDesired spec (computeSpecHash spec)]> m).

Definition desiredPipelines (disc : DataPrepperSourceDiscovery) (sources : list DiscoveredSource)
    : result (gmap string desired) := fold_res (addDesired disc) ∅ sources.

(** The mutate closure of the creation and of the update loop. *)
Definition mutatePipeline (disc : DataPrepperSourceDiscovery) (d : desired)
    (p : DataPrepperPipeline) : result DataPrepperPipeline :=
  let m := P_Meta p in
  let labels := <[discoveryLabelKey := Meta_Name (D_Meta disc)]>
                  (<["app.kubernetes.io/managed-by" := "dataprepper-operator"]>
                     (default ∅ (Meta_Labels m))) in
  let annotations := <[templateGenerationKey := d_hash d]> (default ∅ (Meta_Annotations m)) in
  m ← SetControllerReference (D_Meta disc)
        (set_annotations (Some annotations) (set_labels (Some labels) m));
  Ok (mkDataPrepperPipeline m (d_spec d) (P_Status p)).

Definition barePipeline (ns name : string) : DataPrepperPipeline :=
  mkDataPrepperPipeline (bare_meta (ns, name)) zero_PipelineSpec zero_PipelineStatus.

Definition applyPipeline (disc : DataPrepperSourceDiscovery) (name : string) (d : desired)
    : M W unit :=
  writes (CreateOrUpdate KPipeline (barePipeline (Meta_Namespace (D_Meta disc)) name)
            (mutatePipeline disc d)).

Definition existingByName (items : list DataPrepperPipeline) : gmap string DataPrepperPipeline :=
  foldl (fun m p => <[Meta_Name (P_Meta p) := p]> m) ∅ items.

(** Phase 1: creation, rate limited. *)
Fixpoint createLoop (disc : DataPrepperSourceDiscovery)
    (existing : gmap string DataPrepperPipeline) (limit : Z)
    (entries : list (string * desired)) (created : Z) : M W Z :=
  match entries with
  | [] => mret created
  | (name, d) :: entries =>
    if bool_decide (is_Some (existing !! name)) then createLoop disc existing limit entries created
    else if limit <=? created then createLoop disc existing limit entries created
    else
      wrap "create pipeline %q: %w" [AStr name] (applyPipeline disc name d) ;;
      createLoop disc existing limit entries (created + 1)
  end.

Definition currentHash (p : DataPrepperPipeline) : string :=
  match Meta_Annotations (P_Meta p) with
  | Some a => map_get a templateGenerationKey
  | None => ""
  end.

(** Phase 2: the pipelines with another hash than the desired one. *)
Definition staleNames (existing : gmap string DataPrepperPipeline)
    (entries : list (string * desired)) : list string :=
  omap (fun '(name, d) =>
    match existing !! name with
    | Some p => if bool_decide (currentHash p = d_hash d) then None else Some name
    | None => None
    end) entries.

(** Phase 3: is an already updated pipeline Degraded or in Error? *)
Definition unhealthy (des : gmap string desired) (entry : string * DataPrepperPipeline) : bool :=
  let '(name, p) := entry in
  match des !! name with
  | None => false
  | Some d =>
    match Meta_Annotations (P_Meta p) with
    | Some a =>
      bool_decide (map_get a templateGenerationKey = d_hash d) &&
      (bool_decide (PStatus_Phase (P_Status p) = PipelinePhaseDegraded) ||
       bool_decide (PStatus_Phase (P_Status p) = PipelinePhaseError))
    | None => false
    end
  end.

(** Phase 4: one batch of updates. *)
Fixpoint updateLoop (disc : DataPrepperSourceDiscovery) (des : gmap string desired) (limit : Z)
    (names : list string) (updated : Z) : M W Z :=
  match names with
  | [] => mret updated
  | name :: names =>
    if limit <=? updated then mret updated
    else
      let d := default (mkDesired zero_PipelineSpec "") (des !! name) in
      wrap "update pipeline %q: %w" [AStr name] (applyPipeline disc name d) ;;
      updateLoop disc des limit names (updated + 1)
  end.

Definition maxUpdatesPerCycle (total : Z) : Z := Z.max 1 ((total + 4) / 5).

Definition reconcilePipelines (disc : DataPrepperSourceDiscovery)
    (sources : list DiscoveredSource) : M W reconcileResult :=
  des ← lift (desiredPipelines disc sources);
  items ← wrap "list child pipelines: %w" []
    (reads (ListPipelines (Meta_Namespace (D_Meta disc)) (childLabels disc)));
  let existing := existingByName items in
  created ← createLoop disc existing (discoveryMaxCreationsPerCycle disc) (ord_create order des) 0;
  let toUpdate := staleNames existing (ord_stale order des) in
  let pending := Z.of_nat (length toUpdate) in
  if bool_decide (toUpdate = []) then mret (mkReconcileResult created 0 0 false)
  else if existsb (unhealthy des) (ord_health order existing)
  then mret (mkReconcileResult created 0 pending true)
  else
    updated ← updateLoop disc des (maxUpdatesPerCycle (Z.of_nat (size existing))) toUpdate 0;
    mret (mkReconcileResult created updated (pending - updated) false).

(** *** Orphans *)

(** Release a child: drop the owner reference and the discovery label, mark it. *)
Definition orphaned (disc : DataPrepperSourceDiscovery) (p : DataPrepperPipeline)
    : DataPrepperPipeline :=
  let m := P_Meta p in
  let labels := <[orphanedLabelKey := "true"]> (delete discoveryLabelKey (default ∅ (Meta_Labels m))) in
  set_meta (set_labels (Some labels)
              (set_owners (removeOwnerRef (Meta_OwnerReferences m) (Meta_UID (D_Meta disc))) m)) p.

Definition orphanPipeline (disc : DataPrepperSourceDiscovery) (p : DataPrepperPipeline) : M W unit :=
  wrap "orphan pipeline %q: %w" [AStr (Meta_Name (P_Meta p))]
    (writes (Update KPipeline (orphaned disc p))) ;;
  mret tt.

(** A loop over the children. *)
Fixpoint forEach (f : DataPrepperPipeline -> M W unit) (items : list DataPrepperPipeline)
    : M W unit :=
  match items with
  | [] => mret tt
  | p :: items => f p ;; forEach f items
  end.

Definition cleanupOnDeletion (disc : DataPrepperSourceDiscovery) : M W unit :=
  items ← wrap "list child pipelines: %w" []
    (reads (ListPipelines (Meta_Namespace (D_Meta disc)) (childLabels disc)));
  let cleanupPolicy := discoveryCleanupPolicy disc in
  forEach (fun p => if bool_decide (cleanupPolicy = "Orphan") then orphanPipeline disc p
                    else mret tt) items.

(** The body of the loop of [cleanupOrphans]. *)
Definition cleanupOne (disc : DataPrepperSourceDiscovery) (activeNames : gset string)
    (p : DataPrepperPipeline) : M W unit :=
  if bool_decide (Meta_Name (P_Meta p) ∈ activeNames) then mret tt
  else if bool_decide (discoveryCleanupPolicy disc = "Delete") then
    wrap "delete orphaned pipeline %q: %w" [AStr (Meta_Name (P_Meta p))]
      (writes (Delete KPipeline p))
  else if bool_decide (discoveryCleanupPolicy disc = "Orphan") then orphanPipeline disc p
  else mret tt.

Definition cleanupOrphans (disc : DataPrepperSourceDiscovery) (sources : list DiscoveredSource)
    : M W unit :=
  items ← wrap "list child pipelines: %w" []
    (reads (ListPipelines (Meta_Namespace (D_Meta disc)) (childLabels disc)));
  let activeNames : gset string :=
    list_to_set ((fun s => pipelineName disc (DS_Name s)) <$> sources) in
  forEach (cleanupOne disc activeNames) items.

(** *** Status *)

Definition setDCondition (type : string) (status : ConditionStatus) (reason : string)
    (msg : message) (disc : DataPrepperSourceDiscovery) : DataPrepperSourceDiscovery :=
  let s := D_Status disc in
  set_dstatus (mkDataPrepperSourceDiscoveryStatus (DStatus_Phase s) (DStatus_ObservedGeneration s)
                 (DStatus_DiscoveredSources s) (DStatus_ActivePipelines s)
                 (DStatus_OrphanedPipelines s) (DStatus_UpdatingPipelines s)
                 (DStatus_LastPollTime s)
                 (SetStatusCondition (DStatus_Conditions s) (mkCondition type status 0 reason msg))
                 (DStatus_Sources s)) disc.

(** [partitions, _ := s.Metadata["partitions"].(int32)]. *)
Definition partitionsOf (s : DiscoveredSource) : Z :=
  match DS_Metadata s !! "partitions" with Some (VInt n) => n | _ => 0 end.

Definition sourceStatus (disc : DataPrepperSourceDiscovery) (s : DiscoveredSource)
    : DiscoveredSourceStatus :=
  mkDiscoveredSourceStatus (DS_Name s) (partitionsOf s) (pipelineName disc (DS_Name s)) "Active".

Definition buildDiscoveryStatus (disc : DataPrepperSourceDiscovery) (phase : DiscoveryPhase)
    (sources : list DiscoveredSource) (msg : message) : DataPrepperSourceDiscovery :=
  let s := D_Status disc in
  let n := Z.of_nat (length sources) in
  let disc := set_dstatus
    (mkDataPrepperSourceDiscoveryStatus phase (Meta_Generation (D_Meta disc)) (int32 n)
       (DStatus_ActivePipelines s) (DStatus_OrphanedPipelines s) (DStatus_UpdatingPipelines s)
       (Some now) (DStatus_Conditions s) (sourceStatus disc <$> sources)) disc in
  if bool_decide (phase = DiscoveryPhaseError)
  then setDCondition "Ready" ConditionFalse "DiscoveryFailed" msg disc
  else setDCondition "Ready" ConditionTrue "DiscoverySucceeded"
         (Msg "Discovered %d sources" [AInt n]) disc.

Definition setActive (n : Z) (s : DataPrepperSourceDiscoveryStatus)
    : DataPrepperSourceDiscoveryStatus :=
  mkDataPrepperSourceDiscoveryStatus (DStatus_Phase s) (DStatus_ObservedGeneration s)
    (DStatus_DiscoveredSources s) n (DStatus_OrphanedPipelines s) (DStatus_UpdatingPipelines s)
    (DStatus_LastPollTime s) (DStatus_Conditions s) (DStatus_Sources s).

Definition setUpdating (n : Z) (disc : DataPrepperSourceDiscovery) : DataPrepperSourceDiscovery :=
  let s := D_Status disc in
  set_dstatus (mkDataPrepperSourceDiscoveryStatus (DStatus_Phase s) (DStatus_ObservedGeneration s)
                 (DStatus_DiscoveredSources s) (DStatus_ActivePipelines s)
                 (DStatus_OrphanedPipelines s) n (DStatus_LastPollTime s)
                 (DStatus_Conditions s) (DStatus_Sources s)) disc.

(** The bodies of the three retry loops; the variable [disc] is part of their
    state. *)
Definition writeDStatus (status : DataPrepperSourceDiscoveryStatus)
    (s : DataPrepperSourceDiscovery * W) : result unit * (DataPrepperSourceDiscovery * W) :=
  let '(disc, w) := s in
  match Get KDiscovery (@key_of KDiscovery disc) w with
  | Err e => (Err e, (disc, w))
  | Ok disc =>
    let disc := set_dstatus status disc in
    match UpdateStatus KDiscovery disc w with
    | (Ok disc, w) => (Ok tt, (disc, w))
    | (Err e, w) => (Err e, (disc, w))
    end
  end.

Definition writeAnnotation (f : DataPrepperSourceDiscovery -> DataPrepperSourceDiscovery)
    (s : DataPrepperSourceDiscovery * W) : result unit * (DataPrepperSourceDiscovery * W) :=
  let '(disc, w) := s in
  match Get KDiscovery (@key_of KDiscovery disc) w with
  | Err e => (Err e, (disc, w))
  | Ok disc =>
    let disc := f disc in
    match Update KDiscovery disc w with
    | (Ok disc, w) => (Ok tt, (disc, w))
    | (Err e, w) => (Err e, (disc, w))
    end
  end.

Definition updateDiscoveryStatus (disc : DataPrepperSourceDiscovery)
    : M W DataPrepperSourceDiscovery := fun st =>
  let status :=
    match ListPipelines (Meta_Namespace (D_Meta disc)) (childLabels disc) (world st) with
    | Ok items => setActive (int32 (Z.of_nat (length items))) (D_Status disc)
    | Err _ => D_Status disc
    end in
  let '(r, (disc, w)) := RetryOnConflict _ (writeDStatus status) (disc, world st) in
  (match r with Ok _ => Ok disc | Err e => Err e end, mkSt w (effects st)).

(** A retry loop on an annotation whose error is only logged. *)
Definition retryAnnotation (f : DataPrepperSourceDiscovery -> DataPrepperSourceDiscovery)
    (disc : DataPrepperSourceDiscovery) : M W DataPrepperSourceDiscovery := fun st =>
  let '(_, (disc, w)) := RetryOnConflict _ (writeAnnotation f) (disc, world st) in
  (Ok disc, mkSt w (effects st)).

(** *** Reconcile *)

Definition devent (disc : DataPrepperSourceDiscovery) (etype reason : string) (msg : message)
    : M W unit := emit (Event (@key_of KDiscovery disc) etype reason msg).

(** Discovery failed: count the failure, report it, back off. *)
Definition discoveryFailed (disc : DataPrepperSourceDiscovery) (e : error) : M W ctrl_Result :=
  devent disc "Warning" "DiscoveryFailed" (Msg "Discovery failed: %v" [AErr e]) ;;
  let '(failureCount, disc) := incrementFailureCount disc in
  let backoff := discoveryBackoff failureCount in
  disc ← retryAnnotation (fun d => snd (incrementFailureCount d)) disc;
  _ ← try (updateDiscoveryStatus (buildDiscoveryStatus disc DiscoveryPhaseError [] e));
  mret (mkResult backoff).

(** The conditions of the staged rollout. *)
Definition rolloutConditions (res : reconcileResult) (disc : DataPrepperSourceDiscovery)
    : M W DataPrepperSourceDiscovery :=
  let paused := Msg "Previously updated pipeline is unhealthy, rollout paused" [] in
  when (RR_healthCheckFail res) (devent disc "Warning" "StagedRolloutPaused" paused) ;;
  let disc :=
    if RR_healthCheckFail res
    then setDCondition "StagedRolloutPaused" ConditionTrue "HealthCheckFailed" paused disc
    else setDCondition "StagedRolloutPaused" ConditionFalse "Healthy"
           (Msg "All updated pipelines are healthy" []) disc in
  mret (if 0 <? RR_pendingUpdates res
        then setDCondition "StagedRolloutInProgress" ConditionTrue "Updating"
               (Msg "%d pipelines pending update" [AInt (RR_pendingUpdates res)]) disc
        else setDCondition "StagedRolloutInProgress" ConditionFalse "Complete"
               (Msg "All pipelines are up to date" []) disc).

(** When to look again. *)
Definition requeueAfter (disc : DataPrepperSourceDiscovery) (res : reconcileResult)
    (discovered : Z) : Z :=
  if (discoveryMaxCreationsPerCycle disc <=? RR_created res) && (RR_created res <? discovered)
  then 1 * Second
  else if 0 <? RR_pendingUpdates res then stagedRolloutRequeue
  else parsePollInterval (discoveryPollInterval disc).

(** Discovery succeeded. *)
Definition discoverySucceeded (disc : DataPrepperSourceDiscovery)
    (sources : list DiscoveredSource) : M W ctrl_Result :=
  disc ← (if nonempty (map_get (default ∅ (Meta_Annotations (D_Meta disc))) discoveryFailureCountKey)
          then retryAnnotation resetFailureCount disc else mret disc);
  res ← reconcilePipelines disc sources;
  cleanupOrphans disc sources ;;
  let disc := setUpdating (int32 (RR_pendingUpdates res))
                (buildDiscoveryStatus disc DiscoveryPhaseRunning sources (Msg "" [])) in
  disc ← rolloutConditions res disc;
  disc ← wrap "update discovery status: %w" [] (updateDiscoveryStatus disc);
  emit (GaugeSet DiscoveredSources
          [Meta_Name (D_Meta disc); Meta_Namespace (D_Meta disc)]
          (DStatus_DiscoveredSources (D_Status disc))) ;;
  emit (GaugeSet OrphanedPipelines [] (DStatus_OrphanedPipelines (D_Status disc))) ;;
  when (0 <? RR_created res)
    (devent disc "Normal" "PipelinesCreated" (Msg "Created %d new pipelines" [AInt (RR_created res)])) ;;
  when (0 <? RR_updated res)
    (devent disc "Normal" "PipelinesUpdated"
       (Msg "Updated %d pipelines (%d pending)" [AInt (RR_updated res); AInt (RR_pendingUpdates res)])) ;;
  mret (mkResult (requeueAfter disc res (Z.of_nat (length sources)))).

Definition discoverSources (disc : DataPrepperSourceDiscovery) (w : W)
    : option (result (list DiscoveredSource)) :=
  match DSpec_Kafka (D_Spec disc), DSpec_S3 (D_Spec disc) with
  | Some k, _ => Some (discoverKafka disc k w)
  | None, Some s => Some (discoverS3 disc s w)
  | None, None => None
  end.

Definition reconcileDiscovery (disc : DataPrepperSourceDiscovery) : M W ctrl_Result := fun st =>
  match discoverSources disc (world st) with
  | None => (Ok no_requeue, st)
  | Some (Err e) => discoveryFailed disc e st
  | Some (Ok sources) => discoverySucceeded disc sources st
  end.

Definition finalizeDiscovery (disc : DataPrepperSourceDiscovery) : M W ctrl_Result :=
  let m := D_Meta disc in
  when (ContainsFinalizer m discoveryFinalizerName)
    (wrap "cleanup on deletion: %w" [] (cleanupOnDeletion disc) ;;
     wrap "remove finalizer: %w" []
       (writes (Update KDiscovery
          (set_dmeta (set_finalizers (RemoveFinalizer (Meta_Finalizers m) discoveryFinalizerName) m)
             disc))) ;;
     mret tt) ;;
  mret no_requeue.

Definition ensureDiscoveryFinalizer (disc : DataPrepperSourceDiscovery)
    : M W DataPrepperSourceDiscovery :=
  let m := D_Meta disc in
  if ContainsFinalizer m discoveryFinalizerName then mret disc
  else wrap "add finalizer: %w" []
         (writes (Update KDiscovery
            (set_dmeta (set_finalizers (AddFinalizer (Meta_Finalizers m) discoveryFinalizerName) m)
               disc))).

Definition DiscoveryReconcile (req : Key) : M W ctrl_Result :=
  counted "discovery"
    (r ← try (reads (Get KDiscovery req));
     match r with
     | Err e => IgnoreNotFound no_requeue e
     | Ok disc =>
       if bool_decide (is_Some (Meta_DeletionTimestamp (D_Meta disc)))
       then finalizeDiscovery disc
       else disc ← ensureDiscoveryFinalizer disc; reconcileDiscovery disc
     end).
End controller.
