(* ===== verification/Lifetimes.v ===== *)
(** * Client lifetimes: connections to Kafka and S3

    The three functions that connect to a Kafka cluster or to S3
    ([calculateKafkaScaling], [discoverKafka], [discoverS3]) once more, with the
    calls on the client recorded: the client is opened by its factory, asked, and
    closed by the deferred [Close].  Forgetting the record gives the functions of
    [PipelineController] and [DiscoveryController]; the record says that no
    connection outlives the call that opened it. *)

From S2P Require Import Prelude Go Api Scaler Clients Discovery Cluster Reconciler.
From S2P Require Import PipelineController DiscoveryController.
#[local] Open Scope Z_scope.

(** ** Recorded calls *)

Inductive event := Opened | Requested | Closed.

(** A value and the calls made for it, in order. *)
Definition traced (A : Type) : Type := A * list event.

#[export] Instance traced_ret : MRet traced := fun _ a => (a, []).
#[export] Instance traced_bind : MBind traced := fun _ _ f m => let '(b, tr) := f m.1 in (b, m.2 ++ tr).

(** The factory connects when it succeeds; every method of a client asks the server. *)
Definition open {A} (r : result A) : traced (result A) := (r, if is_ok r then [Opened] else []).
Definition request {A} (r : result A) : traced (result A) := (r, [Requested]).

(** [func (c *adminClient) Close], which closes the underlying client, as
    [defer adminClient.Close()]: after the rest of the function, whatever it returns. *)
Definition deferClose {A} (m : traced A) : traced A := (m.1, m.2 ++ [Closed]).

(** The rest of a function after [if err != nil { return ..., err }]. *)
Definition check {A B} (failed : error -> B) (r : result A) (f : A -> traced B) : traced B :=
  match r with Ok a => f a | Err e => mret (failed e) end.

Lemma fst_bind {A B} (m : traced A) (f : A -> traced B) : (m ≫= f).1 = (f m.1).1.
Proof. unfold mbind, traced_bind. by destruct (f m.1). Qed.
Lemma snd_bind {A B} (m : traced A) (f : A -> traced B) : (m ≫= f).2 = m.2 ++ (f m.1).2.
Proof. unfold mbind, traced_bind. by destruct (f m.1). Qed.

(** ** The functions *)

Section functions.
Context {W : Type} `{Client W}.
Variable int32_of_inf : Z.
Variable AdminClientFactory : option Kafka.ClientFactory.
Variable S3ClientFactory : option S3.ClientFactory.
Variable sort : list DiscoveredSource -> list DiscoveredSource.
Variable ctxErr : nat -> string -> option error.

Definition calculateKafkaScaling_traced (pipeline : DataPrepperPipeline) (ks : KafkaSourceSpec)
    (minReplicas maxReplicas : Z) (w : W) : traced (ScalingPlan * DataPrepperPipeline) :=
  let failed e := (mkScalingPlan minReplicas 0 false (Some e), pipeline) in
  match AdminClientFactory with
  | None => mret (mkScalingPlan minReplicas 0 false None, pipeline)
  | Some factory =>
    check failed (kafkaConfigFromSecret (Meta_Namespace (P_Meta pipeline)) (KSrc_BootstrapServers ks)
                    (KSrc_CredentialsSecretRef ks) w) (fun cfg =>
    client ← open (factory cfg);
    check failed (wrap_err "create kafka admin client: %w" [] client) (fun adminClient =>
    deferClose (
      count ← request (Kafka.GetPartitionCount adminClient (KSrc_Topic ks));
      check failed (wrap_err "get partition count: %w" [] count) (fun partitions =>
      check failed (CalculateKafka int32_of_inf partitions maxReplicas minReplicas) (fun r =>
      mret (mkScalingPlan (Replicas r) (TopicWorkers r) false None,
            set_kafka (Some (mkKafkaStatus partitions (TopicWorkers r)
                               (int32 (Replicas r * TopicWorkers r)))) pipeline))))))
  end.

Definition KafkaDiscover_traced (d : KafkaDiscoverer) : traced (result (list DiscoveredSource)) :=
  match KD_Client d with
  | None => mret (Err (Msg "kafka admin client is nil" []))
  | Some client =>
    answer ← request (Kafka.ListTopics client);
    check Err (wrap_err "list kafka topics: %w" [] answer) (fun topics =>
    mret (Ok (topicSources sort d (map_to_list topics))))
  end.

Definition discoverKafka_traced (disc : DataPrepperSourceDiscovery) (k : KafkaDiscoverySpec) (w : W)
    : traced (result (list DiscoveredSource)) :=
  match AdminClientFactory with
  | None => mret (Err (Msg "kafka admin client factory not configured" []))
  | Some factory =>
    check Err (kafkaConfigFromSecret (Meta_Namespace (D_Meta disc)) (KDisc_BootstrapServers k)
                 (KDisc_CredentialsSecretRef k) w) (fun cfg =>
    client ← open (factory cfg);
    check Err (wrap_err "create kafka admin client: %w" [] client) (fun adminClient =>
    deferClose (KafkaDiscover_traced (mkKafkaDiscoverer (Some adminClient)
                  (Topic_Prefix (KDisc_TopicSelector k)) (Topic_ExcludePatterns (KDisc_TopicSelector k))))))
  end.

(** A loop that stops at the first error. *)
Fixpoint map_traced {A B} (f : A -> traced (result B)) (l : list A) : traced (result (list B)) :=
  match l with
  | [] => mret (Ok [])
  | a :: l =>
    r ← f a;
    check Err r (fun b => rs ← map_traced f l; check Err rs (fun bs => mret (Ok (b :: bs))))
  end.

Fixpoint listAtDepth_traced (client : S3.S3Client) (bucket : string) (depth : nat) (prefix : string)
    : traced (result (list string)) :=
  match ctxErr depth prefix with
  | Some e => mret (Err e)
  | None =>
    answer ← request (S3.ListPrefixes client bucket prefix "/");
    check Err answer (fun prefixes =>
    match depth with
    | S (S _ as depth') =>
      sub ← map_traced (listAtDepth_traced client bucket depth') prefixes;
      check Err sub (fun sub => mret (Ok (concat sub)))
    | _ => mret (Ok prefixes)
    end)
  end.

Definition S3Discover_traced (d : S3Discoverer) : traced (result (list DiscoveredSource)) :=
  match SD_Client d with
  | None => mret (Err (Msg "s3 client is nil" []))
  | Some client =>
    answer ← listAtDepth_traced client (SD_Bucket d) (Z.to_nat (Z.max (SD_Depth d) 1)) (SD_Prefix d);
    check Err (wrap_err "list s3 prefixes: %w" [] answer) (fun prefixes =>
    mret (Ok (sort (omap (prefixSource d) prefixes))))
  end.

Definition discoverS3_traced (disc : DataPrepperSourceDiscovery) (s : S3DiscoverySpec) (w : W)
    : traced (result (list DiscoveredSource)) :=
  match S3ClientFactory with
  | None => mret (Err (Msg "s3 client factory not configured" []))
  | Some factory =>
    check Err (s3ConfigFromSecret (Meta_Namespace (D_Meta disc)) s w) (fun cfg =>
    client ← open (factory cfg);
    check Err (wrap_err "create s3 client: %w" [] client) (fun s3c =>
    deferClose (S3Discover_traced
      (mkS3Discoverer (Some s3c) (S3Disc_Bucket s) (S3Disc_Region s)
         (Sel_Prefix (S3Disc_PrefixSelector s)) (Sel_Depth (S3Disc_PrefixSelector s))
         (Sel_ExcludePatterns (S3Disc_PrefixSelector s))
         ((fun m => mkSQSQueueMapping (SQS_QueueURLTemplate m) (SQS_Overrides m))
            <$> S3Disc_SQSQueueMapping s)))))
  end.

(** ** Properties *)

(** Nothing was opened, or one client was, asked, and closed at the end. *)
Definition released (tr : list event) : Prop :=
  tr = [] \/ exists requests, tr = Opened :: requests ++ [Closed] /\ Forall (eq Requested) requests.

Abbreviation only_requests tr := (Forall (eq Requested) tr).

Lemma check_requests {A B} (failed : error -> B) (r : result A) f :
  (forall a, only_requests (f a).2) -> only_requests (check failed r f).2.
Proof. destruct r; cbn; [done|constructor]. Qed.

Lemma bind_requests {A B} (m : traced A) (f : A -> traced B) :
  only_requests m.2 -> (forall a, only_requests (f a).2) -> only_requests (m ≫= f).2.
Proof. intros Hm Hf. rewrite snd_bind. apply Forall_app. by split. Qed.

Lemma request_requests {A} (r : result A) : only_requests (request r).2.
Proof. by repeat constructor. Qed.

Create HintDb requests.
#[local] Hint Resolve request_requests : requests.

(** A program of requests. *)
Ltac solve_requests :=
  repeat first [apply bind_requests; [auto with requests|intros]|apply check_requests; intros
               |case_match|by constructor|auto with requests].

Lemma KafkaDiscover_requests d : only_requests (KafkaDiscover_traced d).2.
Proof. unfold KafkaDiscover_traced. solve_requests. Qed.

Lemma map_traced_requests {A B} (f : A -> traced (result B)) l :
  (forall a, only_requests (f a).2) -> only_requests (map_traced f l).2.
Proof. intros Hf. induction l as [|a l IH]; cbn [map_traced]; [constructor|]. solve_requests. Qed.
#[local] Hint Resolve map_traced_requests : requests.

Lemma listAtDepth_requests client bucket depth prefix :
  only_requests (listAtDepth_traced client bucket depth prefix).2.
Proof.
  revert prefix. induction depth as [|depth IH]; intros prefix; cbn [listAtDepth_traced]; solve_requests.
Qed.
#[local] Hint Resolve listAtDepth_requests : requests.

Lemma S3Discover_requests d : only_requests (S3Discover_traced d).2.
Proof. unfold S3Discover_traced. solve_requests. Qed.

(** The shape the three functions share. *)
Lemma bracket_released {C A B} (r : result C) (g : result C -> result A) (failed : error -> B) (body : A -> traced B) :
  is_ok (g r) = is_ok r ->
  (forall a, only_requests (body a).2) ->
  released (client ← open r; check failed (g client) (fun c => deferClose (body c))).2.
Proof.
  intros Hg Hbody. rewrite snd_bind. cbn [open fst snd]. rewrite <-Hg.
  destruct (g r) as [a|e]; [|by left]. right. by exists (body a).2.
Qed.

Lemma check_released {A B} (failed : error -> B) (r : result A) f :
  (forall a, released (f a).2) -> released (check failed r f).2.
Proof. destruct r; cbn; [done|by left]. Qed.

Lemma wrap_err_is_ok {A} format args (r : result A) : is_ok (wrap_err format args r) = is_ok r.
Proof. by destruct r. Qed.

Ltac solve_released :=
  case_match; [|by left]; apply check_released; intros;
  apply (bracket_released _ (wrap_err _ _)); [apply wrap_err_is_ok|intros].

Lemma fst_check {A B} (failed : error -> B) (r : result A) f :
  (check failed r f).1 = match r with Ok a => (f a).1 | Err e => failed e end.
Proof. by destruct r. Qed.

Lemma map_traced_value {A B} (f : A -> traced (result B)) g l :
  (forall a, (f a).1 = g a) -> (map_traced f l).1 = map_res g l.
Proof.
  intros Hf. induction l as [|a l IH]; [done|]. cbn [map_traced map_res]. rewrite fst_bind, fst_check, Hf.
  destruct (g a); [|done]. rewrite fst_bind, fst_check, IH. by destruct (map_res g l).
Qed.

Lemma listAtDepth_value client bucket depth prefix :
  (listAtDepth_traced client bucket depth prefix).1 = listAtDepth ctxErr client bucket depth prefix.
Proof.
  revert prefix. induction depth as [|depth IH]; intros prefix; cbn [listAtDepth_traced listAtDepth];
    (destruct (ctxErr _ prefix); [done|]); rewrite fst_bind, fst_check; cbn [request fst];
    (destruct (S3.ListPrefixes client bucket prefix "/") as [ps|]; [|done]); [done|].
  destruct depth as [|depth]; [done|]. rewrite fst_bind, fst_check. rewrite (map_traced_value _ _ ps IH).
  unfold mbind, result_bind. by destruct (map_res _ ps).
Qed.

Lemma KafkaDiscover_value d : (KafkaDiscover_traced d).1 = KafkaDiscover sort d.
Proof.
  unfold KafkaDiscover_traced, KafkaDiscover. destruct (KD_Client d) as [c|]; [|done].
  rewrite fst_bind, fst_check. cbn [request fst]. by destruct (wrap_err _ _ (Kafka.ListTopics c)).
Qed.

Lemma S3Discover_value d : (S3Discover_traced d).1 = S3Discover sort ctxErr d.
Proof.
  unfold S3Discover_traced, S3Discover. destruct (SD_Client d) as [c|]; [|done].
  rewrite fst_bind, fst_check, listAtDepth_value. by destruct (wrap_err _ _ (listAtDepth _ _ _ _ _)).
Qed.

Lemma discoverKafka_value disc k w :
  (discoverKafka_traced disc k w).1 = discoverKafka sort AdminClientFactory disc k w.
Proof.
  unfold discoverKafka_traced, discoverKafka. destruct AdminClientFactory as [factory|]; [|done].
  rewrite fst_check. destruct (kafkaConfigFromSecret _ _ _ w) as [cfg|]; [|done]. rewrite fst_bind, fst_check.
  cbn [open fst mbind result_bind]. destruct (factory cfg) as [c|]; [|done]. apply KafkaDiscover_value.
Qed.

Lemma discoverS3_value disc s w :
  (discoverS3_traced disc s w).1 = discoverS3 sort ctxErr S3ClientFactory disc s w.
Proof.
  unfold discoverS3_traced, discoverS3. destruct S3ClientFactory as [factory|]; [|done].
  rewrite fst_check. destruct (s3ConfigFromSecret _ _ w) as [cfg|]; [|done]. rewrite fst_bind, fst_check.
  cbn [open fst mbind result_bind]. destruct (factory cfg) as [c|]; [|done]. apply S3Discover_value.
Qed.

Lemma calculateKafkaScaling_value pipeline ks lo hi w :
  (calculateKafkaScaling_traced pipeline ks lo hi w).1
  = calculateKafkaScaling int32_of_inf AdminClientFactory pipeline ks lo hi w.
Proof.
  unfold calculateKafkaScaling_traced, calculateKafkaScaling. destruct AdminClientFactory as [factory|]; [|done].
  rewrite fst_check. destruct (kafkaConfigFromSecret _ _ _ w) as [cfg|]; [|done]. rewrite fst_bind, fst_check.
  cbn [open fst]. destruct (factory cfg) as [c|]; [|done]. cbn [wrap_err deferClose fst].
  rewrite fst_bind, fst_check. cbn [request fst]. destruct (wrap_err _ _ (Kafka.GetPartitionCount c _)); [|done].
  rewrite fst_check. by destruct (CalculateKafka _ _ _ _).
Qed.

(** C20: no connection to Kafka or S3 outlives the function that opened it: whatever
    the secrets, the factory and the servers answer, in scaling and in both kinds of
    discovery either no client was opened, or exactly one was, every request was
    made on it while it was open, and it was closed exactly once, at the end, also
    when a request failed or the context was cancelled; and the recorded functions
    compute what the functions of the controllers compute. *)
Theorem clients_released pipeline ks lo hi disc k s w :
  (let m := calculateKafkaScaling_traced pipeline ks lo hi w in
   m.1 = calculateKafkaScaling int32_of_inf AdminClientFactory pipeline ks lo hi w /\ released m.2) /\
  (let m := discoverKafka_traced disc k w in
   m.1 = discoverKafka sort AdminClientFactory disc k w /\ released m.2) /\
  (let m := discoverS3_traced disc s w in
   m.1 = discoverS3 sort ctxErr S3ClientFactory disc s w /\ released m.2).
Proof.
  cbv zeta. rewrite calculateKafkaScaling_value, discoverKafka_value, discoverS3_value.
  split_and!; try done.
  - unfold calculateKafkaScaling_traced. solve_released.
    solve_requests.
  - unfold discoverKafka_traced. solve_released. apply KafkaDiscover_requests.
  - unfold discoverS3_traced. solve_released. apply S3Discover_requests.
Qed.

End functions.
