(* ===== verification/Rendering.v ===== *)
(** * Rendering of child pipelines: overrides, inherited settings, sharing

    [renderPipelineSpec] lays the matching overrides over the rendered template
    and fills the Kafka sources from the discovery.  The Go code assigns the
    slice [override.Pipelines] to the spec and then writes through the pointers
    in it, so that rendering changes the overrides of the discovery in memory;
    the last part models this sharing and shows that no rendering sees it. *)

From S2P Require Import Prelude Go Json Glob Api Clients Discovery Cluster Reconciler.
From S2P Require Import PipelineController DiscoveryController.
#[local] Open Scope Z_scope.

(** ** Inherited settings *)

Lemma inheritKafkaSource_idempotent disc k :
  inheritKafkaSource disc (inheritKafkaSource disc k) = inheritKafkaSource disc k.
Proof.
  unfold inheritKafkaSource. simpl. f_equal.
  - by destruct (KSrc_BootstrapServers k), (KDisc_BootstrapServers disc).
  - by destruct (KSrc_CredentialsSecretRef k), (KDisc_CredentialsSecretRef disc).
  - destruct (nonempty (KSrc_EncryptionType k)) eqn:E; [by rewrite E|].
    by destruct (nonempty (KDisc_EncryptionType disc)).
Qed.

Lemma inheritDefinition_idempotent disc p :
  inheritDefinition disc (inheritDefinition disc p) = inheritDefinition disc p.
Proof.
  unfold inheritDefinition. simpl. do 2 f_equal. destruct (Src_Kafka _) as [k|]; simpl; [|done].
  by rewrite inheritKafkaSource_idempotent.
Qed.

Lemma inherit_pipelines_idempotent disc (ps : list PipelineDefinition) :
  inheritDefinition disc <$> (inheritDefinition disc <$> ps) = inheritDefinition disc <$> ps.
Proof.
  rewrite <-list_fmap_compose. apply list_fmap_ext. intros i p _. apply inheritDefinition_idempotent.
Qed.

(** ** Layers of overrides *)

(** Does an override apply to a source? *)
Definition applies (name : string) (o : DiscoveryOverrideSpec) : bool :=
  match Match (Override_Pattern o) name with Ok b => b | Err _ => false end.

(** The specs of the overrides that apply to a source, in order; a malformed
    pattern applies to nothing. *)
Definition matching (name : string) (overrides : list DiscoveryOverrideSpec)
    : list DataPrepperPipelineSpec :=
  Override_Spec <$> filter (fun o => applies name o) overrides.

(** The last layer that sets a value, and the base if none does. *)
Definition last_set {A} (f : DataPrepperPipelineSpec -> option A) (layers : list DataPrepperPipelineSpec)
    (base : A) : A := default base (last (omap f layers)).

Definition set_string (f : DataPrepperPipelineSpec -> string) (s : DataPrepperPipelineSpec) : option string :=
  if nonempty (f s) then Some (f s) else None.
Definition set_list {A} (f : DataPrepperPipelineSpec -> list A) (s : DataPrepperPipelineSpec)
    : option (list A) := match f s with [] => None | l => Some l end.
(** Here [nil] is what no layer sets. *)
Definition set_option {A} (f : DataPrepperPipelineSpec -> option A) (s : DataPrepperPipelineSpec)
    : option (option A) := Some <$> f s.

Lemma applyOverrides_fold name overrides spec :
  applyOverrides name overrides spec = foldl applyOverride spec (matching name overrides).
Proof.
  unfold applyOverrides, matching. revert spec.
  induction overrides as [|o overrides IH]; intros spec; simpl; [done|].
  rewrite IH, filter_cons.
  destruct (Match (Override_Pattern o) name) as [[]|] eqn:E; case_decide as Ha; try done;
    unfold applies in Ha; rewrite E in Ha; by destruct Ha || done.
Qed.

Lemma last_set_cons {A} (f : DataPrepperPipelineSpec -> option A) l layers base :
  last_set f (l :: layers) base = last_set f layers (default base (f l)).
Proof.
  unfold last_set. cbn [omap list_omap]. destruct (f l) as [a|]; [|done].
  rewrite last_cons. by destruct (last (omap f layers)).
Qed.

(** A field that an override replaces when it sets it. *)
Lemma foldl_override {A} (g : DataPrepperPipelineSpec -> A) (f : DataPrepperPipelineSpec -> option A)
    layers spec :
  (forall b o, g (applyOverride b o) = default (g b) (f o)) ->
  g (foldl applyOverride spec layers) = last_set f layers (g spec).
Proof.
  intros Hg. revert spec. induction layers as [|o layers IH]; intros spec; simpl; [done|].
  by rewrite IH, Hg, last_set_cons.
Qed.

(** A map that overrides extend. *)
Lemma foldl_override_map (g : DataPrepperPipelineSpec -> gmap string string) layers spec k :
  (forall b o, g (applyOverride b o) = maps_Copy (g b) (g o)) ->
  g (foldl applyOverride spec layers) !! k =
  last_set (fun o => Some <$> (g o !! k)) layers (g spec !! k).
Proof.
  intros Hg. revert spec. induction layers as [|o layers IH]; intros spec; simpl; [done|].
  rewrite IH, Hg, last_set_cons, lookup_maps_Copy. by destruct (g o !! k).
Qed.

(** [spec] is [base] with the layers over it. *)
Record layered (base : DataPrepperPipelineSpec) (layers : list DataPrepperPipelineSpec)
    (spec : DataPrepperPipelineSpec) : Prop := {
  (** Replaced by the last layer that sets them. *)
  ly_Image : Spec_Image spec = last_set (set_string Spec_Image) layers (Spec_Image base);
  ly_ImagePullPolicy : Spec_ImagePullPolicy spec =
    last_set (set_string Spec_ImagePullPolicy) layers (Spec_ImagePullPolicy base);
  ly_Pipelines : Spec_Pipelines spec = last_set (set_list Spec_Pipelines) layers (Spec_Pipelines base);
  ly_Scaling : Spec_Scaling spec = last_set (set_option Spec_Scaling) layers (Spec_Scaling base);
  ly_Resources : Spec_Resources spec = last_set (set_option Spec_Resources) layers (Spec_Resources base);
  ly_DataPrepperConfig : Spec_DataPrepperConfig spec =
    last_set (set_option Spec_DataPrepperConfig) layers (Spec_DataPrepperConfig base);
  ly_ServiceMonitor : Spec_ServiceMonitor spec =
    last_set (set_option Spec_ServiceMonitor) layers (Spec_ServiceMonitor base);
  (** Extended key by key. *)
  ly_maps : Forall (fun g : DataPrepperPipelineSpec -> gmap string string =>
      forall k, g spec !! k = last_set (fun o => Some <$> (g o !! k)) layers (g base !! k))
    [Spec_PodAnnotations; Spec_PodLabels; Spec_NodeSelector];
  (** Out of reach of the overrides. *)
  ly_rest : Spec_Tolerations spec = Spec_Tolerations base /\ Spec_Affinity spec = Spec_Affinity base /\
    Spec_PodSecurityContext spec = Spec_PodSecurityContext base /\
    Spec_SecurityContext spec = Spec_SecurityContext base /\
    Spec_ServiceAccountName spec = Spec_ServiceAccountName base }.

(** What an override may count on: a top-level field is the one of the last layer
    that sets it; a map takes the keys of the last layer that sets it; what no
    layer sets is the template's. *)
Record overridden (base : DataPrepperPipelineSpec) (layers : list DataPrepperPipelineSpec)
    (spec : DataPrepperPipelineSpec) : Prop := {
  ov_Image : Spec_Image spec = last_set (set_string Spec_Image) layers (Spec_Image base);
  ov_ImagePullPolicy : Spec_ImagePullPolicy spec =
    last_set (set_string Spec_ImagePullPolicy) layers (Spec_ImagePullPolicy base);
  ov_Pipelines : Spec_Pipelines spec = last_set (set_list Spec_Pipelines) layers (Spec_Pipelines base);
  ov_Scaling : Spec_Scaling spec = last_set (set_option Spec_Scaling) layers (Spec_Scaling base);
  ov_Resources : Spec_Resources spec = last_set (set_option Spec_Resources) layers (Spec_Resources base);
  ov_DataPrepperConfig : Spec_DataPrepperConfig spec =
    last_set (set_option Spec_DataPrepperConfig) layers (Spec_DataPrepperConfig base);
  ov_ServiceMonitor : Spec_ServiceMonitor spec =
    last_set (set_option Spec_ServiceMonitor) layers (Spec_ServiceMonitor base);
  ov_maps : Forall (fun g : DataPrepperPipelineSpec -> gmap string string =>
      (Forall (fun o => g o = ∅) layers -> g spec = g base) /\
      (forall l1 o l2, layers = l1 ++ o :: l2 -> Forall (fun o => g o = ∅) l2 -> g o ⊆ g spec))
    [Spec_PodAnnotations; Spec_PodLabels; Spec_NodeSelector];
  ov_rest :
    (Forall (fun o => Spec_Tolerations o = []) layers -> Spec_Tolerations spec = Spec_Tolerations base) /\
    (Forall (fun o => Spec_Affinity o = None) layers -> Spec_Affinity spec = Spec_Affinity base) /\
    (Forall (fun o => Spec_PodSecurityContext o = None) layers ->
     Spec_PodSecurityContext spec = Spec_PodSecurityContext base) /\
    (Forall (fun o => Spec_SecurityContext o = None) layers ->
     Spec_SecurityContext spec = Spec_SecurityContext base) /\
    (Forall (fun o => Spec_ServiceAccountName o = "") layers ->
     Spec_ServiceAccountName spec = Spec_ServiceAccountName base) }.

Lemma last_set_app {A} (f : DataPrepperPipelineSpec -> option A) l1 l2 base :
  last_set f (l1 ++ l2) base = last_set f l2 (last_set f l1 base).
Proof.
  revert base. induction l1 as [|o l1 IH]; intros base; [done|]. simpl. by rewrite !last_set_cons, IH.
Qed.

Lemma last_set_none {A} (f : DataPrepperPipelineSpec -> option A) layers base :
  Forall (fun o => f o = None) layers -> last_set f layers base = base.
Proof. induction 1 as [|o layers Ho _ IH]; [done|]. by rewrite last_set_cons, Ho. Qed.

Lemma layered_overridden base layers spec : layered base layers spec -> overridden base layers spec.
Proof.
  intros [H1 H2 H3 H4 H5 H6 H7 Hm (R1 & R2 & R3 & R4 & R5)]. constructor; [done..| |by split_and!].
  eapply Forall_impl; [exact Hm|]. intros g Hg. simpl in Hg. split.
  - intros Hn. apply map_eq. intros k. rewrite Hg. apply last_set_none.
    eapply Forall_impl; [exact Hn|]. intros o ->. by rewrite lookup_empty.
  - intros l1 o l2 -> Hn. apply map_subseteq_spec. intros k v Hk.
    rewrite Hg, last_set_app, last_set_cons, Hk. simpl. apply last_set_none.
    eapply Forall_impl; [exact Hn|]. intros o' ->. by rewrite lookup_empty.
Qed.

Lemma foldl_untouched {A} (g : DataPrepperPipelineSpec -> A) layers spec :
  (forall b o, g (applyOverride b o) = g b) -> g (foldl applyOverride spec layers) = g spec.
Proof. intros Hg. revert spec. induction layers as [|o layers IH]; intros spec; simpl; [done|]. by rewrite IH. Qed.

Lemma applyOverrides_layered name overrides base :
  layered base (matching name overrides) (applyOverrides name overrides base).
Proof.
  rewrite applyOverrides_fold. split.
  - apply (foldl_override Spec_Image). intros b o. unfold set_string. simpl. by case_match.
  - apply (foldl_override Spec_ImagePullPolicy). intros b o. unfold set_string. simpl. by case_match.
  - apply (foldl_override Spec_Pipelines). intros b o. unfold set_list. simpl. by case_match.
  - apply (foldl_override Spec_Scaling). intros b o. unfold set_option. simpl. by destruct (Spec_Scaling o).
  - apply (foldl_override Spec_Resources). intros b o. unfold set_option. simpl. by destruct (Spec_Resources o).
  - apply (foldl_override Spec_DataPrepperConfig). intros b o. unfold set_option. simpl.
    by destruct (Spec_DataPrepperConfig o).
  - apply (foldl_override Spec_ServiceMonitor). intros b o. unfold set_option. simpl.
    by destruct (Spec_ServiceMonitor o).
  - repeat constructor; intros k; by apply (foldl_override_map _ _ _ k).
  - split_and!; by apply foldl_untouched.
Qed.

Section render.
Context (MarshalSpec : DataPrepperPipelineSpec -> result string)
  (UnmarshalSpec : string -> result DataPrepperPipelineSpec) 
  (Template : Type) (Parse : string -> result Template)
  (Execute : Template -> TemplateContext -> result string).
Implicit Types (disc : DataPrepperSourceDiscovery).

Abbreviation render := (renderPipelineSpec MarshalSpec UnmarshalSpec Template Parse Execute).

(** The template rendered for a source, before overrides. *)
Definition rendered_template disc (source : DiscoveredSource) : result DataPrepperPipelineSpec :=
  templateJSON ← MarshalSpec (Template_Spec (DSpec_PipelineTemplate (D_Spec disc)));
  tmpl ← Parse templateJSON;
  rendered ← Execute tmpl (mkTemplateContext (DS_Name source) (DS_Metadata source)
                             (Meta_Namespace (D_Meta disc)) (Meta_Name (D_Meta disc)));
  _ ← checkValid rendered;
  UnmarshalSpec rendered.

(** The last step: the Kafka sources of the pipelines. *)
Definition inherited (kafka : option KafkaDiscoverySpec) (ps : list PipelineDefinition)
    : list PipelineDefinition :=
  match kafka with Some k => inheritDefinition k <$> ps | None => ps end.

Lemma render_eq disc source spec :
  render disc source = Ok spec <->
  exists base, rendered_template disc source = Ok base /\
    let s := applyOverrides (DS_Name source) (DSpec_Overrides (D_Spec disc)) base in
    spec = with_pipelines (inherited (DSpec_Kafka (D_Spec disc)) (Spec_Pipelines s)) s.
Proof.
  unfold renderPipelineSpec, rendered_template, RenderJSON.
  destruct (MarshalSpec _) as [j|]; simpl; [|naive_solver].
  destruct (Parse j) as [t|]; simpl; [|naive_solver].
  destruct (Execute t _) as [r|]; simpl; [|naive_solver].
  destruct (checkValid r); simpl; [|naive_solver].
  destruct (UnmarshalSpec r) as [base|]; simpl; [|naive_solver].
  set (s := applyOverrides _ _ base).
  assert (Hs : (match DSpec_Kafka (D_Spec disc) with
                | Some k => inheritKafkaDiscoveryConfig k s | None => s end)
               = with_pipelines (inherited (DSpec_Kafka (D_Spec disc)) (Spec_Pipelines s)) s)
    by (destruct (DSpec_Kafka _); [done|]; by destruct s).
  rewrite Hs. split; [intros [= <-]; by exists base|]. by intros (b & [= <-] & ->).
Qed.

(** A definition before and after the settings of a Kafka discovery are filled in:
    what is set stays, what is missing comes from the discovery, and only the
    Kafka source is concerned. *)
Definition filled (k : KafkaDiscoverySpec) (p q : PipelineDefinition) : Prop :=
  match Src_Kafka (PD_Source p), Src_Kafka (PD_Source q) with
  | None, None => q = p
  | Some s, Some t =>
    q = mkPipelineDefinition (PD_Name p) (PD_Workers p) (PD_Delay p)
          (mkSourceSpec (Some t) (Src_HTTP (PD_Source p)) (Src_OTel (PD_Source p))
             (Src_S3 (PD_Source p)) (Src_Pipeline (PD_Source p)))
          (PD_Buffer p) (PD_Processors p) (PD_Routes p) (PD_Sink p) /\
    KSrc_Topic t = KSrc_Topic s /\ KSrc_GroupID t = KSrc_GroupID s /\
    KSrc_ConsumerConfig t = KSrc_ConsumerConfig s /\
    KSrc_BootstrapServers t =
      (if decide (KSrc_BootstrapServers s = []) then KDisc_BootstrapServers k
       else KSrc_BootstrapServers s) /\
    KSrc_CredentialsSecretRef t =
      (if decide (is_Some (KSrc_CredentialsSecretRef s)) then KSrc_CredentialsSecretRef s
       else KDisc_CredentialsSecretRef k) /\
    KSrc_EncryptionType t =
      (if decide (KSrc_EncryptionType s = "") then KDisc_EncryptionType k else KSrc_EncryptionType s)
  | _, _ => False
  end.

Lemma inheritDefinition_filled k p : filled k p (inheritDefinition k p).
Proof.
  unfold filled, inheritDefinition. simpl. destruct (Src_Kafka (PD_Source p)) as [s|] eqn:E; simpl.
  - split_and!; try done.
    + by destruct (KSrc_BootstrapServers s).
    + destruct (KSrc_CredentialsSecretRef s); case_decide as Hd; try done. by destruct Hd.
    + unfold nonempty. by repeat case_decide; repeat case_bool_decide.
  - destruct p as [? ? ? [] ? ? ? ?]; simpl in *. by subst.
Qed.

(** C22: the spec of a child pipeline is the rendered template with the matching
    overrides laid over it in order: image, pull policy, scaling, resources,
    Data Prepper configuration, service monitor and the list of pipelines are,
    as a whole, those of the last matching override that sets them and otherwise
    those of the template; pod annotations, pod labels and node selector contain
    what the last matching override that sets them asks for; every field that no
    matching override sets is the template's. Then, for a Kafka discovery,
    every Kafka source keeps the servers, credentials and encryption it has and
    takes the missing ones from the discovery, and nothing else changes.
    Overrides with a malformed pattern count as not matching. *)
Theorem rendered_spec_layers disc source spec :
  render disc source = Ok spec ->
  exists base s, rendered_template disc source = Ok base /\
    overridden base (matching (DS_Name source) (DSpec_Overrides (D_Spec disc))) s /\
    with_pipelines (Spec_Pipelines s) spec = s /\
    match DSpec_Kafka (D_Spec disc) with
    | Some k => Forall2 (filled k) (Spec_Pipelines s) (Spec_Pipelines spec)
    | None => Spec_Pipelines spec = Spec_Pipelines s
    end.
Proof.
  intros (base & Hbase & ->)%render_eq. cbv zeta. set (s := applyOverrides _ _ base).
  exists base, s. split_and!; [done|apply layered_overridden, applyOverrides_layered|by destruct s|].
  unfold inherited. destruct (DSpec_Kafka _) as [k|]; [|done]. simpl.
  induction (Spec_Pipelines s) as [|p ps IH]; simpl; constructor; [|done]. apply inheritDefinition_filled.
Qed.

(** ** Sharing with the overrides *)

Definition with_overrides (os : list DiscoveryOverrideSpec) disc : DataPrepperSourceDiscovery :=
  let s := D_Spec disc in
  mkDataPrepperSourceDiscovery (D_Meta disc)
    (mkDataPrepperSourceDiscoverySpec (DSpec_Kafka s) (DSpec_S3 s) (DSpec_PipelineTemplate s) os
       (DSpec_MaxCreationsPerCycle s)) (D_Status disc).

(** The override after the in-place update of the Kafka sources it shares with
    a spec. *)
Definition fill_override (k : KafkaDiscoverySpec) (o : DiscoveryOverrideSpec) : DiscoveryOverrideSpec :=
  mkDiscoveryOverrideSpec (Override_Pattern o)
    (with_pipelines (inheritDefinition k <$> Spec_Pipelines (Override_Spec o)) (Override_Spec o)).

(** The override whose pipelines the spec shares after the loop over the overrides:
    the last matching one that has some ([base.Pipelines = override.Pipelines]). *)
Fixpoint sharedIndex (name : string) (os : list DiscoveryOverrideSpec) : option nat :=
  match os with
  | [] => None
  | o :: os =>
    match sharedIndex name os with
    | Some i => Some (S i)
    | None => if applies name o && negb (bool_decide (Spec_Pipelines (Override_Spec o) = []))
              then Some 0%nat else None
    end
  end.

(** A rendered spec: the value it had when it was returned, and the override its
    list of pipelines is shared with. *)
Definition shared_spec : Type := DataPrepperPipelineSpec * option nat.

(** What a reader of the spec sees, given the discovery as it is now. *)
Definition observe disc (s : shared_spec) : DataPrepperPipelineSpec :=
  match s.2 with
  | Some i =>
    match DSpec_Overrides (D_Spec disc) !! i with
    | Some o => with_pipelines (Spec_Pipelines (Override_Spec o)) s.1
    | None => s.1
    end
  | None => s.1
  end.

(** [renderPipelineSpec] with its effect on the discovery in memory. *)
Definition renderShared disc (source : DiscoveredSource)
    : result shared_spec * DataPrepperSourceDiscovery :=
  match render disc source with
  | Err e => (Err e, disc)
  | Ok spec =>
    let os := DSpec_Overrides (D_Spec disc) in
    let shared := sharedIndex (DS_Name source) os in
    (Ok (spec, shared),
     match DSpec_Kafka (D_Spec disc), shared with
     | Some k, Some i => with_overrides (alter (fill_override k) i os) disc
     | _, _ => disc
     end)
  end.

(** The loop of [reconcilePipelines] over the sources, on the shared discovery;
    the hash is that of the spec at the moment it is rendered. *)
Fixpoint desiredShared disc (m : gmap string (shared_spec * string)) (sources : list DiscoveredSource)
    : result (gmap string (shared_spec * string)) * DataPrepperSourceDiscovery :=
  match sources with
  | [] => (Ok m, disc)
  | source :: sources =>
    match renderShared disc source with
    | (Err e, disc) =>
      (Err (Msg "render pipeline for %q: %w" [AStr (DS_Name source); AErr e]), disc)
    | (Ok s, disc) =>
      desiredShared disc
        (<[pipelineName disc (DS_Name source) :=
             (s, computeSpecHash MarshalSpec (observe disc s))]> m) sources
    end
  end.

(** The desired state as the later loops read it. *)
Definition observe_desired disc (d : shared_spec * string) : desired := mkDesired (observe disc d.1) d.2.

Lemma sharedIndex_lookup name os i : sharedIndex name os = Some i -> is_Some (os !! i).
Proof.
  revert i. induction os as [|o os IH]; intros i; simpl; [done|].
  destruct (sharedIndex name os) as [j|]; [intros [= <-]; simpl; by apply IH|].
  case_match; [intros [= <-]; simpl; eauto|done].
Qed.

Lemma sharedIndex_pipelines name os base :
  Spec_Pipelines (applyOverrides name os base) =
  match sharedIndex name os ≫= fun i => os !! i with
  | Some o => Spec_Pipelines (Override_Spec o)
  | None => Spec_Pipelines base
  end.
Proof.
  rewrite applyOverrides_fold. unfold matching. revert base.
  induction os as [|o os IH]; intros base; [done|].
  rewrite filter_cons. cbn [sharedIndex].
  case_decide as Ha; simpl; rewrite IH;
    (destruct (sharedIndex name os) as [i|] eqn:E; simpl;
      [by destruct (sharedIndex_lookup _ _ _ E) as [o' ->]|]).
  - apply Is_true_true in Ha as ->. simpl. case_bool_decide as Hp; simpl; [by rewrite Hp|].
    by destruct (Spec_Pipelines (Override_Spec o)).
  - by apply Is_true_false in Ha as ->.
Qed.

Lemma fill_override_idempotent k o : fill_override k (fill_override k o) = fill_override k o.
Proof. unfold fill_override. simpl. by rewrite inherit_pipelines_idempotent. Qed.

(** Overrides that renderings have filled in part. *)
Abbreviation partly_filled k := (Forall2 (fun o o' => o' = o \/ o' = fill_override k o)).

Lemma partly_filled_alter k os os' i :
  partly_filled k os os' -> partly_filled k os (alter (fill_override k) i os').
Proof.
  intros H. revert i. induction H as [|o o' os os' Ho H IH]; intros [|i]; simpl; constructor; try done; [|apply IH].
  right. destruct Ho as [->| ->]; [done|apply fill_override_idempotent].
Qed.

(** Specs that differ in what a Kafka discovery fills in. *)
Definition fills_equal (k : KafkaDiscoverySpec) (s s' : DataPrepperPipelineSpec) : Prop :=
  with_pipelines [] s' = with_pipelines [] s /\
  inheritDefinition k <$> Spec_Pipelines s' = inheritDefinition k <$> Spec_Pipelines s.

Lemma fills_equal_shape k s s' :
  fills_equal k s s' -> s' = with_pipelines (Spec_Pipelines s') s.
Proof.
  intros [Hs _]. change (with_pipelines (Spec_Pipelines s') s)
    with (with_pipelines (Spec_Pipelines s') (with_pipelines [] s)).
  rewrite <-Hs. by destruct s'.
Qed.

Lemma applyOverride_fills_equal k s s' o o' :
  fills_equal k s s' -> o' = o \/ o' = fill_override k o ->
  fills_equal k (applyOverride s (Override_Spec o)) (applyOverride s' (Override_Spec o')).
Proof.
  intros Hs Ho. rewrite (fills_equal_shape k s s') by done. destruct Hs as [_ Hp].
  destruct Ho as [->| ->]; split; try done; simpl.
  - by destruct (Spec_Pipelines (Override_Spec o)).
  - destruct (Spec_Pipelines (Override_Spec o)) as [|p ps]; simpl; [done|].
    by rewrite inheritDefinition_idempotent, inherit_pipelines_idempotent.
Qed.

Lemma applyOverrides_fills_equal k name os os' s s' :
  fills_equal k s s' -> partly_filled k os os' ->
  fills_equal k (applyOverrides name os s) (applyOverrides name os' s').
Proof.
  intros Hs H. revert s s' Hs. induction H as [|o o' os os' Ho H IH]; intros s s' Hs; [done|].
  unfold applyOverrides in *. simpl. apply IH.
  assert (Override_Pattern o' = Override_Pattern o) as -> by (by destruct Ho as [->| ->]).
  destruct (Match _ name) as [[]|]; try done. by apply applyOverride_fills_equal.
Qed.

Lemma fills_equal_inherited k s s' :
  fills_equal k s s' -> inheritKafkaDiscoveryConfig k s' = inheritKafkaDiscoveryConfig k s.
Proof.
  intros Hs. rewrite (fills_equal_shape k s s') by done. destruct Hs as [_ Hp].
  unfold inheritKafkaDiscoveryConfig. simpl. by rewrite Hp.
Qed.

(** Rendering on a discovery whose overrides have been filled in part. *)
Lemma render_partly_filled disc os source k :
  DSpec_Kafka (D_Spec disc) = Some k -> partly_filled k (DSpec_Overrides (D_Spec disc)) os ->
  render (with_overrides os disc) source = render disc source.
Proof.
  intros Hk Hos. unfold renderPipelineSpec. simpl. rewrite Hk.
  destruct (wrap_err _ _ (MarshalSpec _)); simpl; [|done].
  destruct (wrap_err _ _ (RenderJSON _ _ _ _ _)); simpl; [|done].
  destruct (wrap_err _ _ (UnmarshalSpec _)); simpl; [|done]. f_equal.
  by apply fills_equal_inherited, applyOverrides_fills_equal.
Qed.

(** What the loop keeps of the discovery it started with. *)
Definition filling disc disc' : Prop :=
  match DSpec_Kafka (D_Spec disc) with
  | Some k => exists os, disc' = with_overrides os disc /\ partly_filled k (DSpec_Overrides (D_Spec disc)) os
  | None => disc' = disc
  end.

(** A spec that later renderings do not change: the override it shares has all
    that the discovery can fill in. *)
Definition settled disc' (s : shared_spec) : Prop :=
  forall i, s.2 = Some i -> exists o, DSpec_Overrides (D_Spec disc') !! i = Some o /\
    Spec_Pipelines (Override_Spec o) = Spec_Pipelines s.1 /\
    forall k, DSpec_Kafka (D_Spec disc') = Some k -> fill_override k o = o.

Lemma settled_observe disc' s : settled disc' s -> observe disc' s = s.1.
Proof.
  unfold observe, settled. destruct s as [spec [i|]]; simpl; [|done].
  intros H. destruct (H i eq_refl) as (o & -> & -> & _). by destruct spec.
Qed.

Lemma filling_refl disc : filling disc disc.
Proof.
  unfold filling. destruct (DSpec_Kafka _) as [k|]; [|done].
  exists (DSpec_Overrides (D_Spec disc)). split; [by destruct disc as [? [] ?]|].
  apply Forall2_same_length_lookup_2; [done|]. intros i o o' Ho Ho'. left. by simplify_eq.
Qed.

Lemma filling_render disc disc' source : filling disc disc' -> render disc' source = render disc source.
Proof.
  unfold filling. destruct (DSpec_Kafka (D_Spec disc)) as [k|] eqn:Hk; [|by intros ->].
  intros (os & -> & Hos). by apply (render_partly_filled _ _ _ k).
Qed.

Lemma filling_meta disc disc' : filling disc disc' -> D_Meta disc' = D_Meta disc.
Proof. unfold filling. case_match; [by intros (os & -> & _)|by intros ->]. Qed.

Lemma rendered_pipelines disc source spec o i :
  render disc source = Ok spec ->
  sharedIndex (DS_Name source) (DSpec_Overrides (D_Spec disc)) = Some i ->
  DSpec_Overrides (D_Spec disc) !! i = Some o ->
  Spec_Pipelines spec = inherited (DSpec_Kafka (D_Spec disc)) (Spec_Pipelines (Override_Spec o)).
Proof.
  intros (base & _ & ->)%render_eq Hi Ho. simpl. rewrite sharedIndex_pipelines, Hi. simpl. by rewrite Ho.
Qed.

(** The write through the shared pipelines. *)
Abbreviation write k i disc' :=
  (with_overrides (alter (fill_override k) i (DSpec_Overrides (D_Spec disc'))) disc').

Lemma filling_write disc disc' k i :
  filling disc disc' -> DSpec_Kafka (D_Spec disc') = Some k -> filling disc (write k i disc').
Proof.
  unfold filling. destruct (DSpec_Kafka (D_Spec disc)) as [k'|] eqn:Hk; [|intros ->; congruence].
  intros (os & -> & Hos) Hk'. simpl in *. assert (k' = k) as -> by congruence.
  eexists. split; [done|]. by apply partly_filled_alter.
Qed.

Lemma settled_write disc' k i s :
  settled disc' s -> DSpec_Kafka (D_Spec disc') = Some k -> settled (write k i disc') s.
Proof.
  intros Hs Hk j Hj. destruct (Hs j Hj) as (o & Ho & Hp & Hf). exists o. simpl.
  split_and!; [|done..]. destruct (decide (i = j)) as [->|]; [|by rewrite list_lookup_alter_ne].
  rewrite list_lookup_alter_eq, Ho. simpl. by rewrite Hf.
Qed.

(** A rendering: the value is that of the discovery the loop started with, and it
    and the earlier ones stay as they are. *)
Lemma renderShared_step disc disc' source r disc'' :
  filling disc disc' -> renderShared disc' source = (r, disc'') ->
  filling disc disc'' /\ (forall s, settled disc' s -> settled disc'' s) /\
  match r with
  | Ok s => render disc source = Ok s.1 /\ settled disc'' s
  | Err e => render disc source = Err e
  end.
Proof.
  intros Hf. unfold renderShared. pose proof (filling_render _ _ source Hf) as E.
  destruct (render disc' source) as [spec|e] eqn:Er; [|by intros [= <- <-]].
  intros [= <- <-]. simpl. rewrite <-E.
  pose proof (rendered_pipelines disc' source spec) as Hp.
  destruct (sharedIndex _ _) as [i|] eqn:Hi.
  2:{ case_match; split_and!; try done; by intros i [=]. }
  destruct (sharedIndex_lookup _ _ _ Hi) as [o Ho]. specialize (Hp o i Er eq_refl Ho).
  destruct (DSpec_Kafka (D_Spec disc')) as [k|] eqn:Hk; simpl in Hp.
  - split_and!; [by apply filling_write|intros s Hs; by apply settled_write|done|].
    intros j [= <-]. exists (fill_override k o). simpl. rewrite list_lookup_alter_eq, Ho, Hk.
    split_and!; [done|by simpl; rewrite Hp|]. intros k' [= <-]. apply fill_override_idempotent.
  - split_and!; try done. intros j [= <-]. exists o. split_and!; [done..|by rewrite Hk].
Qed.

Abbreviation desired_of := (desiredPipelines MarshalSpec UnmarshalSpec Template Parse Execute).
Abbreviation add := (addDesired MarshalSpec UnmarshalSpec Template Parse Execute).

Lemma addDesired_eq disc m source :
  add disc m source =
  match render disc source with
  | Ok spec => Ok (<[pipelineName disc (DS_Name source) :=
      mkDesired spec (computeSpecHash MarshalSpec spec)]> m)
  | Err e => Err (Msg "render pipeline for %q: %w" [AStr (DS_Name source); AErr e])
  end.
Proof. unfold addDesired. by destruct (render disc source). Qed.

Lemma desiredShared_loop disc disc' m sources r disc'' :
  filling disc disc' -> (forall n d, m !! n = Some d -> settled disc' d.1) ->
  desiredShared disc' m sources = (r, disc'') ->
  filling disc disc'' /\
  match r with
  | Ok m' => fold_res (add disc) (observe_desired disc' <$> m) sources = Ok (observe_desired disc'' <$> m')
  | Err e => fold_res (add disc) (observe_desired disc' <$> m) sources = Err e
  end.
Proof.
  revert disc' m. induction sources as [|source sources IH]; intros disc' m Hf Hm; simpl.
  { by intros [= <- <-]. }
  destruct (renderShared disc' source) as [r1 disc1] eqn:E1.
  apply (renderShared_step disc) in E1 as (Hf1 & Hkeep & Hr); [|done].
  rewrite addDesired_eq. destruct r1 as [s|e]; [|intros [= <- <-]; by rewrite Hr].
  destruct Hr as [-> Hs]. intros Hd. apply IH in Hd as [Hf2 Hd]; [|done|].
  2:{ intros n d [[_ <-]|[_ Hn]]%lookup_insert_Some; [done|]. eauto. }
  split; [done|]. simpl.
  assert (observe_desired disc1 (s, computeSpecHash MarshalSpec (observe disc1 s))
          = mkDesired s.1 (computeSpecHash MarshalSpec s.1)) as Ho
    by (unfold observe_desired; simpl; by rewrite settled_observe).
  rewrite fmap_insert, Ho in Hd.
  assert (pipelineName disc1 (DS_Name source) = pipelineName disc (DS_Name source)) as Hn
    by (unfold pipelineName; by rewrite (filling_meta disc disc1)).
  rewrite Hn in Hd.
  assert (observe_desired disc1 <$> m = observe_desired disc' <$> m) as Hmm.
  { apply map_fmap_ext. intros n d Hnd. unfold observe_desired.
    by rewrite !settled_observe by eauto. }
  by rewrite Hmm in Hd.
Qed.

(** C23: rendering writes into the discovery: an override that sets the pipelines
    shares them with the specs rendered from it, and filling in the Kafka settings
    goes through to the override and so to every spec rendered before.  None of it
    can be seen: the desired state that the creation and update loops read, after
    all sources are rendered on the one shared discovery, its specs, its hashes and
    any error, is that of rendering each source on a fresh copy, and of the
    discovery only the overrides change, each either as it was or with the missing
    Kafka settings filled in. *)
Theorem rendering_sharing_harmless disc sources :
  let '(r, disc') := desiredShared disc ∅ sources in
  match r with Ok m => Ok (observe_desired disc' <$> m) | Err e => Err e end = desired_of disc sources /\
  D_Meta disc' = D_Meta disc /\ D_Status disc' = D_Status disc /\
  exists os, disc' = with_overrides os disc /\
    Forall2 (fun o o' => o' = o \/ exists k, DSpec_Kafka (D_Spec disc) = Some k /\ o' = fill_override k o)
      (DSpec_Overrides (D_Spec disc)) os.
Proof.
  destruct (desiredShared disc ∅ sources) as [r disc'] eqn:E.
  apply (desiredShared_loop disc) in E as [Hf Hd]; [|apply filling_refl|by intros n d].
  rewrite fmap_empty in Hd. split; [unfold desiredPipelines; by destruct r|].
  unfold filling in Hf. destruct (DSpec_Kafka (D_Spec disc)) as [k|] eqn:Hk; [|subst disc'].
  - destruct Hf as (os & -> & Hos). split_and!; [done..|]. exists os. split; [done|].
    eapply Forall2_impl; [exact Hos|]. intros o o' [->| ->]; eauto.
  - split_and!; [done..|]. exists (DSpec_Overrides (D_Spec disc)). split; [by destruct disc as [? [] ?]|].
    apply Forall2_same_length_lookup_2; [done|]. intros i o o' Ho Ho'. left. by simplify_eq.
Qed.
End render.

(** ** Witnesses *)
Module RenderingExamples.

(** One pipeline that reads a Kafka topic and leaves the connection open. *)
Definition kafka_pipeline (servers : list string) (encryption : string) : PipelineDefinition :=
  mkPipelineDefinition "entry" 0 0
    (mkSourceSpec (Some (mkKafkaSourceSpec servers "audit" "g" None ∅ encryption)) None None None None)
    None [] [] [].

Definition spec (image account : string) (ps : list PipelineDefinition) : DataPrepperPipelineSpec :=
  mkDataPrepperPipelineSpec image "" ps None None None None {["team" := image]} ∅ ∅ [] None None None account.

(** A Kafka discovery with a template and two overrides, the second for the audit
    topics; it asks for a service account, which overrides cannot set. *)
Definition disc : DataPrepperSourceDiscovery :=
  mkDataPrepperSourceDiscovery
    (mkObjectMeta "topics" "prod" "uid-d" 1 None None None [] [])
    (mkDataPrepperSourceDiscoverySpec
       (Some (mkKafkaDiscoverySpec ["kafka:9092"] None "ssl" (mkKafkaTopicSelectorSpec "" []) "" "Delete"))
       None (mkPipelineTemplateSpec (spec "dp:1" "runner" []))
       [mkDiscoveryOverrideSpec "*" (spec "dp:2" "" []);
        mkDiscoveryOverrideSpec "audit*" (spec "dp:3" "admin" [kafka_pipeline [] ""]);
        mkDiscoveryOverrideSpec "[" (spec "dp:4" "" [])] None)
    (mkDataPrepperSourceDiscoveryStatus DiscoveryPhaseUnset 0 0 0 0 0 None [] []).

Definition audit (name : string) : DiscoveredSource := mkDiscoveredSource name ∅.

Abbreviation render_example :=
  (renderPipelineSpec (fun _ => Ok "{}") (fun _ => Ok (spec "dp:1" "runner" []))
     unit (fun _ => Ok tt) (fun _ _ => Ok "{}")).

Lemma rendered_spec_layers_witness :
  exists s, render_example disc (audit "audit-eu") = Ok s /\
    Spec_Image s = "dp:3" /\ Spec_ServiceAccountName s = "runner" /\
    Spec_Pipelines s = [kafka_pipeline ["kafka:9092"] "ssl"].
Proof.
  assert (Hrun : render_example disc (audit "audit-eu")
                 = Ok (spec "dp:3" "runner" [kafka_pipeline ["kafka:9092"] "ssl"]))
    by (vm_compute; reflexivity).
  destruct (rendered_spec_layers (fun _ => Ok "{}") (fun _ => Ok (spec "dp:1" "runner" []))
    unit (fun _ => Ok tt) (fun _ _ => Ok "{}") disc (audit "audit-eu") _ Hrun)
    as (base & s & Hbase & Hl & Hs & _).
  exists (spec "dp:3" "runner" [kafka_pipeline ["kafka:9092"] "ssl"]). injection Hbase as <-.
  split; [exact Hrun|]. split; [|split]; [|reflexivity..].
  exact (eq_trans (f_equal Spec_Image Hs) (ov_Image _ _ _ Hl)).
Defined.

(** The write is real: after rendering the audit topics, the second override of the
    discovery in memory has the servers of the discovery. *)
Example override_written :
  (fun d => Spec_Pipelines (Override_Spec d)) <$>
  DSpec_Overrides (D_Spec (snd (renderShared (fun _ => Ok "{}") (fun _ => Ok (spec "dp:1" "runner" []))
    unit (fun _ => Ok tt) (fun _ _ => Ok "{}") disc (audit "audit-eu"))))
  = [[]; [kafka_pipeline ["kafka:9092"] "ssl"]; []].
Proof. vm_compute. reflexivity. Qed.

End RenderingExamples.
