(* ===== verification/Template.v ===== *)
(** * Templates: rendering a pipeline template ([internal/template/renderer.go])

    The fragment of [text/template] that the documentation, the samples and the
    tests use, actions that print a field of the context, as the function [expand].
    [TemplateLaws] says that an engine behaves so on this fragment.  With the JSON
    form of specs ([SpecJson]), [rendered_template_substitutes] shows what rendering
    the JSON text of a template and reading the result gives: the template with the
    actions replaced inside its strings, when the values need no escaping.  The
    examples at the end show what happens when they do. *)

From S2P Require Import Prelude Go Json JsonEncode Codec SpecJson Api Sha256 DiscoveryController Rendering.
From S2P Require Import Discovery Resources.
From Stdlib Require Import Ascii.
#[local] Open Scope Z_scope.

(** ** Field actions *)

Definition is_alnum (c : ascii) : bool :=
  in_range 48 57 (byte_val c) || in_range 65 90 (byte_val c) || in_range 97 122 (byte_val c) ||
  bool_decide (c = "_"%char).

(** The characters of a field action between its delimiters. *)
Definition action_char (c : ascii) : bool :=
  is_alnum c || bool_decide (c = "."%char) || bool_decide (c = space).

Abbreviation lbrace := "{"%char.
Abbreviation rbrace := "}"%char.

Inductive expr :=
| EDiscoveredName
| ENamespace
| EDiscoveryName
| EMetadata (key : string).

Definition expr_of (path : list ascii) : option expr :=
  if bool_decide (path = bytes ".DiscoveredName") then Some EDiscoveredName
  else if bool_decide (path = bytes ".Namespace") then Some ENamespace
  else if bool_decide (path = bytes ".DiscoveryName") then Some EDiscoveryName
  else if bool_decide (take 10 path = bytes ".Metadata.") then
    match drop 10 path with
    | c :: key =>
      if forallb is_alnum (c :: key) && negb (is_digit c) then Some (EMetadata (of_bytes (c :: key))) else None
    | [] => None
    end
  else None.

(** The longest prefix of action characters. *)
Fixpoint span_action (l : list ascii) : list ascii * list ascii :=
  match l with
  | c :: l' => if action_char c then let '(b, r) := span_action l' in (c :: b, r) else ([], l)
  | [] => ([], [])
  end.

Definition strip (l : list ascii) : list ascii := trim space l.

(** An action after its opening delimiter: the expression and its length, the
    closing delimiter included. *)
Definition parse_action (l : list ascii) : option (expr * nat) :=
  let '(body, rest) := span_action l in
  match rest with
  | c1 :: c2 :: _ =>
    if bool_decide (c1 = rbrace) && bool_decide (c2 = rbrace)
    then e ← expr_of (strip body); Some (e, (length body + 2)%nat)
    else None
  | _ => None
  end.

(** What [fmt.Fprint] prints for a value; a missing key prints [<no value>]. *)
Definition print_value (v : option any) : option string :=
  match v with
  | None | Some VNil => Some "<no value>"
  | Some (VStr s) => Some s
  | Some (VInt z) => Some (Itoa z)
  | Some (VBool b) => Some (if b then "true" else "false")
  | Some _ => None
  end.

Definition eval (ctx : TemplateContext) (e : expr) : option string :=
  match e with
  | EDiscoveredName => Some (DiscoveredName ctx)
  | ENamespace => Some (Namespace ctx)
  | EDiscoveryName => Some (DiscoveryName ctx)
  | EMetadata key => print_value (Metadata ctx !! key)
  end.

(** Parse and execute a text whose actions are all of this form; [skip] counts the
    bytes of the current action still to be passed over. *)
Fixpoint expand (ctx : TemplateContext) (l : list ascii) (skip : nat) : option (list ascii) :=
  match l with
  | [] => Some []
  | c :: l' =>
    match skip with
    | S k => expand ctx l' k
    | O =>
      if bool_decide (c = lbrace) && bool_decide (head l' = Some lbrace) then
        '(e, n) ← parse_action (tail l');
        v ← eval ctx e;
        o ← expand ctx l' (S n);
        Some (bytes v ++ o)
      else o ← expand ctx l' 0; Some (c :: o)
    end
  end.

Section expand.
Variable ctx : TemplateContext.
Abbreviation expand := (expand ctx).

Lemma expand_drop l n : expand l n = expand (drop n l) 0.
Proof. apply (skip_drop expand); [by intros []|done]. Qed.

(** A text without opening braces is copied. *)
Lemma expand_literal b x : Forall (fun c => c ≠ lbrace) b -> expand (b ++ x) 0 = o ← expand x 0; Some (b ++ o).
Proof.
  induction 1 as [|c b Hc Hb IH]; cbn; [by destruct (expand x 0)|].
  rewrite bool_decide_eq_false_2 by done. cbn. rewrite IH. by destruct (expand x 0).
Qed.

(** A single opening brace too. *)
Lemma expand_brace x : head x ≠ Some lbrace -> expand (lbrace :: x) 0 = o ← expand x 0; Some (lbrace :: o).
Proof. intros Hx. cbn -[bool_decide]. by rewrite bool_decide_eq_true_2, bool_decide_eq_false_2. Qed.

Lemma span_action_app l b r :
  span_action l = (b, r) -> l = b ++ r /\ Forall (fun c => action_char c = true) b.
Proof.
  revert b r. induction l as [|c l IH]; intros b r; cbn; [by intros [= <- <-]|].
  destruct (action_char c) eqn:Hc; [|by intros [= <- <-]].
  destruct (span_action l) as [b' r'] eqn:E. intros [= <- <-]. destruct (IH _ _ eq_refl) as [-> Hb].
  split; [done|by constructor].
Qed.

Lemma span_action_stop b r :
  Forall (fun c => action_char c = true) b -> span_action (b ++ rbrace :: r) = (b, rbrace :: r).
Proof. induction 1 as [|c b Hc Hb IH]; [done|]. cbn. by rewrite Hc, IH. Qed.

(** An action ends where it says, whatever follows. *)
Lemma parse_action_inv l e n : parse_action l = Some (e, n) ->
  exists b r, l = b ++ rbrace :: rbrace :: r /\ Forall (fun c => action_char c = true) b /\
    n = (length b + 2)%nat /\ forall r', parse_action (b ++ rbrace :: rbrace :: r') = Some (e, n).
Proof.
  unfold parse_action. destruct (span_action l) as [b r] eqn:E. apply span_action_app in E as [-> Hb].
  destruct r as [|c1 [|c2 r]]; try done.
  case_bool_decide as H1; [|done]. case_bool_decide as H2; [|done]. cbn [andb]. subst c1 c2.
  intros He. exists b, r. split_and!; [done|done| |].
  - by apply bind_Some in He as (e' & _ & [= _ <-]).
  - intros r'. rewrite span_action_stop by done. by rewrite !bool_decide_eq_true_2.
Qed.

Definition action (b : list ascii) : list ascii := lbrace :: lbrace :: b ++ [rbrace; rbrace].

Lemma drop_action b r : drop (length b + 2) (b ++ rbrace :: rbrace :: r) = r.
Proof. rewrite drop_app, drop_ge by lia. by replace (length b + 2 - length b)%nat with 2%nat by lia. Qed.

Lemma expand_action b e r :
  parse_action (b ++ rbrace :: rbrace :: r) = Some (e, (length b + 2)%nat) ->
  expand (action b ++ r) 0 = (v ← eval ctx e; o ← expand r 0; Some (bytes v ++ o)).
Proof.
  intros Hp. unfold action. cbn -[bool_decide parse_action]. rewrite !bool_decide_eq_true_2 by done.
  rewrite <-app_assoc. cbn [app]. rewrite Hp. cbn. destruct (eval ctx e) as [v|]; [|done]. cbn.
  rewrite (expand_drop (b ++ _)). by rewrite (drop_action b r).
Qed.

(** How a text expands: to nothing, by a literal byte, or by an action. *)
Lemma expand_cases l o : expand l 0 = Some o ->
  (l = [] /\ o = []) \/
  (exists c l' o', l = c :: l' /\ o = c :: o' /\ (c = lbrace -> head l' ≠ Some lbrace) /\ expand l' 0 = Some o') \/
  (exists b e v r o', l = action b ++ r /\ o = bytes v ++ o' /\ Forall (fun c => action_char c = true) b /\
     (forall r', parse_action (b ++ rbrace :: rbrace :: r') = Some (e, (length b + 2)%nat)) /\
     eval ctx e = Some v /\ expand r 0 = Some o').
Proof.
  destruct l as [|c l]; [intros [= <-]; by left|]. cbn -[bool_decide parse_action]. intros H. right.
  destruct (bool_decide (c = lbrace) && bool_decide (head l = Some lbrace)) eqn:E.
  - apply andb_prop in E as [->%bool_decide_eq_true Hh%bool_decide_eq_true]. right.
    destruct l as [|c2 l]; [done|]. injection Hh as ->. cbn [tail] in H.
    apply bind_Some in H as ([e n] & Hp & (v & Hv & (o' & Ho & [= <-])%bind_Some)%bind_Some).
    apply parse_action_inv in Hp as (b & r & -> & Hb & -> & Hp). exists b, e, v, r, o'.
    unfold action. cbn [app]. rewrite <-app_assoc. split_and!; try done. rewrite <-Ho.
    rewrite (expand_drop (lbrace :: _)). cbn [drop]. by rewrite drop_action.
  - left. apply bind_Some in H as (o' & Ho & [= <-]). exists c, l, o'. split_and!; try done.
    intros -> Hh. by rewrite Hh in E.
Qed.

Lemma expand_ind (Q : list ascii -> list ascii -> Prop) :
  Q [] [] ->
  (forall c l o, (c = lbrace -> head l ≠ Some lbrace) -> expand l 0 = Some o -> Q l o -> Q (c :: l) (c :: o)) ->
  (forall b e v r o, Forall (fun c => action_char c = true) b ->
     (forall r', parse_action (b ++ rbrace :: rbrace :: r') = Some (e, (length b + 2)%nat)) ->
     eval ctx e = Some v -> expand r 0 = Some o -> Q r o -> Q (action b ++ r) (bytes v ++ o)) ->
  forall l o, expand l 0 = Some o -> Q l o.
Proof.
  intros Hnil Hlit Hact l. remember (length l) as n eqn:Hn. revert l Hn.
  induction (Nat.lt_wf_0 n) as [n _ IH]. intros l -> o Ho.
  destruct (expand_cases l o Ho) as [[-> ->]|[(c & l' & o' & -> & -> & Hc & Ho')|(b & e & v & r & o' & -> & -> & Hb & Hp & Hv & Ho')]].
  - done.
  - apply Hlit; [done|done|]. by apply (IH (length l')); [simpl; lia|..].
  - eapply Hact; try done. apply (IH (length r)); [|done..]. unfold action. rewrite length_app. simpl. lia.
Qed.

(** A text is expanded piece by piece where the pieces do not form a delimiter. *)
Lemma expand_app a x a' :
  expand a 0 = Some a' -> head x ≠ Some lbrace -> expand (a ++ x) 0 = o ← expand x 0; Some (a' ++ o).
Proof.
  intros Ha Hx. revert a a' Ha. apply (expand_ind (fun a a' => expand (a ++ x) 0 = (o ← expand x 0; Some (a' ++ o)))).
  - cbn. by destruct (expand x 0).
  - intros c l o Hc _ IH. destruct (decide (c = lbrace)) as [->|Hne].
    + cbn [app]. rewrite expand_brace by (destruct l; [done|by apply Hc]). rewrite IH. by destruct (expand x 0).
    + change ((c :: l) ++ x) with ([c] ++ (l ++ x)). rewrite expand_literal by (by repeat constructor). rewrite IH. by destruct (expand x 0).
  - intros b e v r o _ Hp Hv _ IH. rewrite <-app_assoc. rewrite (expand_action b e) by done. rewrite Hv. cbn.
    rewrite IH. destruct (expand x 0); [cbn|done]. by rewrite app_assoc.
Qed.

(** ** Expansion inside quoted strings *)

(** Values that can stand in a JSON string as they are. *)
Definition json_safe (v : string) : bool :=
  forallb (fun c => (32 <=? byte_val c) && negb (bool_decide (c = quote)) && negb (bool_decide (c = backslash))) (bytes v)
  && valid_utf8 (bytes v) 0.

(** Bytes that are quoted as they are. *)
Definition unescaped (c : ascii) : Prop := byte_val c < 128 /\ escape_ascii c = [c].

Lemma quote_unescaped b x : Forall unescaped b -> quote_bytes (b ++ x) 0 = b ++ quote_bytes x 0.
Proof.
  induction 1 as [|c b [Hc He] Hb IH]; [done|]. cbn -[decode_rune]. unfold escape_rune.
  rewrite (proj2 (Z.ltb_lt _ _) Hc), He, decode_rune_ascii by done. cbn. by rewrite IH.
Qed.

Lemma action_unescaped c : action_char c = true -> unescaped c.
Proof.
  intros H. enough (forall c, implb (action_char c) ((byte_val c <? 128) && bool_decide (escape_ascii c = [c])) = true) as Hall.
  { specialize (Hall c). rewrite H in Hall. cbn -[byte_val] in Hall. apply andb_prop in Hall as [H1 H2].
    split; [lia|by apply bool_decide_eq_true in H2]. }
  clear. intros c. destruct c as [[] [] [] [] [] [] [] []]; reflexivity.
Qed.

Lemma quote_action b x : Forall (fun c => action_char c = true) b ->
  quote_bytes (action b ++ x) 0 = action b ++ quote_bytes x 0.
Proof.
  intros Hb. apply quote_unescaped. unfold action. repeat constructor.
  apply Forall_app. split; [|by repeat constructor]. eapply Forall_impl; [exact Hb|]. apply action_unescaped.
Qed.

(** The escapes of a rune are no delimiters. *)
Lemma escape_ascii_literal c : byte_val c < 128 -> c ≠ lbrace -> Forall (fun d => d ≠ lbrace) (escape_ascii c).
Proof.
  intros Hc Hne. enough (forall c, bool_decide (c = lbrace) || (128 <=? byte_val c) ||
    bool_decide (lbrace ∉ escape_ascii c) = true) as Hall.
  { specialize (Hall c). rewrite (bool_decide_eq_false_2 _ Hne), (proj2 (Z.leb_gt _ _) Hc) in Hall. cbn [orb] in Hall.
    apply bool_decide_eq_true in Hall. apply Forall_forall. intros d Hd ->. done. }
  clear. intros c. destruct c as [[] [] [] [] [] [] [] []]; reflexivity.
Qed.

Lemma high_literal l : Forall (fun d => 128 <= byte_val d) l -> Forall (fun d => d ≠ lbrace) l.
Proof. intros H. eapply Forall_impl; [exact H|]. intros d Hd ->. by vm_compute in Hd. Qed.

Lemma escape_rune_literal c conts r x : rune_spec c conts r -> c ≠ lbrace ->
  Forall (fun d => d ≠ lbrace) (escape_rune c (conts ++ x)).
Proof.
  intros Hr Hne. unfold escape_rune. destruct (Z.ltb_spec (byte_val c) 128) as [Hc|Hc]; [by apply escape_ascii_literal|].
  rewrite (rs_decode _ _ _ Hr). repeat case_match; try by repeat constructor.
  constructor; [done|]. replace (S (length conts) - 1)%nat with (length conts) by lia.
  rewrite take_app_length. apply high_literal, (rs_high _ _ _ Hr).
Qed.

(** Quoting does not make a string start with a brace. *)
Lemma head_quote_bytes l : head (quote_bytes l 0) = Some lbrace -> head l = Some lbrace.
Proof.
  destruct l as [|c l]; [done|]. destruct (decide (c = lbrace)) as [->|Hne]; [done|].
  destruct (decode_rune_cases c l) as [E|(conts & rest & r & -> & Hr)].
  - cbn -[decode_rune]. unfold escape_rune. rewrite E. destruct (Z.ltb_spec (byte_val c) 128) as [Hc|Hc]; [|done].
    rewrite decode_rune_ascii in E by done. injection E as E. unfold RuneError in E. lia.
  - rewrite (quote_rune _ _ _ _ Hr). pose proof (escape_rune_literal c conts r rest Hr Hne) as Hl.
    assert (escape_rune c (conts ++ rest) ≠ []) as Hnil.
    { intros E. pose proof (decodes_escape_rune c conts r rest Hr []) as Hd. by rewrite E in Hd. }
    destruct (escape_rune c (conts ++ rest)); [done|]. cbn. intros [= ->]. by inversion Hl.
Qed.

Lemma valid_ascii b x : Forall (fun c => byte_val c < 128) b -> valid_utf8 (b ++ x) 0 = valid_utf8 x 0.
Proof. induction 1 as [|c b Hc Hb IH]; [done|]. rewrite <-IH. apply (valid_rune c [] _ (b ++ x) (rune_ascii c Hc)). Qed.

(** A safe value is read as it stands. *)
Lemma json_safe_text v : json_safe v = true -> jbody (bytes v) /\ decodes (bytes v) (bytes v).
Proof.
  unfold json_safe. intros [Hs Hv]%andb_prop. split.
  - clear Hv. induction (bytes v) as [|c l IH]; [constructor|]. cbn in Hs.
    apply andb_prop in Hs as [[[Hc Hq]%andb_prop Hb]%andb_prop Hl].
    constructor; [by apply negb_true_iff, bool_decide_eq_false in Hq|by apply negb_true_iff, bool_decide_eq_false in Hb
      |lia|by apply IH].
  - induction (bytes v) as [|c l E IH|c conts r rest Hr IH] using runes_ind; [done|by apply valid_cases in Hv|].
    rewrite (valid_rune _ _ _ _ Hr) in Hv. cbn in Hs. rewrite forallb_app in Hs.
    apply andb_prop in Hs as [[_ Hb]%andb_prop [_ Hrest]%andb_prop].
    apply (decodes_app (c :: conts) rest (c :: conts) rest); [|by apply IH].
    apply (decodes_rune _ _ _ Hr). by apply negb_true_iff, bool_decide_eq_false in Hb.
Qed.

Hypothesis safe : forall e v, eval ctx e = Some v -> json_safe v = true.

(** Expanding the quoted form of a string gives a string body that reads as the
    expanded string. *)
Lemma expand_quote l o : valid_utf8 l 0 = true -> expand l 0 = Some o ->
  exists raw, expand (quote_bytes l 0) 0 = Some raw /\ jbody raw /\ decodes raw o.
Proof.
  remember (length l) as n eqn:Hn. revert l o Hn. induction (Nat.lt_wf_0 n) as [n _ IH]. intros l o -> Hv Ho.
  destruct (expand_cases l o Ho) as [[-> ->]|[(c & l' & o' & -> & -> & Hc & Ho')|(b & e & v & r & o' & -> & -> & Hb & Hp & He & Ho')]].
  - exists []. split_and!; [done|constructor|done].
  - destruct (decode_rune_cases c l') as [E|(conts & rest & r & -> & Hr)]; [by apply valid_cases in Hv|].
    rewrite (valid_rune _ _ _ _ Hr) in Hv. rewrite (quote_rune _ _ _ _ Hr).
    pose proof (decodes_escape_rune _ _ _ rest Hr) as Hdec. pose proof (jbody_escape_rune c (conts ++ rest)) as Hj.
    pose proof (high_literal _ (rs_high _ _ _ Hr)) as Hconts. rewrite expand_literal in Ho' by done.
    apply bind_Some in Ho' as (o2 & Ho2 & [= <-]).
    destruct (IH (length rest)) with (l := rest) (o := o2) as (raw & Er & Hjr & Hdr); [rewrite length_cons, length_app; lia|done..|].
    exists (escape_rune c (conts ++ rest) ++ raw). split_and!; [|by apply jbody_app|by apply (decodes_app _ _ (c :: conts))].
    destruct (decide (c = lbrace)) as [->|Hne].
    + destruct (rs_ascii _ _ _ Hr) as [-> _]; [done|]. specialize (Hc eq_refl). cbn [app] in *.
      change (escape_rune lbrace rest) with [lbrace]. cbn [app]. rewrite expand_brace; [by rewrite Er|].
      intros Hh%head_quote_bytes. done.
    + rewrite expand_literal by (by eapply escape_rune_literal). by rewrite Er.
  - rewrite quote_action by done. rewrite (expand_action b e) by done. rewrite He. cbn.
    destruct (IH (length r)) with (l := r) (o := o') as (raw & Er & Hjr & Hdr); [|done| |done|].
    + unfold action. rewrite length_app. simpl. lia.
    + rewrite valid_ascii in Hv; [done|]. unfold action. repeat constructor. apply Forall_app. split; [|by repeat constructor].
      eapply Forall_impl; [exact Hb|]. by intros d [? _]%action_unescaped.
    + rewrite Er. cbn. destruct (json_safe_text v (safe _ _ He)). exists (bytes v ++ raw).
      split_and!; [done|by apply jbody_app|by apply decodes_app].
Qed.

(** ** Expansion of printed documents *)

Lemma expand_copy b : Forall (fun c => c ≠ lbrace) b -> expand b 0 = Some b.
Proof. intros Hb. rewrite <-(app_nil_r b) at 1. rewrite expand_literal by done. cbn. by rewrite app_nil_r. Qed.

Lemma digits_literal l : all_digits l -> Forall (fun c => c ≠ lbrace) l.
Proof. intros H. eapply Forall_impl; [exact H|]. by intros c Hc ->. Qed.

Lemma number_literal lit : number_lit lit -> Forall (fun c => c ≠ lbrace) lit.
Proof.
  intros (sg & i & f & e & -> & Hsg & Hi & Hf & He). rewrite !Forall_app. split_and!.
  - destruct Hsg as [->| ->]; by repeat constructor.
  - destruct Hi; [by repeat constructor|by apply digits_literal].
  - destruct Hf; [done|]. constructor; [done|by apply digits_literal].
  - destruct He as [|c sg' l Hc Hsg' _ Hl]; [done|]. constructor; [by intros ->|]. apply Forall_app. split.
    + destruct Hsg' as [->|[->| ->]]; by repeat constructor.
    + by apply digits_literal.
Qed.

Lemma expand_join xs ys :
  Forall2 (fun x y => expand x 0 = Some y) xs ys -> expand (join xs) 0 = Some (join ys).
Proof.
  induction 1 as [|x y xs ys Hx Hxs IH]; [done|]. destruct Hxs as [|x2 y2 xs ys Hx2 Hxs]; [done|].
  change (join (x :: x2 :: xs)) with (x ++ [","%char] ++ join (x2 :: xs)).
  rewrite (expand_app _ _ y) by done. rewrite expand_literal by (by repeat constructor). by rewrite IH.
Qed.

(** An expanded text between two pieces that are copied. *)
Lemma expand_between a b x y :
  Forall (fun c => c ≠ lbrace) a -> Forall (fun c => c ≠ lbrace) b -> expand x 0 = Some y ->
  expand (a ++ x ++ b) 0 = Some (a ++ y ++ b).
Proof.
  intros Ha Hb Hx. rewrite expand_literal by done. rewrite (expand_app x b y) by (done || by destruct Hb as [|? ? Hc]; [|intros [= ->]]).
  by rewrite (expand_copy b).
Qed.

Abbreviation R := (fun raw raw' => expand raw 0 = Some raw').

Lemma expand_member k k' t t' :
  expand k 0 = Some k' -> expand (print t) 0 = Some (print t') ->
  expand (quote :: k ++ quote :: ":"%char :: print t) 0 = Some (quote :: k' ++ quote :: ":"%char :: print t').
Proof.
  intros Hk Ht. change (quote :: k ++ _) with ([quote] ++ (k ++ ([quote; ":"%char] ++ print t))).
  rewrite expand_literal by (by repeat constructor). rewrite (expand_app k _ k') by done.
  rewrite expand_literal by (by repeat constructor). by rewrite Ht.
Qed.

Lemma expand_print t t' : wf_tree t -> rewritten R t t' -> expand (print t) 0 = Some (print t').
Proof.
  revert t'. induction t as [|b|lit|raw|l IH|l IH] using jtree_nested_ind; intros t' Hw Hrw;
    inversion Hrw as [| | |? raw' HR|? l' HR|? l' HR]; subst; clear Hrw.
  - done.
  - by destruct b.
  - inversion_clear Hw. by apply expand_copy, number_literal.
  - apply (expand_between [quote] [quote]); by repeat constructor.
  - inversion_clear Hw as [| | | |? Hl|]. apply (expand_between ["["%char] ["]"%char]); [by repeat constructor..|].
    apply expand_join. induction HR as [|t t' l l' Ht HR IHl]; [constructor|].
    apply Forall_cons in IH as [IHt IH]. apply Forall_cons in Hl as [Hwt Hl].
    constructor; [by apply IHt|by apply IHl].
  - inversion_clear Hw as [| | | | |? Hl]. cbn [print].
    assert (expand (join (print_member <$> l)) 0 = Some (join (print_member <$> l'))) as Hj.
    { apply expand_join. induction HR as [|[k t] [k' t'] l l' [Hk Ht] HR IHl]; [constructor|].
      apply Forall_cons in IH as [IHt IH]. apply Forall_cons in Hl as [[_ Hwt] Hl]. constructor; [|by apply IHl]. cbn in *.
      apply expand_member; auto. }
    rewrite expand_brace by by destruct l as [|? []]. rewrite (expand_app _ _ _ Hj) by done.
    by rewrite (expand_copy ["}"%char]) by (by repeat constructor).
Qed.
(** The strings of a document expanded. *)
Fixpoint expand_tree (t : jtree) : option jtree :=
  match t with
  | JStr raw => JStr <$> expand raw 0
  | JArr l => JArr <$> mapM expand_tree l
  | JObj l => JObj <$> mapM (fun kt => k ← expand kt.1 0; t ← expand_tree kt.2; Some (k, t)) l
  | _ => Some t
  end.

Lemma jbody_drop b r : Forall (fun c => c ≠ backslash) b -> jbody (b ++ r) -> jbody r.
Proof. induction 1 as [|c b Hc Hb IH]; [done|]. inversion 1; subst; [by apply IH|done|done]. Qed.

Lemma expand_literal_inv b x o : Forall (fun c => c ≠ lbrace) b -> expand (b ++ x) 0 = Some o ->
  exists o', o = b ++ o' /\ expand x 0 = Some o'.
Proof. intros Hb. rewrite expand_literal by done. intros (o' & Ho & [= <-])%bind_Some. by exists o'. Qed.

(** A string body stays one. *)
Lemma expand_jbody raw o : expand raw 0 = Some o -> jbody raw -> jbody o.
Proof.
  remember (length raw) as n eqn:Hn. revert raw o Hn. induction (Nat.lt_wf_0 n) as [n _ IH].
  intros raw o -> Ho Hj.
  assert (IHr : forall r o', (length r < length raw)%nat -> expand r 0 = Some o' -> jbody r -> jbody o')
    by (intros; by eapply (IH _); try done).
  destruct (expand_cases raw o Ho) as [[-> ->]|[(c & l' & o' & -> & -> & Hc & Ho')|(b & e & v & r & o' & -> & -> & Hb & Hp & He & Ho')]].
  - constructor.
  - inversion Hj as [|? ? Hq Hbs Hr Hl|s l Hs Hl|h1 h2 h3 h4 l Hh Hl]; subst.
    + constructor; [done..|]. by apply (IHr l'); [simpl; lia|..].
    + apply (expand_literal_inv [s]) in Ho' as (o2 & -> & Ho2); [|by repeat constructor; intros ->].
      apply (body_escape s); [done|]. by apply (IHr l); [simpl; lia|..].
    + apply (expand_literal_inv ["u"%char; h1; h2; h3; h4]) in Ho' as (o2 & -> & Ho2).
      * apply (body_unicode h1 h2 h3 h4); [done|]. by apply (IHr l); [simpl; lia|..].
      * constructor; [done|]. eapply Forall_impl; [exact Hh|]. by intros h Hx ->.
  - destruct (json_safe_text v (safe _ _ He)) as [Hv _]. apply jbody_app; [done|].
    apply (IHr r); [unfold action; rewrite length_app; simpl; lia|done|].
    apply (jbody_drop (action b)); [|done]. unfold action. repeat constructor; [done..|].
    apply Forall_app. split; [|by repeat constructor]. eapply Forall_impl; [exact Hb|]. by intros d Hd ->.
Qed.

Lemma expand_tree_rewritten t t' : wf_tree t -> expand_tree t = Some t' -> rewritten R t t' /\ wf_tree t'.
Proof.
  revert t'. induction t as [|b|lit|raw|l IH|l IH] using jtree_nested_ind; intros t' Hw; cbn -[expand].
  1-3: intros [= <-]; split; [constructor|done].
  - intros (raw' & Hr & ->)%fmap_Some. inversion_clear Hw. split; constructor; [done|by eapply expand_jbody].
  - intros (l' & Hl%mapM_Some & ->)%fmap_Some. inversion_clear Hw as [| | | |? Hwl|].
    enough (Forall2 (rewritten R) l l' /\ Forall wf_tree l') as [? ?] by (split; by constructor).
    induction Hl as [|t t' l l' Ht Hl IHl]; [done|]. apply Forall_cons in IH as [IHt IH], Hwl as [Hwt Hwl].
    destruct (IHt _ Hwt Ht), (IHl IH Hwl). split; by constructor.
  - intros (l' & Hl%mapM_Some & ->)%fmap_Some. inversion_clear Hw as [| | | | |? Hwl].
    enough (Forall2 (fun kt kt' => R kt.1 kt'.1 /\ rewritten R kt.2 kt'.2) l l' /\
            Forall (fun kt => jbody kt.1 /\ wf_tree kt.2) l') as [? ?] by (split; by constructor).
    induction Hl as [|[k t] kt' l l' Ht Hl IHl]; [done|]. apply Forall_cons in IH as [IHt IH], Hwl as [[Hk Hwt] Hwl].
    apply bind_Some in Ht as (k' & Ek & (t' & Et & [= <-])%bind_Some). cbn -[expand] in *.
    destruct (IHt _ Hwt Et), (IHl IH Hwl). pose proof (expand_jbody _ _ Ek Hk). split; by constructor.
Qed.

End expand.

(** ** Rendering a pipeline template *)

(** What an engine does with field actions: the text around them is copied, and
    they print their value. *)
Class TemplateLaws {Template} (Parse : string -> result Template)
    (Execute : Template -> TemplateContext -> result string) : Prop := {
  expand_law text ctx out : expand ctx (bytes text) 0 = Some out ->
    exists tmpl, Parse text = Ok tmpl /\ Execute tmpl ctx = Ok (of_bytes out) }.

(** The values of a context that need no escaping inside a JSON string. *)
Definition context_safe (ctx : TemplateContext) : Prop :=
  json_safe (DiscoveredName ctx) = true /\ json_safe (Namespace ctx) = true /\
  json_safe (DiscoveryName ctx) = true /\
  forall k s, Metadata ctx !! k = Some (VStr s) -> json_safe s = true.

Lemma ascii_safe v :
  Forall (fun c => 32 <= byte_val c < 128 /\ c ≠ quote /\ c ≠ backslash) (bytes v) -> json_safe v = true.
Proof.
  intros H. unfold json_safe. apply andb_true_intro. split.
  - induction H as [|c l [? [? ?]] Hl IH]; cbn; [done|].
    rewrite (proj2 (Z.leb_le _ _)), !bool_decide_eq_false_2 by (done || lia). done.
  - rewrite <-(app_nil_r (bytes v)). rewrite valid_ascii; [done|]. eapply Forall_impl; [exact H|]. cbn. lia.
Qed.

Lemma Itoa_safe z : json_safe (Itoa z) = true.
Proof.
  apply ascii_safe. change (bytes (Itoa z)) with (int_text z).
  assert (forall c, is_digit c = true -> 32 <= byte_val c < 128 /\ c ≠ quote /\ c ≠ backslash) as Hd.
  { unfold is_digit. intros c Hc. split_and!; [apply in_range_spec in Hc; lia..|by intros ->|by intros ->]. }
  assert (forall x : N, Forall (fun c => 32 <= byte_val c < 128 /\ c ≠ quote /\ c ≠ backslash) (bytes (pretty x))) as Hx.
  { intros x. destruct (pretty_N_int_lit x) as [|c l _ Hl]; [by repeat constructor|]. eapply Forall_impl; [exact Hl|done]. }
  destruct z as [|p|p]; [apply (Hx 0%N)|apply (Hx (Npos p))|]. constructor; [done|apply (Hx (Npos p))].
Qed.

Lemma eval_safe ctx e v : context_safe ctx -> eval ctx e = Some v -> json_safe v = true.
Proof.
  intros (H1 & H2 & H3 & H4). destruct e as [| | |k]; cbn; [by intros [= <-]..|].
  destruct (Metadata ctx !! k) as [[| [] | | | | |]|] eqn:E; try (by intros [= <-]); try done.
  - intros [= <-]. apply Itoa_safe.
  - intros [= <-]. by eapply H4.
Qed.

Lemma quote_literal l n : Forall (fun c => c ≠ lbrace) l -> Forall (fun c => c ≠ lbrace) (quote_bytes l n).
Proof.
  intros Hl. revert n. induction Hl as [|c l Hc Hl IH]; intros n; [done|]. destruct n as [|n]; cbn; [|done].
  apply Forall_app. split; [|done]. destruct (decode_rune_cases c l) as [E|(conts & rest & r & -> & Hr)].
  - unfold escape_rune. destruct (Z.ltb_spec (byte_val c) 128); [by apply escape_ascii_literal|].
    rewrite E. by repeat constructor.
  - by eapply escape_rune_literal.
Qed.

#[local] Instance external_eq_dec : EqDecision external.
Proof. solve_decision. Defined.

Section render.
Context `{ExternalLaws}.
Context {Template : Type} (Parse : string -> result Template)
  (Execute : Template -> TemplateContext -> result string) `{!TemplateLaws Parse Execute}.
Implicit Types (disc : DataPrepperSourceDiscovery) (source : DiscoveredSource).

(** A string with its actions replaced. *)
Definition substituted (ctx : TemplateContext) (s : string) : string :=
  match expand ctx (bytes s) 0 with Some o => of_bytes o | None => s end.

(** What becomes of a raw document or a Kubernetes value. *)
Definition substituted_ext (ctx : TemplateContext) (x : external) (v : string) : string :=
  match x, ext_encode x v with
  | ExtJSON, Ok t => match expand_tree ctx t with Some t' => of_bytes (print t') | None => v end
  | _, _ => ext_canonical x v
  end.

(** Strings and raw documents contain field actions only, map keys no brace, and the
    strings of the other Kubernetes values no action. *)
Definition renderable (ctx : TemplateContext) (l : leaf) : Prop :=
  supported l /\
  match l with
  | LStr s => is_Some (expand ctx (bytes s) 0)
  | LKey k => Forall (fun c => c ≠ lbrace) (bytes k)
  | LInt _ _ => True
  | LExt x v => forall t, ext_encode x v = Ok t ->
    match x with
    | ExtJSON => is_Some (expand_tree ctx t)
    | _ => Forall (fun b => expand ctx b 0 = Some b) (bodies t)
    end
  end.

Definition substitute_spec (ctx : TemplateContext) : DataPrepperPipelineSpec -> DataPrepperPipelineSpec :=
  remap DataPrepperPipelineSpec_codec (substituted ctx) (substituted_ext ctx).

Lemma template_reading ctx : context_safe ctx ->
  reading (renderable ctx) (fun raw raw' => expand ctx raw 0 = Some raw') (substituted ctx) (substituted_ext ctx) ext_depth.
Proof.
  intros Hsafe. pose proof (fun e v => eval_safe ctx e v Hsafe) as safe. split; [done|done|..].
  - intros s [Hv [o Ho]]. cbn in Hv.
    destruct (expand_quote ctx safe _ _ Hv Ho) as (raw & Er & Hj & Hd).
    exists raw. split_and!; [done|done|]. unfold substituted. rewrite Ho. unfold unquoted. f_equal.
    specialize (Hd []). by rewrite !app_nil_r in Hd.
  - intros k [Hv Hk]. split; [|done]. by apply expand_copy, quote_literal.
  - by intros width z [Hz _].
  - intros x v [Hg Hb]. destruct (ext_read x v Hg) as (t & E & Hw & Hn & Hd & Hdec). specialize (Hb t E).
    unfold substituted_ext. destruct (decide (x = ExtJSON)) as [->|Hx].
    + destruct Hb as [t' Ht]. destruct (expand_tree_rewritten ctx safe t t' Hw Ht) as [HR Hw'].
      assert (t' ≠ JNull) as Hn' by (intros ->; by inversion HR). rewrite E, Ht. exists t, t'. split_and!; try done.
      * by rewrite (rewritten_nesting _ _ _ HR).
      * intros cx. by apply ext_json.
    + exists t, t. split_and!; try done; [apply rewritten_refl|]; by destruct x.
Qed.

Lemma plain_name_literal ctx n : plain_name n = true -> expand ctx (quoted n) 0 = Some (quoted n).
Proof.
  intros Hn. apply expand_copy, quote_literal, Forall_forall. intros c Hc ->.
  unfold plain_name in Hn. by apply list_elem_of_In, (proj1 (forallb_forall _ _) Hn) in Hc.
Qed.

Definition context_of disc source : TemplateContext :=
  mkTemplateContext (DS_Name source) (DS_Metadata source) (Meta_Namespace (D_Meta disc)) (Meta_Name (D_Meta disc)).

Definition template_of disc : DataPrepperPipelineSpec := Template_Spec (DSpec_PipelineTemplate (D_Spec disc)).

Definition rendered_spec disc source : DataPrepperPipelineSpec :=
  let s := applyOverrides (DS_Name source) (DSpec_Overrides (D_Spec disc))
             (substitute_spec (context_of disc source) (template_of disc)) in
  with_pipelines (inherited (DSpec_Kafka (D_Spec disc)) (Spec_Pipelines s)) s.

Lemma render_substitutes disc source :
  context_safe (context_of disc source) ->
  Forall (renderable (context_of disc source)) (spec_leaves (template_of disc)) ->
  rendered_template MarshalSpec UnmarshalSpec Template Parse Execute disc source
    = Ok (substitute_spec (context_of disc source) (template_of disc)) /\
  renderPipelineSpec MarshalSpec UnmarshalSpec Template Parse Execute disc source = Ok (rendered_spec disc source).
Proof.
  set (ctx := context_of disc source). intros Hsafe Hleaves.
  pose proof (built_lawful _ _ _ _ _ _ _ (template_reading ctx Hsafe) (plain_name_literal ctx)
                (DataPrepperPipelineSpec_built 0)) as Hl.
  destruct (lawful_marshal _ _ _ _ _ _ (template_of disc)
              (proj1 (Z.leb_le (ext_depth + 7) maxNestingDepth) eq_refl) Hl Hleaves) as (t & t' & E & Em & Hw & HR & Hv & Hu).
  destruct (expand_law (of_bytes (print t)) ctx (print t')) as (tmpl & Hp & Hx).
  { rewrite bytes_of_bytes. by apply expand_print. }
  assert (rendered_template MarshalSpec UnmarshalSpec Template Parse Execute disc source
          = Ok (substitute_spec ctx (template_of disc))) as Hr.
  { unfold rendered_template. fold (template_of disc). fold (context_of disc source). fold ctx.
    unfold MarshalSpec. rewrite Em. cbn -[checkValid]. rewrite Hp. cbn -[checkValid]. rewrite Hx.
    cbn -[checkValid]. rewrite Hv. exact Hu. }
  split; [done|]. apply render_eq. by exists (substitute_spec ctx (template_of disc)).
Qed.

(** A source whose values need no escaping. *)
Definition source_safe disc source : Prop :=
  context_safe (context_of disc source) /\
  Forall (renderable (context_of disc source)) (spec_leaves (template_of disc)).

Lemma addDesired_safe disc m source : source_safe disc source ->
  addDesired MarshalSpec UnmarshalSpec Template Parse Execute disc m source
  = Ok (<[pipelineName disc (DS_Name source) :=
      mkDesired (rendered_spec disc source) (computeSpecHash MarshalSpec (rendered_spec disc source))]> m).
Proof. intros [Hc Hl]. unfold addDesired. by rewrite (proj2 (render_substitutes disc source Hc Hl)). Qed.

(** C17: rendering the template of a discovery for its sources, when the strings of
    the template use field actions only and the values of the context need no
    escaping in JSON, always succeeds: writing the template as JSON, expanding the
    actions in the text and reading the result back is the same as replacing the
    actions inside the strings and the raw documents of the template, no other part
    of it being touched; the spec of the child pipeline is this spec with the
    overrides and the Kafka settings applied, and the desired state of the cycle has
    the spec and its hash under the name of the child, the last source winning. *)
Theorem rendered_template_substitutes disc sources :
  Forall (source_safe disc) sources ->
  Forall (fun source =>
    rendered_template MarshalSpec UnmarshalSpec Template Parse Execute disc source
      = Ok (substitute_spec (context_of disc source) (template_of disc)) /\
    renderPipelineSpec MarshalSpec UnmarshalSpec Template Parse Execute disc source
      = Ok (rendered_spec disc source)) sources /\
  desiredPipelines MarshalSpec UnmarshalSpec Template Parse Execute disc sources
    = Ok (foldl (fun m source => <[pipelineName disc (DS_Name source) :=
        mkDesired (rendered_spec disc source) (computeSpecHash MarshalSpec (rendered_spec disc source))]> m) ∅ sources).
Proof.
  intros Hs. split; [eapply Forall_impl; [exact Hs|]; by intros source [? ?]; apply render_substitutes|].
  unfold desiredPipelines. generalize (∅ : gmap string desired).
  induction Hs as [|source sources [Hc Hl] Hs IH]; intros m; [done|]. cbn [fold_res foldl].
  rewrite (addDesired_safe disc m source) by by split. apply IH.
Qed.

End render.

(** C19: the hash in the annotation of a child pipeline identifies its spec: two
    specs that [encoding/json] supports have the same hash exactly when they are the
    same up to the canonical form of their raw documents and Kubernetes values,
    unless the truncated SHA-256 of their texts collides. *)
Theorem spec_hash_identifies `{ExternalLaws} spec1 spec2 :
  well_formed spec1 -> well_formed spec2 ->
  (forall d1 d2, MarshalSpec spec1 = Ok d1 -> MarshalSpec spec2 = Ok d2 ->
     first16 (sha256_hex d1) = first16 (sha256_hex d2) -> d1 = d2) ->
  computeSpecHash MarshalSpec spec1 = computeSpecHash MarshalSpec spec2 <-> canonical spec1 = canonical spec2.
Proof.
  intros H1 H2 Hcol. rewrite <-marshal_injective by done. unfold computeSpecHash.
  destruct (spec_roundtrip spec1 H1) as (t1 & _ & _ & E1 & _). destruct (spec_roundtrip spec2 H2) as (t2 & _ & _ & E2 & _).
  specialize (Hcol _ _ E1 E2). rewrite E1, E2. split; [intros Hh; by rewrite Hcol|congruence].
Qed.

(** ** An engine for the fragment, and the S3 sample of the repository *)

Module template_examples.

#[local] Existing Instance document_externals.
#[local] Existing Instance document_laws.

Definition Parse (text : string) : result string := Ok text.
Definition Execute (text : string) (ctx : TemplateContext) : result string :=
  match expand ctx (bytes text) 0 with
  | Some out => Ok (of_bytes out)
  | None => Err (Msg "template: not a field action" [])
  end.

#[local] Instance engine_laws : TemplateLaws Parse Execute.
Proof. split. intros text ctx out E. exists text. unfold Execute. by rewrite E. Qed.

(** [config/samples/sourcediscovery-s3.yaml] *)
Definition s3_pipeline (name bucket region prefix url index : string) : DataPrepperPipelineSpec :=
  mkDataPrepperPipelineSpec "opensearchproject/data-prepper:2.10.0" ""
    [mkPipelineDefinition name 0 0
       (mkSourceSpec None None None (Some (mkS3SourceSpec bucket prefix region url None None "")) None) None
       [mkJSON (dq "{'grok':{'match':{'message':['%{COMMONAPACHELOG}']}}}")] []
       [mkSinkSpec (Some (mkOpenSearchSinkSpec ["https://opensearch:9200"] index ""
          (Some (mkSecretReference "opensearch-credentials" "")) None [])) None None None None]]
    (Some (mkScalingSpec "manual" None None (Some 1))) None None None ∅ ∅ ∅ [] None None None "".

Definition s3_template : DataPrepperPipelineSpec :=
  s3_pipeline "{{ .DiscoveredName }}-pipeline" "{{ .Metadata.bucket }}" "{{ .Metadata.region }}"
    "{{ .Metadata.prefix }}" "{{ .Metadata.sqsQueueUrl }}" "{{ .DiscoveredName }}-%{yyyy.MM.dd}".

Definition s3_discovery (template : DataPrepperPipelineSpec) : DataPrepperSourceDiscovery :=
  mkDataPrepperSourceDiscovery
    (mkObjectMeta "s3-log-prefixes" "observability" "uid-d" 1 None None None [] [])
    (mkDataPrepperSourceDiscoverySpec None None (mkPipelineTemplateSpec template) [] None)
    (mkDataPrepperSourceDiscoveryStatus DiscoveryPhaseUnset 0 0 0 0 0 None [] []).

(** The source for a prefix, with and without a queue. *)
Definition s3_source (name : string) (queue : option string) : DiscoveredSource :=
  let metadata := {["bucket" := VStr "application-logs"; "prefix" := VStr "logs/app/"; "region" := VStr "us-east-1"]} in
  mkDiscoveredSource name
    (match queue with Some url => <["sqsQueueUrl" := VStr url]> metadata | None => metadata end).

Definition app_context : TemplateContext :=
  context_of (s3_discovery s3_template) (s3_source "logs-app" (Some "https://sqs/logs-app")).

Lemma app_safe : context_safe app_context.
Proof.
  split_and!; [by vm_compute..|]. intros k s Hk.
  change (Metadata app_context) with ({["sqsQueueUrl" := VStr "https://sqs/logs-app"; "bucket" := VStr "application-logs";
    "prefix" := VStr "logs/app/"; "region" := VStr "us-east-1"]} : gmap string any) in Hk.
  rewrite !lookup_insert_Some, lookup_singleton_Some in Hk. naive_solver.
Qed.

Ltac normal_list :=
  lazymatch goal with |- Forall ?Q ?l => let l' := eval vm_compute in l in change_no_check (Forall Q l') end.

Ltac solve_renderable :=
  lazymatch goal with
  | |- renderable _ (LStr _) =>
    split; [vm_compute; reflexivity|apply is_Some_alt; vm_compute; exact I]
  | |- renderable _ (LInt _ _) => split; [unfold supported; lia|exact I]
  | |- renderable _ (LExt _ _) =>
    split; [vm_compute; reflexivity|intros t Ht; vm_compute in Ht; injection Ht as <-; cbv beta iota;
      apply is_Some_alt; vm_compute; exact I]
  end.

Lemma s3_renderable : Forall (renderable app_context) (spec_leaves s3_template).
Proof.
  normal_list. repeat (apply Forall_cons; split; [solve_renderable|]). constructor.
Qed.

Lemma app_source_safe :
  Forall (source_safe (s3_discovery s3_template)) [s3_source "logs-app" (Some "https://sqs/logs-app")].
Proof. constructor; [split; [apply app_safe|apply s3_renderable]|constructor]. Qed.

Lemma rendered_template_substitutes_witness :
  renderPipelineSpec MarshalSpec UnmarshalSpec string Parse Execute (s3_discovery s3_template)
    (s3_source "logs-app" (Some "https://sqs/logs-app"))
  = Ok (s3_pipeline "logs-app-pipeline" "application-logs" "us-east-1" "logs/app/" "https://sqs/logs-app"
          "logs-app-%{yyyy.MM.dd}").
Proof.
  pose proof (proj2 (Forall_inv (proj1 (rendered_template_substitutes Parse Execute (s3_discovery s3_template)
    [s3_source "logs-app" (Some "https://sqs/logs-app")] app_source_safe)))) as H.
  exact (eq_trans H (eq_refl : _ = Ok (s3_pipeline "logs-app-pipeline" "application-logs" "us-east-1" "logs/app/"
    "https://sqs/logs-app" "logs-app-%{yyyy.MM.dd}"))).
Defined.

(** A new index name gives a new hash. *)
Definition changed_spec : DataPrepperPipelineSpec :=
  s3_pipeline "logs-app-pipeline" "application-logs" "us-east-1" "logs/app/" "" "logs".
Definition previous_spec : DataPrepperPipelineSpec :=
  s3_pipeline "logs-app-pipeline" "application-logs" "us-east-1" "logs/app/" "" "log".

Lemma hashes_differ :
  bool_decide (computeSpecHash MarshalSpec changed_spec = computeSpecHash MarshalSpec previous_spec) = false.
Proof. vm_compute. reflexivity. Qed.

Lemma changed_well_formed : well_formed changed_spec /\ well_formed previous_spec.
Proof. split; unfold well_formed; solve_leaves. Qed.

Lemma no_collision d1 d2 : MarshalSpec changed_spec = Ok d1 -> MarshalSpec previous_spec = Ok d2 ->
  first16 (sha256_hex d1) = first16 (sha256_hex d2) -> d1 = d2.
Proof.
  intros E1 E2 Hs. pose proof (proj1 (bool_decide_eq_false _) hashes_differ) as Hd. exfalso. apply Hd.
  unfold computeSpecHash. by rewrite E1, E2.
Qed.

Lemma spec_hash_identifies_witness :
  (computeSpecHash MarshalSpec changed_spec = computeSpecHash MarshalSpec previous_spec
   <-> canonical changed_spec = canonical previous_spec) /\
  canonical changed_spec ≠ canonical previous_spec.
Proof.
  split; [exact (spec_hash_identifies changed_spec previous_spec (proj1 changed_well_formed)
    (proj2 changed_well_formed) no_collision)|].
  intros Hc. apply (f_equal (fun s => PD_Sink <$> Spec_Pipelines s)) in Hc. vm_compute in Hc. discriminate Hc.
Defined.

(** Actions work in raw documents too. *)
Example processor_action :
  PD_Processors <$> (Spec_Pipelines (substitute_spec app_context
    (mkDataPrepperPipelineSpec "" "" [mkPipelineDefinition "p" 0 0 (mkSourceSpec None None None None None) None
       [mkJSON (dq "{ 'add_entries' : {'value': '<{{.Metadata.prefix}}>', 'n': 1} }")] [] []]
       None None None None ∅ ∅ ∅ [] None None None ""))) =
  [[mkJSON (dq "{'add_entries':{'value':'<logs/app/>','n':1}}")]].
Proof. by vm_compute. Qed.

(** *** What rendering does outside the theorem *)

Abbreviation render_s3 :=
  (renderPipelineSpec MarshalSpec UnmarshalSpec string Parse Execute (s3_discovery s3_template)).

(** A discovery without a queue mapping: the missing key prints [<no value>], which
    becomes the queue of the pipeline. *)
Example missing_queue :
  render_s3 (s3_source "logs-app" None)
  = Ok (s3_pipeline "logs-app-pipeline" "application-logs" "us-east-1" "logs/app/" "<no value>"
          "logs-app-%{yyyy.MM.dd}").
Proof. by vm_compute. Qed.

(** A prefix that contains a quote: the text is no JSON, or has members the
    template has not. *)
Example quoted_name_breaks : is_ok (render_s3 (s3_source (dq "logs-'app'") None)) = false.
Proof. by vm_compute. Qed.

Example quoted_name_injects :
  (fun s => (fun p => (PD_Name p, PD_Workers p)) <$> Spec_Pipelines s)
    <$> render_s3 (s3_source (dq "x','workers':64,'name':'y") (Some "q")) = Ok [("y-pipeline", 64)].
Proof. by vm_compute. Qed.

End template_examples.
