(* ===== verification/Instrumentation.v ===== *)
(** * What the reconcilers emit

    A calculus for the events and metrics of a reconciler, beside the footprints
    of [Reconciler] for its writes, and its application to the three
    [Reconcile] functions: the metrics they update are registered collectors of
    the right kind, used with the right number of label values. *)

From S2P Require Import Prelude Go Api Graph Resources Clients Discovery Cluster Metrics Reconciler.
From S2P Require Import PipelineController DefaultsController DiscoveryController.
#[local] Open Scope Z_scope.

(** An effect the client libraries accept: the two event types of Kubernetes, and
    updates of registered collectors of the right kind with one value per label. *)
Definition updates (kind : CollectorKind) (c : Collector) (labels : list string) : Prop :=
  c ∈ registered /\ Col_Kind c = kind /\ length labels = length (Col_Labels c).

Definition well_formed (e : Effect) : Prop :=
  match e with
  | Event _ etype _ _ => etype = "Normal" \/ etype = "Warning"
  | CounterInc c labels => updates KCounter c labels
  | GaugeSet c labels _ => updates KGauge c labels
  | HistogramObserve c labels => updates KHistogram c labels
  end.

(** The collectors that only the deferred function updates. *)
Definition deferred (e : Effect) : Prop :=
  match e with
  | CounterInc c _ | GaugeSet c _ _ | HistogramObserve c _ => c = ReconcileTotal \/ c = ReconcileDuration
  | Event _ _ _ _ => False
  end.

Definition inner (e : Effect) : Prop := well_formed e /\ ~ deferred e.

(** ** The calculus *)

Section emits.
Context {W : Type}.

(** The run of [m] appends to the trace, and only effects in [P]. *)
Definition emits {A} (P : Effect -> Prop) (m : M W A) : Prop :=
  forall st, exists new, effects (snd (m st)) = effects st ++ new /\ Forall P new.

Lemma emits_nothing {A} P (m : M W A) :
  (forall st, effects (snd (m st)) = effects st) -> emits P m.
Proof. intros E st. exists []. by rewrite app_nil_r. Qed.

Lemma emits_ret {A} P (a : A) : emits P (mret a).
Proof. by apply emits_nothing. Qed.
Lemma emits_throw {A} P e : emits P (@throw W A e).
Proof. by apply emits_nothing. Qed.
Lemma emits_lift {A} P (r : result A) : emits P (lift r).
Proof. by apply emits_nothing. Qed.
Lemma emits_reads {A} P (f : W -> result A) : emits P (reads f).
Proof. by apply emits_nothing. Qed.
Lemma emits_writes {A} P (f : W -> result A * W) : emits P (writes f).
Proof. apply emits_nothing. intros st. unfold writes. by destruct (f (world st)). Qed.
Lemma emits_emit P e : P e -> emits P (@emit W e).
Proof. intros He st. exists [e]. split; [done|]. by apply Forall_singleton. Qed.
Lemma emits_when P b (m : M W unit) : emits P m -> emits P (when b m).
Proof. destruct b; [done|]. intros _. apply emits_ret. Qed.
Lemma emits_try {A} P (m : M W A) : emits P m -> emits P (try m).
Proof. intros Hm st. unfold try. specialize (Hm st). by destruct (m st). Qed.
Lemma emits_wrap {A} P f args (m : M W A) : emits P m -> emits P (wrap f args m).
Proof. intros Hm st. unfold wrap. specialize (Hm st). by destruct (m st). Qed.

Lemma emits_bind {A B} P (m : M W A) (f : A -> M W B) :
  emits P m -> (forall a, emits P (f a)) -> emits P (m ≫= f).
Proof.
  intros Hm Hf st. destruct (Hm st) as (n1 & E1 & H1). unfold mbind, M_bind.
  destruct (m st) as [[a|e] s1]; simpl in *; [|by exists n1].
  destruct (Hf a s1) as (n2 & E2 & H2). exists (n1 ++ n2).
  rewrite E2, E1, app_assoc. split; [done|]. by apply Forall_app.
Qed.

End emits.

Create HintDb emits.
#[export] Hint Resolve emits_ret emits_throw emits_lift emits_reads emits_writes emits_emit
  emits_when emits_try emits_wrap emits_bind : emits.

(** Split a reconciler into its calls; what is left are the effects it emits and
    the calls that have lemmas of their own. *)
Ltac emits_step :=
  match goal with
  | |- emits _ (mbind _ _) => apply emits_bind; [|intros]
  | |- emits _ (when _ _) => apply emits_when
  | |- emits _ (wrap _ _ _) => apply emits_wrap
  | |- emits _ (try _) => apply emits_try
  | |- emits _ (if _ then _ else _) => case_match
  | |- emits _ (match _ with _ => _ end) => case_match
  | |- emits _ _ => solve [auto with emits]
  end.
Ltac emits_tac := repeat emits_step.

(** The effects of the reconcilers are among these. *)
Lemma inner_event key etype reason msg :
  etype = "Normal" \/ etype = "Warning" -> inner (Event key etype reason msg).
Proof. intros H. by split; [|intros []]. Qed.

(** [e] is decided by evaluation, for a collector and labels given literally. *)
Ltac inner_tac :=
  split; [split_and!; [apply (bool_decide_unpack _); vm_compute; done|done|done]|by intros [E|E]].

#[export] Hint Extern 2 (inner (Event _ "Normal" _ _)) => (apply inner_event; by left) : emits.
#[export] Hint Extern 2 (inner (Event _ "Warning" _ _)) => (apply inner_event; by right) : emits.
#[export] Hint Extern 2 (inner (CounterInc _ _)) => inner_tac : emits.
#[export] Hint Extern 2 (inner (GaugeSet _ _ _)) => inner_tac : emits.

(** A [Reconcile] function of the named controller: its deferred function reports
    one duration and one outcome at the very end, whatever the run returns. *)
Definition instrumented {W A} (controller : string) (m : M W A) : Prop :=
  forall st r st', m st = (r, st') ->
  exists new, Forall inner new /\
    effects st' = effects st ++ new ++
      [HistogramObserve ReconcileDuration [controller];
       CounterInc ReconcileTotal [controller; if is_ok r then "success" else "error"]].

Lemma instrumented_counted {W A} controller (m : M W A) :
  emits inner m -> instrumented controller (counted controller m).
Proof.
  intros Hm st r st'. unfold counted. destruct (Hm st) as (new & E & Hnew).
  destruct (m st) as [r1 st1]; simpl in *. intros [= -> <-]. exists new. simpl.
  by rewrite E, <-app_assoc.
Qed.

(** ** The reconcilers *)

Section reconcilers.
Context {W : Type} `{Client W}.

Lemma emits_event p etype reason msg :
  etype = "Normal" \/ etype = "Warning" -> emits inner (@event W p etype reason msg).
Proof. intros E. by apply emits_emit, inner_event. Qed.

Lemma emits_reconcileOrDelete k (obj : Object k) needed f :
  emits inner (@reconcileOrDelete W _ k obj needed f).
Proof. unfold reconcileOrDelete, IgnoreNotFound. emits_tac. Qed.

Section pipeline.
Context (Marshal : gmap string any -> result string) (int32_of_inf : Z)
  (factory : option Kafka.ClientFactory) (sma : bool).

Lemma emits_secretWrites p refs written : emits inner (@secretWrites W _ p refs written).
Proof.
  revert written. induction refs as [|r refs IH]; intros written; simpl; emits_tac; apply IH.
Qed.
#[local] Hint Resolve emits_secretWrites emits_reconcileOrDelete : emits.

Lemma emits_updateStatus p phase msg : emits inner (@updateStatus W _ p phase msg).
Proof.
  apply emits_nothing. intros st. unfold updateStatus.
  by destruct (RetryOnConflict _ _ _) as [[] [p' w]].
Qed.
#[local] Hint Resolve emits_updateStatus : emits.

Lemma emits_reconcileChildren spec replicas hpa pf d1 d2 p :
  emits inner (reconcileChildren (W := W) sma spec replicas hpa pf d1 d2 p).
Proof.
  unfold reconcileChildren, secretHash, reconcileConfigMap, reconcileDeployment, reconcileService,
    reconcileHeadlessService, reconcileHPA, reconcilePDB, reconcileServiceMonitor, event.
  emits_tac.
Qed.

Lemma emits_applyScaling spec p :
  emits inner (applyScaling (W := W) int32_of_inf factory spec p).
Proof.
  intros st. unfold applyScaling. destruct (calculateScaling _ _ _ _ _) as [plan p'].
  enough (Hm : emits inner (match SP_err plan with
    | Some e => _ | None => _ end : M W (Z * Z * bool * DataPrepperPipeline))) by apply Hm.
  unfold event. emits_tac.
Qed.

#[local] Hint Resolve emits_reconcileChildren emits_applyScaling : emits.

Lemma emits_reconcileLive req p :
  emits inner (reconcileLive (W := W) Marshal int32_of_inf factory sma req p).
Proof.
  unfold reconcileLive, reconcileValid, applyPeerForwarder, recordScaling, recordManaged, event.
  emits_tac.
Qed.
#[local] Hint Resolve emits_reconcileLive : emits.

Lemma instrumented_Reconcile req :
  instrumented "pipeline" (Reconcile (W := W) Marshal int32_of_inf factory sma req).
Proof.
  apply instrumented_counted. unfold IgnoreNotFound, finalizePipeline, ensureFinalizer, event.
  emits_tac.
Qed.
End pipeline.

Section defaults.
Lemma emits_touchAll revision items n : emits inner (@touchAll W _ revision items n).
Proof.
  revert n. induction items as [|p items IH]; intros n; simpl; [emits_tac|].
  case_match; [apply IH|]. intros st.
  destruct (RetryOnConflict _ _ _) as [[[]|e] [p' w]];
    [apply (IH (n + 1) (mkSt w (effects st)))|].
  by exists []; rewrite app_nil_r.
Qed.
#[local] Hint Resolve emits_touchAll : emits.

Lemma instrumented_DefaultsReconcile req : instrumented "defaults" (@DefaultsReconcile W _ req).
Proof. apply instrumented_counted. unfold IgnoreNotFound. emits_tac. Qed.
End defaults.

Section discovery.
Context (order : MapOrder) (now : Z).

Lemma emits_forEach f items :
  (forall p, emits inner (f p)) -> emits inner (@forEach W f items).
Proof. intros Hf. induction items as [|p items IH]; simpl; emits_tac; auto. Qed.

Lemma emits_createLoop disc existing limit entries n :
  emits inner (@createLoop W _ disc existing limit entries n).
Proof.
  revert n. induction entries as [|[name d] entries IH]; intros n; simpl; unfold applyPipeline;
    emits_tac; apply IH.
Qed.

Lemma emits_updateLoop disc des limit names n :
  emits inner (@updateLoop W _ disc des limit names n).
Proof.
  revert n. induction names as [|name names IH]; intros n; simpl; unfold applyPipeline;
    emits_tac; apply IH.
Qed.

Lemma emits_cleanupOnDeletion disc : emits inner (@cleanupOnDeletion W _ disc).
Proof.
  unfold cleanupOnDeletion, orphanPipeline. emits_tac. apply emits_forEach. intros p. emits_tac.
Qed.

Lemma emits_cleanupOrphans disc sources : emits inner (@cleanupOrphans W _ disc sources).
Proof.
  unfold cleanupOrphans, cleanupOne, orphanPipeline. emits_tac. apply emits_forEach. intros p.
  emits_tac.
Qed.

Lemma emits_retryAnnotation f disc : emits inner (@retryAnnotation W _ f disc).
Proof.
  apply emits_nothing. intros st. unfold retryAnnotation. by destruct (RetryOnConflict _ _ _) as [? []].
Qed.

Lemma emits_updateDiscoveryStatus disc : emits inner (@updateDiscoveryStatus W _ disc).
Proof.
  apply emits_nothing. intros st. unfold updateDiscoveryStatus.
  by destruct (RetryOnConflict _ _ _) as [? []].
Qed.
#[local] Hint Resolve emits_createLoop emits_updateLoop emits_cleanupOnDeletion emits_cleanupOrphans
  emits_retryAnnotation emits_updateDiscoveryStatus : emits.

Context (MarshalSpec : DataPrepperPipelineSpec -> result string)
  (UnmarshalSpec : string -> result DataPrepperPipelineSpec)
  (Template : Type) (Parse : string -> result Template)
  (Execute : Template -> TemplateContext -> result string)
  (sort : list DiscoveredSource -> list DiscoveredSource)
  (ctxErr : nat -> string -> option error)
  (kafka : option Kafka.ClientFactory) (s3 : option S3.ClientFactory).

Lemma emits_discoverySucceeded disc sources :
  emits inner (discoverySucceeded (W := W) MarshalSpec UnmarshalSpec Template Parse Execute order now disc sources).
Proof. unfold discoverySucceeded, reconcilePipelines, rolloutConditions, devent. emits_tac. Qed.

Lemma emits_discoveryFailed disc e : emits inner (@discoveryFailed W _ now disc e).
Proof. unfold discoveryFailed, devent. emits_tac. Qed.

Lemma emits_reconcileDiscovery disc :
  emits inner (reconcileDiscovery (W := W) MarshalSpec UnmarshalSpec Template Parse Execute sort order ctxErr now kafka s3 disc).
Proof.
  intros st. unfold reconcileDiscovery. destruct (discoverSources _ _ _ _ _ _) as [[sources|e]|].
  - revert st. apply emits_discoverySucceeded.
  - revert st. apply emits_discoveryFailed.
  - by apply (emits_ret inner no_requeue st).
Qed.
#[local] Hint Resolve emits_reconcileDiscovery : emits.

Lemma instrumented_DiscoveryReconcile req :
  instrumented "discovery" (DiscoveryReconcile (W := W) MarshalSpec UnmarshalSpec Template
    Parse Execute sort order ctxErr now kafka s3 req).
Proof.
  apply instrumented_counted. unfold IgnoreNotFound, finalizeDiscovery, ensureDiscoveryFinalizer.
  emits_tac.
Qed.
End discovery.
End reconcilers.

(** What the metrics promise to their readers: one observation of the duration and
    one increment of the counter per run, under the same controller name, whose
    [result] is one of the documented values and is [error] exactly when the run
    failed; before them only well-formed effects that are not counted twice. *)
Definition measured {W A} (controller : string) (m : M W A) : Prop :=
  forall st, exists new result,
    effects (snd (m st)) = effects st ++ new ++
      [HistogramObserve ReconcileDuration [controller]; CounterInc ReconcileTotal [controller; result]] /\
    Forall inner new /\ result ∈ ["success"; "error"; "requeue"] /\
    (result = "error" <-> is_ok (fst (m st)) = false).

Lemma instrumented_measured {W A} controller (m : M W A) :
  instrumented controller m -> measured controller m.
Proof.
  intros Hi st. destruct (m st) as [r st'] eqn:E. destruct (Hi _ _ _ E) as (new & Hn & En).
  eexists new, _. split; [exact En|]. split; [done|]. simpl.
  destruct (is_ok r); split; try done; [by left|by right; left].
Qed.

(** C32: every run of each of the three [Reconcile] functions, on any API server
    and whatever it returns, ends with exactly one observation of the reconcile
    duration and one increment of the reconcile counter, both under the name of
    its controller (three different names, [pipeline] and [defaults] for those
    two), the latter with one of the documented results, which is [error] exactly
    when the run returned an error; all it emits before are events of a type
    Kubernetes accepts and updates of registered collectors of the right kind
    with one value per label (so [WithLabelValues] cannot panic), and none of
    them touches the two reconcile collectors. *)
Theorem reconcilers_instrumented {W} `{Client W} Marshal int32_of_inf kafka s3 sma MarshalSpec UnmarshalSpec Template Parse Execute sort order ctxErr now req :
  measured "pipeline" (Reconcile (W := W) Marshal int32_of_inf kafka sma req) /\
  measured "defaults" (@DefaultsReconcile W _ req) /\
  exists controller, controller ∉ ["pipeline"; "defaults"] /\
    measured controller
      (DiscoveryReconcile (W := W) MarshalSpec UnmarshalSpec Template Parse Execute sort order ctxErr now kafka s3 req).
Proof.
  split_and!; [apply instrumented_measured, instrumented_Reconcile
              |apply instrumented_measured, instrumented_DefaultsReconcile|].
  exists "discovery". split; [|apply instrumented_measured, instrumented_DiscoveryReconcile].
  apply (bool_decide_unpack _). reflexivity.
Qed.
