(* ===== verification/DiscoveryProofs.v ===== *)
(** * Theorems about the discovery reconciler

    The names of child pipelines, the failure backoff, overrides and inherited
    settings, the bounds and the progress of creation and of the staged rollout,
    and the cleanup of orphans. *)

From S2P Require Import Prelude Go Duration Glob Api Graph Webhook Resources Clients Discovery Cluster.
From S2P Require Import Reconciler PipelineController DiscoveryController.
From Stdlib Require Import Ascii.
#[local] Open Scope Z_scope.

(** ** Names *)

(** The characters of a DNS label. *)
Definition name_char (c : ascii) : Prop :=
  97 <= byte_val c <= 122 \/ 48 <= byte_val c <= 57 \/ c = "-"%char.

Lemma byte_val_ascii r : 0 <= r < 256 -> byte_val (ascii_of_N (Z.to_N r)) = r.
Proof. intros H. unfold byte_val. rewrite N_ascii_embedding by lia. lia. Qed.

Lemma in_range_true lo hi r : in_range lo hi r = true <-> lo <= r <= hi.
Proof. unfold in_range. rewrite andb_true_iff, !Z.leb_le. done. Qed.

Lemma sanitizeRune_char r : name_char (sanitizeRune r).
Proof.
  unfold sanitizeRune, name_char.
  destruct (in_range 97 122 r || in_range 48 57 r || (r =? 45)) eqn:E.
  - rewrite !orb_true_iff, !in_range_true, Z.eqb_eq in E.
    destruct E as [[E|E]| ->]; [| |by right; right]; rewrite byte_val_ascii by lia; lia.
  - destruct (in_range 65 90 r) eqn:E2; [|by right; right].
    apply in_range_true in E2. rewrite byte_val_ascii by lia. lia.
Qed.

(** A valid character is mapped to itself. *)
Lemma sanitizeRune_id c : name_char c -> sanitizeRune (byte_val c) = c.
Proof.
  intros Hc. unfold sanitizeRune, name_char in *.
  assert (in_range 97 122 (byte_val c) || in_range 48 57 (byte_val c) || (byte_val c =? 45) = true) as ->.
  { rewrite !orb_true_iff, !in_range_true, Z.eqb_eq. destruct Hc as [?|[?| ->]]; [lia|lia|by right]. }
  unfold byte_val. by rewrite N2Z.id, ascii_N_embedding.
Qed.

(** A Kubernetes object name made of one DNS label of at most 253 characters. *)
Record valid_name (l : list ascii) : Prop := {
  vn_nonempty : l ≠ [];
  vn_length : Z.of_nat (length l) <= 253;
  vn_chars : Forall name_char l;
  vn_head : head l ≠ Some "-"%char;
  vn_last : last l ≠ Some "-"%char }.

Lemma sanitizeName_makes_valid s : valid_name (bytes (sanitizeName s)).
Proof.
  unfold sanitizeName. set (base := trim _ _).
  assert (Hc : Forall name_char base).
  { apply trim_Forall, map_runes_Forall, sanitizeRune_char. }
  assert (Hh : head base ≠ Some "-"%char) by apply trim_head.
  assert (Hl : last base ≠ Some "-"%char) by apply trim_last.
  set (cut := if 253 <? Z.of_nat (length base) then _ else _).
  case_bool_decide as He.
  { constructor; [done|done| |done|done].
    repeat (apply Forall_cons; split; [left; vm_compute; split; discriminate|]). apply Forall_nil_2. }
  rewrite bytes_of_bytes. subst cut.
  destruct (Z.ltb_spec 253 (Z.of_nat (length base))) as [Hlen|Hlen]; [|by constructor].
  assert (Hth : head (take 253 base) = head base) by (by destruct base).
  constructor.
  - done.
  - destruct (trim_right_prefix "-"%char (take 253 base)) as [k Hk].
    apply (f_equal length) in Hk. rewrite length_app, length_take in Hk. lia.
  - by apply trim_right_Forall, Forall_take.
  - apply trim_right_head. by rewrite Hth.
  - apply trim_right_last.
Qed.

Lemma sanitizeName_fixed s : valid_name (bytes s) -> sanitizeName s = s.
Proof.
  intros [Hne Hlen Hc Hh Hl]. unfold sanitizeName.
  assert (map_runes sanitizeRune (bytes s) 0 = bytes s) as ->.
  { rewrite map_runes_ascii.
    - rewrite <-(list_fmap_id (bytes s)) at 2. apply list_fmap_ext.
      intros i c Hi%list_elem_of_lookup_2. apply sanitizeRune_id. rewrite Forall_forall in Hc. auto.
    - eapply Forall_impl; [exact Hc|]. intros c [?|[?| ->]]; [lia|lia|done]. }
  rewrite trim_id by done. rewrite (proj2 (Z.ltb_ge _ _)) by lia.
  rewrite bool_decide_eq_false_2 by done. apply of_bytes_bytes.
Qed.

(** The strings left as they are are exactly the valid names. *)
Lemma sanitizeName_fixed_iff s : sanitizeName s = s <-> valid_name (bytes s).
Proof. split; [|apply sanitizeName_fixed]. intros <-. apply sanitizeName_makes_valid. Qed.

(** The characters of a topic name, and what becomes of them: upper case is
    lowered, dots and underscores become hyphens. *)
Definition topic_alnum (c : ascii) : Prop :=
  97 <= byte_val c <= 122 \/ 48 <= byte_val c <= 57 \/ 65 <= byte_val c <= 90.
Definition topic_char (c : ascii) : Prop :=
  topic_alnum c \/ c = "-"%char \/ c = "."%char \/ c = "_"%char.
Definition name_of_char (c : ascii) : ascii :=
  if decide (65 <= byte_val c <= 90) then ascii_of_N (Z.to_N (byte_val c + 32))
  else if decide (c = "."%char \/ c = "_"%char) then "-"%char else c.

Lemma sanitizeRune_topic c : topic_char c -> sanitizeRune (byte_val c) = name_of_char c.
Proof.
  intros Hc. unfold name_of_char. destruct (decide (65 <= byte_val c <= 90)) as [Hu|Hu].
  - unfold sanitizeRune. rewrite (proj2 (in_range_true 65 90 _)) by lia.
    destruct (in_range 97 122 (byte_val c) || in_range 48 57 (byte_val c) || (byte_val c =? 45)) eqn:E; [|done].
    rewrite !orb_true_iff, !in_range_true, Z.eqb_eq in E. lia.
  - destruct (decide (c = "."%char \/ c = "_"%char)) as [[->| ->]|Hd]; [done..|].
    apply sanitizeRune_id. unfold name_char. destruct Hc as [[?|[?|?]]|[->|?]]; [lia|lia|lia|by right; right|tauto].
Qed.

Lemma name_of_alnum c : topic_alnum c -> name_of_char c ≠ "-"%char.
Proof.
  unfold topic_alnum, name_of_char. intros Hc. repeat case_decide.
  - intros E%(f_equal byte_val). rewrite byte_val_ascii in E by lia.
    change (byte_val "-"%char) with 45 in E. lia.
  - naive_solver lia.
  - intros ->. change (byte_val "-"%char) with 45 in Hc. lia.
Qed.

(** Short topic names that begin and end with a letter or digit are translated
    character by character. *)
Lemma sanitizeName_topic s :
  Forall topic_char (bytes s) -> (length (bytes s) <= 63)%nat ->
  (exists c, head (bytes s) = Some c /\ topic_alnum c) ->
  (exists c, last (bytes s) = Some c /\ topic_alnum c) ->
  bytes (sanitizeName s) = name_of_char <$> bytes s.
Proof.
  intros Hc Hlen (h & Hh & Hha) (t & Ht & Hta). unfold sanitizeName.
  rewrite map_runes_ascii.
  2:{ eapply Forall_impl; [exact Hc|]. intros c [[?|[?|?]]|[->|[->| ->]]]; (lia || done). }
  assert (((fun c => sanitizeRune (byte_val c)) <$> bytes s) = name_of_char <$> bytes s) as ->.
  { apply list_fmap_ext. intros i c Hi%list_elem_of_lookup_2. apply sanitizeRune_topic.
    rewrite Forall_forall in Hc. auto. }
  rewrite trim_id.
  2:{ destruct (bytes s); simplify_eq/=. intros [= E]. by apply (name_of_alnum h). }
  2:{ rewrite fmap_last, Ht. simpl. intros [= E]. by apply (name_of_alnum t). }
  rewrite length_fmap, (proj2 (Z.ltb_ge _ _)) by lia.
  rewrite bool_decide_eq_false_2; [by rewrite bytes_of_bytes|]. destruct (bytes s); done.
Qed.

(** C39: [sanitizeName] turns every string into a valid Kubernetes object name
    (non-empty, lower-case letters, digits and hyphens, no hyphen at either end,
    within the 253 characters Kubernetes allows) and is idempotent; a string of
    at most 63 letters, digits, dots, underscores and hyphens that begins and
    ends with a letter or digit is translated character by character: upper case
    is lowered, dots and underscores become hyphens, nothing is cut. *)
Theorem sanitizeName_valid s :
  valid_name (bytes (sanitizeName s)) /\ sanitizeName (sanitizeName s) = sanitizeName s /\
  (Forall topic_char (bytes s) -> (length (bytes s) <= 63)%nat ->
   (exists c, head (bytes s) = Some c /\ topic_alnum c) ->
   (exists c, last (bytes s) = Some c /\ topic_alnum c) ->
   bytes (sanitizeName s) = name_of_char <$> bytes s).
Proof.
  split_and!; [apply sanitizeName_makes_valid|apply sanitizeName_fixed, sanitizeName_makes_valid|].
  apply sanitizeName_topic.
Qed.

Lemma sanitizeName_valid_witness : sanitizeName "Logs_app.v2" = "logs-app-v2".
Proof.
  assert (H : bytes (sanitizeName "Logs_app.v2") = name_of_char <$> bytes "Logs_app.v2").
  { apply (proj2 (proj2 (sanitizeName_valid "Logs_app.v2"))).
    - repeat (apply Forall_cons; split; [first
        [left; first [left; vm_compute; split; discriminate|right; left; vm_compute; split; discriminate
                     |right; right; vm_compute; split; discriminate]
        |right; first [left; reflexivity|right; left; reflexivity|right; right; reflexivity]]|]).
      apply Forall_nil_2.
    - vm_compute. lia.
    - eexists. split; [reflexivity|]. right. right. vm_compute. split; discriminate.
    - eexists. split; [reflexivity|]. right. left. vm_compute. split; discriminate. }
  apply (f_equal of_bytes) in H. rewrite of_bytes_bytes in H. rewrite H. reflexivity.
Defined.

(** Two sources of one discovery can get the same pipeline name. *)
Example sanitizeName_collision : sanitizeName "d-logs_app" = sanitizeName "d-logs.app".
Proof. reflexivity. Qed.

(** A name of 250 characters passes [sanitizeName] but not the webhook. *)
Example sanitizeName_too_long :
  let name := of_bytes (repeat "a"%char 250) in
  sanitizeName name = name /\
  exists e, validatePipeline None
              (mkDataPrepperPipeline (bare_meta ("ns", name)) (P_Spec example_pipeline)
                 zero_PipelineStatus) = Err e.
Proof. vm_compute. split; [reflexivity|]. eexists. reflexivity. Qed.

(** ** Failure count and backoff *)

Lemma discoveryBackoff_closed n :
  1 <= n -> discoveryBackoff n = Z.min (defaultPollInterval * 2 ^ (n - 1)) maxDiscoveryBackoff.
Proof.
  intros Hn. unfold discoveryBackoff. destruct (Z.leb_spec n 1).
  - assert (n = 1) as -> by lia. reflexivity.
  - destruct (Z.ltb_spec maxDiscoveryBackoff (defaultPollInterval * 2 ^ (n - 1))); lia.
Qed.

Definition failureCount (d : DataPrepperSourceDiscovery) : Z :=
  Atoi (map_get (default ∅ (Meta_Annotations (D_Meta d))) discoveryFailureCountKey).

Lemma incrementFailureCount_step d :
  0 <= failureCount d < 2 ^ 63 - 1 ->
  (incrementFailureCount d).1 = failureCount d + 1 /\
  failureCount (incrementFailureCount d).2 = failureCount d + 1.
Proof.
  intros Hr. unfold incrementFailureCount. fold (failureCount d). simpl.
  rewrite int64_id by (unfold in_int64; lia). split; [done|].
  unfold failureCount at 1. simpl. unfold map_get. rewrite lookup_insert_eq. simpl.
  apply Atoi_Itoa. unfold in_int64; lia.
Qed.

(** The backoff after [n] consecutive discovery failures, counted through the
    annotation that survives between reconciles, is the exponential
    [30s * 2^(n-1)] capped at five minutes: starting from a discovery without
    the annotation, the [n]-th failure counts [n] and waits that long, so the
    delays never decrease and stay between 30 seconds and 5 minutes. *)
Theorem failure_backoff n d :
  Meta_Annotations (D_Meta d) ≫= (fun a => a !! discoveryFailureCountKey) = None ->
  (0 < n)%nat -> Z.of_nat n < 2 ^ 63 - 1 ->
  let d' := Nat.iter (n - 1) (fun d => (incrementFailureCount d).2) d in
  let count := (incrementFailureCount d').1 in
  count = Z.of_nat n /\
  discoveryBackoff count = Z.min (30 * Second * 2 ^ (count - 1)) (5 * Minute) /\
  30 * Second <= discoveryBackoff count <= 5 * Minute /\
  discoveryBackoff count <= discoveryBackoff (count + 1).
Proof.
  intros Hd Hn Hmax d' count.
  assert (H0 : failureCount d = 0).
  { unfold failureCount, map_get. destruct (Meta_Annotations (D_Meta d)) as [a|]; simpl in *;
      [|by rewrite lookup_empty]. by rewrite Hd. }
  assert (Hiter : forall k, (k < n)%nat ->
    failureCount (Nat.iter k (fun d => (incrementFailureCount d).2) d) = Z.of_nat k).
  { induction k as [|k IH]; intros Hk; [done|]. rewrite Nat.iter_succ.
    destruct (incrementFailureCount_step (Nat.iter k (fun d => (incrementFailureCount d).2) d)) as [_ ->];
      rewrite IH by lia; lia. }
  assert (Hc : count = Z.of_nat n).
  { subst count d'. destruct (incrementFailureCount_step
      (Nat.iter (n - 1) (fun d => (incrementFailureCount d).2) d)) as [-> _]; rewrite Hiter by lia; lia. }
  rewrite !(discoveryBackoff_closed) by lia. split; [done|]. rewrite Hc.
  assert (1 <= 2 ^ (Z.of_nat n - 1)) by (apply (Z.pow_le_mono_r 2 0); lia).
  assert (2 ^ (Z.of_nat n - 1) <= 2 ^ (Z.of_nat n + 1 - 1)) by (apply Z.pow_le_mono_r; lia).
  unfold defaultPollInterval, maxDiscoveryBackoff, Minute, Second. split_and!; [done|lia..].
Qed.

Lemma failure_backoff_witness :
  let d := mkDataPrepperSourceDiscovery zero_ObjectMeta
             (mkDataPrepperSourceDiscoverySpec None None (mkPipelineTemplateSpec zero_PipelineSpec) [] None)
             (mkDataPrepperSourceDiscoveryStatus DiscoveryPhaseUnset 0 0 0 0 0 None [] []) in
  discoveryBackoff (incrementFailureCount
    (Nat.iter 3 (fun d => (incrementFailureCount d).2) d)).1 = 240 * Second.
Proof.
  intros d. destruct (failure_backoff 4 d) as (Hc & Hb & _).
  - reflexivity.
  - lia.
  - lia.
  - simpl Nat.sub in Hb, Hc. rewrite Hb, Hc. reflexivity.
Defined.

(** ** The poll interval *)

(** A string that is no duration (the empty string, in particular) stands for the
    default interval. *)
Lemma parsePollInterval_default s :
  is_ok (ParseDuration s) = false -> parsePollInterval s = defaultPollInterval.
Proof. intros E. unfold parsePollInterval. destruct (nonempty s); [|done]. by destruct (ParseDuration s). Qed.

(** C36: the poll interval of a discovery is read back exactly: a duration
    written as one or more components [<number><unit>] (nanoseconds to hours),
    such as [30s] or [1h30m], whose length fits a [time.Duration], gives a
    requeue delay of exactly that many nanoseconds; and whatever the string is
    (empty, malformed, out of range), the delay is an [int64], and a positive one
    (so that polling goes on, but not at once) if the string does not parse. *)
Theorem parsePollInterval_roundtrip l s :
  l ≠ [] -> Forall proper_component l -> duration_of l < 2 ^ 63 ->
  parsePollInterval (print_duration l) = duration_of l /\
  in_int64 (parsePollInterval s) /\
  (is_ok (ParseDuration s) = false -> 0 < parsePollInterval s).
Proof.
  intros Hne Hl Hlt. split_and!.
  - unfold parsePollInterval. rewrite ParseDuration_print, (proj2 (nonempty_true _)); [done| |done..].
    destruct l as [|[n u] l]; [done|]. simpl. intros E%(f_equal bytes). rewrite !bytes_app in E.
    destruct (bytes (Itoa n)) eqn:Eb; [|done]. apply (Itoa_nonempty n).
    by rewrite <-(of_bytes_bytes (Itoa n)), Eb.
  - unfold parsePollInterval. destruct (nonempty s); [|done]. destruct (ParseDuration s) eqn:E; [|done].
    by eapply ParseDuration_range.
  - intros E. by rewrite parsePollInterval_default.
Qed.

Lemma parsePollInterval_roundtrip_witness :
  parsePollInterval "1h30m" = 90 * Minute /\ parsePollInterval "0s" = 0 /\
  0 < parsePollInterval "5 minutes".
Proof.
  split_and!.
  - refine (proj1 (parsePollInterval_roundtrip [(1, "h"); (30, "m")] "" _ _ _));
      [done|by apply (bool_decide_unpack _)|reflexivity].
  - refine (proj1 (parsePollInterval_roundtrip [(0, "s")] "" _ _ _));
      [done|by apply (bool_decide_unpack _)|reflexivity].
  - refine (proj2 (proj2 (parsePollInterval_roundtrip [(0, "s")] "5 minutes" _ _ _)) _);
      [done|by apply (bool_decide_unpack _)|reflexivity|vm_compute; reflexivity].
Defined.

(** ** Creation and staged rollout *)

Section rollout.
Context {W : Type} `{ClientLaws W}.
Implicit Types (disc : DataPrepperSourceDiscovery) (d : desired).

(** The child pipeline [name] of [disc] exists in the desired form. *)
Definition applied disc (name : string) d (w : W) : Prop :=
  exists p, stored KPipeline (Meta_Namespace (D_Meta disc), name) w = Some p /\
    P_Spec p = d_spec d /\
    default ∅ (Meta_Annotations (P_Meta p)) !! templateGenerationKey = Some (d_hash d) /\
    default ∅ (Meta_Labels (P_Meta p)) !! discoveryLabelKey = Some (Meta_Name (D_Meta disc)) /\
    exists r, r ∈ Meta_OwnerReferences (P_Meta p) /\ Owner_UID r = Meta_UID (D_Meta disc).

(** Apply a list of desired pipelines; both loops of [reconcilePipelines] are
    this, on a prefix of their candidates. *)
Fixpoint applyAll (format : string) disc (entries : list (string * desired)) : M W unit :=
  match entries with
  | [] => mret tt
  | (name, d) :: entries =>
    wrap format [AStr name] (applyPipeline disc name d) ;; applyAll format disc entries
  end.

Definition missing (existing : gmap string DataPrepperPipeline) (entries : list (string * desired))
    : list (string * desired) := filter (fun e => existing !! e.1 = None) entries.

Lemma M_bind_assoc {A B C} (m : M W A) (f : A -> M W B) (g : B -> M W C) st :
  ((m ≫= f) ≫= g) st = (m ≫= (fun a => f a ≫= g)) st.
Proof. unfold mbind, M_bind. by destruct (m st) as [[]]. Qed.

Lemma M_bind_ext {A B} (m : M W A) (f g : A -> M W B) st :
  (forall a st', f a st' = g a st') -> (m ≫= f) st = (m ≫= g) st.
Proof. intros E. unfold mbind, M_bind. by destruct (m st) as [[]]. Qed.

(** Phase 1 creates the first missing pipelines, up to the limit. *)
Lemma createLoop_eq disc existing limit entries created st :
  0 <= created <= limit ->
  createLoop disc existing limit entries created st =
  let l := take (Z.to_nat (limit - created)) (missing existing entries) in
  (applyAll "create pipeline %q: %w" disc l ;; mret (created + Z.of_nat (length l))) st.
Proof.
  revert created st. induction entries as [|[name d] entries IH]; intros created st Hc.
  { unfold missing. rewrite filter_nil, take_nil. cbv zeta. rewrite Z.add_0_r. reflexivity. }
  cbn [createLoop]. unfold missing. rewrite filter_cons. fold (missing existing entries).
  case_bool_decide as He.
  { rewrite decide_False by (simpl; by apply not_eq_None_Some). by apply IH. }
  rewrite decide_True by (simpl; by apply eq_None_not_Some).
  destruct (Z.leb_spec limit created).
  { assert (created = limit) as -> by lia. rewrite IH by lia. rewrite Z.sub_diag. done. }
  replace (Z.to_nat (limit - created)) with (S (Z.to_nat (limit - (created + 1)))) by lia.
  cbn [take applyAll length]. rewrite M_bind_assoc. apply M_bind_ext. intros [] st'.
  rewrite IH by lia. cbv zeta. apply M_bind_ext. intros [] st2. unfold mret, M_ret.
  do 2 f_equal. lia.
Qed.

Definition entry (des : gmap string desired) (name : string) : string * desired :=
  (name, default (mkDesired zero_PipelineSpec "") (des !! name)).

(** Phase 4 updates the first stale pipelines, up to the limit. *)
Lemma updateLoop_eq disc des limit names updated st :
  0 <= updated <= limit ->
  updateLoop disc des limit names updated st =
  let l := entry des <$> take (Z.to_nat (limit - updated)) names in
  (applyAll "update pipeline %q: %w" disc l ;; mret (updated + Z.of_nat (length l))) st.
Proof.
  revert updated st. induction names as [|name names IH]; intros updated st Hu.
  { rewrite take_nil. cbv zeta. cbn. rewrite Z.add_0_r. reflexivity. }
  cbn [updateLoop]. destruct (Z.leb_spec limit updated).
  { assert (updated = limit) as -> by lia. rewrite Z.sub_diag. cbv zeta.
    cbn. rewrite Z.add_0_r. reflexivity. }
  replace (Z.to_nat (limit - updated)) with (S (Z.to_nat (limit - (updated + 1)))) by lia.
  cbn [take]. rewrite fmap_cons. cbn [applyAll entry length].
  rewrite M_bind_assoc. apply M_bind_ext. intros [] st'.
  rewrite IH by lia. cbv zeta. apply M_bind_ext. intros [] st2. unfold mret, M_ret.
  do 2 f_equal. lia.
Qed.

Lemma applyPipeline_Ok disc name d (st st' : St W) :
  applyPipeline disc name d st = (Ok tt, st') ->
  applied disc name d (world st') /\
  untouched KPipeline (Meta_Namespace (D_Meta disc), name) (world st) (world st').
Proof.
  intros [E _]%writes_Ok. split.
  - apply (CreateOrUpdate_Ok KPipeline) in E as (o1 & o2 & Hf & [Hm Hc] & Hst).
    + unfold mutatePipeline in Hf. rewrite bind_Ok in Hf. destruct Hf as (m & Hm' & [= <-]).
      apply SetControllerReference_fields in Hm' as (_ & _ & Hl & Ha & _ & Hr).
      simpl in Hm, Hc, Hl, Ha. exists o2. split; [exact Hst|].
      pose proof (f_equal Meta_Annotations Hm) as Ha2. pose proof (f_equal Meta_Labels Hm) as Hl2.
      pose proof (f_equal Meta_OwnerReferences Hm) as Ho2. simpl in Ha2, Hl2, Ho2.
      split_and!; [done| | |by rewrite Ho2].
      * rewrite Ha2, Ha. simpl. apply lookup_insert_eq.
      * rewrite Hl2, Hl. simpl. apply lookup_insert_eq.
    + intros o0 o1. unfold mutatePipeline. rewrite bind_Ok. intros (m & Hm & [= <-]).
      by apply SetControllerReference_fields in Hm as (_ & _ & _ & _ & ? & _).
  - pose proof (CreateOrUpdate_frame KPipeline (barePipeline (Meta_Namespace (D_Meta disc)) name)
      (mutatePipeline disc d) (world st)) as Hf. rewrite E in Hf. exact Hf.
Qed.

Lemma applyAll_Ok format disc entries (st st' : St W) :
  NoDup entries.*1 ->
  applyAll format disc entries st = (Ok tt, st') ->
  (forall name d, (name, d) ∈ entries -> applied disc name d (world st')) /\
  (forall k key, k ≠ KPipeline \/ key ∉ (pair (Meta_Namespace (D_Meta disc)) <$> entries.*1) ->
     stored k key (world st') = stored k key (world st)).
Proof.
  revert st. induction entries as [|[name d] entries IH]; intros st Hnd E.
  { injection E as <-. split; [by intros ? ? ?%elem_of_nil|done]. }
  rewrite fmap_cons in Hnd. apply NoDup_cons in Hnd as [Hnotin Hnd].
  cbn [applyAll] in E. apply M_bind_Ok in E as ([] & s1 & E1%wrap_Ok & E).
  apply applyPipeline_Ok in E1 as [Happ Hf1]. apply IH in E as [H1 H2]; [|done]. split.
  - intros n' d' [[= -> ->]|Hin]%elem_of_cons; [|by apply H1].
    destruct Happ as (p & Hp & Hrest). exists p. split; [|exact Hrest].
    rewrite H2; [exact Hp|]. right. by intros (n2 & [= <-] & Hin)%list_elem_of_fmap.
  - intros k key Hk. rewrite H2, Hf1; [done| |]; rewrite !fmap_cons in Hk; set_solver.
Qed.

Lemma limit_pos disc : 1 <= discoveryMaxCreationsPerCycle disc.
Proof.
  unfold discoveryMaxCreationsPerCycle, defaultMaxCreationsPerCycle.
  destruct (DSpec_MaxCreationsPerCycle (D_Spec disc)) as [n|]; [|lia].
  destruct (Z.ltb_spec 0 n); lia.
Qed.

Lemma elem_of_staleNames existing entries name :
  name ∈ staleNames existing entries ->
  exists d p, (name, d) ∈ entries /\ existing !! name = Some p /\ currentHash p ≠ d_hash d.
Proof.
  unfold staleNames. intros ([n d] & Hin & Hs)%list_elem_of_omap.
  destruct (existing !! n) as [p|] eqn:E; [|done].
  case_bool_decide as Hh; [done|]. injection Hs as <-. by exists d, p.
Qed.

Lemma NoDup_staleNames existing entries : NoDup entries.*1 -> NoDup (staleNames existing entries).
Proof.
  induction entries as [|[n d] entries IH]; [constructor|].
  rewrite fmap_cons. intros [Hnotin Hnd]%NoDup_cons. specialize (IH Hnd). simpl in Hnotin.
  unfold staleNames in *. simpl.
  destruct (existing !! n); [|done]. case_bool_decide; [done|].
  apply NoDup_cons. split; [|done]. intros Hin. apply Hnotin.
  apply (elem_of_staleNames existing entries n) in Hin as (d' & p' & Hin & _).
  by apply (list_elem_of_fmap_2 fst) in Hin.
Qed.

Lemma NoDup_missing existing entries : NoDup entries.*1 -> NoDup (missing existing entries).*1.
Proof.
  induction entries as [|[n d] entries IH]; [constructor|].
  rewrite fmap_cons. intros [Hnotin Hnd]%NoDup_cons. specialize (IH Hnd).
  unfold missing in *. rewrite filter_cons. case_decide; [|done].
  rewrite fmap_cons. apply NoDup_cons. split; [|done].
  intros ([n' d'] & E & Hin)%list_elem_of_fmap. apply Hnotin. rewrite E.
  apply list_elem_of_filter in Hin as [_ Hin]. by apply (list_elem_of_fmap_2 fst) in Hin.
Qed.

Lemma existingByName_lookup_from (m : gmap string DataPrepperPipeline) items name p :
  NoDup (Meta_Name ∘ P_Meta <$> items) ->
  foldl (fun m p => <[Meta_Name (P_Meta p) := p]> m) m items !! name = Some p <->
  (p ∈ items /\ Meta_Name (P_Meta p) = name) \/
  (name ∉ (Meta_Name ∘ P_Meta <$> items) /\ m !! name = Some p).
Proof.
  revert m. induction items as [|q items IH]; intros m; cbn [foldl].
  { intros _. rewrite fmap_nil. set_solver. }
  rewrite fmap_cons. intros [Hq Hnd]%NoDup_cons. rewrite IH by done. simpl in Hq.
  destruct (decide (Meta_Name (P_Meta q) = name)) as [<-|Hne].
  - rewrite lookup_insert_eq. set_solver.
  - rewrite lookup_insert_ne by done. set_solver.
Qed.

(** The pipeline carries the label of its discovery. *)
Definition is_child disc (p : DataPrepperPipeline) : Prop :=
  default ∅ (Meta_Labels (P_Meta p)) !! discoveryLabelKey = Some (Meta_Name (D_Meta disc)).

(** The map of the reconciler holds exactly the stored children. *)
Lemma existingByName_children disc w items name p :
  ListPipelines (Meta_Namespace (D_Meta disc)) (childLabels disc) w = Ok items ->
  existingByName items !! name = Some p <->
  stored KPipeline (Meta_Namespace (D_Meta disc), name) w = Some p /\ is_child disc p.
Proof.
  intros [Hnd Hin]%List_Ok. unfold existingByName, is_child.
  rewrite existingByName_lookup_from by done. rewrite lookup_empty, Hin.
  unfold childLabels. rewrite map_singleton_subseteq_l. split.
  - by intros [[[Hst Hl] <-]|[_ ?]].
  - intros [Hst Hl]. left. pose proof (stored_key KPipeline _ _ _ Hst) as [= _ Hn]. by subst name.
Qed.

(** The desired pipelines of a prefix of the candidates were applied, and
    nothing else was written. *)
Definition applied_only disc (des : gmap string desired) (names : list string) (w w' : W) : Prop :=
  NoDup names /\
  (forall name, name ∈ names -> exists d, des !! name = Some d /\ applied disc name d w') /\
  (forall k key, k ≠ KPipeline \/ key ∉ (pair (Meta_Namespace (D_Meta disc)) <$> names) ->
     stored k key w' = stored k key w).

Lemma applied_only_nil disc des w : applied_only disc des [] w w.
Proof. split_and!; [constructor|by intros ? ?%elem_of_nil|done]. Qed.

Lemma applyAll_only format disc (des : gmap string desired) entries (st st' : St W) :
  NoDup entries.*1 -> (forall name d, (name, d) ∈ entries -> des !! name = Some d) ->
  applyAll format disc entries st = (Ok tt, st') ->
  applied_only disc des entries.*1 (world st) (world st').
Proof.
  intros Hnd Hdes E. apply applyAll_Ok in E as [H1 H2]; [|done]. split_and!; [done| |done].
  intros name ([n d] & -> & Hin)%list_elem_of_fmap. exists d. simpl. split; [by apply Hdes|by apply H1].
Qed.

Lemma applied_only_app disc des l1 l2 w1 w2 w3 :
  (forall name, name ∈ l1 -> name ∉ l2) ->
  applied_only disc des l1 w1 w2 -> applied_only disc des l2 w2 w3 ->
  applied_only disc des (l1 ++ l2) w1 w3.
Proof.
  intros Hdisj (Hn1 & Ha1 & Hf1) (Hn2 & Ha2 & Hf2). split_and!.
  - by apply NoDup_app.
  - intros name [Hin|Hin]%elem_of_app; [|by apply Ha2].
    destruct (Ha1 name Hin) as (d & Hd & p & Hp & Hrest). exists d. split; [done|].
    exists p. split; [|exact Hrest]. rewrite Hf2; [done|]. right.
    intros (n & [= <-] & Hin')%list_elem_of_fmap. by apply (Hdisj name).
  - intros k key Hk. rewrite fmap_app in Hk. rewrite Hf2, Hf1; [done| |]; set_solver.
Qed.
End rollout.

Section rollout_claims.
Context {W : Type} `{ClientLaws W}.
Context (MarshalSpec : DataPrepperPipelineSpec -> result string)
  (UnmarshalSpec : string -> result DataPrepperPipelineSpec) 
  (Template : Type) (Parse : string -> result Template)
  (Execute : Template -> TemplateContext -> result string)
  (order : MapOrder) (Horder : MapOrderLaws order).

Abbreviation desiredPipelines' :=
  (desiredPipelines MarshalSpec UnmarshalSpec Template Parse Execute).
Abbreviation reconcilePipelines' :=
  (reconcilePipelines MarshalSpec UnmarshalSpec Template Parse Execute order).

Lemma create_phase disc des existing created (st s1 : St W) :
  createLoop disc existing (discoveryMaxCreationsPerCycle disc) (ord_create order des) 0 st
    = (Ok created, s1) ->
  created = Z.min (discoveryMaxCreationsPerCycle disc)
              (Z.of_nat (length (missing existing (ord_create order des)))) /\
  exists names, Z.of_nat (length names) = created /\
    (forall name, name ∈ names -> existing !! name = None) /\
    applied_only disc des names (world st) (world s1).
Proof.
  pose proof (limit_pos disc) as Hlim. rewrite createLoop_eq by lia. cbv zeta.
  rewrite Z.sub_0_r. set (l := take _ _).
  intros ([] & s2 & E & Er)%M_bind_Ok. injection Er as <- <-.
  assert (Hperm := ord_create_perm _ Horder des).
  assert (Hnd : NoDup (ord_create order des).*1) by (rewrite Hperm; apply NoDup_fst_map_to_list).
  split; [subst l; rewrite length_take; lia|].
  exists l.*1. rewrite length_fmap. split; [lia|].
  assert (Hl : forall e, e ∈ l -> existing !! e.1 = None /\ e ∈ map_to_list des).
  { intros e He. subst l. apply elem_of_take in He as (i & Hi & _).
    apply list_elem_of_lookup_2, list_elem_of_filter in Hi as [? Hi]. by rewrite Hperm in Hi. }
  split.
  - intros name ([n d] & -> & Hin)%list_elem_of_fmap. by apply Hl in Hin as [? _].
  - eapply applyAll_only; [| |exact E].
    + subst l. rewrite fmap_take. eapply sublist_NoDup; [by apply NoDup_missing|apply sublist_take].
    + intros name d Hin. apply Hl in Hin as [_ Hin]. by apply elem_of_map_to_list in Hin.
Qed.

Lemma update_phase disc des existing updated (st s1 : St W) :
  let stale := staleNames existing (ord_stale order des) in
  updateLoop disc des (maxUpdatesPerCycle (Z.of_nat (size existing))) stale 0 st = (Ok updated, s1) ->
  updated = Z.min (maxUpdatesPerCycle (Z.of_nat (size existing))) (Z.of_nat (length stale)) /\
  exists names, Z.of_nat (length names) = updated /\
    (forall name, name ∈ names -> name ∈ stale) /\
    applied_only disc des names (world st) (world s1).
Proof.
  intros stale. assert (Hb : 1 <= maxUpdatesPerCycle (Z.of_nat (size existing)))
    by (unfold maxUpdatesPerCycle; lia).
  rewrite updateLoop_eq by lia. cbv zeta. rewrite Z.sub_0_r. set (l := take _ stale).
  intros ([] & s2 & E & Er)%M_bind_Ok. injection Er as <- <-.
  assert (Hperm := ord_stale_perm _ Horder des).
  assert (Hnd : NoDup (ord_stale order des).*1) by (rewrite Hperm; apply NoDup_fst_map_to_list).
  assert (Hfst : (entry des <$> l).*1 = l).
  { rewrite <-list_fmap_compose, (list_fmap_ext _ id) by done. apply list_fmap_id. }
  assert (Hl : forall name, name ∈ l -> name ∈ stale).
  { intros name Hn. subst l. apply elem_of_take in Hn as (i & Hi & _).
    by eapply list_elem_of_lookup_2. }
  rewrite length_fmap. split; [subst l; rewrite length_take; lia|].
  exists l. split; [lia|]. split.
  - exact Hl.
  - rewrite <-Hfst. eapply applyAll_only; [| |exact E].
    + rewrite Hfst. subst l. eapply sublist_NoDup; [by apply NoDup_staleNames|apply sublist_take].
    + intros name d (n & [= -> ->] & Hin)%list_elem_of_fmap.
      apply Hl, elem_of_staleNames in Hin as (d' & p & Hin & _).
      rewrite Hperm, elem_of_map_to_list in Hin. by rewrite Hin.
Qed.

(** The batch is a fifth of the children, rounded up, and at least one. *)
Lemma maxUpdatesPerCycle_fifth n :
  5 * (maxUpdatesPerCycle n - 1) < Z.max 1 n <= 5 * maxUpdatesPerCycle n.
Proof. unfold maxUpdatesPerCycle. Z.to_euclidean_division_equations. lia. Qed.

(** The child was updated to the desired spec and is not healthy. *)
Definition unhealthy_update (des : gmap string desired) (name : string) (p : DataPrepperPipeline) : Prop :=
  exists d a, des !! name = Some d /\ Meta_Annotations (P_Meta p) = Some a /\
    default "" (a !! templateGenerationKey) = d_hash d /\
    (PStatus_Phase (P_Status p) = PipelinePhaseDegraded \/
     PStatus_Phase (P_Status p) = PipelinePhaseError).

Lemma unhealthy_true des name p : unhealthy des (name, p) = true <-> unhealthy_update des name p.
Proof.
  unfold unhealthy, unhealthy_update. destruct (des !! name) as [d|]; [|naive_solver].
  destruct (Meta_Annotations (P_Meta p)) as [a|]; [|naive_solver].
  rewrite andb_true_iff, orb_true_iff, !bool_decide_eq_true. unfold map_get. naive_solver.
Qed.

Lemma existsb_unhealthy des existing :
  existsb (unhealthy des) (ord_health order existing) = true <->
  exists name p, existing !! name = Some p /\ unhealthy_update des name p.
Proof.
  rewrite existsb_exists. setoid_rewrite <-list_elem_of_In.
  setoid_rewrite (ord_health_perm _ Horder existing). split.
  - intros ([name p] & Hin%elem_of_map_to_list & Hu%unhealthy_true). by exists name, p.
  - intros (name & p & Hp & Hu%unhealthy_true). exists (name, p). by rewrite elem_of_map_to_list.
Qed.

(** The hash a pipeline carries in its annotation, empty if there is none. *)
Definition hash_of (p : DataPrepperPipeline) : string :=
  default "" (default ∅ (Meta_Annotations (P_Meta p)) !! templateGenerationKey).

Lemma currentHash_eq p : currentHash p = hash_of p.
Proof.
  unfold currentHash, hash_of, map_get.
  destruct (Meta_Annotations (P_Meta p)); simpl; [done|by rewrite lookup_empty].
Qed.

Lemma stale_iff existing des name :
  name ∈ staleNames existing (ord_stale order des) <->
  exists d p, des !! name = Some d /\ existing !! name = Some p /\ hash_of p ≠ d_hash d.
Proof.
  setoid_rewrite <-currentHash_eq. split.
  - intros (d & p & Hin & Hp & Hne)%elem_of_staleNames.
    rewrite (ord_stale_perm _ Horder), elem_of_map_to_list in Hin. by exists d, p.
  - intros (d & p & Hd & Hp & Hne). unfold staleNames. apply list_elem_of_omap. exists (name, d).
    rewrite (ord_stale_perm _ Horder), elem_of_map_to_list. split; [done|].
    by rewrite Hp, bool_decide_eq_false_2.
Qed.

Lemma NoDup_stale existing des : NoDup (staleNames existing (ord_stale order des)).
Proof. apply NoDup_staleNames. rewrite (ord_stale_perm _ Horder). apply NoDup_fst_map_to_list. Qed.

(** What one cycle did, when the children were [existing] and [des] was wanted. *)
Record rollout_cycle disc (des : gmap string desired)
    (existing : gmap string DataPrepperPipeline) (res : reconcileResult) (w w' : W) : Prop := {
  (** The missing pipelines are created, up to the limit. *)
  rc_created : RR_created res = Z.min (discoveryMaxCreationsPerCycle disc)
    (Z.of_nat (length (missing existing (ord_create order des))));
  (** The stale ones are updated, up to a fifth of the children, or the rollout is paused. *)
  rc_updated : RR_updated res =
    if RR_healthCheckFail res then 0
    else Z.min (maxUpdatesPerCycle (Z.of_nat (size existing)))
           (Z.of_nat (length (staleNames existing (ord_stale order des))));
  rc_batch : let batch := maxUpdatesPerCycle (Z.of_nat (size existing)) in
    5 * (batch - 1) < Z.max 1 (Z.of_nat (size existing)) <= 5 * batch;
  rc_pending : RR_updated res + RR_pendingUpdates res =
    Z.of_nat (length (staleNames existing (ord_stale order des)));
  (** A pipeline is stale when its annotation is not the desired hash. *)
  rc_stale : NoDup (staleNames existing (ord_stale order des)) /\
    forall name, name ∈ staleNames existing (ord_stale order des) <->
      exists d p, des !! name = Some d /\ existing !! name = Some p /\ hash_of p ≠ d_hash d;
  rc_paused : RR_healthCheckFail res = true <->
    staleNames existing (ord_stale order des) ≠ [] /\
    exists name p, existing !! name = Some p /\ unhealthy_update des name p;
  (** Exactly these pipelines were written. *)
  rc_written : exists new old,
    Z.of_nat (length new) = RR_created res /\ Z.of_nat (length old) = RR_updated res /\
    (forall name, name ∈ new -> existing !! name = None) /\
    (forall name, name ∈ old -> name ∈ staleNames existing (ord_stale order des)) /\
    applied_only disc des (new ++ old) w w' }.

(** All the names that were written. *)
Lemma rc_names disc des existing res (w w' : W) :
  rollout_cycle disc des existing res w w' ->
  exists names, Z.of_nat (length names) = RR_created res + RR_updated res /\
    (forall name, name ∈ names ->
       existing !! name = None \/ name ∈ staleNames existing (ord_stale order des)) /\
    applied_only disc des names w w'.
Proof.
  intros (new & old & Hn & Ho & Hmiss & Hst & Happ)%rc_written. exists (new ++ old).
  rewrite length_app. split_and!; [lia| |done].
  intros name [?|?]%elem_of_app; [left; auto|right; auto].
Qed.

Lemma reconcilePipelines_Ok disc sources (st : St W) res st' :
  reconcilePipelines' disc sources st = (Ok res, st') ->
  exists des items, desiredPipelines' disc sources = Ok des /\
    ListPipelines (Meta_Namespace (D_Meta disc)) (childLabels disc) (world st) = Ok items /\
    rollout_cycle disc des (existingByName items) res (world st) (world st').
Proof.
  unfold reconcilePipelines.
  intros (des & s0 & E0 & E)%M_bind_Ok. injection E0 as Edes <-.
  apply M_bind_Ok in E as (items & s1 & E1%wrap_Ok & E). injection E1 as El <-.
  apply M_bind_Ok in E as (created & s2 & E2 & E). exists des, items. split; [done|]. split; [done|].
  cbv zeta in *. set (existing := existingByName items) in *.
  apply create_phase in E2 as (Hcr & names & Hlen & Hmiss & Happ).
  pose proof (maxUpdatesPerCycle_fifth (Z.of_nat (size existing))) as Hbatch.
  assert (Hstale := conj (NoDup_stale existing des) (stale_iff existing des)).
  assert (Hwr : exists new old : list string,
    Z.of_nat (length new) = created /\ Z.of_nat (length old) = 0 /\
    (forall name, name ∈ new -> existing !! name = None) /\
    (forall name, name ∈ old -> name ∈ staleNames existing (ord_stale order des)) /\
    applied_only disc des (new ++ old) (world st) (world s2)).
  { exists names, []. rewrite app_nil_r. split_and!; [done|done|done|by intros ? ?%elem_of_nil|done..]. }
  case_bool_decide as Hs.
  { injection E as <- <-. constructor; rewrite ?Hs in *; simpl; [done|lia|done|lia|done| |done].
    by split; [|intros []]. }
  pose proof (existsb_unhealthy des existing) as Hun.
  destruct (existsb (unhealthy des) (ord_health order existing)).
  { injection E as <- <-. constructor; simpl; [done|lia|done|lia|done| |done].
    split; [|done]. intros _. split; [done|]. by apply Hun. }
  apply M_bind_Ok in E as (updated & s3 & E3 & E). injection E as <- <-.
  apply update_phase in E3 as (Hup & names2 & Hlen2 & Hex & Happ2).
  constructor; simpl; [done|done|done|lia|done| |].
  - split; [done|]. intros [_ Hbad]. by apply Hun in Hbad.
  - exists names, names2. split_and!; [done..|].
    eapply applied_only_app; [|exact Happ|exact Happ2]. intros name Hn (d & p & _ & Hp & _)%Hex%elem_of_staleNames.
    by rewrite (Hmiss name Hn) in Hp.
Qed.

(** What a cycle reports when the stale children are [stale]. *)
Record update_counts disc (des : gmap string desired) (existing : gmap string DataPrepperPipeline)
    (stale : list string) (res : reconcileResult) : Prop := {
  (** The stale children: those whose annotation is not the desired hash. *)
  uc_stale : NoDup stale /\ forall name, name ∈ stale <->
    exists d p, des !! name = Some d /\ existing !! name = Some p /\ hash_of p ≠ d_hash d;
  (** The rollout is paused when a child that was updated already is unhealthy. *)
  uc_paused : RR_healthCheckFail res = true <->
    stale ≠ [] /\ exists name p, existing !! name = Some p /\ unhealthy_update des name p;
  uc_none : RR_healthCheckFail res = true -> RR_updated res = 0;
  (** Otherwise a batch of a fifth of the children (rounded up, at least one). *)
  uc_batch : RR_healthCheckFail res = false -> exists batch,
    5 * (batch - 1) < Z.max 1 (Z.of_nat (size existing)) <= 5 * batch /\
    RR_updated res = Z.min batch (Z.of_nat (length stale));
  uc_pending : RR_updated res + RR_pendingUpdates res = Z.of_nat (length stale);
  (** The rate limit of creations. *)
  uc_limit n : DSpec_MaxCreationsPerCycle (D_Spec disc) = Some n -> 0 < n -> RR_created res <= n;
  uc_limit_default : DSpec_MaxCreationsPerCycle (D_Spec disc) = None -> RR_created res <= 10 }.

(** [new] were created and [old] updated, as many as reported. *)
Definition written_as_reported (existing : gmap string DataPrepperPipeline) (stale : list string)
    (res : reconcileResult) (new old : list string) : Prop :=
  Z.of_nat (length new) = RR_created res /\ Z.of_nat (length old) = RR_updated res /\
  (forall name, name ∈ new -> existing !! name = None) /\
  (forall name, name ∈ old -> name ∈ stale).

Lemma rollout_cycle_counts disc des existing res (w w' : W) :
  rollout_cycle disc des existing res w w' ->
  update_counts disc des existing (staleNames existing (ord_stale order des)) res.
Proof.
  intros [Hcr Hup Hb Hp Hs Hpa Hw].
  assert (Hle : RR_created res <= discoveryMaxCreationsPerCycle disc) by lia.
  constructor; [done|done| | |done| |].
  - intros E. by rewrite E in Hup.
  - intros E. rewrite E in Hup. eexists. by split.
  - intros n Hn Hpos. unfold discoveryMaxCreationsPerCycle in Hle. rewrite Hn in Hle.
    rewrite (proj2 (Z.ltb_lt _ _)) in Hle by done. lia.
  - intros Hn. unfold discoveryMaxCreationsPerCycle, defaultMaxCreationsPerCycle in Hle.
    by rewrite Hn in Hle.
Qed.

(** C7: one cycle of child reconciliation rolls a changed template out in stages,
    whatever the order of Go's map iterations. The stale children (whose hash is
    not that of the desired spec) are updated in a batch of a fifth of the
    children, rounded up and at least one, unless a child that was updated
    already is Degraded or in Error, in which case none is updated and the cycle
    reports the pause; updated and pending ones add up to the stale ones. No more
    children are created than [maxCreationsPerCycle] (10 when it is not set).
    Exactly the reported numbers of pipelines were written: those created were
    wanted and missing, those updated were stale, each now has its desired spec,
    hash, label and owner, and no other object changed. *)
Theorem staged_rollout disc sources (st : St W) res st' :
  reconcilePipelines' disc sources st = (Ok res, st') ->
  exists des existing stale, desiredPipelines' disc sources = Ok des /\
    (forall name p, existing !! name = Some p <->
       stored KPipeline (Meta_Namespace (D_Meta disc), name) (world st) = Some p /\ is_child disc p) /\
    update_counts disc des existing stale res /\
    exists new old, written_as_reported existing stale res new old /\
      applied_only disc des (new ++ old) (world st) (world st').
Proof.
  intros (des & items & Hdes & Hl & Hc)%reconcilePipelines_Ok. exists des, (existingByName items).
  eexists. split_and!; [done| |by eapply rollout_cycle_counts|].
  - intros name p. by apply existingByName_children.
  - destruct (rc_written _ _ _ _ _ _ Hc) as (new & old & Hn & Ho & Hmiss & Hst & Happ).
    exists new, old. by split_and!.
Qed.
End rollout_claims.

(** ** Orphans *)

Section cleanup.
Context {W : Type} `{ClientLaws W}.
Implicit Types (disc : DataPrepperSourceDiscovery) (p : DataPrepperPipeline).

(** [p'] is the child [p] released by [disc]. *)
Definition released disc p p' : Prop :=
  P_Spec p' = P_Spec p /\
  default ∅ (Meta_Labels (P_Meta p')) !! discoveryLabelKey = None /\
  default ∅ (Meta_Labels (P_Meta p')) !! orphanedLabelKey = Some "true" /\
  forall r, r ∈ Meta_OwnerReferences (P_Meta p') <->
            r ∈ Meta_OwnerReferences (P_Meta p) /\ Owner_UID r ≠ Meta_UID (D_Meta disc).

Lemma orphaned_released disc p : released disc p (orphaned disc p).
Proof.
  unfold released, orphaned. simpl. split_and!; [done| | |].
  - rewrite lookup_insert_ne by done. apply lookup_delete_eq.
  - apply lookup_insert_eq.
  - intros r. unfold removeOwnerRef. rewrite list_elem_of_filter. tauto.
Qed.

Lemma orphanPipeline_Ok disc p (st st' : St W) :
  orphanPipeline disc p st = (Ok tt, st') ->
  forall p', stored KPipeline (@key_of KPipeline p) (world st') = Some p' -> released disc p p'.
Proof.
  unfold orphanPipeline. intros (q & s1 & [E _]%wrap_Ok%writes_Ok & Er)%M_bind_Ok p'.
  injection Er as <-. apply (Update_Ok KPipeline) in E as ([Hm Hc] & Hst & _).
  change (@key_of KPipeline (orphaned disc p)) with (@key_of KPipeline p) in Hst. rewrite Hst.
  destruct (gone _); [done|]. intros [= <-].
  destruct (orphaned_released disc p) as (Hs & Hl1 & Hl2 & Ho).
  assert (Hl : Meta_Labels (P_Meta q) = Meta_Labels (P_Meta (orphaned disc p)))
    by exact (f_equal Meta_Labels Hm).
  assert (Hown : Meta_OwnerReferences (P_Meta q) = Meta_OwnerReferences (P_Meta (orphaned disc p)))
    by exact (f_equal Meta_OwnerReferences Hm).
  unfold released. rewrite Hl, Hown. split; [exact Hc|]. done.
Qed.

Lemma footprint_orphanPipeline disc p :
  footprint (only KPipeline (@key_of KPipeline p)) (orphanPipeline disc p).
Proof.
  apply footprint_bind; [apply footprint_wrap|auto with footprint].
  apply (footprint_writes _ KPipeline (@key_of KPipeline (orphaned disc p)));
    [|by split]. intros w. apply (Update_frame KPipeline).
Qed.

(** A loop in which every step changes its own pipeline only. *)
Lemma forEach_Ok (f : DataPrepperPipeline -> M W unit)
    (Q : DataPrepperPipeline -> option DataPrepperPipeline -> Prop) items (st st' : St W) :
  (forall p s s', stored KPipeline (@key_of KPipeline p) (world s) = Some p ->
     f p s = (Ok tt, s') -> Q p (stored KPipeline (@key_of KPipeline p) (world s'))) ->
  (forall p, footprint (only KPipeline (@key_of KPipeline p)) (f p)) ->
  NoDup ((fun p => @key_of KPipeline p) <$> items) ->
  (forall p, p ∈ items -> stored KPipeline (@key_of KPipeline p) (world st) = Some p) ->
  forEach f items st = (Ok tt, st') ->
  (forall p, p ∈ items -> Q p (stored KPipeline (@key_of KPipeline p) (world st'))) /\
  (forall k key, k ≠ KPipeline \/ key ∉ ((fun p => @key_of KPipeline p) <$> items) ->
     stored k key (world st') = stored k key (world st)).
Proof.
  intros HQ Hf. revert st. induction items as [|p items IH]; intros st Hnd Hin E.
  { injection E as <-. split; [by intros ? ?%elem_of_nil|done]. }
  rewrite fmap_cons in Hnd. apply NoDup_cons in Hnd as [Hnotin Hnd].
  cbn [forEach] in E. apply M_bind_Ok in E as ([] & s1 & E1 & E).
  pose proof (step_keeps _ _ _ _ _ _ (Hf p) E1) as Hkeep.
  apply HQ in E1; [|apply Hin; by left].
  apply IH in E as [H1 H2]; [|done|].
  - split.
    + intros q [->|Hq]%elem_of_cons; [|by apply H1]. rewrite H2; [done|by right].
    + intros k key Hk. rewrite fmap_cons in Hk. rewrite H2, Hkeep; [done| |]; set_solver.
  - intros q Hq. rewrite Hkeep; [by apply Hin; right|]. right. intros Heq. apply Hnotin.
    rewrite <-Heq. by apply (list_elem_of_fmap_2 (fun p => @key_of KPipeline p)).
Qed.

Definition activeNames disc (sources : list DiscoveredSource) : gset string :=
  list_to_set ((fun s => pipelineName disc (DS_Name s)) <$> sources).

(** What the cleanup leaves of a child [p]. *)
Definition cleaned disc (active : gset string) p (o : option DataPrepperPipeline) : Prop :=
  if decide (Meta_Name (P_Meta p) ∈ active) then o = Some p
  else if decide (discoveryCleanupPolicy disc = "Delete")
  then forall p', o = Some p' -> is_Some (Meta_DeletionTimestamp (P_Meta p'))
  else if decide (discoveryCleanupPolicy disc = "Orphan")
  then forall p', o = Some p' -> released disc p p'
  else o = Some p.

Lemma cleanupOne_Ok disc active p (s s' : St W) :
  stored KPipeline (@key_of KPipeline p) (world s) = Some p ->
  cleanupOne disc active p s = (Ok tt, s') ->
  cleaned disc active p (stored KPipeline (@key_of KPipeline p) (world s')).
Proof.
  intros Hp. unfold cleanupOne, cleaned. repeat case_bool_decide; repeat case_decide; try done.
  - by intros [= <-].
  - intros [E _]%wrap_Ok%writes_Ok p' Hp'. by apply (Delete_Ok KPipeline _ _ _ E) in Hp' as [? _].
  - apply orphanPipeline_Ok.
  - by intros [= <-].
Qed.

Lemma footprint_cleanupOne disc active p :
  footprint (only KPipeline (@key_of KPipeline p)) (cleanupOne disc active p).
Proof.
  unfold cleanupOne. repeat case_bool_decide; auto with footprint.
  - apply footprint_wrap, (footprint_writes _ KPipeline (@key_of KPipeline p)); [|by split].
    intros w. apply (Delete_frame KPipeline).
  - apply footprint_orphanPipeline.
Qed.

Lemma cleanupOrphans_Ok disc sources (st st' : St W) :
  cleanupOrphans disc sources st = (Ok tt, st') ->
  exists items,
    ListPipelines (Meta_Namespace (D_Meta disc)) (childLabels disc) (world st) = Ok items /\
    (forall p, p ∈ items -> cleaned disc (activeNames disc sources) p
                              (stored KPipeline (@key_of KPipeline p) (world st'))) /\
    (forall k key, k ≠ KPipeline \/ key ∉ ((fun p => @key_of KPipeline p) <$> items) ->
       stored k key (world st') = stored k key (world st)).
Proof.
  unfold cleanupOrphans. intros (items & s0 & E0%wrap_Ok & E)%M_bind_Ok. injection E0 as El <-.
  exists items. split; [done|]. eapply forEach_Ok; [| | | |exact E].
  - intros p s s'. apply cleanupOne_Ok.
  - intros p. apply footprint_cleanupOne.
  - by eapply listed_NoDup.
  - intros p. by apply listed_stored with (1 := El).
Qed.

(** C12: when the cleanup of orphans returns without error, every child pipeline
    of the discovery whose source still exists is untouched; every other child
    is gone (or marked for deletion) under the Delete policy, and under the
    Orphan policy it keeps its spec but no longer carries the discovery's
    label and owner reference and is marked as orphaned; no object but those
    children is written. *)
Theorem cleanupOrphans_exact disc sources (st st' : St W) :
  cleanupOrphans disc sources st = (Ok tt, st') ->
  exists items,
    ListPipelines (Meta_Namespace (D_Meta disc)) (childLabels disc) (world st) = Ok items /\
    (forall p, p ∈ items -> cleaned disc (activeNames disc sources) p
                              (stored KPipeline (@key_of KPipeline p) (world st'))) /\
    (forall k key, k ≠ KPipeline \/ key ∉ ((fun p => @key_of KPipeline p) <$> items) ->
       stored k key (world st') = stored k key (world st)).
Proof. apply cleanupOrphans_Ok. Qed.

(** The cleanup of a deleted discovery. *)
Lemma cleanupOnDeletion_Ok disc (st st' : St W) :
  cleanupOnDeletion disc st = (Ok tt, st') ->
  exists items,
    ListPipelines (Meta_Namespace (D_Meta disc)) (childLabels disc) (world st) = Ok items /\
    (forall p, p ∈ items ->
       if decide (discoveryCleanupPolicy disc = "Orphan")
       then forall p', stored KPipeline (@key_of KPipeline p) (world st') = Some p' -> released disc p p'
       else stored KPipeline (@key_of KPipeline p) (world st') = Some p) /\
    (forall k key, k ≠ KPipeline \/ key ∉ ((fun p => @key_of KPipeline p) <$> items) ->
       stored k key (world st') = stored k key (world st)).
Proof.
  unfold cleanupOnDeletion. intros (items & s0 & E0%wrap_Ok & E)%M_bind_Ok. injection E0 as El <-.
  exists items. split; [done|].
  eapply (forEach_Ok _ (fun p o => if decide (discoveryCleanupPolicy disc = "Orphan")
     then forall p', o = Some p' -> released disc p p' else o = Some p)); [| | | |exact E].
  - intros p s s' Hp. case_bool_decide; case_decide; try done; [apply orphanPipeline_Ok|].
    by intros [= <-].
  - intros p. case_bool_decide; [apply footprint_orphanPipeline|auto with footprint].
  - by eapply listed_NoDup.
  - intros p. by apply listed_stored with (1 := El).
Qed.

Context (MarshalSpec : DataPrepperPipelineSpec -> result string)
  (UnmarshalSpec : string -> result DataPrepperPipelineSpec) 
  (Template : Type) (Parse : string -> result Template)
  (Execute : Template -> TemplateContext -> result string)
  (sort : list DiscoveredSource -> list DiscoveredSource)
  (order : MapOrder) (ctxErr : nat -> string -> option error) (now : Z)
  (kafka : option Kafka.ClientFactory) (s3 : option S3.ClientFactory).

Abbreviation DiscoveryReconcile' :=
  (DiscoveryReconcile MarshalSpec UnmarshalSpec Template Parse Execute
     sort order ctxErr now kafka s3).

(** C24: reconciling a discovery under deletion first settles its children and
    then removes the operator's finalizer: under the Orphan policy every child
    is released (no label, no owner reference to the discovery, so that the
    garbage collector does not follow it; the spec is kept), under any other
    policy the children are left to the garbage collector; when the reconcile
    returns without error the finalizer is gone, with all other finalizers in
    place, and no object but the discovery and its children has changed. *)
Theorem deleted_discovery_released req disc (st : St W) res st' :
  stored KDiscovery req (world st) = Some disc ->
  is_Some (Meta_DeletionTimestamp (D_Meta disc)) ->
  discoveryFinalizerName ∈ Meta_Finalizers (D_Meta disc) ->
  DiscoveryReconcile' req st = (Ok res, st') ->
  RequeueAfter res = 0 /\
  (forall d', stored KDiscovery req (world st') = Some d' ->
     forall f, f ∈ Meta_Finalizers (D_Meta d') <->
               f ≠ discoveryFinalizerName /\ f ∈ Meta_Finalizers (D_Meta disc)) /\
  exists items,
    ListPipelines (Meta_Namespace (D_Meta disc)) (childLabels disc) (world st) = Ok items /\
    (forall p, p ∈ items ->
       if decide (discoveryCleanupPolicy disc = "Orphan")
       then forall p', stored KPipeline (@key_of KPipeline p) (world st') = Some p' -> released disc p p'
       else stored KPipeline (@key_of KPipeline p) (world st') = Some p) /\
    (forall k key, (k ≠ KDiscovery \/ key ≠ req) ->
       k ≠ KPipeline \/ key ∉ ((fun p => @key_of KPipeline p) <$> items) ->
       stored k key (world st') = stored k key (world st)).
Proof.
  intros Hd Hdel Hfin (st2 & E & <-)%counted_Ok.
  pose proof (stored_key KDiscovery _ _ _ Hd) as Hkey.
  apply M_bind_Ok in E as (r & s0 & E0 & E). injection E0 as <- <-.
  destruct (Get KDiscovery req (world st)) as [disc'|e] eqn:Eg.
  2: { unfold IgnoreNotFound in E. destruct (IsNotFound e) eqn:En; [|done].
       apply (Get_NotFound KDiscovery) in Eg; [|done]. congruence. }
  apply (Get_Ok KDiscovery) in Eg. assert (disc' = disc) as -> by congruence.
  rewrite bool_decide_eq_true_2 in E by done. unfold finalizeDiscovery, ContainsFinalizer in E.
  rewrite bool_decide_eq_true_2 in E by done. simpl in E.
  apply M_bind_Ok in E as ([] & s3' & E & Er). injection Er as <- <-. split; [done|].
  apply M_bind_Ok in E as ([] & s1 & E1%wrap_Ok%cleanupOnDeletion_Ok & E).
  apply M_bind_Ok in E as (d2 & s2 & [E2 _]%wrap_Ok%writes_Ok & E). injection E as <-.
  set (q := set_dmeta _ _) in *. assert (Hkq : @key_of KDiscovery q = req) by exact Hkey.
  pose proof (Update_frame KDiscovery q (world s1)) as Hfr. rewrite E2, Hkq in Hfr. simpl in Hfr. split.
  - apply (Update_Ok KDiscovery) in E2 as ([Hm _] & Hst & _). rewrite Hkq in Hst.
    intros d'. rewrite Hst. destruct (gone _); [done|]. intros [= <-] f.
    apply (f_equal Meta_Finalizers) in Hm. simpl in Hm. rewrite Hm. apply elem_of_RemoveFinalizer.
  - destruct E1 as (items & Hl & Hch & Hkeep). exists items. split; [done|]. split.
    + intros p Hp. specialize (Hch p Hp). rewrite Hfr by (by left). exact Hch.
    + intros k key Hk1 Hk2. rewrite Hfr by done. by apply Hkeep.
Qed.
End cleanup.

(** ** Witnesses *)

Module DiscoveryExamples.

Definition source (name : string) : DiscoveredSource := mkDiscoveredSource name ∅.
Definition map_order : MapOrder := mkMapOrder map_to_list map_to_list map_to_list.

Lemma map_order_laws : MapOrderLaws map_order.
Proof. by constructor. Qed.

(** A discovery of Kafka topics with the given cleanup policy. *)
Definition discovery (policy : string) : DataPrepperSourceDiscovery :=
  mkDataPrepperSourceDiscovery
    (mkObjectMeta "topics" "prod" "uid-d" 1 None None None [discoveryFinalizerName] [])
    (mkDataPrepperSourceDiscoverySpec
       (Some (mkKafkaDiscoverySpec ["kafka:9092"] None "" (mkKafkaTopicSelectorSpec "" []) "" policy))
       None (mkPipelineTemplateSpec (P_Spec example_pipeline)) [] None)
    (mkDataPrepperSourceDiscoveryStatus DiscoveryPhaseUnset 0 0 0 0 0 None [] []).

(** A child rendered from an older template. *)
Definition child (name : string) : DataPrepperPipeline :=
  mkDataPrepperPipeline
    (mkObjectMeta name "prod" ("uid-" +:+ name) 1 None
       (Some {[discoveryLabelKey := "topics"]}) (Some {[templateGenerationKey := "old"]}) []
       [mkOwnerReference "uid-d" "topics"])
    (P_Spec example_pipeline) zero_PipelineStatus.

Definition put_child (name : string) : Mem.World -> Mem.World :=
  Mem.put KPipeline ("prod", name) (Some (child name)).

(** The children of the topics [a] and [b]. *)
Definition start : St Mem.World := mkSt (put_child "topics-b" (put_child "topics-a" Mem.empty)) [].

Definition cycle : M Mem.World reconcileResult :=
  reconcilePipelines (fun _ => Ok "{}") (fun _ => Ok (P_Spec example_pipeline))
    unit (fun _ => Ok tt) (fun _ _ => Ok "{}") map_order (discovery "Delete")
    [source "a"; source "c"].

Lemma Ok_state {A} (m : M Mem.World A) st a : fst (m st) = Ok a -> m st = (Ok a, snd (m st)).
Proof. destruct (m st). by intros [= ->]. Qed.

Lemma staged_rollout_witness :
  exists des names, length names = 2%nat /\
    applied_only (discovery "Delete") des names (world start) (world (snd (cycle start))).
Proof.
  assert (Hrun : fst (cycle start) = Ok (mkReconcileResult 1 1 0 false))
    by (vm_compute; reflexivity).
  destruct (staged_rollout (fun _ => Ok "{}") (fun _ => Ok (P_Spec example_pipeline))
              unit (fun _ => Ok tt) (fun _ _ => Ok "{}") map_order map_order_laws
              (discovery "Delete") [source "a"; source "c"] start
              (mkReconcileResult 1 1 0 false) (snd (cycle start)) (Ok_state _ _ _ Hrun))
    as (des & existing & stale & _ & _ & _ & new & old & (Hn & Ho & _) & Happ).
  exists des, (new ++ old). split; [|exact Happ]. rewrite length_app. simpl in Hn, Ho. lia.
Defined.

Lemma cleanupOrphans_exact_witness :
  let disc := discovery "Delete" in
  let w' := world (snd (cleanupOrphans disc [source "a"] start)) in
  stored KPipeline ("prod", "topics-a") w' = Some (child "topics-a") /\
  (forall p, stored KPipeline ("prod", "topics-b") w' = Some p ->
             is_Some (Meta_DeletionTimestamp (P_Meta p))).
Proof.
  intros disc w'.
  assert (Hrun : fst (cleanupOrphans disc [source "a"] start) = Ok tt) by (vm_compute; reflexivity).
  destruct (cleanupOrphans_exact disc [source "a"] start _ (Ok_state _ _ _ Hrun))
    as (items & Hl & Hcl & _).
  vm_compute in Hl. injection Hl as <-. split.
  - refine (Hcl (child "topics-a") _). apply list_elem_of_In. vm_compute. tauto.
  - refine (Hcl (child "topics-b") _). apply list_elem_of_In. vm_compute. tauto.
Defined.

(** The discovery under deletion, beside its children. *)
Definition deleted : DataPrepperSourceDiscovery :=
  set_dmeta (mkObjectMeta "topics" "prod" "uid-d" 1 (Some 1700000000) None None
               ["example.com/hold"; discoveryFinalizerName] []) (discovery "Orphan").

Definition start_deleted : St Mem.World :=
  mkSt (Mem.put KDiscovery ("prod", "topics") (Some deleted) (world start)) [].

Definition reconcile_discovery : M Mem.World ctrl_Result :=
  DiscoveryReconcile (fun _ => Ok "{}") (fun _ => Ok (P_Spec example_pipeline))
    unit (fun _ => Ok tt) (fun _ _ => Ok "{}") id map_order (fun _ _ => None) 0
    None None ("prod", "topics").

Lemma deleted_discovery_released_witness :
  exists p', stored KPipeline ("prod", "topics-a") (world (snd (reconcile_discovery start_deleted)))
             = Some p' /\ released deleted (child "topics-a") p'.
Proof.
  assert (Hrun : fst (reconcile_discovery start_deleted) = Ok no_requeue) by (vm_compute; reflexivity).
  destruct (deleted_discovery_released (fun _ => Ok "{}") (fun _ => Ok (P_Spec example_pipeline))
              unit (fun _ => Ok tt) (fun _ _ => Ok "{}") id
              map_order (fun _ _ => None) 0 None None ("prod", "topics") deleted start_deleted
              no_requeue (snd (reconcile_discovery start_deleted)))
    as (_ & _ & items & Hl & Hch & _).
  - vm_compute. reflexivity.
  - eexists. reflexivity.
  - right. left.
  - apply Ok_state. exact Hrun.
  - assert (Hin : child "topics-a" ∈ items).
    { vm_compute in Hl. injection Hl as <-. apply list_elem_of_In. vm_compute. tauto. }
    specialize (Hch (child "topics-a") Hin). simpl in Hch.
    assert (Hst : is_Some (stored KPipeline ("prod", "topics-a")
                             (world (snd (reconcile_discovery start_deleted)))))
      by (vm_compute; eexists; reflexivity).
    destruct Hst as [p' Hp']. exists p'. split; [exact Hp'|]. exact (Hch p' Hp').
Defined.

End DiscoveryExamples.
