(* ===== verification/RolloutProofs.v ===== *)
(** * Convergence of the staged rollout

    On a server that does not fail by itself, repeated cycles of
    [reconcilePipelines] with the same sources bring every desired child pipeline
    up to date, unless a cycle pauses because an updated child is unhealthy. *)

From S2P Require Import Prelude Go Api Webhook Clients Discovery Cluster Reconciler.
From S2P Require Import PipelineController DiscoveryController DiscoveryProofs.
#[local] Open Scope Z_scope.

Section children.
Context {W : Type} `{ClientLaws W}.
Implicit Types (disc : DataPrepperSourceDiscovery) (w : W).

#[export] Instance is_child_dec disc p : Decision (is_child disc p).
Proof. unfold is_child. apply _. Defined.

(** The child pipeline of [disc] with a given name. *)
Definition child_of disc (name : string) w : option DataPrepperPipeline :=
  p ← stored KPipeline (Meta_Namespace (D_Meta disc), name) w;
  if decide (is_child disc p) then Some p else None.

(** The map of the reconciler holds exactly the children. *)
Lemma existingByName_lookup disc w items name :
  ListPipelines (Meta_Namespace (D_Meta disc)) (childLabels disc) w = Ok items ->
  existingByName items !! name = child_of disc name w.
Proof.
  intros Hl. apply option_eq. intros p. unfold child_of.
  rewrite (existingByName_children _ _ _ _ _ Hl), bind_Some. split.
  - intros [Hst Hc]. exists p. by rewrite decide_True.
  - intros (p' & Hst & Hp'). case_decide; [|done]. by injection Hp' as <-.
Qed.

(** The desired pipelines that are missing or carry another hash. *)
Definition outdated disc (des : gmap string desired) w : gmap string desired :=
  filter (fun e => hash_of <$> child_of disc e.1 w ≠ Some (d_hash e.2)) des.

Lemma outdated_lookup disc des w name d :
  outdated disc des w !! name = Some d <->
  des !! name = Some d /\ hash_of <$> child_of disc name w ≠ Some (d_hash d).
Proof. unfold outdated. by rewrite map_lookup_filter_Some. Qed.

Lemma up_to_date disc des w name d :
  outdated disc des w !! name = None -> des !! name = Some d ->
  exists p, child_of disc name w = Some p /\ hash_of p = d_hash d.
Proof.
  intros [Hup|Hup]%map_lookup_filter_None Hd; [congruence|].
  specialize (Hup d Hd). apply dec_stable in Hup. simpl in Hup.
  apply fmap_Some in Hup as (p & Hp & Hh). by exists p.
Qed.

Lemma applied_child disc name d w :
  applied disc name d w -> hash_of <$> child_of disc name w = Some (d_hash d).
Proof.
  intros (p & Hp & _ & Ha & Hl & _). unfold child_of. rewrite Hp. simpl.
  rewrite decide_True by exact Hl. simpl. unfold hash_of. by rewrite Ha.
Qed.

(** Writing desired pipelines and nothing else: the written ones are no longer
    outdated, the others are as they were. *)
Lemma applied_only_outdated disc des names w w' :
  applied_only disc des names w w' ->
  forall name d, outdated disc des w' !! name = Some d <->
    name ∉ names /\ outdated disc des w !! name = Some d.
Proof.
  intros (_ & Happ & Hframe) name d. rewrite !outdated_lookup.
  destruct (decide (name ∈ names)) as [Hin|Hout].
  - split; [|by intros []]. intros [Hd Hne]. destruct Hne.
    destruct (Happ name Hin) as (d' & Hd' & ?). assert (d' = d) as -> by congruence.
    by apply applied_child.
  - unfold child_of. rewrite Hframe; [tauto|]. right.
    by intros (n & [= <-] & Hn)%list_elem_of_fmap.
Qed.
End children.

Section convergence.
Context {W : Type} `{ClientLaws W}.
Context (MarshalSpec : DataPrepperPipelineSpec -> result string)
  (UnmarshalSpec : string -> result DataPrepperPipelineSpec) 
  (Template : Type) (Parse : string -> result Template)
  (Execute : Template -> TemplateContext -> result string)
  (order : MapOrder) (Horder : MapOrderLaws order).
Context (disc : DataPrepperSourceDiscovery) (sources : list DiscoveredSource).

Abbreviation cycle := (reconcilePipelines MarshalSpec UnmarshalSpec Template Parse Execute order disc sources).
Abbreviation wanted := (desiredPipelines MarshalSpec UnmarshalSpec Template Parse Execute disc sources).

Lemma elem_of_missing existing des name d :
  des !! name = Some d -> existing !! name = None ->
  (name, d) ∈ missing existing (ord_create order des).
Proof.
  intros Hd Hn. unfold missing. apply list_elem_of_filter. split; [done|].
  by rewrite (ord_create_perm _ Horder), elem_of_map_to_list.
Qed.

(** A pipeline that a cycle writes was outdated. *)
Lemma written_outdated des items w name d :
  ListPipelines (Meta_Namespace (D_Meta disc)) (childLabels disc) w = Ok items ->
  des !! name = Some d ->
  existingByName items !! name = None \/
    name ∈ staleNames (existingByName items) (ord_stale order des) ->
  outdated disc des w !! name = Some d.
Proof.
  intros Hl Hd Hcand. rewrite outdated_lookup. split; [done|].
  rewrite <-(existingByName_lookup _ _ _ _ Hl). destruct Hcand as [-> | Hs]; [done|].
  apply stale_iff in Hs as (d' & p & Hin & -> & Hne); [|done].
  assert (d' = d) as -> by congruence. simpl. congruence.
Qed.

(** An unpaused cycle makes progress. *)
Lemma cycle_progress des (st : St W) res st' :
  wanted = Ok des -> cycle st = (Ok res, st') -> RR_healthCheckFail res = false ->
  outdated disc des (world st) = ∅ \/
  (size (outdated disc des (world st')) < size (outdated disc des (world st)))%nat.
Proof.
  intros Hdes E Hok. apply reconcilePipelines_Ok in E as (des' & items & Hdes' & Hl & Hc); [|done].
  assert (des' = des) as -> by congruence. pose proof (rc_names _ _ _ _ _ _ _ Hc) as (names & Hlen & Hcand & Happ).
  destruct Hc as [Hcr Hup Hb _ [_ Hstale] _ _].
  rewrite Hok in Hup. cbv zeta in Hb.
  destruct (decide (outdated disc des (world st) = ∅)) as [|(name & d & Hnd)%map_choose]; [by left|right].
  pose proof (applied_only_outdated _ _ _ _ _ Happ) as Hout.
  destruct names as [|n names].
  { exfalso. simpl in Hlen. pose proof (limit_pos disc) as Hlim. apply outdated_lookup in Hnd as [Hd Hne].
    rewrite <-(existingByName_lookup _ _ _ _ Hl) in Hne.
    destruct (existingByName items !! name) as [p|] eqn:Ep.
    - assert (Hs : name ∈ staleNames (existingByName items) (ord_stale order des))
        by (apply Hstale; exists d, p; split_and!; [done..|]; simpl in Hne; congruence).
      apply list_elem_of_In, in_split in Hs as (? & ? & Hs). rewrite Hs, length_app in Hup. cbn [length] in Hup. lia.
    - pose proof (elem_of_missing _ _ _ _ Hd Ep) as Hm.
      apply list_elem_of_In, in_split in Hm as (? & ? & Hm). rewrite Hm, length_app in Hcr. cbn [length] in Hcr. lia. }
  apply map_subset_size, map_subset_alt. split.
  - apply map_subseteq_spec. intros i x Hi. by apply Hout in Hi as [_ ?].
  - destruct Happ as (_ & Ha & _). destruct (Ha n) as (d' & Hd' & _); [by left|].
    exists n. split.
    + apply eq_None_not_Some. intros [x [Hx _]%Hout]. apply Hx. by left.
    + exists d'. eapply written_outdated; [done..|]. apply Hcand. by left.
Qed.

Context `{!ReliableClient W}.

Abbreviation free name w :=
  (adoptable (Meta_UID (D_Meta disc)) KPipeline (Meta_Namespace (D_Meta disc), name) w).

Lemma applyPipeline_total name d (st : St W) :
  free name (world st) -> exists st', applyPipeline disc name d st = (Ok tt, st').
Proof.
  intros Had. set (bare := barePipeline (Meta_Namespace (D_Meta disc)) name).
  assert (exists o1, mutatePipeline disc d
            (default bare (stored KPipeline (@key_of KPipeline bare) (world st))) = Ok o1 /\
            @key_of KPipeline o1 = @key_of KPipeline bare) as (o1 & Ho1 & Hkey).
  { set (o := default bare _). assert (Hk : @key_of KPipeline o = @key_of KPipeline bare).
    { subst o. destruct (stored _ _ _) as [o|] eqn:E; [|done]. by apply stored_key in E. }
    unfold mutatePipeline. set (m1 := set_annotations _ _).
    destruct (SetControllerReference_total (D_Meta disc) m1) as [m Hm].
    { subst o m1. destruct (stored _ _ _) as [o|] eqn:E; simpl; [by apply (Had o)|].
      by intros r ?%elem_of_nil. }
    rewrite Hm. simpl. eexists. split; [done|].
    apply SetControllerReference_fields in Hm as (Hn & Hns & _). unfold key_of in *. simpl in *.
    rewrite Hn, Hns. exact Hk. }
  destruct (CreateOrUpdate_total KPipeline bare (mutatePipeline disc d) (world st) o1 Ho1 Hkey) as [w' Hw].
  exists (mkSt w' (effects st)). by apply writes_Ok.
Qed.

Lemma applyAll_total format entries (st : St W) :
  NoDup entries.*1 -> (forall name, name ∈ entries.*1 -> free name (world st)) ->
  exists st', applyAll format disc entries st = (Ok tt, st').
Proof.
  revert st. induction entries as [|[name d] entries IH]; intros st Hnd Had; [by eexists|].
  rewrite fmap_cons in Hnd, Had. apply NoDup_cons in Hnd as [Hnotin Hnd].
  destruct (applyPipeline_total name d st) as [s1 E1]; [apply Had; by left|].
  pose proof E1 as [_ Hf]%applyPipeline_Ok.
  destruct (IH s1 Hnd) as [s2 E2].
  { intros n Hn o. rewrite Hf; [|right; intros [= ->]; done]. apply Had. by right. }
  exists s2. cbn [applyAll]. apply M_bind_Ok. exists tt, s1. by rewrite wrap_Ok.
Qed.

Lemma NoDup_entries (entries : list (string * desired)) (des : gmap string desired) :
  entries ≡ₚ map_to_list des -> NoDup entries.*1.
Proof. intros ->. apply NoDup_fst_map_to_list. Qed.

Lemma createLoop_total des existing (st : St W) :
  (forall name d, des !! name = Some d -> existing !! name = None -> free name (world st)) ->
  exists created st', createLoop disc existing (discoveryMaxCreationsPerCycle disc)
                        (ord_create order des) 0 st = (Ok created, st').
Proof.
  intros Had. pose proof (limit_pos disc). rewrite createLoop_eq by lia. cbv zeta.
  set (l := take _ _).
  destruct (applyAll_total "create pipeline %q: %w" l st) as [s1 E].
  - subst l. rewrite fmap_take. eapply sublist_NoDup; [|apply sublist_take].
    eapply NoDup_missing, NoDup_entries, (ord_create_perm _ Horder).
  - intros name ([n d] & -> & Hin)%list_elem_of_fmap. subst l.
    apply elem_of_take in Hin as (i & Hi & _).
    apply list_elem_of_lookup_2, list_elem_of_filter in Hi as [? Hi].
    rewrite (ord_create_perm _ Horder), elem_of_map_to_list in Hi. by eapply Had.
  - eexists _, s1. apply M_bind_Ok. exists tt, s1. by split.
Qed.

Lemma updateLoop_total des existing limit (st : St W) :
  0 <= limit ->
  (forall name, name ∈ staleNames existing (ord_stale order des) -> free name (world st)) ->
  exists updated st', updateLoop disc des limit (staleNames existing (ord_stale order des)) 0 st
                      = (Ok updated, st').
Proof.
  intros Hlim Had. rewrite updateLoop_eq by lia. cbv zeta. set (l := take _ _).
  assert (Hfst : (entry des <$> l).*1 = l).
  { rewrite <-list_fmap_compose, (list_fmap_ext _ id) by done. apply list_fmap_id. }
  destruct (applyAll_total "update pipeline %q: %w" (entry des <$> l) st) as [s1 E].
  - rewrite Hfst. subst l. eapply sublist_NoDup; [|apply sublist_take].
    eapply NoDup_staleNames, NoDup_entries, (ord_stale_perm _ Horder).
  - rewrite Hfst. intros name Hin. subst l. apply elem_of_take in Hin as (i & Hi & _).
    by apply Had, list_elem_of_lookup_2 with i.
  - eexists _, s1. apply M_bind_Ok. exists tt, s1. by split.
Qed.

(** A cycle returns, if the outdated pipelines can be adopted. *)
Lemma cycle_total des (st : St W) :
  wanted = Ok des ->
  (forall name, is_Some (outdated disc des (world st) !! name) -> free name (world st)) ->
  exists res st', cycle st = (Ok res, st').
Proof.
  intros Hdes Had.
  destruct (List_total (Meta_Namespace (D_Meta disc)) (childLabels disc) (world st)) as [items Hl].
  destruct (createLoop_total des (existingByName items) st) as (created & s1 & E1).
  { intros name d Hd Hn. apply Had. exists d. eapply written_outdated; eauto. }
  unfold reconcilePipelines.
  eapply M_bind_run; [unfold lift; by rewrite Hdes|].
  eapply M_bind_run; [apply wrap_Ok; unfold reads; by rewrite Hl|]. cbv zeta.
  eapply M_bind_run; [exact E1|].
  case_bool_decide; [by eexists _, _|]. destruct (existsb _ _); [by eexists _, _|].
  destruct (updateLoop_total des (existingByName items)
    (maxUpdatesPerCycle (Z.of_nat (size (existingByName items)))) s1) as (updated & s2 & E2).
  { unfold maxUpdatesPerCycle. lia. }
  { intros name Hs. pose proof Hs as (d & p & Hin & Hp & _)%stale_iff; [|done].
    apply create_phase in E1 as (_ & names & _ & Hmiss & _ & _ & Hframe); [|done].
    intros o. rewrite Hframe.
    - apply Had. exists d. eapply written_outdated; eauto.
    - right. intros (n & [= <-] & Hn)%list_elem_of_fmap. by rewrite (Hmiss _ Hn) in Hp. }
  eapply M_bind_run; [exact E2|by eexists _, _].
Qed.

(** [n] cycles in a row. *)
Fixpoint rollout (n : nat) : M W (list reconcileResult) :=
  match n with
  | O => mret []
  | S n => res ← cycle; rs ← rollout n; mret (res :: rs)
  end.

Lemma rollout_run des n (st : St W) :
  wanted = Ok des ->
  (forall name, is_Some (outdated disc des (world st) !! name) -> free name (world st)) ->
  exists rs st', rollout n st = (Ok rs, st') /\ length rs = n /\
    (Forall (fun r => RR_healthCheckFail r = false) rs ->
     (size (outdated disc des (world st)) <= n)%nat -> outdated disc des (world st') = ∅).
Proof.
  intros Hdes. revert st. induction n as [|n IH]; intros st Had.
  { exists [], st. split_and!; [done..|]. intros _ Hsz. apply map_size_empty_inv. lia. }
  destruct (cycle_total des st Hdes Had) as (res & s1 & E1).
  pose proof E1 as (des' & items & Hdes' & Hl & (names & _ & _ & Happ)%rc_names)%reconcilePipelines_Ok;
    [|done].
  assert (des' = des) as -> by congruence.
  pose proof (applied_only_outdated _ _ _ _ _ Happ) as Hout.
  destruct (IH s1) as (rs & st' & E2 & Hlen & Hconv).
  { intros name [d [Hn Hd]%Hout] o. destruct Happ as (_ & _ & Hframe). rewrite Hframe.
    - apply Had. by exists d.
    - right. by intros (n' & [= <-] & ?)%list_elem_of_fmap. }
  exists (res :: rs), st'. split_and!.
  - cbn [rollout]. apply M_bind_Ok. exists res, s1. split; [done|].
    apply M_bind_Ok. by exists rs, st'.
  - simpl. by rewrite Hlen.
  - intros [Hok Hoks]%Forall_cons Hsz. apply Hconv; [done|].
    destruct (cycle_progress des st res s1) as [He|]; [done..| |lia].
    assert (outdated disc des (world s1) = ∅) as ->; [|by rewrite map_size_empty; lia].
    apply map_empty. intros i. apply eq_None_not_Some. intros [x [_ Hx]%Hout]. by rewrite He in Hx.
Qed.

(** The staged rollout converges: on a reliable server, when the sources
    render and no desired name is held by an object of another owner, every
    cycle of child reconciliation returns without error, and after as many
    cycles as there are desired pipelines, provided none of them was paused by
    an unhealthy child, every desired pipeline exists as a labelled child of
    the discovery with the hash of its desired spec. *)
Theorem rollout_converges des n (st : St W) :
  wanted = Ok des ->
  (forall name, is_Some (des !! name) -> free name (world st)) ->
  exists rs st', rollout n st = (Ok rs, st') /\ length rs = n /\
    (Forall (fun r => RR_healthCheckFail r = false) rs -> (size des <= n)%nat ->
     forall name d, des !! name = Some d ->
       exists p, child_of disc name (world st') = Some p /\ hash_of p = d_hash d).
Proof.
  intros Hdes Had. destruct (rollout_run des n st Hdes) as (rs & st' & E & Hlen & Hconv).
  { intros name [d [Hd _]%outdated_lookup]. apply Had. by exists d. }
  exists rs, st'. split_and!; [done..|]. intros Hok Hsz name d Hd.
  assert (outdated disc des (world st') !! name = None) as Hup.
  { rewrite Hconv; [apply lookup_empty|done|]. etrans; [|exact Hsz].
    apply map_subseteq_size, map_filter_subseteq. }
  by apply up_to_date with des.
Qed.
End convergence.

(** ** Witness *)

Module RolloutExamples.
Import DiscoveryExamples.

(** Two cycles for the topics [a], whose child is out of date, and [c], which is new. *)
Definition run : M Mem.World (list reconcileResult) :=
  rollout (fun _ => Ok "{}") (fun _ => Ok (P_Spec example_pipeline))
    unit (fun _ => Ok tt) (fun _ _ => Ok "{}") map_order (discovery "Delete")
    [source "a"; source "c"] 2.

Definition new : desired := mkDesired (P_Spec example_pipeline) "44136fa355b3678a".

Lemma start_adoptable name :
  adoptable "uid-d" KPipeline ("prod", name) (world start).
Proof.
  intros o Ho r Hr. unfold start, put_child in Ho. simpl in Ho.
  destruct (decide (name = "topics-b")) as [->|Hb].
  - rewrite Mem.lookup_put_eq in Ho by (by intros ? [= <-]). injection Ho as <-.
    apply list_elem_of_singleton in Hr as ->. reflexivity.
  - rewrite Mem.lookup_put_ne in Ho by (right; congruence).
    destruct (decide (name = "topics-a")) as [->|Ha].
    + rewrite Mem.lookup_put_eq in Ho by (by intros ? [= <-]). injection Ho as <-.
      apply list_elem_of_singleton in Hr as ->. reflexivity.
    + rewrite Mem.lookup_put_ne in Ho by (right; congruence). discriminate Ho.
Qed.

Lemma rollout_converges_witness :
  exists p, child_of (discovery "Delete") "topics-c" (world (snd (run start))) = Some p /\
    hash_of p = "44136fa355b3678a".
Proof.
  destruct (rollout_converges (fun _ => Ok "{}") (fun _ => Ok (P_Spec example_pipeline))
              unit (fun _ => Ok tt) (fun _ _ => Ok "{}") map_order map_order_laws
              (discovery "Delete") [source "a"; source "c"]
              {["topics-a" := new; "topics-c" := new]} 2 start) as (rs & st' & E & _ & Hconv).
  - vm_compute. reflexivity.
  - intros name _. apply start_adoptable.
  - assert (Hrs : fst (run start) = Ok [mkReconcileResult 1 1 0 false; mkReconcileResult 0 0 0 false])
      by (vm_compute; reflexivity).
    assert (Hst : run start = (Ok rs, st')) by exact E.
    rewrite Hst in Hrs |- *. injection Hrs as ->.
    destruct (Hconv ltac:(repeat constructor) ltac:(vm_compute; lia) "topics-c" new) as (p & Hp & Hh).
    + vm_compute. reflexivity.
    + exists p. split; assumption.
Defined.

End RolloutExamples.
