(* ===== verification/DiscoveryRun.v ===== *)
(** * Whole runs of the discovery reconciler

    [DiscoveryReconcile] from its entry to its return: which objects it can
    write, what a failed discovery leaves behind and how long it waits, and what
    a successful one reports. *)

From S2P Require Import Prelude Go Duration Api Webhook Clients Discovery Cluster Metrics Reconciler.
From S2P Require Import PipelineController PipelineProofs DiscoveryController DiscoveryProofs.
From S2P Require Import RolloutProofs.
#[local] Open Scope Z_scope.

(** ** What a run touches *)

(** The discovery itself and the pipelines of its namespace. *)
Definition discovery_objects (req : Key) (k : Kind) (key : Key) : Prop :=
  match k with
  | KDiscovery => key = req
  | KPipeline => key.1 = req.1
  | _ => False
  end.

Section footprints.
Context {W : Type} `{ClientLaws W}.
Implicit Types (disc : DataPrepperSourceDiscovery).

Lemma footprint_write (S : Kind -> Key -> Prop) k (o : Object k) :
  S k (key_of o) -> footprint S (writes (Update k o)) /\ footprint S (writes (Delete k o)).
Proof.
  intros HS. split; apply footprint_writes with (k := k) (key := key_of o); try done; intros w;
    [apply Update_frame|apply Delete_frame].
Qed.

Lemma footprint_forEach S (f : DataPrepperPipeline -> M W unit) items :
  (forall p, p ∈ items -> footprint S (f p)) -> footprint S (forEach f items).
Proof.
  induction items as [|p items IH]; intros Hf; simpl; [auto with footprint|].
  apply footprint_bind; [apply Hf; by left|]. intros _. apply IH. intros q Hq. apply Hf. by right.
Qed.

(** A loop over the children of the discovery in its own namespace. *)
Lemma footprint_children S disc (f : DataPrepperPipeline -> M W unit) :
  (forall p, Meta_Namespace (P_Meta p) = Meta_Namespace (D_Meta disc) -> footprint S (f p)) ->
  footprint S (items ← wrap "list child pipelines: %w" []
                 (reads (ListPipelines (Meta_Namespace (D_Meta disc)) (childLabels disc)));
               forEach f items).
Proof.
  intros Hf. apply footprint_bind_post with
    (P := fun items => exists w, ListPipelines (Meta_Namespace (D_Meta disc)) (childLabels disc) w = Ok items).
  - auto with footprint.
  - intros st items st' E%wrap_Ok. injection E as El _. eauto.
  - intros items [w Hl]. apply footprint_forEach. intros p Hp. apply Hf.
    pose proof (key_of_listed _ _ _ _ _ Hl Hp) as E. by injection E as E.
Qed.

Section objects.
Context (req : Key) disc (Hreq : @key_of KDiscovery disc = req).

Lemma own_pipeline name : discovery_objects req KPipeline (Meta_Namespace (D_Meta disc), name).
Proof. subst req. done. Qed.

Lemma footprint_applyPipeline name d : footprint (discovery_objects req) (applyPipeline disc name d).
Proof. apply (footprint_CreateOrUpdate _ KPipeline), own_pipeline. Qed.

Lemma footprint_orphan p :
  Meta_Namespace (P_Meta p) = Meta_Namespace (D_Meta disc) ->
  footprint (discovery_objects req) (orphanPipeline disc p).
Proof.
  intros Hp. unfold orphanPipeline. apply footprint_bind; [|auto with footprint].
  apply footprint_wrap, (footprint_write _ KPipeline). subst req. exact Hp.
Qed.

Lemma footprint_cleanupOnDeletion : footprint (discovery_objects req) (cleanupOnDeletion disc).
Proof.
  apply footprint_children. intros p Hp. case_bool_decide; [by apply footprint_orphan|auto with footprint].
Qed.

Lemma footprint_cleanupOrphans sources :
  footprint (discovery_objects req) (cleanupOrphans disc sources).
Proof.
  apply footprint_children. intros p Hp. unfold cleanupOne.
  repeat case_bool_decide; auto with footprint; [|by apply footprint_orphan].
  apply footprint_wrap, (footprint_write _ KPipeline). subst req. exact Hp.
Qed.

Lemma footprint_createLoop existing limit entries n :
  footprint (discovery_objects req) (createLoop disc existing limit entries n).
Proof.
  revert n. induction entries as [|[name d] entries IH]; intros n; simpl; [auto with footprint|].
  case_bool_decide; [done|]. case_match; [done|].
  apply footprint_bind; [apply footprint_wrap, footprint_applyPipeline|done].
Qed.

Lemma footprint_updateLoop des limit names n :
  footprint (discovery_objects req) (updateLoop disc des limit names n).
Proof.
  revert n. induction names as [|name names IH]; intros n; simpl; [auto with footprint|].
  case_match; [auto with footprint|].
  apply footprint_bind; [apply footprint_wrap, footprint_applyPipeline|done].
Qed.

(** The retry loops write the discovery only, and keep the variable's key. *)
Definition on_discovery (w0 : W) (s : DataPrepperSourceDiscovery * W) : Prop :=
  @key_of KDiscovery s.1 = req /\ untouched KDiscovery req w0 s.2.

Lemma writeDStatus_inv w0 status s : on_discovery w0 s -> on_discovery w0 (writeDStatus status s).2.
Proof.
  destruct s as [d w]. intros [Hk Hu]. unfold writeDStatus. simpl in *.
  destruct (Get KDiscovery _ w) as [d1|] eqn:E; [|done]. apply Get_Ok, stored_key in E.
  set (q := set_dstatus status d1). assert (Hq : @key_of KDiscovery q = req) by (rewrite <-Hk, <-E; done).
  pose proof (UpdateStatus_frame KDiscovery q w) as Hf. rewrite Hq in Hf.
  destruct (UpdateStatus KDiscovery q w) as [[d2|e] w'] eqn:Eu; simpl in *; split; simpl.
  - apply (UpdateStatus_Ok KDiscovery) in Eu as (_ & Hs & _). apply stored_key in Hs. congruence.
  - intros k key Hne. by rewrite Hf, Hu.
  - done.
  - intros k key Hne. by rewrite Hf, Hu.
Qed.

Lemma writeAnnotation_inv w0 f s :
  (forall d, @key_of KDiscovery (f d) = @key_of KDiscovery d) ->
  on_discovery w0 s -> on_discovery w0 (writeAnnotation f s).2.
Proof.
  intros Hfk. destruct s as [d w]. intros [Hk Hu]. unfold writeAnnotation. simpl in *.
  destruct (Get KDiscovery _ w) as [d1|] eqn:E; [|done]. apply Get_Ok, stored_key in E.
  assert (Hq : @key_of KDiscovery (f d1) = req) by (rewrite Hfk, <-Hk, <-E; done).
  pose proof (Update_frame KDiscovery (f d1) w) as Hf. rewrite Hq in Hf.
  destruct (Update KDiscovery (f d1) w) as [[d2|e] w'] eqn:Eu; simpl in *; split; simpl.
  - apply (Update_Ok KDiscovery) in Eu as ([Hm _] & _).
    rewrite <-Hq. unfold key_of. f_equal; [by apply (f_equal Meta_Namespace) in Hm
                                         |by apply (f_equal Meta_Name) in Hm].
  - intros k key Hne. by rewrite Hf, Hu.
  - done.
  - intros k key Hne. by rewrite Hf, Hu.
Qed.

Lemma outside_discovery k key : ~ discovery_objects req k key -> k ≠ KDiscovery \/ key ≠ req.
Proof. intros Hn. destruct (decide (k = KDiscovery)) as [->|]; [by right|by left]. Qed.

Lemma retryAnnotation_inv f (st : St W) :
  (forall d, @key_of KDiscovery (f d) = @key_of KDiscovery d) ->
  exists d st', retryAnnotation f disc st = (Ok d, st') /\ on_discovery (world st) (d, world st').
Proof.
  intros Hf. unfold retryAnnotation.
  pose proof (retries_inv _ _ (on_discovery (world st)) _ _
    (fun s => writeAnnotation_inv (world st) f s Hf)
    (RetryOnConflict_retries _ (writeAnnotation f) (disc, world st)) (conj Hreq (fun _ _ _ => eq_refl))) as Hi.
  destruct (RetryOnConflict _ _ _) as [r [d w]]. by eexists d, _.
Qed.

Lemma updateDiscoveryStatus_inv (st : St W) r st' :
  updateDiscoveryStatus disc st = (r, st') ->
  untouched KDiscovery req (world st) (world st') /\ forall d, r = Ok d -> @key_of KDiscovery d = req.
Proof.
  unfold updateDiscoveryStatus. set (status := match ListPipelines _ _ _ with Ok _ => _ | Err _ => _ end).
  pose proof (retries_inv _ _ (on_discovery (world st)) _ _ (writeDStatus_inv (world st) status)
    (RetryOnConflict_retries _ (writeDStatus status) (disc, world st)) (conj Hreq (fun _ _ _ => eq_refl))) as [Hk Hu].
  destruct (RetryOnConflict _ _ _) as [[[]|e] [d w]]; intros [= <- <-]; split; try done.
  by intros d' [= <-].
Qed.

Lemma footprint_retryAnnotation f :
  (forall d, @key_of KDiscovery (f d) = @key_of KDiscovery d) ->
  footprint (discovery_objects req) (retryAnnotation f disc).
Proof.
  intros Hf st k key Hn. destruct (retryAnnotation_inv f st Hf) as (d & st' & -> & _ & Hu).
  by apply Hu, outside_discovery.
Qed.

Lemma footprint_updateDiscoveryStatus :
  footprint (discovery_objects req) (updateDiscoveryStatus disc).
Proof.
  intros st k key Hn. destruct (updateDiscoveryStatus disc st) as [r st'] eqn:E.
  by apply (proj1 (updateDiscoveryStatus_inv _ _ _ E)), outside_discovery.
Qed.
End objects.

Lemma key_increment disc : @key_of KDiscovery (incrementFailureCount disc).2 = @key_of KDiscovery disc.
Proof. done. Qed.
Lemma key_reset disc : @key_of KDiscovery (resetFailureCount disc) = @key_of KDiscovery disc.
Proof. unfold resetFailureCount. by destruct (Meta_Annotations _). Qed.
Lemma key_setDCondition t s r m disc :
  @key_of KDiscovery (setDCondition t s r m disc) = @key_of KDiscovery disc.
Proof. done. Qed.
Lemma key_buildDiscoveryStatus now disc phase sources msg :
  @key_of KDiscovery (buildDiscoveryStatus now disc phase sources msg) = @key_of KDiscovery disc.
Proof. unfold buildDiscoveryStatus. by case_bool_decide. Qed.

(** The state of a condition of a discovery. *)
Definition dcondition_of disc (type : string) : option Condition :=
  FindStatusCondition (DStatus_Conditions (D_Status disc)) type.
Definition flag (b : bool) : ConditionStatus := if b then ConditionTrue else ConditionFalse.

(** The conditions of the rollout change the status only. *)
Lemma rolloutConditions_run res disc (st : St W) :
  exists disc' effs, rolloutConditions res disc st = (Ok disc', mkSt (world st) effs) /\
    D_Meta disc' = D_Meta disc /\ D_Spec disc' = D_Spec disc /\
    D_Status disc' =
      mkDataPrepperSourceDiscoveryStatus (DStatus_Phase (D_Status disc))
        (DStatus_ObservedGeneration (D_Status disc)) (DStatus_DiscoveredSources (D_Status disc))
        (DStatus_ActivePipelines (D_Status disc)) (DStatus_OrphanedPipelines (D_Status disc))
        (DStatus_UpdatingPipelines (D_Status disc)) (DStatus_LastPollTime (D_Status disc))
        (DStatus_Conditions (D_Status disc')) (DStatus_Sources (D_Status disc)) /\
    dcondition_of disc' "Ready" = dcondition_of disc "Ready" /\
    Cond_Status <$> dcondition_of disc' "StagedRolloutPaused" = Some (flag (RR_healthCheckFail res)) /\
    Cond_Status <$> dcondition_of disc' "StagedRolloutInProgress"
      = Some (flag (0 <? RR_pendingUpdates res)).
Proof.
  unfold rolloutConditions, devent, dcondition_of. destruct st as [w effs].
  destruct (RR_healthCheckFail res); destruct (0 <? RR_pendingUpdates res); eexists _, _;
    (split; [reflexivity|]); simpl;
    rewrite !Find_Set_other, !Find_Set_same by done; by split_and!.
Qed.

Section reconcile.
Context (MarshalSpec : DataPrepperPipelineSpec -> result string)
  (UnmarshalSpec : string -> result DataPrepperPipelineSpec) 
  (Template : Type) (Parse : string -> result Template)
  (Execute : Template -> TemplateContext -> result string)
  (sort : list DiscoveredSource -> list DiscoveredSource)
  (order : MapOrder) (ctxErr : nat -> string -> option error) (now : Z)
  (kafka : option Kafka.ClientFactory) (s3 : option S3.ClientFactory).

Lemma footprint_reconcilePipelines req disc sources :
  @key_of KDiscovery disc = req ->
  footprint (discovery_objects req)
    (reconcilePipelines MarshalSpec UnmarshalSpec Template Parse Execute order
       disc sources).
Proof.
  intros Hk. unfold reconcilePipelines. apply footprint_bind; [auto with footprint|intros des].
  apply footprint_bind; [auto with footprint|intros items]. cbv zeta.
  apply footprint_bind; [by apply footprint_createLoop|intros created].
  repeat case_match; auto with footprint.
  apply footprint_bind; [by apply footprint_updateLoop|auto with footprint].
Qed.

Lemma footprint_discoveryFailed req disc e :
  @key_of KDiscovery disc = req ->
  footprint (discovery_objects req) (discoveryFailed now disc e).
Proof.
  intros Hk. unfold discoveryFailed. apply footprint_bind; [apply footprint_emit|intros _].
  destruct (incrementFailureCount disc) as [n d1] eqn:E.
  assert (Hk1 : @key_of KDiscovery d1 = req) by (rewrite <-Hk, <-(key_increment disc), E; done).
  apply footprint_bind_post with (P := fun d => @key_of KDiscovery d = req).
  - apply footprint_retryAnnotation; [done|]. apply key_increment.
  - intros st d st' Er. destruct (retryAnnotation_inv req d1 Hk1
      (fun d : DataPrepperSourceDiscovery => (incrementFailureCount d).2) st key_increment) as (d' & s' & E' & Hd' & _).
    rewrite E' in Er. injection Er as <- _. exact Hd'.
  - intros d2 Hd2. apply footprint_bind; [|auto with footprint].
    apply footprint_try, footprint_updateDiscoveryStatus. by rewrite key_buildDiscoveryStatus.
Qed.

Lemma footprint_discoverySucceeded req disc sources :
  @key_of KDiscovery disc = req ->
  footprint (discovery_objects req)
    (discoverySucceeded MarshalSpec UnmarshalSpec Template Parse Execute order now
       disc sources).
Proof.
  intros Hk. unfold discoverySucceeded.
  apply footprint_bind_post with (P := fun d => @key_of KDiscovery d = req).
  { case_match; [|auto with footprint]. apply footprint_retryAnnotation; [done|]. apply key_reset. }
  { intros st d st'. case_match; [|by intros [= <- _]].
    destruct (retryAnnotation_inv req disc Hk resetFailureCount st key_reset) as (d' & s' & -> & Hd' & _).
    by intros [= <- _]. }
  clear disc Hk. intros disc Hk.
  apply footprint_bind; [by apply footprint_reconcilePipelines|intros res].
  apply footprint_bind; [by apply footprint_cleanupOrphans|intros _]. cbv zeta.
  set (d1 := setUpdating _ _).
  assert (Hk1 : @key_of KDiscovery d1 = req) by (rewrite <-Hk; apply key_buildDiscoveryStatus).
  apply footprint_bind_post with (P := fun d => @key_of KDiscovery d = req).
  { intros st k key _. by destruct (rolloutConditions_run res d1 st) as (d' & effs & -> & _). }
  { intros st d st' E. destruct (rolloutConditions_run res d1 st) as (d' & effs & E' & Hm & _).
    rewrite E' in E. injection E as <- _. rewrite <-Hk1. unfold key_of. simpl. by rewrite Hm. }
  intros d2 Hk2. apply footprint_bind; [by apply footprint_wrap, footprint_updateDiscoveryStatus|].
  intros d3. unfold devent. auto 10 with footprint.
Qed.

Lemma footprint_DiscoveryReconcile req :
  footprint (discovery_objects req)
    (DiscoveryReconcile MarshalSpec UnmarshalSpec Template Parse Execute sort
       order ctxErr now kafka s3 req).
Proof.
  apply footprint_counted.
  apply footprint_bind_post with (P := fun r => forall d, r = Ok d -> @key_of KDiscovery d = req).
  { auto with footprint. }
  { intros st r st'. unfold try, reads. intros [= <- <-] d E.
    by apply (Get_Ok KDiscovery), stored_key in E. }
  intros [disc|e] Hd; [|unfold IgnoreNotFound; by destruct (IsNotFound e)].
  specialize (Hd disc eq_refl). case_bool_decide.
  - unfold finalizeDiscovery. apply footprint_bind; [|auto with footprint].
    apply footprint_when, footprint_bind; [by apply footprint_wrap, footprint_cleanupOnDeletion|intros _].
    apply footprint_bind; [|auto with footprint]. by apply footprint_wrap, (footprint_write _ KDiscovery).
  - apply footprint_bind_post with (P := fun d => @key_of KDiscovery d = req).
    + unfold ensureDiscoveryFinalizer. case_match; [auto with footprint|].
      by apply footprint_wrap, (footprint_write _ KDiscovery).
    + intros st d st'. unfold ensureDiscoveryFinalizer. case_match; [by intros [= <- _]|].
      intros [E _]%wrap_Ok%writes_Ok. apply (Update_Ok KDiscovery) in E as ([Hm _] & _).
      rewrite <-Hd. unfold key_of. simpl in Hm |- *.
      f_equal; [by apply (f_equal Meta_Namespace) in Hm|by apply (f_equal Meta_Name) in Hm].
    + intros d Hk st k key Hn. unfold reconcileDiscovery.
      destruct (discoverSources _ _ _ _ _ _) as [[sources|e]|]; [| |done].
      * by apply (footprint_discoverySucceeded req d sources Hk st).
      * by apply (footprint_discoveryFailed req d e Hk st).
Qed.

(** C27: a reconcile of a source discovery, whatever it returns, changes no
    object of the cluster except the discovery itself and pipelines of its own
    namespace: no secret, no defaults, no child object of a pipeline, no other
    discovery and nothing in another namespace. *)
Theorem DiscoveryReconcile_touches_only_its_own req (st : St W) k key :
  ~ discovery_objects req k key ->
  stored k key (world (snd (DiscoveryReconcile MarshalSpec UnmarshalSpec Template Parse
    Execute sort order ctxErr now kafka s3 req st))) = stored k key (world st).
Proof. apply footprint_DiscoveryReconcile. Qed.
End reconcile.
End footprints.

(** ** Runs on a reliable server *)

(** [d'] is a later version of the live discovery [d]: same object, same spec. *)
Record follows (d d' : DataPrepperSourceDiscovery) : Prop := mkFollows {
  fo_key : @key_of KDiscovery d' = @key_of KDiscovery d;
  fo_uid : Meta_UID (D_Meta d') = Meta_UID (D_Meta d);
  fo_spec : D_Spec d' = D_Spec d;
  fo_live : Meta_DeletionTimestamp (D_Meta d) = None -> Meta_DeletionTimestamp (D_Meta d') = None }.

#[export] Instance follows_preorder : PreOrder follows.
Proof.
  split; [done|]. intros d1 d2 d3 [K1 U1 S1 L1] [K2 U2 S2 L2]. split; [congruence..|auto].
Qed.

(** The discovery under [key] is [d], and it is not being deleted. *)
Definition live {W} `{Client W} (key : Key) (d : DataPrepperSourceDiscovery) (w : W) : Prop :=
  stored KDiscovery key w = Some d /\ Meta_DeletionTimestamp (D_Meta d) = None.

Definition annotations_of (d : DataPrepperSourceDiscovery) : gmap string string :=
  default ∅ (Meta_Annotations (D_Meta d)).

Section reliable.
Context {W : Type} `{ClientLaws W} `{!ReliableClient W}.
Implicit Types (d : DataPrepperSourceDiscovery) (w : W).

(** An update of the live discovery's metadata. *)
Lemma Update_live key d q w :
  live key d w -> @key_of KDiscovery q = key -> D_Spec q = D_Spec d ->
  exists d1 w1, Update KDiscovery q w = (Ok d1, w1) /\ live key d1 w1 /\ follows d d1 /\
    Meta_Annotations (D_Meta d1) = Meta_Annotations (D_Meta q) /\
    Meta_Finalizers (D_Meta d1) = Meta_Finalizers (D_Meta q) /\
    D_Status d1 = D_Status d /\ untouched KDiscovery key w w1.
Proof.
  intros [Hd Hlive] Hq Hspec. pose proof (stored_key KDiscovery _ _ _ Hd) as Hkey.
  destruct (Update_total KDiscovery q w) as (d1 & w1 & E); [rewrite Hq; eauto|].
  exists d1, w1. split; [done|]. pose proof (Update_frame KDiscovery q w) as Hf. rewrite E, Hq in Hf.
  apply (Update_Ok KDiscovery) in E as ([Hm Hc] & Hst & old & Hold & Hu & Hdel & Hs).
  rewrite Hq in Hst, Hold. assert (old = d) as -> by congruence. simpl in Hu, Hdel, Hs, Hm, Hc.
  rewrite Hlive in Hdel. unfold gone in Hst. simpl in Hst. rewrite Hdel in Hst.
  rewrite bool_decide_eq_false_2 in Hst by (by intros []). simpl in Hst.
  split_and!; [done| |by apply (f_equal Meta_Annotations) in Hm
              |by apply (f_equal Meta_Finalizers) in Hm|done|done].
  split; [|done|simpl in Hc; congruence|done]. apply (stored_key KDiscovery) in Hst. congruence.
Qed.

Lemma retryAnnotation_run key d (f : DataPrepperSourceDiscovery -> DataPrepperSourceDiscovery) disc
    (st : St W) :
  live key d (world st) -> @key_of KDiscovery disc = key ->
  @key_of KDiscovery (f d) = @key_of KDiscovery d -> D_Spec (f d) = D_Spec d ->
  exists d1 w1, retryAnnotation f disc st = (Ok d1, mkSt w1 (effects st)) /\
    live key d1 w1 /\ follows d d1 /\
    Meta_Annotations (D_Meta d1) = Meta_Annotations (D_Meta (f d)) /\
    Meta_Finalizers (D_Meta d1) = Meta_Finalizers (D_Meta (f d)) /\
    D_Status d1 = D_Status d /\ untouched KDiscovery key (world st) w1.
Proof.
  intros Hl Hk Hf Hs. pose proof Hl as [Hd _]. pose proof (stored_key KDiscovery _ _ _ Hd) as Hkey.
  destruct (Update_live key d (f d) (world st)) as (d1 & w1 & E & Hpost); [done|congruence|done|].
  exists d1, w1. split; [|done]. unfold retryAnnotation.
  assert (Hb : writeAnnotation f (disc, world st) = (Ok tt, (d1, w1))).
  { unfold writeAnnotation. rewrite Hk, (Get_stored KDiscovery _ _ d Hd). by rewrite E. }
  pose proof (RetryOnConflict_retries _ (writeAnnotation f) (disc, world st)) as Hr.
  destruct (RetryOnConflict _ _ _) as [r [d2 w2]].
  by apply (retries_Ok _ _ _ _ _ Hb) in Hr as [= -> -> ->].
Qed.

Lemma updateDiscoveryStatus_run key d disc (st : St W) :
  live key d (world st) -> @key_of KDiscovery disc = key ->
  exists items d1 w1,
    ListPipelines key.1 (childLabels disc) (world st) = Ok items /\
    updateDiscoveryStatus disc st = (Ok d1, mkSt w1 (effects st)) /\
    live key d1 w1 /\ D_Meta d1 = D_Meta d /\ D_Spec d1 = D_Spec d /\
    D_Status d1 = setActive (int32 (Z.of_nat (length items))) (D_Status disc) /\
    untouched KDiscovery key (world st) w1.
Proof.
  intros [Hd Hlive] Hk. pose proof (stored_key KDiscovery _ _ _ Hd) as Hkey.
  destruct (List_total key.1 (childLabels disc) (world st)) as [items Hl].
  unfold updateDiscoveryStatus.
  assert (Hns : Meta_Namespace (D_Meta disc) = key.1) by (subst key; done). rewrite Hns, Hl.
  set (status := setActive _ _). set (q := set_dstatus status d).
  assert (Hq : @key_of KDiscovery q = key) by exact Hkey.
  destruct (UpdateStatus_total KDiscovery q (world st)) as (d1 & w1 & E); [rewrite Hq; eauto|].
  assert (Hb : writeDStatus status (disc, world st) = (Ok tt, (d1, w1))).
  { unfold writeDStatus. rewrite Hk, (Get_stored KDiscovery _ _ d Hd). fold q. by rewrite E. }
  pose proof (RetryOnConflict_retries _ (writeDStatus status) (disc, world st)) as Hr.
  destruct (RetryOnConflict _ _ _) as [r [d2 w2]].
  apply (retries_Ok _ _ _ _ _ Hb) in Hr as [= -> -> ->].
  pose proof (UpdateStatus_frame KDiscovery q (world st)) as Hf. rewrite E, Hq in Hf.
  apply (UpdateStatus_Ok KDiscovery) in E as (Hs & Hst & old & Hold & Hm & Hc).
  rewrite Hq in Hst, Hold. assert (old = d) as -> by congruence. simpl in Hm, Hc, Hs.
  exists items, d1, w1. split_and!; try done. split; [done|]. by rewrite Hm.
Qed.

Lemma ensureDiscoveryFinalizer_run key d (st : St W) :
  live key d (world st) ->
  exists d1 w1, ensureDiscoveryFinalizer d st = (Ok d1, mkSt w1 (effects st)) /\
    live key d1 w1 /\ follows d d1 /\ D_Status d1 = D_Status d /\
    Meta_Annotations (D_Meta d1) = Meta_Annotations (D_Meta d) /\
    discoveryFinalizerName ∈ Meta_Finalizers (D_Meta d1) /\
    untouched KDiscovery key (world st) w1.
Proof.
  intros Hl. pose proof Hl as [Hd _]. pose proof (stored_key KDiscovery _ _ _ Hd) as Hkey.
  unfold ensureDiscoveryFinalizer, ContainsFinalizer. case_bool_decide as Hfin.
  { exists d, (world st). destruct st. by split_and!. }
  set (q := set_dmeta _ d).
  destruct (Update_live key d q (world st)) as (d1 & w1 & E & Hl1 & Hfo & Ha & Hf & Hs & Hu); [done..|].
  exists d1, w1. split_and!; try done.
  - by apply wrap_Ok, writes_Ok.
  - rewrite Hf. simpl. apply elem_of_AddFinalizer. by left.
Qed.
End reliable.

(** ** The credentials of a discovery *)

(** The secret that the discovery reads to reach its source, if any. *)
Definition credentials_of (d : DataPrepperSourceDiscovery) : option SecretReference :=
  match DSpec_Kafka (D_Spec d) with
  | Some k => KDisc_CredentialsSecretRef k
  | None => DSpec_S3 (D_Spec d) ≫= S3Disc_CredentialsSecretRef
  end.

Section credentials.
Context {W : Type} `{ClientLaws W} `{!ReliableClient W}.
Implicit Types (d : DataPrepperSourceDiscovery) (w : W).

(** That secret has not changed. *)
Definition credentials_kept d w w' : Prop :=
  forall ref, credentials_of d = Some ref ->
    stored KSecret (Meta_Namespace (D_Meta d), Secret_Name ref) w'
    = stored KSecret (Meta_Namespace (D_Meta d), Secret_Name ref) w.

Lemma untouched_credentials key d w w' : untouched KDiscovery key w w' -> credentials_kept d w w'.
Proof. intros Hu ref _. apply Hu. by left. Qed.

Lemma credentials_kept_trans d w1 w2 w3 :
  credentials_kept d w1 w2 -> credentials_kept d w2 w3 -> credentials_kept d w1 w3.
Proof. intros H12 H23 ref Hr. by rewrite (H23 ref Hr), (H12 ref Hr). Qed.

Lemma credentials_kept_follows d d' w w' :
  follows d d' -> credentials_kept d' w w' -> credentials_kept d w w'.
Proof.
  intros [Hk _ Hs _] Hc ref Hr. unfold key_of in Hk. simpl in Hk. injection Hk as <- _.
  apply Hc. unfold credentials_of in *. by rewrite Hs.
Qed.

(** A secret that could be read is read again. *)
Lemma Get_kept key w w' s :
  stored KSecret key w' = stored KSecret key w -> Get KSecret key w = Ok s -> Get KSecret key w' = Ok s.
Proof. intros E Hg. apply (Get_stored KSecret). rewrite E. by apply (Get_Ok KSecret). Qed.

(** A source that answers goes on answering, as long as the credentials stay. *)
Lemma discoverSources_kept sort ctxErr kafka s3 d d' w w' sources :
  follows d d' -> credentials_kept d w w' ->
  discoverSources sort ctxErr kafka s3 d w = Some (Ok sources) ->
  discoverSources sort ctxErr kafka s3 d' w' = Some (Ok sources).
Proof.
  intros [Hk _ Hs _] Hc. unfold key_of in Hk. simpl in Hk. injection Hk as Hns _.
  unfold discoverSources. rewrite Hs. unfold credentials_kept, credentials_of in Hc.
  destruct (DSpec_Kafka (D_Spec d)) as [k|]; [|destruct (DSpec_S3 (D_Spec d)) as [s|]; [|done]];
    intros E%(inj Some); f_equal; revert E; unfold discoverKafka, discoverS3.
  - destruct kafka as [factory|]; [|done]. rewrite Hns. unfold kafkaConfigFromSecret.
    destruct (KDisc_CredentialsSecretRef k) as [ref|]; [|done].
    destruct (Get KSecret _ w) as [secret|] eqn:Eg; [|done].
    by rewrite (Get_kept _ _ _ _ (Hc ref eq_refl) Eg).
  - destruct s3 as [factory|]; [|done]. rewrite Hns. unfold s3ConfigFromSecret. simpl in Hc.
    destruct (S3Disc_CredentialsSecretRef s) as [ref|]; [|done].
    destruct (Get KSecret _ w) as [secret|] eqn:Eg; [|done].
    by rewrite (Get_kept _ _ _ _ (Hc ref eq_refl) Eg).
Qed.
End credentials.

(** ** A source that cannot be reached *)

Section failing.
Context {W : Type} `{ClientLaws W} `{!ReliableClient W}.
Context (MarshalSpec : DataPrepperPipelineSpec -> result string)
  (UnmarshalSpec : string -> result DataPrepperPipelineSpec) 
  (Template : Type) (Parse : string -> result Template)
  (Execute : Template -> TemplateContext -> result string)
  (sort : list DiscoveredSource -> list DiscoveredSource)
  (order : MapOrder) (ctxErr : nat -> string -> option error) (now : Z)
  (kafka : option Kafka.ClientFactory) (s3 : option S3.ClientFactory) (req : Key).
Implicit Types (d : DataPrepperSourceDiscovery).

Abbreviation reconcile :=
  (DiscoveryReconcile (W := W) MarshalSpec UnmarshalSpec Template Parse Execute
     sort order ctxErr now kafka s3 req).

(** What a failed discovery writes into the status. *)
Record reports_failure d (e : error) : Prop := {
  rf_phase : DStatus_Phase (D_Status d) = DiscoveryPhaseError;
  rf_sources : DStatus_Sources (D_Status d) = [] /\ DStatus_DiscoveredSources (D_Status d) = 0;
  rf_generation : DStatus_ObservedGeneration (D_Status d) = Meta_Generation (D_Meta d);
  rf_ready : FindStatusCondition (DStatus_Conditions (D_Status d)) "Ready"
             = Some (mkCondition "Ready" ConditionFalse 0 "DiscoveryFailed" e) }.

Lemma counted_run {A} c (m : M W A) st r st1 :
  m st = (r, st1) -> exists st', counted c m st = (r, st') /\ world st' = world st1.
Proof. intros E. unfold counted. rewrite E. by eexists. Qed.

(** A live discovery reaches [reconcileDiscovery], with the finalizer in place. *)
Lemma DiscoveryReconcile_live d (st : St W) :
  live req d (world st) ->
  exists d1 w1, live req d1 w1 /\ follows d d1 /\ D_Status d1 = D_Status d /\
    Meta_Annotations (D_Meta d1) = Meta_Annotations (D_Meta d) /\
    discoveryFinalizerName ∈ Meta_Finalizers (D_Meta d1) /\
    untouched KDiscovery req (world st) w1 /\
    forall r st2, reconcileDiscovery MarshalSpec UnmarshalSpec Template Parse Execute sort order ctxErr now kafka s3 d1 (mkSt w1 (effects st)) = (r, st2) ->
      exists st', reconcile st = (r, st') /\ world st' = world st2.
Proof.
  intros Hl. pose proof Hl as [Hd Hlive].
  destruct (ensureDiscoveryFinalizer_run req d st Hl) as (d1 & w1 & E & Hl1 & Hfo & Hs & Ha & Hf & Hu).
  exists d1, w1. do 6 (split; [done|]). intros r st2 E2. apply counted_run.
  unfold mbind at 1, M_bind at 1, try, reads. rewrite (Get_stored KDiscovery _ _ d Hd).
  rewrite bool_decide_eq_false_2 by (rewrite Hlive; by intros []).
  unfold mbind, M_bind. by rewrite E.
Qed.

(** Discovery fails with [e] as long as the discovery and its credentials stay
    what they are in [w]. *)
Definition unreachable d (e : error) (w : W) : Prop :=
  forall d' w', follows d d' -> credentials_kept d w w' ->
    discoverSources sort ctxErr kafka s3 d' w' = Some (Err e).

Lemma unreachable_later d d1 e w w1 :
  follows d d1 -> untouched KDiscovery req w w1 -> unreachable d e w -> unreachable d1 e w1.
Proof.
  intros Hf Hu Hd d' w' Hf' Hc. apply Hd; [by etrans|].
  eapply credentials_kept_trans; [by eapply untouched_credentials|by eapply credentials_kept_follows].
Qed.

(** One failed run. *)
Lemma failed_run d e (st : St W) :
  live req d (world st) -> 0 <= failureCount d < 2 ^ 63 - 1 -> unreachable d e (world st) ->
  exists d' st', reconcile st = (Ok (mkResult (discoveryBackoff (failureCount d + 1))), st') /\
    live req d' (world st') /\ follows d d' /\ failureCount d' = failureCount d + 1 /\
    reports_failure d' e /\ untouched KDiscovery req (world st) (world st').
Proof.
  intros Hl Hc Hdown.
  destruct (DiscoveryReconcile_live d st Hl) as (d1 & w1 & Hl1 & Hfo1 & _ & Ha1 & _ & Hu1 & Hrun).
  pose proof (Hdown d1 w1 Hfo1 (untouched_credentials _ d _ _ Hu1)) as He. pose proof (stored_key KDiscovery _ _ _ (proj1 Hl1)) as Hk1.
  assert (Hc1 : failureCount d1 = failureCount d) by (unfold failureCount; by rewrite Ha1).
  destruct (incrementFailureCount_step d1) as [Hn1 Hn2]; [by rewrite Hc1|].
  set (ev := Event (@key_of KDiscovery d1) "Warning" "DiscoveryFailed" (Msg "Discovery failed: %v" [AErr e])).
  destruct (retryAnnotation_run req d1 (fun d => (incrementFailureCount d).2)
              (incrementFailureCount d1).2 (mkSt w1 (effects st ++ [ev])))
    as (d2 & w2 & E2 & Hl2 & Hfo2 & Ha2 & _ & _ & Hu2); [done..|].
  set (d3 := buildDiscoveryStatus now d2 DiscoveryPhaseError [] e).
  pose proof (stored_key KDiscovery _ _ _ (proj1 Hl2)) as Hk2.
  destruct (updateDiscoveryStatus_run req d2 d3 (mkSt w2 (effects st ++ [ev])))
    as (items & d4 & w4 & _ & E4 & Hl4 & Hm4 & Hs4 & Hst4 & Hu4); [done|exact Hk2|].
  destruct (Hrun (Ok (mkResult (discoveryBackoff (failureCount d + 1)))) (mkSt w4 (effects st ++ [ev])))
    as (st' & E & Hw).
  { unfold reconcileDiscovery. simpl. rewrite He. unfold discoveryFailed, devent.
    unfold mbind at 1, M_bind at 1, emit. simpl. fold ev.
    apply M_bind_Ok. eexists _, _. split; [exact E2|].
    apply M_bind_Ok. eexists _, _. split; [apply try_Ok, E4|].
    rewrite <-Hc1, <-Hn1. done. }
  simpl in Hw. exists d4, st'. rewrite Hw. split_and!; [done|done| | | |].
  - rewrite Hfo1, Hfo2. split; [|by rewrite Hm4|done|by rewrite Hm4].
    unfold key_of. simpl. by rewrite Hm4.
  - rewrite <-Hc1, <-Hn2. unfold failureCount. by rewrite Hm4, Ha2.
  - split; rewrite ?Hst4, ?Hm4; try done. apply Find_Set_same.
  - intros k key Hne. by rewrite Hu4, Hu2, Hu1.
Qed.

(** [n] reconciles in a row. *)
Fixpoint repeated {A} (n : nat) (m : M W A) : M W (list A) :=
  match n with
  | O => mret []
  | S n => r ← m; rs ← repeated n m; mret (r :: rs)
  end.

Lemma failed_runs n d e (st : St W) :
  live req d (world st) -> 0 <= failureCount d -> failureCount d + Z.of_nat n < 2 ^ 63 - 1 ->
  unreachable d e (world st) ->
  exists rs d' st', repeated n reconcile st = (Ok rs, st') /\ length rs = n /\
    (forall i r, rs !! i = Some r ->
       RequeueAfter r = discoveryBackoff (failureCount d + 1 + Z.of_nat i)) /\
    live req d' (world st') /\ follows d d' /\ failureCount d' = failureCount d + Z.of_nat n /\
    ((0 < n)%nat -> reports_failure d' e) /\
    untouched KDiscovery req (world st) (world st').
Proof.
  revert d st. induction n as [|n IH]; intros d st Hl Hc Hmax Hdown.
  { exists [], d, st. split_and!; try done; [lia|lia]. }
  destruct (failed_run d e st) as (d1 & s1 & E1 & Hl1 & Hf1 & Hc1 & Hr1 & Hu1); [done|lia|done|].
  destruct (IH d1 s1) as (rs & d2 & s2 & E2 & Hlen & Hrs & Hl2 & Hf2 & Hc2 & Hr2 & Hu2); [done|lia|lia| |].
  { by eapply unreachable_later. }
  eexists (_ :: rs), d2, s2. split_and!.
  - cbn [repeated]. apply M_bind_Ok. eexists _, _. split; [exact E1|].
    apply M_bind_Ok. eexists _, _. split; [exact E2|]. done.
  - simpl. by rewrite Hlen.
  - intros [|i] r Hi; simpl in Hi; [injection Hi as <-; simpl; f_equal; lia|].
    rewrite (Hrs i r Hi). f_equal. lia.
  - done.
  - by etrans.
  - lia.
  - intros _. destruct n as [|n]; [|by apply Hr2; lia]. injection E2 as <- <-.
    destruct Hl1 as [Hd1 _], Hl2 as [Hd2 _]. rewrite Hd1 in Hd2. by injection Hd2 as <-.
  - intros k key Hne. by rewrite Hu2, Hu1.
Qed.

(** The backoff: starting from a discovery without recorded failures, [n]
    reconciles in a row all return without error, the [i]-th of them asks to be
    called again after exactly [min(30s * 2^(i-1), 5min)], and the failure count
    that the annotation carries from one run to the next ends at [n]. *)
Theorem failing_discovery_backs_off n d e (st : St W) :
  live req d (world st) -> annotations_of d !! discoveryFailureCountKey = None ->
  Z.of_nat n < 2 ^ 63 - 1 -> unreachable d e (world st) ->
  exists rs d' st', repeated n reconcile st = (Ok rs, st') /\ length rs = n /\
    (forall i r, rs !! i = Some r ->
       RequeueAfter r = Z.min (30 * Second * 2 ^ Z.of_nat i) (5 * Minute)) /\
    live req d' (world st') /\ D_Spec d' = D_Spec d /\
    Atoi (map_get (annotations_of d') discoveryFailureCountKey) = Z.of_nat n /\
    ((0 < n)%nat -> reports_failure d' e) /\
    untouched KDiscovery req (world st) (world st').
Proof.
  intros Hl Ha Hn Hdown. assert (Hc : failureCount d = 0).
  { unfold failureCount, map_get. fold (annotations_of d). by rewrite Ha. }
  destruct (failed_runs n d e st) as (rs & d' & st' & E & Hlen & Hrs & Hl' & Hf & Hc' & Hr & Hu);
    [done|lia|lia|done|].
  exists rs, d', st'. rewrite Hc in *. split_and!; try done; [|apply Hf].
  intros i r Hi. rewrite (Hrs i r Hi), discoveryBackoff_closed by lia. do 3 f_equal. lia.
Qed.

(** The state after [n] calls of the reconciler, whatever they returned. *)
Definition after (n : nat) (st : St W) : St W := Nat.iter n (fun st => snd (reconcile st)) st.

(** The request is not forgotten: the call asked to be repeated, or returned an
    error, after which the work queue repeats it. *)
Definition rescheduled (r : result ctrl_Result) : Prop :=
  match r with Ok res => 0 < RequeueAfter res | Err _ => True end.

Lemma after_failures n d e (st : St W) :
  live req d (world st) -> failureCount d = 0 -> Z.of_nat n < 2 ^ 63 - 1 -> unreachable d e (world st) ->
  (forall i, (i < n)%nat -> rescheduled (fst (reconcile (after i st)))) /\
  exists d', live req d' (world (after n st)) /\ follows d d' /\ failureCount d' = Z.of_nat n /\
    ((0 < n)%nat -> reports_failure d' e) /\ untouched KDiscovery req (world st) (world (after n st)).
Proof.
  intros Hl Hc. induction n as [|n IH]; intros Hn Hdown.
  { split; [lia|]. exists d. split_and!; [done..|lia|done]. }
  destruct (IH ltac:(lia) Hdown) as (Hi & d1 & Hl1 & Hf1 & Hc1 & _ & Hu1).
  destruct (failed_run d1 e (after n st)) as (d2 & s2 & E & Hl2 & Hf2 & Hc2 & Hr2 & Hu2);
    [done|lia|by eapply unreachable_later|].
  assert (Es : after (S n) st = s2) by (unfold after; rewrite Nat.iter_succ; fold (after n st); by rewrite E).
  rewrite Es. split.
  - intros i Hlt. destruct (decide (i = n)) as [->|]; [|apply Hi; lia]. rewrite E. simpl.
    rewrite discoveryBackoff_closed by lia. unfold defaultPollInterval, maxDiscoveryBackoff, Minute, Second.
    assert (0 < 2 ^ (failureCount d1 + 1 - 1)) by (apply Z.pow_pos_nonneg; lia). lia.
  - exists d2. split_and!; [done|by etrans|lia|done|]. intros k key Hne. by rewrite Hu2, Hu1.
Qed.

(** C13: a source that cannot be reached is reported and retried. On a reliable
    server, from a discovery without recorded failures, as long as the discovery
    of the sources fails with the error [e] (whatever it is: a credentials secret
    that is missing, a client that cannot be made, a listing that is refused),
    any number of reconciles in a row leave the request scheduled again each
    time; after them the status shows the Error phase without sources, for the
    current generation, with the Ready condition False and that very error as its
    message; the annotation counts the failures; the spec is unchanged, and no
    other object of the cluster changes: no child is written, released or
    deleted because its source cannot be seen. *)
Theorem failing_discovery_reported n d e (st : St W) :
  live req d (world st) -> annotations_of d !! discoveryFailureCountKey = None ->
  Z.of_nat n < 2 ^ 63 - 1 -> unreachable d e (world st) ->
  (forall i, (i < n)%nat -> rescheduled (fst (reconcile (after i st)))) /\
  exists d', live req d' (world (after n st)) /\ D_Spec d' = D_Spec d /\
    Atoi (map_get (annotations_of d') discoveryFailureCountKey) = Z.of_nat n /\
    ((0 < n)%nat -> reports_failure d' e) /\ untouched KDiscovery req (world st) (world (after n st)).
Proof.
  intros Hl Ha Hn Hdown. assert (Hc : failureCount d = 0).
  { unfold failureCount, map_get. fold (annotations_of d). by rewrite Ha. }
  destruct (after_failures n d e st Hl Hc Hn Hdown) as (Hi & d' & Hl' & Hf & Hc' & Hr & Hu).
  split; [done|]. exists d'. split_and!; try done. apply Hf.
Qed.
End failing.

(** ** A source that answers *)

Section succeeding.
Context {W : Type} `{ClientLaws W} `{!ReliableClient W}.
Context (MarshalSpec : DataPrepperPipelineSpec -> result string)
  (UnmarshalSpec : string -> result DataPrepperPipelineSpec) 
  (Template : Type) (Parse : string -> result Template)
  (Execute : Template -> TemplateContext -> result string)
  (sort : list DiscoveredSource -> list DiscoveredSource)
  (order : MapOrder) (Horder : MapOrderLaws order)
  (ctxErr : nat -> string -> option error) (now : Z)
  (kafka : option Kafka.ClientFactory) (s3 : option S3.ClientFactory) (req : Key).
Implicit Types (d disc : DataPrepperSourceDiscovery).

Abbreviation reconcile :=
  (DiscoveryReconcile (W := W) MarshalSpec UnmarshalSpec Template Parse Execute
     sort order ctxErr now kafka s3 req).
Abbreviation wanted :=
  (desiredPipelines MarshalSpec UnmarshalSpec Template Parse Execute).

(** What is rendered depends on the spec and the name of the discovery only. *)
Lemma wanted_follows d d' sources : follows d d' -> wanted d' sources = wanted d sources.
Proof.
  intros [Hk _ Hs _]. unfold desiredPipelines. generalize (∅ : gmap string desired).
  unfold key_of in Hk. simpl in Hk. injection Hk as Hns Hn.
  induction sources as [|s sources IH]; intros m; simpl; [done|].
  assert (addDesired MarshalSpec UnmarshalSpec Template Parse Execute d' m s
          = addDesired MarshalSpec UnmarshalSpec Template Parse Execute d m s) as ->.
  { unfold addDesired, renderPipelineSpec, pipelineName. by rewrite Hs, Hns, Hn. }
  destruct (addDesired _ _ _ _ _ d m s); simpl; [apply IH|done].
Qed.

(** The names of the desired pipelines are the active names. *)
Lemma wanted_active d sources des name :
  wanted d sources = Ok des -> is_Some (des !! name) -> name ∈ activeNames d sources.
Proof.
  unfold desiredPipelines, activeNames. intros E Hn. apply elem_of_list_to_set.
  enough (is_Some ((∅ : gmap string desired) !! name) \/
          name ∈ ((fun s => pipelineName d (DS_Name s)) <$> sources)) as [Hx|]; [|done|].
  { rewrite lookup_empty in Hx. by destruct Hx. }
  revert E. generalize (∅ : gmap string desired).
  induction sources as [|s sources IH]; intros m; simpl; [intros [= ->]; by left|].
  destruct (addDesired _ _ _ _ _ d m s) as [m'|] eqn:Em; simpl; [|done]. intros E%IH.
  unfold addDesired in Em. destruct (wrap_err _ _ _) as [spec|]; [|done]. simpl in Em. injection Em as <-.
  destruct E as [E|E]; [|by right; right].
  destruct (decide (name = pipelineName d (DS_Name s))) as [->|Hne]; [right; by left|].
  left. by rewrite lookup_insert_ne in E by done.
Qed.

(** *** Cleanup returns *)

Lemma forEach_total (f : DataPrepperPipeline -> M W unit) items (st : St W) :
  (forall p s, stored KPipeline (@key_of KPipeline p) (world s) = Some p ->
     exists s', f p s = (Ok tt, s')) ->
  (forall p, footprint (only KPipeline (@key_of KPipeline p)) (f p)) ->
  NoDup ((fun p => @key_of KPipeline p) <$> items) ->
  (forall p, p ∈ items -> stored KPipeline (@key_of KPipeline p) (world st) = Some p) ->
  exists st', forEach f items st = (Ok tt, st').
Proof.
  intros Hf Hfp. revert st. induction items as [|p items IH]; intros st Hnd Hin; [by eexists|].
  rewrite fmap_cons in Hnd. apply NoDup_cons in Hnd as [Hnotin Hnd].
  destruct (Hf p st) as [s1 E1]; [apply Hin; by left|].
  pose proof (step_keeps _ _ _ _ _ _ (Hfp p) E1) as Hkeep.
  destruct (IH s1 Hnd) as [s2 E2].
  { intros q Hq. rewrite Hkeep; [apply Hin; by right|]. right. intros Heq. apply Hnotin.
    rewrite <-Heq. by apply (list_elem_of_fmap_2 (fun p => @key_of KPipeline p)). }
  exists s2. cbn [forEach]. apply M_bind_Ok. by exists tt, s1.
Qed.

Lemma cleanupOne_total disc active p (s : St W) :
  stored KPipeline (@key_of KPipeline p) (world s) = Some p ->
  exists s', cleanupOne disc active p s = (Ok tt, s').
Proof.
  intros Hp. unfold cleanupOne. repeat case_bool_decide; try by eexists.
  - destruct (Delete_total KPipeline p (world s)) as [w' E]; [eauto|].
    exists (mkSt w' (effects s)). by apply wrap_Ok, writes_Ok.
  - destruct (Update_total KPipeline (orphaned disc p) (world s)) as (p' & w' & E); [exists p; exact Hp|].
    exists (mkSt w' (effects s)). apply M_bind_Ok. exists p', (mkSt w' (effects s)).
    split; [by apply wrap_Ok, writes_Ok|done].
Qed.

Lemma cleanupOrphans_total disc sources (st : St W) :
  exists st', cleanupOrphans disc sources st = (Ok tt, st').
Proof.
  destruct (List_total (Meta_Namespace (D_Meta disc)) (childLabels disc) (world st)) as [items Hl].
  destruct (forEach_total (cleanupOne disc (activeNames disc sources)) items st) as [s' E].
  - intros p s. apply cleanupOne_total.
  - intros p. apply footprint_cleanupOne.
  - by eapply listed_NoDup.
  - intros p Hp. by eapply listed_stored.
  - exists s'. unfold cleanupOrphans. apply M_bind_Ok. exists items, st.
    split; [apply wrap_Ok; unfold reads; by rewrite Hl|exact E].
Qed.

(** *** The run *)

(** What a successful discovery writes into the status. *)
Record reports_success d (sources : list DiscoveredSource) (cyc : reconcileResult) : Prop := {
  rs_phase : DStatus_Phase (D_Status d) = DiscoveryPhaseRunning;
  rs_sources : DStatus_Sources (D_Status d) = sourceStatus d <$> sources;
  rs_discovered : DStatus_DiscoveredSources (D_Status d) = int32 (Z.of_nat (length sources));
  rs_updating : DStatus_UpdatingPipelines (D_Status d) = int32 (RR_pendingUpdates cyc);
  rs_generation : DStatus_ObservedGeneration (D_Status d) = Meta_Generation (D_Meta d);
  rs_polled : DStatus_LastPollTime (D_Status d) = Some now;
  rs_ready : Cond_Status <$> dcondition_of d "Ready" = Some ConditionTrue;
  rs_paused : Cond_Status <$> dcondition_of d "StagedRolloutPaused" = Some (flag (RR_healthCheckFail cyc));
  rs_progress : Cond_Status <$> dcondition_of d "StagedRolloutInProgress"
                = Some (flag (0 <? RR_pendingUpdates cyc)) }.

(** The first step of a successful discovery: the failure count is reset. *)
Lemma reset_run d (st : St W) :
  live req d (world st) ->
  exists d1 w1,
    (if nonempty (map_get (default ∅ (Meta_Annotations (D_Meta d))) discoveryFailureCountKey)
     then retryAnnotation resetFailureCount d else mret d) st = (Ok d1, mkSt w1 (effects st)) /\
    live req d1 w1 /\ follows d d1 /\ failureCount d1 = 0 /\ untouched KDiscovery req (world st) w1.
Proof.
  intros Hl. destruct (nonempty _) eqn:En.
  - pose proof (stored_key KDiscovery _ _ _ (proj1 Hl)) as Hk.
    destruct (retryAnnotation_run req d resetFailureCount d st)
      as (d1 & w1 & E & Hl1 & Hf & Ha & _ & _ & Hu); [done|done|apply key_reset| |].
    { unfold resetFailureCount. by destruct (Meta_Annotations _). }
    exists d1, w1. split_and!; try done. unfold failureCount. rewrite Ha. unfold resetFailureCount.
    destruct (Meta_Annotations (D_Meta d)) as [a|] eqn:Ea; simpl; [|by rewrite Ea].
    unfold map_get. by rewrite lookup_delete_eq.
  - exists d, (world st). destruct st as [w effs]. split_and!; try done.
    apply nonempty_false in En. unfold failureCount. by rewrite En.
Qed.

Lemma when_emit b e (st : St W) : exists effs, when b (emit e) st = (Ok tt, mkSt (world st) effs).
Proof. destruct b; [by eexists|]. destruct st. by eexists. Qed.

(** The rest, after the children are settled: status, metrics, events, requeue. *)
Lemma report_run d sources cyc (st : St W) :
  live req d (world st) ->
  exists items d' st',
    (disc ← rolloutConditions cyc (setUpdating (int32 (RR_pendingUpdates cyc))
              (buildDiscoveryStatus now d DiscoveryPhaseRunning sources (Msg "" [])));
     disc ← wrap "update discovery status: %w" [] (updateDiscoveryStatus disc);
     emit (GaugeSet DiscoveredSources
             [Meta_Name (D_Meta disc); Meta_Namespace (D_Meta disc)]
             (DStatus_DiscoveredSources (D_Status disc))) ;;
     emit (GaugeSet OrphanedPipelines [] (DStatus_OrphanedPipelines (D_Status disc))) ;;
     when (0 <? RR_created cyc)
       (devent disc "Normal" "PipelinesCreated"
          (Msg "Created %d new pipelines" [AInt (RR_created cyc)])) ;;
     when (0 <? RR_updated cyc)
       (devent disc "Normal" "PipelinesUpdated"
          (Msg "Updated %d pipelines (%d pending)"
             [AInt (RR_updated cyc); AInt (RR_pendingUpdates cyc)])) ;;
     mret (mkResult (requeueAfter disc cyc (Z.of_nat (length sources))))) st
    = (Ok (mkResult (requeueAfter d cyc (Z.of_nat (length sources)))), st') /\
    live req d' (world st') /\ follows d d' /\ failureCount d' = failureCount d /\
    reports_success d' sources cyc /\
    ListPipelines req.1 (childLabels d) (world st) = Ok items /\
    DStatus_ActivePipelines (D_Status d') = int32 (Z.of_nat (length items)) /\
    untouched KDiscovery req (world st) (world st').
Proof.
  intros Hl. pose proof (stored_key KDiscovery _ _ _ (proj1 Hl)) as Hk.
  set (d1 := setUpdating _ _).
  destruct (rolloutConditions_run cyc d1 st) as (d2 & effs & E2 & Hm2 & Hs2 & Hst2 & Hr2 & Hp2 & Hi2).
  assert (Hk2 : @key_of KDiscovery d2 = req) by (unfold key_of; simpl; rewrite Hm2; exact Hk).
  destruct (updateDiscoveryStatus_run req d d2 (mkSt (world st) effs))
    as (items & d3 & w3 & Hli & E3 & Hl3 & Hm3 & Hs3 & Hst3 & Hu3); [done|done|].
  assert (Hlab : childLabels d2 = childLabels d) by (unfold childLabels; by rewrite Hm2).
  rewrite Hlab in Hli. simpl in Hli, Hu3.
  assert (Hreq : requeueAfter d3 cyc (Z.of_nat (length sources))
                 = requeueAfter d cyc (Z.of_nat (length sources))).
  { unfold requeueAfter, discoveryMaxCreationsPerCycle, discoveryPollInterval. by rewrite Hs3. }
  set (s4 := mkSt w3 ((effs ++ [GaugeSet DiscoveredSources
    [Meta_Name (D_Meta d3); Meta_Namespace (D_Meta d3)] (DStatus_DiscoveredSources (D_Status d3))])
    ++ [GaugeSet OrphanedPipelines [] (DStatus_OrphanedPipelines (D_Status d3))])).
  destruct (when_emit (0 <? RR_created cyc) (Event (@key_of KDiscovery d3) "Normal" "PipelinesCreated"
    (Msg "Created %d new pipelines" [AInt (RR_created cyc)])) s4) as [effs5 E5].
  destruct (when_emit (0 <? RR_updated cyc) (Event (@key_of KDiscovery d3) "Normal" "PipelinesUpdated"
    (Msg "Updated %d pipelines (%d pending)" [AInt (RR_updated cyc); AInt (RR_pendingUpdates cyc)]))
    (mkSt w3 effs5)) as [effs6 E6].
  exists items, d3. eexists. split.
  { apply M_bind_Ok. eexists _, _. split; [exact E2|].
    apply M_bind_Ok. eexists _, _. split; [apply wrap_Ok, E3|].
    do 2 (apply M_bind_Ok; eexists tt, _; split; [reflexivity|]).
    apply M_bind_Ok. eexists _, _. split; [exact E5|].
    apply M_bind_Ok. eexists _, _. split; [exact E6|].
    rewrite Hreq. reflexivity. }
  split_and!; try done.
  - split; [|by rewrite Hm3|done|by rewrite Hm3]. unfold key_of; simpl. by rewrite Hm3.
  - unfold failureCount. by rewrite Hm3.
  - rewrite Hst2 in Hst3. assert (Hss : forall s, sourceStatus d3 s = sourceStatus d s)
      by (intros s; unfold sourceStatus, pipelineName; by rewrite Hm3).
    split; unfold dcondition_of in *; rewrite Hst3; simpl; try done.
    + by apply list_fmap_ext.
    + by rewrite Hm3.
    + rewrite Hr2. simpl. by rewrite Find_Set_same.
  - by rewrite Hst3.
Qed.

Abbreviation cycle d sources :=
  (reconcilePipelines MarshalSpec UnmarshalSpec Template Parse Execute order d
     sources).
(** The names of the given pipelines are not held by an object of another owner. *)
Definition free_names d (des : gmap string desired) (w : W) : Prop :=
  forall name, is_Some (des !! name) ->
    adoptable (Meta_UID (D_Meta d)) KPipeline (Meta_Namespace (D_Meta d), name) w.

Lemma child_of_follows d d' name w : follows d d' -> child_of d' name w = child_of d name w.
Proof.
  intros [Hk _ _ _]. unfold key_of in Hk. simpl in Hk. injection Hk as Hns Hn.
  unfold child_of. rewrite Hns. destruct (stored _ _ _) as [p|]; simpl; [|done].
  apply decide_ext. unfold is_child. by rewrite Hn.
Qed.

(** What is outdated depends on the wanted children only. *)
Lemma outdated_ext d d' des w w' :
  (forall name, is_Some (des !! name) ->
     hash_of <$> child_of d' name w' = hash_of <$> child_of d name w) ->
  outdated d' des w' = outdated d des w.
Proof.
  intros Hc. apply map_filter_ext. intros name x Hx. simpl. rewrite Hc; [done|]. eauto.
Qed.

Lemma outdated_follows d d' des w w' :
  follows d d' -> (forall key, stored KPipeline key w' = stored KPipeline key w) ->
  outdated d' des w' = outdated d des w.
Proof.
  intros Hf Hs. apply outdated_ext. intros name _. rewrite (child_of_follows d d') by done.
  unfold child_of. by rewrite Hs.
Qed.

Lemma free_names_follows d d' des w w' :
  follows d d' -> (forall key, stored KPipeline key w' = stored KPipeline key w) ->
  free_names d des w -> free_names d' des w'.
Proof.
  intros [Hk Hu _ _] Hs Hf name Hn o. unfold key_of in Hk. simpl in Hk. injection Hk as -> _.
  rewrite Hs, Hu. by apply Hf.
Qed.

(** The cycle of child pipelines and the cleanup leave the discovery alone. *)
Lemma cycle_keeps d sources (st : St W) cyc st' k key :
  cycle d sources st = (Ok cyc, st') -> k ≠ KPipeline ->
  stored k key (world st') = stored k key (world st).
Proof.
  intros (des & items & _ & _ & (names & _ & _ & _ & _ & Hframe)%rc_names)%reconcilePipelines_Ok Hk;
    [|done]. apply Hframe. by left.
Qed.

Lemma cleanup_keeps d sources (st st' : St W) k key :
  cleanupOrphans d sources st = (Ok tt, st') -> k ≠ KPipeline ->
  stored k key (world st') = stored k key (world st).
Proof. intros (items & _ & _ & Hframe)%cleanupOrphans_Ok Hk. apply Hframe. by left. Qed.

Lemma successful_run d (st : St W) sources des :
  live req d (world st) -> discoverSources sort ctxErr kafka s3 d (world st) = Some (Ok sources) ->
  wanted d sources = Ok des -> free_names d (outdated d des (world st)) (world st) ->
  exists d2 s2 cyc s3 s4 items d' st',
    follows d d2 /\ untouched KDiscovery req (world st) (world s2) /\
    cycle d2 sources s2 = (Ok cyc, s3) /\ cleanupOrphans d2 sources s3 = (Ok tt, s4) /\
    reconcile st = (Ok (mkResult (requeueAfter d2 cyc (Z.of_nat (length sources)))), st') /\
    live req d' (world st') /\ follows d d' /\ failureCount d' = 0 /\
    reports_success d' sources cyc /\
    ListPipelines req.1 (childLabels d2) (world s4) = Ok items /\
    DStatus_ActivePipelines (D_Status d') = int32 (Z.of_nat (length items)) /\
    untouched KDiscovery req (world s4) (world st').
Proof.
  intros Hl Hsrc Hdes Hfree.
  destruct (DiscoveryReconcile_live MarshalSpec UnmarshalSpec Template Parse Execute
    sort order ctxErr now kafka s3 req d st Hl) as (d1 & w1 & Hl1 & Hf1 & _ & _ & _ & Hu1 & Hrun).
  destruct (reset_run d1 (mkSt w1 (effects st)) Hl1) as (d2 & w2 & E2 & Hl2 & Hf2 & Hc2 & Hu2).
  assert (Hf : follows d d2) by (by etrans).
  assert (Hu : untouched KDiscovery req (world st) w2)
    by (intros k key Hne; by rewrite Hu2, Hu1).
  destruct (cycle_total MarshalSpec UnmarshalSpec Template Parse Execute order
    Horder d2 sources des (mkSt w2 (effects st))) as (cyc & s3' & E3).
  { by rewrite (wanted_follows d). }
  { cbn [world]. rewrite (outdated_follows d d2 des (world st) w2) by (done || (intros; apply Hu; by left)).
    apply (free_names_follows d d2 _ (world st)); [done|intros; apply Hu; by left|done]. }
  destruct (cleanupOrphans_total d2 sources s3') as [s4 E4].
  assert (Hl4 : live req d2 (world s4)).
  { destruct Hl2 as [Hd2 ?]. split; [|done].
    by rewrite (cleanup_keeps _ _ _ _ _ _ E4), (cycle_keeps _ _ _ _ _ _ _ E3). }
  destruct (report_run d2 sources cyc s4 Hl4)
    as (items & d' & s5 & E5 & Hl5 & Hf5 & Hc5 & Hrep & Hli & Hact & Hu5).
  destruct (Hrun (Ok (mkResult (requeueAfter d2 cyc (Z.of_nat (length sources))))) s5) as (st' & E & Hw).
  { unfold reconcileDiscovery. simpl. rewrite (discoverSources_kept _ _ _ _ d d1 (world st) w1 sources)
      by (done || by eapply untouched_credentials).
    apply M_bind_Ok. eexists _, _. split; [exact E2|].
    apply M_bind_Ok. eexists _, _. split; [exact E3|].
    apply M_bind_Ok. eexists _, _. split; [exact E4|]. exact E5. }
  exists d2, (mkSt w2 (effects st)), cyc, s3', s4, items, d', st'. rewrite Hw.
  split_and!; try done; [by etrans|congruence].
Qed.

(** *** Cleanup and the wanted children *)

(** The cleanup does not write a pipeline with an active name. *)
Lemma cleanup_active d sources (st st' : St W) name :
  cleanupOrphans d sources st = (Ok tt, st') -> name ∈ activeNames d sources ->
  stored KPipeline (Meta_Namespace (D_Meta d), name) (world st')
  = stored KPipeline (Meta_Namespace (D_Meta d), name) (world st).
Proof.
  intros (items & Hl & Hc & Hframe)%cleanupOrphans_Ok Ha.
  set (key := (Meta_Namespace (D_Meta d), name)).
  destruct (decide (key ∈ ((fun p => @key_of KPipeline p) <$> items))) as [Hin|Hout];
    [|by apply Hframe; right].
  apply list_elem_of_fmap in Hin as (p & Hk & Hp). specialize (Hc p Hp).
  pose proof (key_of_listed _ _ _ _ _ Hl Hp) as Hk2. rewrite <-Hk in Hk2. injection Hk2 as Hn.
  unfold cleaned in Hc. rewrite <-Hk, decide_True in Hc by (by rewrite <-Hn).
  rewrite Hc, Hk. symmetry. by eapply listed_stored.
Qed.

(** After it, a child has an active name or is being deleted. *)
Lemma cleanup_settles d sources (st st' : St W) name p :
  cleanupOrphans d sources st = (Ok tt, st') -> discoveryCleanupPolicy d ∈ ["Delete"; "Orphan"] ->
  child_of d name (world st') = Some p ->
  name ∈ activeNames d sources \/ is_Some (Meta_DeletionTimestamp (P_Meta p)).
Proof.
  intros (items & Hl & Hc & Hframe)%cleanupOrphans_Ok Hpol Hp.
  unfold child_of in Hp. apply bind_Some in Hp as (q & Hst & Hq).
  destruct (decide (is_child d q)) as [Hch|]; [|done]. injection Hq as ->.
  set (key := (Meta_Namespace (D_Meta d), name)) in *.
  destruct (decide (key ∈ ((fun p => @key_of KPipeline p) <$> items))) as [Hin|Hout].
  - apply list_elem_of_fmap in Hin as (p0 & Hk & Hp0). specialize (Hc p0 Hp0).
    pose proof (key_of_listed _ _ _ _ _ Hl Hp0) as Hk2. rewrite <-Hk in Hk2. injection Hk2 as Hn.
    rewrite <-Hk, Hst in Hc. unfold cleaned in Hc. rewrite <-Hn in Hc.
    case_decide; [by left|right]. case_decide; [by apply Hc|]. case_decide as Ho.
    + destruct (Hc p eq_refl) as (_ & Hnone & _). unfold is_child in Hch. congruence.
    + rewrite !elem_of_cons in Hpol. by destruct Hpol as [|[|?%elem_of_nil]].
  - rewrite Hframe in Hst by (by right). destruct Hout.
    pose proof Hl as [_ Hin]%List_Ok. assert (Hpi : p ∈ items).
    { apply Hin. pose proof (stored_key KPipeline _ _ _ Hst) as Hk. unfold key_of, key in Hk.
      simpl in Hk. injection Hk as _ ->. split; [done|]. unfold childLabels.
      by apply map_singleton_subseteq_l. }
    apply list_elem_of_fmap. exists p. split; [|done]. symmetry. by apply (stored_key KPipeline) in Hst.
Qed.

(** *** The theorems *)

Section stable.
Context d (sources : list DiscoveredSource) (des : gmap string desired).
(** The sources render to the desired pipelines. *)
Context (Hdes : wanted d sources = Ok des).

(** The source answers with these sources. *)
Definition answers (w : W) : Prop := discoverSources sort ctxErr kafka s3 d w = Some (Ok sources).

(** The children that exist are listed in the status. *)
Definition counts_children d' w : Prop :=
  exists items, NoDup (Meta_Name ∘ P_Meta <$> items) /\
    (forall name p, child_of d name w = Some p <-> p ∈ items /\ Meta_Name (P_Meta p) = name) /\
    DStatus_ActivePipelines (D_Status d') = int32 (Z.of_nat (length items)).

Lemma listed_children d1 items w name p :
  ListPipelines (Meta_Namespace (D_Meta d1)) (childLabels d1) w = Ok items ->
  child_of d1 name w = Some p <-> p ∈ items /\ Meta_Name (P_Meta p) = name.
Proof.
  intros Hli. pose proof Hli as [_ Hin]%List_Ok.
  rewrite <-(existingByName_lookup _ _ _ _ Hli), (existingByName_children _ _ _ _ _ Hli), Hin.
  unfold childLabels. rewrite map_singleton_subseteq_l. unfold is_child. split; [|by intros [[] <-]].
  intros [Hst Hc]. pose proof (stored_key KPipeline _ _ _ Hst) as Hk.
  unfold key_of in Hk. simpl in Hk. injection Hk as _ Hk. by rewrite Hk.
Qed.

(** What the cycle of a run did to the wanted children, between the states before
    and after the whole run. *)
Definition cycle_done (cyc : reconcileResult) (w w' : W) : Prop :=
  exists existing stale new old,
    (forall name, existing !! name = child_of d name w) /\
    update_counts d des existing stale cyc /\ written_as_reported existing stale cyc new old /\
    NoDup (new ++ old) /\
    (forall name, name ∈ new ++ old -> exists x, des !! name = Some x /\ applied d name x w') /\
    (forall name, is_Some (des !! name) -> name ∉ new ++ old ->
       stored KPipeline (Meta_Namespace (D_Meta d), name) w'
       = stored KPipeline (Meta_Namespace (D_Meta d), name) w).

Lemma update_counts_follows d2 existing stale cyc :
  follows d d2 -> update_counts d2 des existing stale cyc -> update_counts d des existing stale cyc.
Proof. intros [_ _ Hs _] []. constructor; rewrite <-?Hs; done. Qed.

Lemma applied_follows d2 name x w w' :
  follows d d2 -> stored KPipeline (Meta_Namespace (D_Meta d), name) w' =
    stored KPipeline (Meta_Namespace (D_Meta d), name) w ->
  applied d2 name x w -> applied d name x w'.
Proof.
  intros [Hk Hu _ _] Hst. unfold key_of in Hk. simpl in Hk. injection Hk as Hns Hn.
  unfold applied. by rewrite Hns, Hn, Hu, Hst.
Qed.

(** One run, seen from outside: it returns, reports, and brings the children closer. *)
Record run_result (st : St W) (cyc : reconcileResult) d' (st' : St W) : Prop := {
  rr_returns : reconcile st = (Ok (mkResult (requeueAfter d cyc (Z.of_nat (length sources)))), st');
  rr_live : live req d' (world st');
  rr_follows : follows d d';
  rr_count : failureCount d' = 0;
  rr_status : reports_success d' sources cyc;
  rr_cycle : cycle_done cyc (world st) (world st');
  rr_children : counts_children d' (world st');
  rr_orphans : discoveryCleanupPolicy d ∈ ["Delete"; "Orphan"] ->
    forall name p, child_of d name (world st') = Some p ->
      name ∈ activeNames d sources \/ is_Some (Meta_DeletionTimestamp (P_Meta p));
  (** What is still outdated is as it was. *)
  rr_monotone : forall name x, outdated d des (world st') !! name = Some x ->
    outdated d des (world st) !! name = Some x /\
    stored KPipeline (Meta_Namespace (D_Meta d), name) (world st')
    = stored KPipeline (Meta_Namespace (D_Meta d), name) (world st);
  rr_progress : RR_healthCheckFail cyc = false ->
    outdated d des (world st) = ∅ \/
    (size (outdated d des (world st')) < size (outdated d des (world st)))%nat;
  rr_pause : RR_healthCheckFail cyc = true ->
    exists name p, child_of d name (world st) = Some p /\ unhealthy_update des name p }.

Lemma activeNames_follows d' : follows d d' -> activeNames d' sources = activeNames d sources.
Proof.
  intros [Hk _ _ _]. unfold key_of in Hk. simpl in Hk. injection Hk as _ Hn.
  unfold activeNames, pipelineName. by rewrite Hn.
Qed.

Lemma run_from d0 (st : St W) :
  live req d0 (world st) -> follows d d0 -> answers (world st) ->
  free_names d (outdated d des (world st)) (world st) ->
  exists cyc d' st', run_result st cyc d' st'.
Proof.
  intros Hl0 Hf0 Hsrc Hfree.
  destruct (successful_run d0 st sources des)
    as (d2 & s2 & cyc & s3' & s4 & items & d' & st' & Hf2 & Hu2 & E3 & E4 & E & Hl' & Hf' & Hc & Hrep
        & Hli & Hact & Hu'); [done|by eapply discoverSources_kept|by rewrite (wanted_follows d)| |].
  { rewrite (outdated_follows d d0 des (world st)) by done. by apply (free_names_follows d d0 _ (world st)). }
  assert (Hfd2 : follows d d2) by (by etrans). exists cyc, d', st'.
  pose proof Hfd2 as [Hkd2 _ Hsd2 _]. unfold key_of in Hkd2. simpl in Hkd2. injection Hkd2 as Hns2 Hnm2.
  pose proof (stored_key KDiscovery _ _ _ (proj1 Hl0)) as Hk0. pose proof Hf0 as [Hkd0 _ _ _].
  assert (Hreq : req.1 = Meta_Namespace (D_Meta d2)).
  { rewrite <-Hk0, Hns2. unfold key_of in Hkd0. simpl in *. congruence. }
  assert (Hp2 : forall key, stored KPipeline key (world s2) = stored KPipeline key (world st))
    by (intros; apply Hu2; by left).
  assert (Hp' : forall key, stored KPipeline key (world st') = stored KPipeline key (world s4))
    by (intros; apply Hu'; by left).
  assert (Hch' : forall name, child_of d name (world st') = child_of d2 name (world s4)).
  { intros name. rewrite (child_of_follows d d2) by done. unfold child_of. by rewrite Hp'. }
  assert (Hstay : forall name, is_Some (des !! name) ->
    stored KPipeline (Meta_Namespace (D_Meta d), name) (world st')
    = stored KPipeline (Meta_Namespace (D_Meta d), name) (world s3')).
  { intros name Hn. rewrite Hp', <-Hns2. eapply cleanup_active; [exact E4|].
    rewrite activeNames_follows by done. by eapply wanted_active. }
  assert (Hout : outdated d des (world st') = outdated d2 des (world s3')).
  { apply outdated_ext. intros name Hn. rewrite (child_of_follows d d2) by done.
    unfold child_of. by rewrite Hstay. }
  assert (Hout2 : outdated d2 des (world s2) = outdated d des (world st))
    by (by apply outdated_follows).
  assert (Hw2 : wanted d2 sources = Ok des) by (by rewrite (wanted_follows d)).
  pose proof E3 as (des' & it & Hdes' & Hl3 & Hcyc)%reconcilePipelines_Ok; [|done].
  assert (des' = des) as -> by congruence.
  split; try done.
  - rewrite E. do 3 f_equal. unfold requeueAfter, discoveryMaxCreationsPerCycle, discoveryPollInterval.
    by rewrite Hsd2.
  - etrans; [exact Hf0|exact Hf'].
  - pose proof (rc_written _ _ _ _ _ _ _ Hcyc) as (new & old & Hn & Ho & Hmiss & Hold & Hnd & Happ & Hframe).
    eexists _, _, new, old. split_and!.
    + intros name. rewrite (existingByName_lookup d2 (world s2)) by done.
      rewrite (child_of_follows d d2) by done. unfold child_of. by rewrite Hp2.
    + eapply update_counts_follows; [done|]. by eapply rollout_cycle_counts.
    + by split_and!.
    + done.
    + intros name (x & Hx & Ha)%Happ. exists x. split; [done|].
      eapply applied_follows; [done| |exact Ha]. apply Hstay. eauto.
    + intros name Hd Hnot. rewrite Hstay by done. rewrite <-Hns2, Hframe; [apply Hp2|].
      right. by intros (n & [= <-] & ?)%list_elem_of_fmap.
  - rewrite Hreq in Hli. pose proof Hli as [Hnd _]%List_Ok. exists items. split_and!; [done| |done].
    intros name p. rewrite Hch'. by apply listed_children.
  - intros Hpol name p. rewrite Hch'. intros Hp. rewrite <-(activeNames_follows d2) by done.
    eapply cleanup_settles; [exact E4| |exact Hp]. unfold discoveryCleanupPolicy in *. by rewrite Hsd2.
  - pose proof Hcyc as (names & _ & _ & Happ)%rc_names.
    pose proof (applied_only_outdated _ _ _ _ _ Happ) as Ho.
    intros name x. rewrite Hout. intros [Hn Hx]%Ho.
    rewrite <-Hout2. split; [done|]. apply outdated_lookup in Hx as [Hd _].
    rewrite Hstay by eauto. destruct Happ as (_ & _ & Hframe).
    rewrite <-Hns2, Hframe; [apply Hp2|]. right. by intros (n & [= <-] & ?)%list_elem_of_fmap.
  - intros Hok. rewrite Hout, <-Hout2. by eapply cycle_progress.
  - intros Hfail. destruct Hcyc as [_ _ _ _ _ Hpaused _]. apply Hpaused in Hfail as (_ & name & p & Hp & Hun).
    exists name, p. split; [|done]. rewrite <-(child_of_follows d d2) by done.
    rewrite <-Hp, (existingByName_lookup d2 (world s2)) by done. unfold child_of. by rewrite Hp2.
Qed.

(** C14: one poll of a source that answers, on a reliable server, when the
    sources render and the names wanted are not held by objects of another owner:
    the reconcile returns without error. It created and updated as many wanted
    children as it reports, within the limits of the staged rollout (creations
    within [maxCreationsPerCycle]; a fifth of the children updated, or none while
    an updated child is unhealthy), and left the other wanted ones alone. The
    status shows the Running phase, the discovered sources with their pipeline
    names, the number of stale children that were not updated, the observed
    generation, the poll time, whether the rollout is paused and in progress, and
    as active pipelines the number of children that exist; the failure count is
    back to zero; under the Delete and the Orphan policy every child that remains
    has an active source or is being deleted. The next call is after the poll
    interval when no update is pending and the creation limit was not reached,
    and it is certain to come when updates are pending. *)
Theorem successful_discovery_reports (st : St W) :
  live req d (world st) -> answers (world st) -> free_names d des (world st) ->
  exists cyc d' res st', reconcile st = (Ok res, st') /\ live req d' (world st') /\
    D_Spec d' = D_Spec d /\ Atoi (map_get (annotations_of d') discoveryFailureCountKey) = 0 /\
    cycle_done cyc (world st) (world st') /\
    reports_success d' sources cyc /\ counts_children d' (world st') /\
    (discoveryCleanupPolicy d ∈ ["Delete"; "Orphan"] ->
     forall name p, child_of d name (world st') = Some p ->
       name ∈ activeNames d sources \/ is_Some (Meta_DeletionTimestamp (P_Meta p))) /\
    (RR_pendingUpdates cyc = 0 -> RR_created cyc < discoveryMaxCreationsPerCycle d ->
     RequeueAfter res = parsePollInterval (discoveryPollInterval d)) /\
    (0 < RR_pendingUpdates cyc -> 0 < RequeueAfter res).
Proof.
  intros Hl Hsrc Hfree. destruct (run_from d st) as (cyc & d' & st' & []); [done..| |].
  { intros name [x [Hx _]%outdated_lookup]. apply Hfree. eauto. }
  exists cyc, d'. eexists _, st'. split_and!; try done; [apply rr_follows0|..];
    simpl; unfold requeueAfter.
  - intros Hp Hc. rewrite (proj2 (Z.leb_gt _ _)) by lia. by rewrite Hp.
  - intros Hp. destruct (_ && _); [done|]. by rewrite (proj2 (Z.ltb_lt _ _)).
Qed.

(** What others may do between two reconciles: anything that keeps the discovery
    alive with its spec, its credentials, and the hashes and owners of the wanted
    children. *)
Definition quiet (w w' : W) : Prop :=
  credentials_kept d w w' /\
  (forall d1, live req d1 w -> follows d d1 -> exists d2, live req d2 w' /\ follows d d2) /\
  forall name, is_Some (des !! name) ->
    hash_of <$> child_of d name w' = hash_of <$> child_of d name w /\
    (adoptable (Meta_UID (D_Meta d)) KPipeline (Meta_Namespace (D_Meta d), name) w ->
     adoptable (Meta_UID (D_Meta d)) KPipeline (Meta_Namespace (D_Meta d), name) w').

(** No updated child is Degraded or in Error. *)
Definition healthy (w : W) : Prop :=
  forall name p, child_of d name w = Some p -> ~ unhealthy_update des name p.

(** Reconciles of the discovery from states with the property [P], interleaved
    with the steps of others. *)
Inductive polls (P : W -> Prop) : nat -> St W -> St W -> Prop :=
| polls_none st : polls P 0 st st
| polls_one n st1 res st2 w3 st4 :
    P (world st1) -> reconcile st1 = (Ok res, st2) -> quiet (world st2) w3 ->
    polls P n (mkSt w3 (effects st2)) st4 -> polls P (S n) st1 st4.

(** The invariant of such an execution. *)
Definition settled_in (n : nat) (w : W) : Prop :=
  (exists d1, live req d1 w /\ follows d d1) /\ answers w /\
  free_names d (outdated d des w) w /\ (size (outdated d des w) <= n)%nat.

Lemma quiet_settled n w w' : quiet w w' -> settled_in n w -> settled_in n w'.
Proof.
  intros [Hcred [Hq Hc]] [(d1 & Hl1 & Hf1) (Hsrc & Hfree & Hsz)].
  assert (Ho : outdated d des w' = outdated d des w).
  { apply outdated_ext. intros name Hn. by apply Hc. }
  split_and!; [by eapply Hq|by eapply (discoverSources_kept _ _ _ _ d d)|..]; rewrite Ho; [|done].
  intros name Hn. apply Hc; [|by apply Hfree].
  destruct Hn as [x [Hx _]%outdated_lookup]. eauto.
Qed.

(** A reconcile never undoes what is settled, and settles one more child when no
    updated child is unhealthy. *)
Lemma poll_settled n (st : St W) res st' :
  settled_in n (world st) -> reconcile st = (Ok res, st') ->
  settled_in n (world st') /\ (healthy (world st) -> settled_in (n - 1) (world st')).
Proof.
  intros [(d1 & Hl1 & Hf1) (Hsrc & Hfree & Hsz)] E.
  assert (Hcred : answers (world st')).
  { eapply (discoverSources_kept _ _ _ _ d d); [done| |exact Hsrc]. intros ref _.
    assert (st' = snd (reconcile st)) as -> by (by rewrite E).
    apply (footprint_DiscoveryReconcile _ _ _ _ _ _ _ _ _ _ _ req). by intros []. }
  destruct (run_from d1 st Hl1 Hf1 Hsrc Hfree) as (cyc & d' & st1 & R).
  destruct R as [E' Hl' Hf' _ _ _ _ _ Hmono Hprog Hpause].
  rewrite E' in E. injection E as <- <-.
  assert (Hkeep : settled_in (size (outdated d des (world st1))) (world st1)).
  { split_and!; [by eexists|done| |done].
    intros name [x Hx] o. destruct (Hmono name x Hx) as [Hx' ->]. apply Hfree. eauto. }
  assert (Hle : (size (outdated d des (world st1)) <= size (outdated d des (world st)))%nat).
  { apply map_subseteq_size, map_subseteq_spec. intros i x Hx. by apply Hmono. }
  destruct Hkeep as (H1 & H2 & H3 & _). split; [by split_and!; [..|lia]|].
  intros Hh. split_and!; [done..|]. destruct (RR_healthCheckFail cyc).
  { destruct Hpause as (name & p & Hp & Hun); [done|]. by destruct (Hh name p). }
  destruct Hprog as [Hemp|]; [done| |lia]. rewrite Hemp, map_size_empty in Hle. lia.
Qed.

Lemma polls_settled P k n (st st' : St W) :
  polls P k st st' -> settled_in n (world st) ->
  settled_in n (world st') /\ ((forall w, P w -> healthy w) -> settled_in (n - k) (world st')).
Proof.
  intros Hp. revert n. induction Hp as [st|k st1 res st2 w3 st4 Hh E Hq _ IH]; intros n Hs.
  { by rewrite Nat.sub_0_r. }
  destruct (poll_settled n _ _ _ Hs E) as [Hs1 Hs2]. split.
  - apply IH. simpl. by eapply quiet_settled.
  - intros HP. replace (n - S k)%nat with (n - 1 - k)%nat by lia. apply IH; [|done]. simpl.
    eapply quiet_settled; [exact Hq|]. auto.
Qed.

(** C6: polling converges, also when other controllers run in between. Given a
    reliable server, a source that answers (the Kafka or S3 service lists the
    same sources, with the credentials that are stored), a template that renders
    for these sources and names that are not held by objects of another owner:
    after any number of reconciles of the discovery, interleaved with arbitrary
    steps of others that keep its spec, its credentials secret and the spec
    hashes and owners of its children, the next reconcile returns without error.
    And when there were as many reconciles as wanted pipelines, each from a state
    where no updated child was Degraded or in Error, every wanted pipeline exists
    as a labelled child with the hash of its desired spec. *)
Theorem discovery_converges n (st st' : St W) :
  live req d (world st) -> answers (world st) -> free_names d des (world st) ->
  (polls (fun _ => True) n st st' -> exists res st'', reconcile st' = (Ok res, st'')) /\
  (polls healthy n st st' -> (size des <= n)%nat -> forall name x, des !! name = Some x ->
     exists p, child_of d name (world st') = Some p /\ hash_of p = d_hash x).
Proof.
  intros Hl Hsrc Hfree. assert (Hs : settled_in (size des) (world st)).
  { split; [by exists d|]. split_and!; [done| |apply map_subseteq_size, map_filter_subseteq].
    intros name [x [Hx _]%outdated_lookup]. apply Hfree. eauto. }
  split.
  - intros Hp. destruct (polls_settled _ _ _ _ _ Hp Hs) as [[(d1 & Hl1 & Hf1) (Hsrc1 & Hfree1 & _)] _].
    destruct (run_from d1 st' Hl1 Hf1 Hsrc1 Hfree1) as (cyc & d' & st'' & []). eauto.
  - intros Hp Hn name x Hx. destruct (polls_settled _ _ _ _ _ Hp Hs) as [_ Hset].
    destruct Hset as (_ & _ & _ & Hsz); [done|]. replace (size des - n)%nat with 0%nat in Hsz by lia.
    assert (Hup : outdated d des (world st') !! name = None).
    { rewrite (map_size_empty_inv (outdated d des (world st'))); [apply lookup_empty|lia]. }
    by apply up_to_date with des.
Qed.
End stable.
End succeeding.

(** ** Witnesses *)

Module RunExamples.
Import DiscoveryExamples.

(** The topics [a] and [c] are discovered; the child of [a] is out of date, the
    child of [b] has lost its topic. *)
Definition topics : Kafka.AdminClient :=
  Kafka.mkAdminClient
    (Ok {["a" := Kafka.mkTopicInfo "a" 3; "c" := Kafka.mkTopicInfo "c" 1]}) (fun _ => Ok 3).
Definition found : list DiscoveredSource :=
  [mkDiscoveredSource "a" {["partitions" := VInt 3]}; mkDiscoveredSource "c" {["partitions" := VInt 1]}].

(** The discovery logs in with the credentials of a secret. *)
Definition disc : DataPrepperSourceDiscovery :=
  mkDataPrepperSourceDiscovery (D_Meta (discovery "Delete"))
    (mkDataPrepperSourceDiscoverySpec
       (Some (mkKafkaDiscoverySpec ["kafka:9092"] (Some (mkSecretReference "kafka-creds" "")) ""
                (mkKafkaTopicSelectorSpec "" []) "" "Delete"))
       None (mkPipelineTemplateSpec (P_Spec example_pipeline)) [] None)
    (D_Status (discovery "Delete")).
Definition credentials : Secret :=
  mkSecret (bare_meta ("prod", "kafka-creds")) {["username" := "svc"; "password" := "pw"]}.
Definition begin : St Mem.World :=
  mkSt (put_child "topics-b" (put_child "topics-a"
          (Mem.put KDiscovery ("prod", "topics") (Some disc)
             (Mem.put KSecret ("prod", "kafka-creds") (Some credentials) Mem.empty)))) [].

(** Reconcile with the Kafka client that [factory] makes. *)
Definition poll (factory : Kafka.ClientFactory) : M Mem.World ctrl_Result :=
  DiscoveryReconcile (fun _ => Ok "{}") (fun _ => Ok (P_Spec example_pipeline))
    unit (fun _ => Ok tt) (fun _ _ => Ok "{}") merge_by_name map_order (fun _ _ => None) 7
    (Some factory) None ("prod", "topics").
(** A broker that lets the user [svc] in, and one that is down. *)
Definition broker : Kafka.ClientFactory := fun cfg =>
  if bool_decide (Kafka.Username cfg = "svc") then Ok topics
  else Err (Msg "SASL authentication failed" []).
Definition refuses : Kafka.ClientFactory := fun _ => Err (Msg "dial tcp: connection refused" []).

Definition wanted_two : gmap string desired :=
  {["topics-a" := mkDesired (P_Spec example_pipeline) "44136fa355b3678a";
    "topics-c" := mkDesired (P_Spec example_pipeline) "44136fa355b3678a"]}.

Lemma begin_live : live ("prod", "topics") disc (world begin).
Proof. vm_compute. by split. Qed.

Lemma begin_free : free_names disc wanted_two (world begin).
Proof.
  intros name _ o Ho r Hr. unfold begin, put_child in Ho. simpl in Ho.
  destruct (decide (name = "topics-b")) as [->|Hb].
  - rewrite Mem.lookup_put_eq in Ho by (by intros ? [= <-]). injection Ho as <-.
    by apply list_elem_of_singleton in Hr as ->.
  - rewrite Mem.lookup_put_ne in Ho by (right; congruence).
    destruct (decide (name = "topics-a")) as [->|Ha].
    + rewrite Mem.lookup_put_eq in Ho by (by intros ? [= <-]). injection Ho as <-.
      by apply list_elem_of_singleton in Hr as ->.
    + rewrite Mem.lookup_put_ne in Ho by (right; congruence).
      rewrite !Mem.lookup_put_ne in Ho by (by left). discriminate Ho.
Qed.

Lemma begin_answers : answers merge_by_name (fun _ _ => None) (Some broker) None disc found (world begin).
Proof. vm_compute. reflexivity. Qed.

Definition refused : error :=
  Msg "create kafka admin client: %w" [AErr (Msg "dial tcp: connection refused" [])].

Lemma refuses_always :
  unreachable merge_by_name (fun _ _ => None) (Some refuses) None disc refused (world begin).
Proof.
  intros d' w' [Hk _ Hs _] Hc. specialize (Hc (mkSecretReference "kafka-creds" "") eq_refl).
  assert (Hg : Get KSecret ("prod", "kafka-creds") w' = Ok credentials)
    by (apply (Get_stored KSecret); etrans; [exact Hc|vm_compute; reflexivity]).
  unfold key_of in Hk. simpl in Hk. injection Hk as Hns _.
  unfold discoverSources, discoverKafka, kafkaConfigFromSecret. rewrite Hs, Hns. cbn [disc D_Spec DSpec_Kafka].
  simpl. change (Mem.get KSecret ("prod", "kafka-creds") w' = Ok credentials) in Hg. rewrite Hg. reflexivity.
Qed.

Lemma DiscoveryReconcile_touches_only_its_own_witness :
  ~ discovery_objects ("prod", "topics") KPipeline ("staging", "topics-a") /\
  stored KPipeline ("staging", "topics-a") (world (snd (poll broker begin))) = None.
Proof.
  assert (~ discovery_objects ("prod", "topics") KPipeline ("staging", "topics-a")) as Hn
    by discriminate.
  split; [exact Hn|].
  etrans; [exact (DiscoveryReconcile_touches_only_its_own (fun _ => Ok "{}")
             (fun _ => Ok (P_Spec example_pipeline)) unit (fun _ => Ok tt)
             (fun _ _ => Ok "{}") merge_by_name map_order (fun _ _ => None) 7 (Some broker) None
             ("prod", "topics") begin KPipeline ("staging", "topics-a") Hn)|].
  vm_compute. reflexivity.
Defined.

Example failing_polls_back_off :
  exists rs, fst (repeated 6 (poll refuses) begin) = Ok rs /\
    RequeueAfter <$> rs = [30 * Second; 60 * Second; 120 * Second; 240 * Second; 300 * Second; 300 * Second].
Proof. eexists. split; vm_compute; reflexivity. Qed.

Lemma failing_discovery_reported_witness :
  exists d' st', live ("prod", "topics") d' (world st') /\
    DStatus_Phase (D_Status d') = DiscoveryPhaseError /\
    Atoi (map_get (annotations_of d') discoveryFailureCountKey) = 3.
Proof.
  destruct (failing_discovery_reported (fun _ => Ok "{}") (fun _ => Ok (P_Spec example_pipeline))
    unit (fun _ => Ok tt) (fun _ _ => Ok "{}") merge_by_name map_order
    (fun _ _ => None) 7 (Some refuses) None ("prod", "topics") 3 disc refused begin begin_live)
    as (_ & d' & Hl & _ & Hc & Hr & _).
  - vm_compute. reflexivity.
  - reflexivity.
  - apply refuses_always.
  - eexists d', _. split; [exact Hl|]. split; [|exact Hc].
    apply (rf_phase _ refused), Hr. lia.
Defined.

Lemma successful_discovery_reports_witness :
  exists d' st' res, poll broker begin = (Ok res, st') /\
    stored KDiscovery ("prod", "topics") (world st') = Some d' /\
    DStatus_Phase (D_Status d') = DiscoveryPhaseRunning /\
    DStatus_DiscoveredSources (D_Status d') = 2.
Proof.
  destruct (successful_discovery_reports (fun _ => Ok "{}") (fun _ => Ok (P_Spec example_pipeline))
    unit (fun _ => Ok tt) (fun _ _ => Ok "{}") merge_by_name map_order
    map_order_laws (fun _ _ => None) 7 (Some broker) None ("prod", "topics") disc found wanted_two)
    with (st := begin) as (cyc & d' & res & st' & E & [Hd _] & _ & _ & _ & Hrep & _).
  - vm_compute. reflexivity.
  - exact begin_live.
  - exact begin_answers.
  - exact begin_free.
  - exists d', st', res. split; [exact E|]. split; [exact Hd|].
    split; [exact (rs_phase _ _ _ _ Hrep)|exact (rs_discovered _ _ _ _ Hrep)].
Defined.

(** Decides [healthy] on a concrete server. *)
Definition all_healthy (w : Mem.World) : bool :=
  bool_decide (map_Forall (fun _ p => PStatus_Phase (P_Status p) ≠ PipelinePhaseDegraded /\
                                      PStatus_Phase (P_Status p) ≠ PipelinePhaseError)
                 (w KPipeline : gmap Key DataPrepperPipeline)).

Lemma all_healthy_spec w : all_healthy w = true -> healthy disc wanted_two w.
Proof.
  intros Hw%bool_decide_eq_true name p Hp (x & a & _ & _ & _ & Hph).
  unfold child_of in Hp. apply bind_Some in Hp as (q & Hq & Hc). case_decide; [|done].
  injection Hc as ->. simpl in Hq. unfold Mem.lookup in Hq. apply bind_Some in Hq as (q' & Hq' & Hk).
  case_decide; [|done]. injection Hk as ->. destruct (Hw _ _ Hq') as [? ?]. by destruct Hph.
Qed.

Lemma quiet_refl w : quiet ("prod", "topics") disc wanted_two w w.
Proof. split; [by intros ref _|]. split; [intros d1 ? ?; by exists d1|by intros name _]. Qed.

Lemma discovery_converges_witness :
  exists st' p, child_of disc "topics-c" (world st') = Some p /\ hash_of p = "44136fa355b3678a".
Proof.
  set (s1 := snd (poll broker begin)). set (s2 := snd (poll broker (mkSt (world s1) (effects s1)))).
  assert (E1 : fst (poll broker begin) = Ok (mkResult (30 * Second))) by (vm_compute; reflexivity).
  assert (E2 : fst (poll broker (mkSt (world s1) (effects s1))) = Ok (mkResult (30 * Second)))
    by (vm_compute; reflexivity).
  destruct (discovery_converges (fun _ => Ok "{}") (fun _ => Ok (P_Spec example_pipeline))
    unit (fun _ => Ok tt) (fun _ _ => Ok "{}") merge_by_name map_order
    map_order_laws (fun _ _ => None) 7 (Some broker) None ("prod", "topics") disc found wanted_two)
    with (n := 2%nat) (st := begin) (st' := mkSt (world s2) (effects s2)) as [_ Hconv].
  - vm_compute. reflexivity.
  - exact begin_live.
  - exact begin_answers.
  - exact begin_free.
  - exists (mkSt (world s2) (effects s2)).
    refine (Hconv _ _ "topics-c" (mkDesired (P_Spec example_pipeline) "44136fa355b3678a") _);
      [|vm_compute; lia|vm_compute; reflexivity].
    eapply polls_one; [apply all_healthy_spec; vm_compute; reflexivity|apply Ok_state, E1
                      |apply quiet_refl|].
    eapply polls_one; [apply all_healthy_spec; vm_compute; reflexivity|apply Ok_state, E2
                      |apply quiet_refl|apply polls_none].
Defined.
End RunExamples.
