(* ===== verification/Operator.v ===== *)
(** * The operator: [cmd/main.go] and the [SetupWithManager] methods

    What the three controllers and the webhook declare to the manager of
    controller-runtime, and the start-up sequence of [main].  The manager is
    third-party code: here it is a function that accepts or refuses each call,
    depending on the calls before it, and a run of [main] is the list of calls
    it makes. *)

From S2P Require Import Prelude Codec SpecJson Go Duration Api Webhook Resources Clients Discovery Cluster Metrics Flags.
From S2P Require Import Reconciler.
From S2P Require Import PipelineController PipelineProofs DefaultsController DiscoveryController.
From S2P Require Import DiscoveryProofs DiscoveryRun.
From Stdlib Require Import SpecFloat.
#[local] Open Scope Z_scope.

(** ** What is declared *)

(** The libraries the reconcilers use, which are parameters of their models:
    [sigs.k8s.io/yaml], the conversion of an infinity to [int32], the JSON form of
    the Kubernetes types in a spec, [text/template], [slices.SortFunc], the iteration order
    of maps, the context and the clock, franz-go and the AWS SDK. *)
Record Libraries := mkLibraries {
  lib_Marshal : gmap string any -> result string;
  lib_int32_of_inf : Z;
  lib_Externals : Externals;
  lib_Template : Type;
  lib_Parse : string -> result lib_Template;
  lib_Execute : lib_Template -> TemplateContext -> result string;
  lib_sort : list DiscoveredSource -> list DiscoveredSource;
  lib_order : MapOrder;
  lib_ctxErr : nat -> string -> option error;
  lib_now : Z;
  lib_NewClient : list Kafka.Opt -> result Kafka.Kadm;
  lib_AwsConfig : Type;
  lib_LoadDefaultConfig : list S3.LoadOption -> result lib_AwsConfig;
  lib_NewFromConfig : lib_AwsConfig -> list (S3.Options -> S3.Options) -> S3.Paginator }.

(** A controller as its builder describes it: the reconciled kind, the owned
    kinds, the watched kinds with their map functions, and the reconciler.  A
    limit of 0 leaves the library's default. *)
Record Controller (W : Type) := mkController {
  Ctl_Name : string;
  Ctl_MaxConcurrentReconciles : Z;
  Ctl_For : Kind;
  Ctl_Owns : list Kind;
  Ctl_Watches : list {k : Kind & Object k -> W -> list Key};
  Ctl_Reconcile : Key -> M W ctrl_Result }.
Arguments mkController {W}.
Arguments Ctl_Name {W}.
Arguments Ctl_MaxConcurrentReconciles {W}.
Arguments Ctl_For {W}.
Arguments Ctl_Owns {W}.
Arguments Ctl_Watches {W}.
Arguments Ctl_Reconcile {W}.

(** The calls of the start-up; the indexed kind is always the pipeline. *)
Inductive Call (W : Type) :=
| GetConfigOrDie
| NewManager (config : RestConfig) (opts : ManagerOptions)
| RESTMapping (group kind version : string)
| IndexField (field : string) (extract : DataPrepperPipeline -> list string)
| CompleteController (c : Controller W)
| CompleteWebhook
| AddHealthzCheck (name : string)
| AddReadyzCheck (name : string)
| StartManager.
Arguments GetConfigOrDie {W}.
Arguments NewManager {W}.
Arguments RESTMapping {W}.
Arguments IndexField {W}.
Arguments CompleteController {W}.
Arguments CompleteWebhook {W}.
Arguments AddHealthzCheck {W}.
Arguments AddReadyzCheck {W}.
Arguments StartManager {W}.

Section operator.
Context {W : Type} `{Client W}.
Variable lib : Libraries.
(** The answer of the manager to a call after the given calls: [None] is no
    error; and the configuration of the cluster. *)
Variable answer : list (Call W) -> Call W -> option error.
Variable restConfig : RestConfig.

Definition call (c : Call W) : M (list (Call W)) unit :=
  writes (fun calls => (match answer calls c with None => Ok tt | Some e => Err e end, calls ++ [c])).

(** [ctrlOpts.MaxConcurrentReconciles]. *)
Definition concurrency (maxConcurrentReconciles : Z) : Z :=
  if 0 <? maxConcurrentReconciles then maxConcurrentReconciles else 0.

(** ** [SetupWithManager] *)

(** The index function of the secret field. *)
Definition secretRefIndex (pipeline : DataPrepperPipeline) : list string :=
  referencedSecrets (P_Spec pipeline).

(** The map function of the secret watch. *)
Definition secretMapFunc (secret : Secret) (w : W) : list Key :=
  findPipelinesForSecret (Meta_Namespace (Sec_Meta secret)) (Meta_Name (Sec_Meta secret)) w.

(** The client factories that [main] passes to the reconcilers. *)
Definition kafkaFactory : Kafka.ClientFactory := Kafka.NewAdminClient (lib_NewClient lib).
Definition s3Factory : S3.ClientFactory :=
  S3.NewS3Client (lib_LoadDefaultConfig lib) (lib_NewFromConfig lib).

Definition pipelineController (ServiceMonitorAvailable : bool) (maxConcurrentReconciles : Z)
    : Controller W :=
  mkController "dataprepperpipeline" (concurrency maxConcurrentReconciles) KPipeline
    ([KDeployment; KConfigMap; KService; KHPA; KPDB] ++
     (if ServiceMonitorAvailable then [KServiceMonitor] else []))
    [existT KSecret secretMapFunc]
    (Reconcile (lib_Marshal lib) (lib_int32_of_inf lib)
       (Some kafkaFactory) ServiceMonitorAvailable).

Definition setupPipelineController (ServiceMonitorAvailable : bool) (maxConcurrentReconciles : Z)
    : M (list (Call W)) unit :=
  wrap "setup secret ref index: %w" [] (call (IndexField secretRefIndexField secretRefIndex)) ;;
  call (CompleteController (pipelineController ServiceMonitorAvailable maxConcurrentReconciles)).

Definition discoveryController (maxConcurrentReconciles : Z) : Controller W :=
  mkController "datapreppersourcediscovery" (concurrency maxConcurrentReconciles) KDiscovery
    [KPipeline] []
    (DiscoveryReconcile (MarshalSpec (H := lib_Externals lib)) (UnmarshalSpec (H := lib_Externals lib))
       (lib_Template lib) (lib_Parse lib) (lib_Execute lib) (lib_sort lib)
       (lib_order lib) (lib_ctxErr lib) (lib_now lib) (Some kafkaFactory) (Some s3Factory)).

Definition defaultsController (maxConcurrentReconciles : Z) : Controller W :=
  mkController "dataprepperdefaults" (concurrency maxConcurrentReconciles) KDefaults [] []
    DefaultsReconcile.

(** The webhook; its reader of defaults is the manager's client. *)
Definition SetupDataPrepperPipelineWebhookWithManager : M (list (Call W)) unit := call CompleteWebhook.

(** ** [main] *)

(** The calls after the detection of service monitors. *)
Definition setupAll (f : Flags) (serviceMonitorAvailable : bool) : M (list (Call W)) unit :=
  let n := maxConcurrentReconciles f in
  setupPipelineController serviceMonitorAvailable n ;;
  call (CompleteController (discoveryController n)) ;;
  call (CompleteController (defaultsController n)) ;;
  when (enableWebhook f) SetupDataPrepperPipelineWebhookWithManager ;;
  call (AddHealthzCheck "healthz") ;;
  call (AddReadyzCheck "readyz") ;;
  call StartManager.

(** An error is the exit with status 1. *)
Definition main (f : Flags) : M (list (Call W)) unit :=
  call GetConfigOrDie ;;
  call (NewManager (limits f restConfig) (managerOptions f)) ;;
  r ← try (call (RESTMapping "monitoring.coreos.com" "ServiceMonitor" "v1"));
  setupAll f (is_ok r).
End operator.

(** ** The start-up sequence *)

Section startup.
Context {W : Type} `{Client W}.
Context (lib : Libraries) (answer : list (Call W) -> Call W -> option error) (restConfig : RestConfig).
Implicit Types (calls plan : list (Call W)) (c : Call W).

(** The one call whose refusal is not fatal. *)
Definition optional c : bool :=
  match c with RESTMapping _ _ _ => true | _ => false end.

(** [performs calls plan ok calls']: after [calls], the calls of [plan] are made in
    order, up to the first fatal refusal; [ok] says that there was none. *)
Inductive performs : list (Call W) -> list (Call W) -> bool -> list (Call W) -> Prop :=
| performs_done calls : performs calls [] true calls
| performs_refused calls c plan e :
    answer calls c = Some e -> optional c = false -> performs calls (c :: plan) false (calls ++ [c])
| performs_next calls c plan ok calls' :
    answer calls c = None \/ optional c = true -> performs (calls ++ [c]) plan ok calls' ->
    performs calls (c :: plan) ok calls'.

(** A program that makes the calls of a plan. *)
Definition follows_plan {A} calls plan (m : M (list (Call W)) A) : Prop :=
  forall effs r st', m (mkSt calls effs) = (r, st') ->
    effects st' = effs /\ performs calls plan (is_ok r) (world st').

Lemma performs_app calls plan1 plan2 mid ok calls' :
  performs calls plan1 true mid -> performs mid plan2 ok calls' ->
  performs calls (plan1 ++ plan2) ok calls'.
Proof.
  intros H1. remember true as b eqn:Hb. revert Hb H1.
  induction 2 as [|? ? ? ? ? ?|calls c plan b mid Hc _ IH]; simpl; [done|done|].
  intros H2. apply performs_next; auto.
Qed.

Lemma performs_fail calls plan1 plan2 calls' :
  performs calls plan1 false calls' -> performs calls (plan1 ++ plan2) false calls'.
Proof.
  intros H1. remember false as b eqn:Hb.
  induction H1 as [|calls c plan e He Hc|calls c plan b calls' Hc _ IH]; simpl; [done| |].
  - by eapply performs_refused.
  - apply performs_next; auto.
Qed.

Lemma follows_call calls c : optional c = false -> follows_plan calls [c] (call answer c).
Proof.
  intros Hc effs r st'. unfold call, writes. simpl.
  destruct (answer calls c) as [e|] eqn:E; intros [= <- <-]; (split; [done|]); simpl.
  - by eapply performs_refused.
  - apply performs_next; [by left|apply performs_done].
Qed.

Lemma follows_wrap {A} calls plan f args (m : M (list (Call W)) A) :
  follows_plan calls plan m -> follows_plan calls plan (wrap f args m).
Proof.
  intros Hm effs r st'. unfold wrap. destruct (m (mkSt calls effs)) as [r1 s1] eqn:E.
  intros [= <- <-]. apply Hm in E as [He Hp]. split; [done|]. by destruct r1.
Qed.

Lemma follows_ret {A} calls (a : A) : follows_plan calls [] (mret a).
Proof. intros effs r st' [= <- <-]. split; [done|]. apply performs_done. Qed.

(** Sequencing; the calls made when the first part succeeds are its whole plan. *)
Lemma performs_all calls plan calls' : performs calls plan true calls' -> calls' = calls ++ plan.
Proof.
  intros Hp. remember true as b eqn:Hb.
  induction Hp as [calls|?|calls c plan b calls' _ _ IH]; [by rewrite app_nil_r|done|].
  rewrite IH by done. by rewrite <-app_assoc.
Qed.

Lemma follows_bind {A B} calls plan1 plan2 (m : M (list (Call W)) A) (k : A -> M (list (Call W)) B) :
  follows_plan calls plan1 m -> (forall a, follows_plan (calls ++ plan1) plan2 (k a)) ->
  follows_plan calls (plan1 ++ plan2) (m ≫= k).
Proof.
  intros Hm Hk effs r st'. unfold mbind, M_bind.
  destruct (m (mkSt calls effs)) as [[a|e] [w1 e1]] eqn:E; apply Hm in E as [He Hp]; simpl in *; subst e1.
  - pose proof (performs_all _ _ _ Hp) as ->. intros [Hs Hp2]%Hk. split; [done|].
    by eapply performs_app.
  - intros [= <- <-]. split; [done|]. by apply performs_fail.
Qed.

(** An optional call, whose answer the rest may use. *)
Lemma follows_optional {B} calls c plan (k : result unit -> M (list (Call W)) B) :
  optional c = true ->
  (forall r, is_ok r = bool_decide (answer calls c = None) -> follows_plan (calls ++ [c]) plan (k r)) ->
  follows_plan calls (c :: plan) (r ← try (call answer c); k r).
Proof.
  intros Hc Hk effs r st'. unfold mbind, M_bind, try, call, writes. simpl. intros E.
  assert (Hp : effects st' = effs /\ performs (calls ++ [c]) plan (is_ok r) (world st')).
  { destruct (answer calls c) eqn:Ea; eapply Hk in E; try done; by rewrite Ea. }
  destruct Hp as [He Hp]. split; [done|]. apply performs_next; [by right|done].
Qed.

(** The calls a complete start-up makes. *)
Definition setup_plan (f : Flags) (sma : bool) : list (Call W) :=
  let n := maxConcurrentReconciles f in
  [IndexField secretRefIndexField secretRefIndex;
   CompleteController (pipelineController lib sma n);
   CompleteController (discoveryController lib n); CompleteController (defaultsController n)] ++
  (if enableWebhook f then [CompleteWebhook] else []) ++
  [AddHealthzCheck "healthz"; AddReadyzCheck "readyz"; StartManager].

Definition detection (f : Flags) : list (Call W) :=
  [GetConfigOrDie; NewManager (limits f restConfig) (managerOptions f)].
Definition service_monitors : Call W := RESTMapping "monitoring.coreos.com" "ServiceMonitor" "v1".

Definition startup_plan (f : Flags) : list (Call W) :=
  detection f ++ service_monitors ::
    setup_plan f (bool_decide (answer (detection f) service_monitors = None)).

Lemma follows_setup f sma calls : follows_plan calls (setup_plan f sma) (setupAll lib answer f sma).
Proof.
  unfold setupAll, setupPipelineController, setup_plan. cbv zeta.
  change ([?x; ?y; ?z; ?t] ++ ?l) with ([x; y] ++ [z] ++ [t] ++ l).
  apply follows_bind; [|intros _].
  { apply (follows_bind _ [_] [_]); [by apply follows_wrap, follows_call|].
    intros _. by apply follows_call. }
  apply follows_bind; [by apply follows_call|intros _].
  apply follows_bind; [by apply follows_call|intros _].
  apply follows_bind; [|intros _].
  { unfold when. destruct (enableWebhook f); [by apply follows_call|apply follows_ret]. }
  apply (follows_bind _ [_] [_; _]); [by apply follows_call|intros _].
  apply (follows_bind _ [_] [_]); [by apply follows_call|intros _]. by apply follows_call.
Qed.

Lemma follows_main f : follows_plan [] (startup_plan f) (main lib answer restConfig f).
Proof.
  unfold main, startup_plan, detection.
  apply (follows_bind _ [_] (_ :: _)); [by apply follows_call|intros _].
  apply (follows_bind _ [_] (_ :: _)); [by apply follows_call|intros _].
  apply follows_optional; [done|]. intros r Hr. rewrite Hr. apply follows_setup.
Qed.

(** What was called is a part of the plan, and accepted, the last call of a
    failed run excepted. *)
Lemma performs_accepted calls plan ok calls' :
  performs calls plan ok calls' ->
  exists made rest, calls' = calls ++ made /\ plan = made ++ rest /\
    (ok = true -> rest = []) /\
    forall pre c post, made = pre ++ c :: post -> post ≠ [] \/ ok = true ->
      answer (calls ++ pre) c = None \/ optional c = true.
Proof.
  induction 1 as [calls|calls c plan e He Hc|calls c plan ok calls' Hc _ (made & rest & -> & -> & Hok & IH)].
  - exists [], []. rewrite app_nil_r. split_and!; try done. by intros [].
  - exists [c], plan. split_and!; try done.
    intros pre c' post E. destruct pre as [|x pre]; [injection E as <- <-; by intros []|].
    by destruct pre.
  - exists (c :: made), rest. rewrite <-app_assoc. split_and!; try done.
    intros pre c' post E Hl. destruct pre as [|x pre]; simpl in E.
    + injection E as <- <-. by rewrite app_nil_r.
    + injection E as <- ->. rewrite cons_middle, (assoc_L (++)).
      by apply (IH pre c' post).
Qed.

(** The last call of a failed run was refused. *)
Lemma performs_refusal calls plan calls' :
  performs calls plan false calls' -> exists pre c e, calls' = pre ++ [c] /\ answer pre c = Some e.
Proof.
  intros Hp. remember false as b eqn:Hb. induction Hp; [done|by eauto|by auto].
Qed.

Lemma start_is_last plan pre post :
  plan = pre ++ StartManager :: post ->
  forall front, plan = front ++ [StartManager] -> StartManager ∉ front -> post = [].
Proof.
  intros -> front E Hn. destruct post as [|x post] using rev_ind; [done|].
  rewrite app_comm_cons, (assoc_L (++)) in E. apply app_inj_tail in E as [<- _].
  destruct Hn. set_solver.
Qed.

(** The plan ends with the start, and only the detection is optional. *)
Lemma startup_plan_shape f :
  exists front, startup_plan f = front ++ [StartManager] /\ StartManager ∉ front /\
    forall c, c ∈ front -> optional c = true -> c = service_monitors.
Proof.
  unfold startup_plan, setup_plan, detection. set (sma := bool_decide _). cbv zeta.
  exists ([GetConfigOrDie; NewManager (limits f restConfig) (managerOptions f); service_monitors;
      IndexField secretRefIndexField secretRefIndex;
      CompleteController (pipelineController lib sma (maxConcurrentReconciles f));
      CompleteController (discoveryController lib (maxConcurrentReconciles f));
      CompleteController (defaultsController (maxConcurrentReconciles f))] ++
    (if enableWebhook f then [CompleteWebhook] else []) ++
    [AddHealthzCheck "healthz"; AddReadyzCheck "readyz"]).
  unfold service_monitors. destruct (enableWebhook f); (split; [done|]); simpl; split.
  all: try by repeat (apply not_elem_of_cons; split; [done|]); apply not_elem_of_nil.
  all: intros c Hc Ho; repeat (apply elem_of_cons in Hc as [->|Hc]; [done|]);
    by apply elem_of_nil in Hc.
Qed.

(** C15: the start-up of the operator is all or nothing: whatever the manager
    answers, [main] makes the calls of the plan in order (configuration, manager,
    detection of service monitors, secret index, the three controllers, the
    webhook if enabled, health and readiness checks, start) until one is refused;
    only the detection of service monitors may fail, and then the pipeline
    controller does not own them; the manager is started only after every other
    call was made and accepted; and [main] returns normally exactly when the
    start, too, was accepted. *)
Theorem operator_startup f :
  let run := main lib answer restConfig f (mkSt [] []) in
  let calls := world (snd run) in
  performs [] (startup_plan f) (is_ok (fst run)) calls /\
  (StartManager ∈ calls ->
     calls = startup_plan f /\
     forall pre c post, calls = pre ++ c :: post -> c ≠ StartManager ->
       answer pre c = None \/ c = service_monitors) /\
  (is_ok (fst run) = true <->
   exists pre, calls = pre ++ [StartManager] /\ answer pre StartManager = None).
Proof.
  intros run calls. destruct run as [r st'] eqn:E. pose proof (follows_main f _ _ _ E) as [_ Hp].
  simpl in *. split; [done|].
  destruct (performs_accepted _ _ _ _ Hp) as (made & rest & Hcalls & Hplan & Hok & Hacc).
  destruct (startup_plan_shape f) as (front & Hfront & Hns & Hopt). subst calls. simpl in *.
  rewrite Hcalls in *. split.
  - intros Hin. apply list_elem_of_In, in_split in Hin as (pre & post & ->).
    rewrite <-app_assoc in Hplan. simpl in Hplan.
    pose proof (start_is_last _ _ _ Hplan front Hfront Hns) as [-> ->]%app_eq_nil.
    split; [done|]. intros pre' c post' E' Hc.
    assert (post' ≠ []) as Hp'. { intros ->. by apply app_inj_tail in E' as [_ ?]. }
    destruct (Hacc pre' c post' E') as [?|Ho]; [by left|by left|right]. apply Hopt; [|done].
    rewrite Hfront in Hplan. apply app_inj_tail in Hplan as [-> _].
    destruct post' as [|x post'] using rev_ind; [done|].
    rewrite app_comm_cons, (assoc_L (++)) in E'. apply app_inj_tail in E' as [-> _]. set_solver.
  - split.
    + intros Hr. rewrite (Hok Hr), app_nil_r in Hplan. exists front. rewrite <-Hplan, Hfront.
      split; [done|]. destruct (Hacc front StartManager []) as [?|?]; [congruence|by right|done|done].
    + intros (pre & -> & Ha). destruct (is_ok r); [done|].
      apply performs_refusal in Hp as (pre' & c & e & E' & Hc).
      apply app_inj_tail in E' as [-> <-]. congruence.
Qed.

(** Apply a list of TLS options to a configuration. *)
Definition apply_tls (opts : list (TLSConfig -> TLSConfig)) (t : TLSConfig) : TLSConfig :=
  foldl (fun t o => o t) t opts.

(** The servers of every manager that [main] creates are hardened: unless
    HTTP/2 is enabled by its flag, both the webhook server and the metrics server
    negotiate HTTP/1.1 only, whatever protocols the library proposes, and with
    the flag the proposal is left alone; a metrics server that serves securely
    checks authentication and authorization; and a certificate is configured, for
    either server, exactly when its directory is given. *)
Theorem servers_hardened f config opts :
  NewManager config opts ∈ world (snd (main lib answer restConfig f (mkSt [] []))) ->
  (forall t, NextProtos (apply_tls (WO_TLSOpts (Opt_WebhookServer opts)) t)
             = (if enableHTTP2 f then NextProtos t else ["http/1.1"]) /\
             NextProtos (apply_tls (MO_TLSOpts (Opt_Metrics opts)) t)
             = (if enableHTTP2 f then NextProtos t else ["http/1.1"])) /\
  (MO_SecureServing (Opt_Metrics opts) = true ->
   MO_FilterProvider (Opt_Metrics opts) = Some WithAuthenticationAndAuthorization) /\
  WO_CertDir (Opt_WebhookServer opts) = webhookCertPath f /\
  MO_CertDir (Opt_Metrics opts) = metricsCertPath f.
Proof.
  destruct (main lib answer restConfig f (mkSt [] [])) as [r st'] eqn:E.
  apply follows_main in E as [_ (made & rest & Hc & Hplan & _ & _)%performs_accepted].
  cbn [snd]. rewrite Hc. simpl. intros Hin.
  assert (opts = managerOptions f) as ->.
  { assert (NewManager config opts ∈ startup_plan f) as Hs by (rewrite Hplan; set_solver).
    unfold startup_plan, setup_plan, detection, service_monitors in Hs. destruct (enableWebhook f); simpl in Hs;
      repeat (apply elem_of_cons in Hs as [Hs|Hs]; [by simplify_eq|]);
      by apply elem_of_nil in Hs. }
  assert (Hlen : forall s, (0 <? len s) = false -> "" = s).
  { intros s Hs%Z.ltb_ge. pose proof (len_nonneg s). symmetry. apply len_zero. lia. }
  simpl. unfold webhookServerOptions, metricsServerOptions, tlsOpts.
  destruct (0 <? len (webhookCertPath f)) eqn:Ew, (0 <? len (metricsCertPath f)) eqn:Em,
    (enableHTTP2 f), (secureMetrics f); split_and!; simpl; auto; done.
Qed.
End startup.

(** ** What the watches cover *)

(** Libraries that answer with constants. *)
Definition constant_libraries : Libraries :=
  mkLibraries (fun _ => Ok "") 0 document_externals unit (fun _ => Ok tt) (fun _ _ => Ok "{}") id
    (mkMapOrder map_to_list map_to_list map_to_list) (fun _ _ => None) 0
    (fun _ => Ok Kafka.example_kadm) unit (fun _ => Ok tt) (fun _ _ _ _ _ => []).

(** A pipeline that needs every kind of child: an HTTP source scaled between two
    and four replicas, with a service monitor; and a discovery of Kafka topics. *)
Definition busy_pipeline : DataPrepperPipeline :=
  mkDataPrepperPipeline (mkObjectMeta "logs" "prod" "uid-1" 1 None None None [] [])
    (mkDataPrepperPipelineSpec "data-prepper:2" "" (Spec_Pipelines (P_Spec example_pipeline))
       (Some (mkScalingSpec "auto" (Some 4) (Some 2) None)) None None
       (Some (mkServiceMonitorSpec true "")) ∅ ∅ ∅ [] None None None "")
    zero_PipelineStatus.
Definition busy_discovery : DataPrepperSourceDiscovery :=
  mkDataPrepperSourceDiscovery (mkObjectMeta "topics" "prod" "uid-2" 1 None None None [] [])
    (mkDataPrepperSourceDiscoverySpec
       (Some (mkKafkaDiscoverySpec ["kafka:9092"] None "" (mkKafkaTopicSelectorSpec "" []) "" "Delete"))
       None (mkPipelineTemplateSpec (P_Spec example_pipeline)) [] None)
    (mkDataPrepperSourceDiscoveryStatus DiscoveryPhaseUnset 0 0 0 0 0 None [] []).
Definition busy : St Mem.World :=
  mkSt (Mem.put KPipeline ("prod", "logs") (Some busy_pipeline)
          (Mem.put KDiscovery ("prod", "topics") (Some busy_discovery) Mem.empty)) [].

(** A run of the controller changes an object of the kind. *)
Definition writes_kind (c : Controller Mem.World) (req : Key) (k : Kind) : Prop :=
  exists key, stored k key (world (snd (Ctl_Reconcile c req busy))) ≠ stored k key (world busy).

(** The kinds whose changes reach the controller. *)
Definition watched {W} (c : Controller W) : list Kind := Ctl_For c :: Ctl_Owns c.

Section watches.
Context {W : Type} `{ClientLaws W} (lib : Libraries) (sma : bool) (n : Z).

(** The writes of one run on the in-memory server, kind by kind. *)
Lemma pipeline_writes k :
  k ∈ watched (pipelineController constant_libraries true n) ->
  writes_kind (pipelineController constant_libraries true n) ("prod", "logs") k.
Proof.
  intros Hk. unfold watched in Hk. simpl in Hk.
  repeat (apply elem_of_cons in Hk as [->|Hk];
    [first [exists ("prod", "logs"); vm_compute; discriminate
           |exists ("prod", "logs-config"); vm_compute; discriminate]|]).
  by apply elem_of_nil in Hk.
Qed.

Lemma discovery_writes k :
  k ∈ watched (discoveryController constant_libraries n) ->
  writes_kind (discoveryController constant_libraries n) ("prod", "topics") k.
Proof.
  intros Hk. unfold watched in Hk. simpl in Hk.
  repeat (apply elem_of_cons in Hk as [->|Hk];
    [first [exists ("prod", "topics"); vm_compute; discriminate
           |exists ("prod", "topics-logs"); vm_compute; discriminate]|]).
  by apply elem_of_nil in Hk.
Qed.

(** C31: the controllers watch what they write. A
    reconcile of the pipeline controller or of the discovery controller, on any
    API server that obeys the laws and whatever it returns, changes objects of
    watched kinds only (the reconciled kind and the owned kinds, service monitors
    exactly when their API was detected), so that a later change of such an
    object by somebody else triggers a new reconcile. And no owned kind is watched in
    vain: there is a pipeline (with an HTTP source, an autoscaler and a service
    monitor) whose reconcile on an in-memory server does write an object of every
    watched kind, and a Kafka discovery whose reconcile does so for the discovery
    controller. *)
Theorem controllers_watch_what_they_write req (st : St W) k key :
  let pipeline := pipelineController lib sma n in
  let discovery := discoveryController lib n in
  (k ∉ watched pipeline ->
   stored k key (world (snd (Ctl_Reconcile pipeline req st))) = stored k key (world st)) /\
  (k ∉ watched discovery ->
   stored k key (world (snd (Ctl_Reconcile discovery req st))) = stored k key (world st)) /\
  (k ∈ watched (pipelineController (W := Mem.World) constant_libraries true n) ->
   writes_kind (pipelineController constant_libraries true n) ("prod", "logs") k) /\
  (k ∈ watched (discoveryController (W := Mem.World) constant_libraries n) ->
   writes_kind (discoveryController constant_libraries n) ("prod", "topics") k).
Proof.
  intros pipeline discovery. split_and!; [| |apply pipeline_writes|apply discovery_writes]; unfold watched.
  - intros Hk. apply footprint_Reconcile. intros [Hown Hsm]. apply Hk. simpl.
    destruct k; simpl in *; try done; rewrite ?Hsm by done; simpl; set_solver.
  - intros Hk. apply footprint_DiscoveryReconcile. intros Hown. apply Hk. simpl.
    destruct k; simpl in *; try done; set_solver.
Qed.
End watches.

(** ** The secret watch *)

(** The documented behaviour of a field index: after
    [IndexField(obj, field, extract)], a list with [MatchingFields{field: v}]
    returns the objects for which [extract] yields [v]. *)
Class FieldIndex (W : Type) `{Client W} (extract : DataPrepperPipeline -> list string) : Prop :=
  ListBySecret_Ok ns v w l :
    ListBySecret ns v w = Ok l ->
    NoDup (Meta_Name ∘ P_Meta <$> l) /\
    forall p, p ∈ l <->
      stored KPipeline (ns, Meta_Name (P_Meta p)) w = Some p /\ v ∈ extract p.

Section secrets.
Context {W : Type} `{ClientLaws W} `{!FieldIndex W secretRefIndex}.

(** The pipeline's own spec, as the user wrote it, names the secret as the
    [credentialsSecretRef] of a Kafka or S3 source or of an OpenSearch, S3 or
    Kafka sink. *)
Definition names (name : string) (ref : option SecretReference) : Prop :=
  Secret_Name <$> ref = Some name.
Definition refers (name : string) (p : DataPrepperPipeline) : Prop :=
  exists d, d ∈ Spec_Pipelines (P_Spec p) /\
    (names name (Src_Kafka (PD_Source d) ≫= KSrc_CredentialsSecretRef) \/
     names name (Src_S3 (PD_Source d) ≫= S3Src_CredentialsSecretRef) \/
     exists s, s ∈ PD_Sink d /\
       (names name (Sink_OpenSearch s ≫= OS_CredentialsSecretRef) \/
        names name (Sink_S3 s ≫= S3Sink_CredentialsSecretRef) \/
        names name (Sink_Kafka s ≫= KSink_CredentialsSecretRef))).

Lemma elem_of_refNames name ref : name ∈ refNames ref <-> names name ref.
Proof.
  unfold names. destruct ref as [r|]; simpl; [rewrite list_elem_of_singleton|rewrite elem_of_nil]; naive_solver.
Qed.

Lemma refers_allRefs name p : name ∈ allRefs (P_Spec p) <-> refers name p.
Proof.
  unfold allRefs, refers. rewrite list_elem_of_bind.
  assert (Hs : forall s, name ∈ refNames (openSearchSinkRef s) ++ refNames (s3SinkRef s) ++
                 refNames (kafkaSinkRef s) <->
    names name (openSearchSinkRef s) \/ names name (s3SinkRef s) \/ names name (kafkaSinkRef s))
    by (intros s; by rewrite !elem_of_app, !elem_of_refNames).
  split; intros (d & H1 & H2); exists d.
  - rewrite !elem_of_app, !elem_of_refNames, list_elem_of_bind in H1. split; [exact H2|].
    destruct H1 as [H1|[H1|(s & H1%Hs & H3)]]; [by left|by right; left|].
    right; right. exists s. exact (conj H3 H1).
  - rewrite !elem_of_app, !elem_of_refNames, list_elem_of_bind. split; [|exact H1].
    destruct H2 as [H2|[H2|(s & H2 & H3)]]; [by left|by right; left|].
    right; right. exists s. split; [by apply Hs|exact H2].
Qed.

(** A list of pipelines of a namespace that refer to a secret, as requests. *)

Lemma requests_exact ns name (w : W) items :
  NoDup (Meta_Name ∘ P_Meta <$> items) ->
  (forall p, p ∈ items <->
     stored KPipeline (ns, Meta_Name (P_Meta p)) w = Some p /\ name ∈ referencedSecrets (P_Spec p)) ->
  NoDup (requests items) /\
  forall key, key ∈ requests items <->
    key.1 = ns /\ exists p, stored KPipeline key w = Some p /\ refers name p.
Proof.
  intros Hnd Hin.
  assert (Hkey : forall p, p ∈ items -> @key_of KPipeline p = (ns, Meta_Name (P_Meta p))).
  { intros p [Hst _]%Hin. by apply (stored_key KPipeline) in Hst. }
  unfold requests. split.
  - rewrite (list_fmap_ext _ (pair ns ∘ (Meta_Name ∘ P_Meta))).
    + rewrite list_fmap_compose. by apply (NoDup_fmap_2 _).
    + intros i p Hp%list_elem_of_lookup_2. by apply Hkey.
  - intros key. rewrite list_elem_of_fmap. setoid_rewrite <-refers_allRefs.
    setoid_rewrite <-(fun p => proj2 (referencedSecrets_collected (P_Spec p)) name). split.
    + intros (p & -> & Hp). rewrite (Hkey p Hp). split; [done|]. exists p. by apply Hin.
    + intros (Hns & p & Hst & Href). exists p. pose proof (stored_key KPipeline _ _ _ Hst) as Hk.
      split; [done|]. apply Hin. split; [|done]. subst ns key. exact Hst.
Qed.

(** C16: a change of a secret triggers a reconcile of exactly the pipelines whose
    spec names it as credentials: the requests made for it, through the index that
    the operator registers or, if the index cannot be read, through a scan of the
    namespace, are, without repetition, the pipelines of the secret's namespace
    in whose own spec (before the namespace's defaults are merged in) the secret
    is the [credentialsSecretRef] of a Kafka or S3 source or of an OpenSearch, S3
    or Kafka sink; so the two ways agree. One of the two lists must succeed. *)
Theorem secret_watch_exact secret (w : W) :
  let ns := Meta_Namespace (Sec_Meta secret) in
  let name := Meta_Name (Sec_Meta secret) in
  is_ok (ListBySecret ns name w) || is_ok (ListPipelines ns ∅ w) = true ->
  NoDup (secretMapFunc secret w) /\
  forall key, key ∈ secretMapFunc secret w <->
    key.1 = ns /\ exists p, stored KPipeline key w = Some p /\ refers name p.
Proof.
  intros ns name Hok. unfold secretMapFunc, findPipelinesForSecret. fold ns name.
  destruct (ListBySecret ns name w) as [items|] eqn:E.
  - apply ListBySecret_Ok in E as [Hnd Hin]. by apply requests_exact.
  - unfold findPipelinesForSecretUnindexed. destruct (ListPipelines ns ∅ w) as [items|] eqn:El; [|done].
    apply List_Ok in El as [Hnd Hin]. apply requests_exact.
    + eapply sublist_NoDup; [exact Hnd|]. apply fmap_sublist, sublist_filter.
    + intros p. rewrite list_elem_of_filter, Hin. pose proof (map_empty_subseteq (default ∅ (Meta_Labels (P_Meta p)))).
      tauto.
Qed.
End secrets.

(** ** Witnesses *)

Module OperatorExamples.

(** The in-memory server with an index on the secret field. *)
Definition indexed (extract : DataPrepperPipeline -> list string) : Client Mem.World := {|
  stored := Mem.lookup;
  Get := Mem.get;
  ListPipelines := Mem.list_pipelines;
  ListBySecret := fun ns v w =>
    items ← Mem.list_pipelines ns ∅ w; Ok (filter (fun p => v ∈ extract p) items);
  Update := @Update Mem.World _;
  UpdateStatus := @UpdateStatus Mem.World _;
  Delete := @Delete Mem.World _;
  CreateOrUpdate := @CreateOrUpdate Mem.World _;
  RetryOnConflict := @RetryOnConflict Mem.World _;
  IsNotFound := @IsNotFound Mem.World _;
  IsConflict := @IsConflict Mem.World _;
  SetControllerReference := @SetControllerReference Mem.World _;
  AddFinalizer := @AddFinalizer Mem.World _;
  RemoveFinalizer := @RemoveFinalizer Mem.World _;
  SetStatusCondition := @SetStatusCondition Mem.World _;
  FindStatusCondition := @FindStatusCondition Mem.World _ |}.

(** The index changes none of the other operations. *)
Lemma indexed_laws extract : @ClientLaws Mem.World (indexed extract).
Proof.
  pose (c := Mem.mem_client). pose (l := Mem.mem_laws).
  exact (@Build_ClientLaws Mem.World (indexed extract)
    (@stored_key _ c l) (@Get_Ok _ c l) (@Get_NotFound _ c l) (@List_Ok _ c l) (@Update_Ok _ c l)
    (@Update_frame _ c l) (@Update_Conflict _ c l) (@UpdateStatus_Ok _ c l)
    (@UpdateStatus_frame _ c l) (@Delete_Ok _ c l) (@Delete_frame _ c l)
    (@CreateOrUpdate_Ok _ c l) (@CreateOrUpdate_frame _ c l) (@RetryOnConflict_retries _ c l)
    (@SetControllerReference_Ok _ c l) (@elem_of_AddFinalizer _ c l)
    (@elem_of_RemoveFinalizer _ c l) (@Find_Set_eq _ c l) (@Find_Set_ne _ c l)).
Qed.

Lemma indexed_index extract : @FieldIndex Mem.World (indexed extract) extract.
Proof.
  intros ns v w l. unfold ListBySecret, indexed. destruct (Mem.list_pipelines ns ∅ w) as [items|] eqn:E; [|done].
  simpl. intros [= <-]. apply Mem.list_pipelines_spec in E as [Hnd Hin]. split.
  - eapply sublist_NoDup; [exact Hnd|]. apply fmap_sublist, sublist_filter.
  - intros p. rewrite list_elem_of_filter, Hin.
    pose proof (map_empty_subseteq (default ∅ (Meta_Labels (P_Meta p)))). simpl. tauto.
Qed.

(** A pipeline whose Kafka source uses the secret [creds], beside one without. *)
Definition kafka_pipeline : DataPrepperPipeline :=
  mkDataPrepperPipeline (bare_meta ("prod", "topics"))
    (mkDataPrepperPipelineSpec "data-prepper:2" ""
       [mkPipelineDefinition "entry" 0 0
          (of_SourceView (VKafka (mkKafkaSourceSpec ["kafka:9092"] "t" "g"
             (Some (mkSecretReference "creds" "")) ∅ "")))
          None [] [] []]
       None None None None ∅ ∅ ∅ [] None None None "")
    zero_PipelineStatus.
Definition two_pipelines : Mem.World :=
  Mem.put KPipeline ("prod", "topics") (Some kafka_pipeline)
    (Mem.put KPipeline ("prod", "logs") (Some example_pipeline) Mem.empty).
Definition creds : Secret := mkSecret (bare_meta ("prod", "creds")) ∅.

Lemma secret_watch_exact_witness :
  let requests := @secretMapFunc Mem.World (indexed secretRefIndex) creds two_pipelines in
  ("prod", "topics") ∈ requests /\ requests = [("prod", "topics")].
Proof.
  cbv zeta. split; [|vm_compute; reflexivity].
  refine (proj2 (proj2 (@secret_watch_exact Mem.World (indexed secretRefIndex)
    (indexed_laws secretRefIndex) (indexed_index secretRefIndex) creds two_pipelines _)
    ("prod", "topics")) _).
  - vm_compute. reflexivity.
  - split; [reflexivity|]. exists kafka_pipeline. split; [vm_compute; reflexivity|].
    eexists. split; [left|]. left. reflexivity.
Defined.

(** A manager that accepts everything. *)
Definition accepts : list (Call Mem.World) -> Call Mem.World -> option error := fun _ _ => None.

Lemma servers_hardened_witness :
  NextProtos (apply_tls (MO_TLSOpts (Opt_Metrics (managerOptions default_flags)))
                (mkTLSConfig ["h2"; "http/1.1"])) = ["http/1.1"].
Proof.
  refine (proj2 (proj1 (servers_hardened constant_libraries accepts (mkRestConfig (S754_zero false) 0) default_flags
    (mkRestConfig (S754_zero false) 0) (managerOptions default_flags) _) (mkTLSConfig ["h2"; "http/1.1"]))).
  right. left.
Defined.

(** A reconcile of the pipeline controller leaves the secrets alone. *)
Lemma controllers_watch_what_they_write_witness :
  let c := pipelineController constant_libraries true 1 in
  KSecret ∉ watched c /\
  stored KSecret ("prod", "creds") (world (snd (Ctl_Reconcile c ("prod", "logs")
    (mkSt (Mem.put KSecret ("prod", "creds") (Some creds) two_pipelines) [])))) = Some creds.
Proof.
  intros c. assert (Hk : KSecret ∉ watched c).
  { repeat (apply not_elem_of_cons; split; [discriminate|]). apply not_elem_of_nil. }
  split; [exact Hk|].
  etrans; [exact (proj1 (controllers_watch_what_they_write constant_libraries true 1 ("prod", "logs")
    (mkSt (Mem.put KSecret ("prod", "creds") (Some creds) two_pipelines) []) KSecret
    ("prod", "creds")) Hk)|].
  vm_compute. reflexivity.
Defined.
End OperatorExamples.
